(* ===== verification/_CoqProject ===== *)
-Q . S2P
Prelude.v
Bytes.v
Chunks.v
Exec.v
Oldest.v
Net.v
IpAddr.v
Errors.v
Codec.v
Replay.v
Crypto.v
Envelope.v
WireSession.v
Scheduler.v
Dataplane.v
PacketPolicy.v
Reassembly.v
HandshakeMsg.v
HandshakeFrag.v
HandshakeClient.v
HandshakeServer.v
HandshakeSafety.v
HandshakeClientOk.v
HandshakeRun.v
SessionCommon.v
ServerManager.v
ClientManager.v
Drivers.v
Relay.v
TunDriver.v
Forward.v
FailGateOk.v
ServerManagerOk.v
ClientManagerOk.v
ClientManagerSafe.v
Conform.v
DriversOk.v
TunDriverOk.v
Channel.v
TunDelivery.v
ForwardOk.v
Files.v
Identity.v
Setup.v
IdentityOk.v
SetupOk.v
RelayDelivery.v
Udp.v
OsNet.v
Ledger.v
Proxy.v
Shape.v
ConformRun.v
CoverClock.v
TunDevice.v
Process.v
Float64.v
Bench.v
