(* ===== verification/Prelude.v ===== *)
(** * pq-tunnel: a verification development

    pq-tunnel carries IP packets or UDP datagrams between a client and a server
    in fixed-size encrypted datagrams, after a post-quantum hybrid handshake.
    This library models its Rust sources as Rocq functions and proves what the
    parts promise each other and what the whole promises its users.

    ** The program and the files that model it

    Everything the two ends exchange is a 1280-byte datagram. From the bottom up:

    - [Codec] ([pq-tunnel-core/src/codec.rs]): header, inner plaintext and wire
      packet. [Errors] ([error.rs] of both crates).
    - [Crypto] ([pq-crypto/src/]): the wrappers of the primitives: key schedule,
      AEAD, KEM, signatures, X25519, transcript.
    - [Replay] ([replay.rs]): the 1024-bit replay window.
    - [Envelope] ([nonce.rs], [envelope.rs]): encryption under a strictly
      increasing counter, decryption behind the window.
    - [WireSession] ([state.rs], [wire_session.rs], [metrics.rs]) and
      [Scheduler] ([scheduler.rs]): the life cycle of a session, cover timing.
    - [Dataplane], [Reassembly] ([dataplane.rs]): fragmentation of inner packets,
      CRC-32 and the bounded reassembler.
    - [HandshakeMsg], [HandshakeFrag] (framing, messages, transcript),
      [HandshakeClient], [HandshakeServer] (the two machines) of
      [handshake_v2.rs]; their theorems in [HandshakeSafety],
      [HandshakeClientOk] and [HandshakeRun].
    - [SessionCommon], [ServerManager], [ClientManager] and [Drivers]
      ([session_manager.rs]): limits and failure gate, the managers of
      established sessions, and the [select!] loops that run them; their theorems
      in [FailGateOk], [ServerManagerOk], [ClientManagerOk], [ClientManagerSafe],
      [DriversOk]. [Channel] states what two managers that hold the ends of one
      session give to the layers above. [Ledger] accounts for the notifications.
      [CoverClock] is the Windows timer behind the cover arm.
    - [Udp] ([udp.rs]): the socket, and the drivers on top of it.
    - [Conform], [ConformRun]: the wire format of everything the machines, the
      managers and the drivers send; [Shape]: what an observer of the wire sees of
      it.
    - [PacketPolicy] ([pq-tunnel-bin/src/packet_len.rs], [tun/mod.rs],
      [tun_policy.rs]): which inner packets may pass.
    - [Relay] ([relay.rs]), [Forward], [ForwardOk] ([forward.rs]): the two ends
      of relay mode; [RelayDelivery] composes them over the drivers.
    - [TunDriver], [TunDriverOk], [TunDelivery] ([tun/server.rs],
      [tun/client.rs]): TUN mode; [OsNet] ([tun/os_net.rs] and the set-up
      functions): the commands that configure the host; [TunDevice]
      ([tun/device.rs]): reads from the device and the reader thread.
    - [Files], [Identity], [IdentityOk] ([identity.rs], [keygen.rs]): key files,
      roster and provisioning.
    - [Setup], [SetupOk] ([lib.rs], [v2_server.rs], [v2_client.rs]): start-up of
      the four modes and the server's application task; [Process]: what the
      processes wait for and return.
    - [Proxy] ([pq-proxy/src/]): the parked SOCKS5 front end.
    - [Bench] ([bench/src/]): statistics and measuring of the benchmark harness,
      over the double-precision arithmetic of [Float64].

    Shared: this file; [Bytes] (byte strings, big-endian integers, slices);
    [Chunks] (cutting a message and writing it back); [Exec] (the monad of
    stateful, fallible, panicking code and its weakest preconditions); [Oldest]
    (maps that evict their oldest entry); [Net], [IpAddr] (addresses).

    ** How code is modelled

    A pure function is a Rocq function. A [&mut self] method is a function that
    returns its result with the state afterwards; where it can reach an [expect]
    or an index out of range it is a computation of [Exec.M], and a panic is an
    outcome that the theorems exclude. A [select!] loop is a fold over turns, a
    turn being the arm that fired with what it received; sends, device writes and
    notifications go to a log. Clock readings and random draws are arguments
    ([Draws], [ClientDraws]), so that a theorem holds for every clock and every
    generator. Integers are [Z] with the width of the source's type written out;
    lengths used as indices are [nat]. A [HashMap] is a [gmap]; where its
    iteration order matters it is an argument with one law ([Oldest.IterOrder]).

    ** What the theorems show

    - Handshake: an honest run over a network that reorders and duplicates
      fragments completes with equal keys at both ends; an M3 is only sent to the
      pinned server and a completion is only reported for a client on the roster,
      once; the machines never panic and never fail on network input; framing
      round trips.
    - Envelope: replay protection refines a detector that remembers every
      counter; no two calls into the AEAD are given the same nonce; what is sealed at one end opens at the other,
      once, in any order within the window; every decryption outcome is
      classified.
    - Managers and drivers: invariants under every sequence of calls, absence of
      panics, bounded tables, authenticity of everything delivered, detection of
      a dead peer, re-handshake after a loss, notifications that balance; a driver
      ends only when the application closes its side, on an error that a send, a
      receive, the application channel or the random source returned to it, or,
      for a client, on a session out of nonces.
    - Traffic shape: a slot of the client's cover schedule looks the same whether
      it carries a payload, a probe or cover; the envelope hides what it carries;
      every datagram sent parses, at the receiver, as the kind of datagram it is;
      when the Windows cover clock is due, against the schedule and its readings
      of two clocks, and that late wakes never bring slots closer together.
    - End to end: a framed datagram given to the relay reaches its destination
      and its reply reaches the application that asked; an inner packet read from
      one TUN device is written to the other unchanged.
    - Confinement: what the server writes to its device or sends from its pool
      obeys policies that are characterised exactly as lists of prefixes.
    - Provisioning: saved keys load back and two provisioned ends match; a roster
      fails closed; generation replaces nothing without [--force]; host routes
      divert traffic only after the bypass for the server is in place; a server
      process that started ends only with its command channel or an error that
      its environment returned to it.
    - Harness: the percentiles it reports, computed in floating point, are the
      samples at the exact nearest rank.
    - Behaviour that departs from the documentation is proved where a theorem
      can say it (for instance [TunDriverOk.tun_client_never_retries],
      [ForwardOk.dead_reader_keeps_entry], [OsNet.install_leaves_partial_setup],
      [HandshakeSafety.m1_stuck_until_expiry], [Proxy.handle_client_panic_exact],
      [CoverClock.cover_clock_stalls], [Process.client_waits_for_application],
      [Bench.steady_tick_count]).

    ** Assumptions

    The primitives are third-party crates: [Crypto.Primitives] lists the functions
    the wrappers call and [Crypto.PrimitivesLaws] the facts used of them (output
    lengths, decryption of what was encrypted, decapsulation of what was
    encapsulated, verification of an honest signature, commutation of X25519);
    [IdentityOk.SeedLaws] adds that a seed restores its signing key. Secrecy and
    unforgeability are not among them: an authenticity theorem says which
    verification succeeded, under which key, over which bytes.
    [Crypto.Toy] satisfies the laws and is the instance the witnesses run on.

    ** Bounds and fuel

    Most recursion is structural: on bytes, fragments, turns or calls. Fuel is
    used by [Oldest.evict_over] and [Forward.evict_session] (the size of the
    map: every round removes an entry, and the lemmas show that the loop ends
    within its cap), by [Proxy.from_utf8_lossy] (the length: every round consumes
    a byte) and by [SessionCommon.frac_digits] (the ten places a [Duration] has).
    [Bench.stats_nearest_rank] is about series of fewer than 2^40 samples, where the
    rounding of a rank is far below the distance to the next integer.

    ** Not modelled

    The tokio runtime, real time and sleeping (of the Windows timer only when it
    is due, not when the system wakes its thread); the kernel's sockets beyond the
    results they return; the creation of the TUN device, and its writes, which are
    log entries; the effect of shell commands on the host; the
    [clap] parser, logging and the statistics printer; zeroization and [Debug]
    redaction, which do not change values; the counters kept for tests;
    [random_nonce], which nothing calls; known-answer vectors, fuzz targets and
    tests; of the harness its command line, tables, derived figures and the
    measurements that only call a primitive; links, permissions and durability of
    files.

    This file itself holds the result monad, machine integers, the automation
    ([simplify_res], [split_matches], the hint databases) and generic lemmas. *)

From stdpp Require Export prelude list gmap.
From Stdlib Require Export ZArith Lia ZifyBool ZifyNat.

(** ** Results

    Rust's [Result<A, E>]; the error type comes first so that [result E] is a
    monad for the [?] operator. *)

Inductive result (E A : Type) : Type :=
| Ok (a : A)
| Err (e : E).

Arguments Ok {E A} a.
Arguments Err {E A} e.

Global Instance result_ret {E} : MRet (result E) := fun A a => Ok a.

Global Instance result_bind {E} : MBind (result E) :=
  fun A B f r => match r with Ok a => f a | Err e => Err e end.

Global Instance result_fmap {E} : FMap (result E) :=
  fun A B f r => match r with Ok a => Ok (f a) | Err e => Err e end.

(** [Result::map_err]. *)
Definition map_err {E F A} (f : E -> F) (r : result E A) : result F A :=
  match r with Ok a => Ok a | Err e => Err (f e) end.

(** [Option::ok_or]. *)
Definition ok_or {E A} (o : option A) (e : E) : result E A :=
  match o with Some a => Ok a | None => Err e end.

(** [Result::is_ok]. *)
Definition is_ok {E A} (r : result E A) : bool :=
  match r with Ok _ => true | Err _ => false end.

(** ** Machine integers

    A [w]-bit unsigned integer is a [Z] in [0, 2^w). The functions below are
    the operations of Rust's integer types that the sources use. *)

Local Open Scope Z_scope.

Definition umax (w : Z) : Z := 2 ^ w - 1.
Definition in_range (w x : Z) : Prop := 0 <= x < 2 ^ w.
Definition wrap (w x : Z) : Z := x mod 2 ^ w.
Definition wrapping_sub (w a b : Z) : Z := wrap w (a - b).
Definition saturating_add (w a b : Z) : Z := Z.min (umax w) (a + b).
Definition saturating_sub (a b : Z) : Z := Z.max 0 (a - b).
Definition saturating_mul (w a b : Z) : Z := Z.min (umax w) (a * b).
Definition checked_add (w a b : Z) : option Z :=
  if a + b <=? umax w then Some (a + b) else None.
Definition checked_mul (w a b : Z) : option Z :=
  if a * b <=? umax w then Some (a * b) else None.

(** ** Time

    [Instant]s and [Duration]s are nanoseconds on a monotonic time line.
    [Instant::duration_since] saturates to zero, as in Rust since 1.60. *)

Abbreviation Instant := Z (only parsing).
Abbreviation Duration := Z (only parsing).
Definition duration_since (later earlier : Instant) : Duration :=
  Z.max 0 (later - earlier).
Definition from_secs (s : Z) : Duration := s * 1000000000.
Definition from_millis (s : Z) : Duration := s * 1000000.

(** ** Loops

    [for i in lo..hi { s = f i s }] and the same range reversed. *)

Fixpoint for_range_n {S} (f : nat -> S -> S) (lo n : nat) (s : S) : S :=
  match n with
  | O => s
  | Datatypes.S n' => for_range_n f (Datatypes.S lo) n' (f lo s)
  end.

Fixpoint for_rev_n {S} (f : nat -> S -> S) (lo n : nat) (s : S) : S :=
  match n with
  | O => s
  | Datatypes.S n' => for_rev_n f lo n' (f (lo + n')%nat s)
  end.

Definition for_range {S} (lo hi : nat) (f : nat -> S -> S) (s : S) : S :=
  for_range_n f lo (hi - lo) s.

Definition for_rev {S} (lo hi : nat) (f : nat -> S -> S) (s : S) : S :=
  for_rev_n f lo (hi - lo) s.

(** ** Automation *)

Create HintDb tunnel discriminated.
Create Rewrite HintDb tunnel_len.

(** Split every [result] bind and boolean test of a hypothesis. *)
Ltac simplify_res :=
  repeat match goal with
  | H : Ok _ = Ok _ |- _ => injection H as H; subst
  | H : Err _ = Err _ |- _ => injection H as H; subst
  | H : Ok _ = Err _ |- _ => discriminate H
  | H : Err _ = Ok _ |- _ => discriminate H
  | H : Some _ = Some _ |- _ => injection H as H; subst
  | H : (_, _) = (_, _) |- _ => injection H as H; subst
  | H : negb _ = true |- _ => apply negb_true_iff in H
  | H : negb _ = false |- _ => apply negb_false_iff in H
  | H : (_ && _)%bool = true |- _ => apply andb_true_iff in H; destruct H
  | H : (_ || _)%bool = false |- _ => apply orb_false_iff in H; destruct H
  end.

(** Case analysis on the scrutinee of every [match] in the context. *)
Ltac split_matches := repeat (case_match; simplify_res; try done).

(** ** Generic lemmas *)

Lemma bind_ok {E A B} (r : result E A) (f : A -> result E B) b :
  (r ≫= f) = Ok b -> exists a, r = Ok a /\ f a = Ok b.
Proof. destruct r; simpl; [eauto | done]. Qed.

Lemma is_ok_unit {E} (r : result E ()) : is_ok r = true -> r = Ok ().
Proof. by destruct r as [[]|]. Qed.

Lemma omap_cons_Some {A B} (f : A -> option B) x l y :
  f x = Some y -> omap f (x :: l) = y :: omap f l.
Proof. simpl. by intros ->. Qed.

Lemma duration_since_nonneg a b : 0 <= duration_since a b.
Proof. unfold duration_since; lia. Qed.

Lemma duration_since_mono a b c : a <= b -> duration_since a c <= duration_since b c.
Proof. unfold duration_since; lia. Qed.

Lemma wrap_small w x : in_range w x -> wrap w x = x.
Proof. intros H; apply Z.mod_small, H. Qed.

Lemma wrap_range w x : 0 <= w -> in_range w (wrap w x).
Proof. intros H; apply Z.mod_pos_bound, Z.pow_pos_nonneg; lia. Qed.

#[export] Hint Resolve duration_since_nonneg duration_since_mono wrap_range : tunnel.

(** An ascending loop that only overwrites its own index. *)
Lemma lookup_for_range (f : nat -> Z) lo hi (l : list Z) j :
  (hi <= length l)%nat ->
  for_range lo hi (fun i l => <[i := f i]> l) l !!! j =
    if bool_decide (lo <= j < hi)%nat then f j else l !!! j.
Proof.
  unfold for_range. intros H.
  remember (hi - lo)%nat as n eqn:En. revert lo l H En.
  induction n as [|n IH]; intros lo l H En; simpl.
  - by rewrite bool_decide_false by lia.
  - rewrite IH; [|by rewrite length_insert|lia].
    repeat case_bool_decide; try done; try lia.
    + assert (j = lo) as -> by lia. by rewrite list_lookup_total_insert_eq by lia.
    + by rewrite list_lookup_total_insert_ne by lia.
Qed.

(** A descending loop whose body at [i] writes index [i] from entries at or
    below [i] sees only original entries. *)
Lemma lookup_for_rev (f : list Z -> nat -> Z) lo hi (l : list Z) j :
  (forall i l1 l2, (forall k, (k <= i)%nat -> (l1 : list Z) !!! k = l2 !!! k) -> f l1 i = f l2 i) ->
  (hi <= length l)%nat ->
  for_rev lo hi (fun i l => <[i := f l i]> l) l !!! j =
    if bool_decide (lo <= j < hi)%nat then f l j else l !!! j.
Proof.
  unfold for_rev. intros Hf H.
  assert (hi <= length l)%nat as Hh by done. clear H.
  assert (forall n l, (lo + n <= length l)%nat ->
    for_rev_n (fun i l => <[i := f l i]> l) lo n l !!! j =
    if bool_decide (lo <= j < lo + n)%nat then f l j else l !!! j) as Hn.
  { clear l Hh. induction n as [|n IH]; intros l Hl; simpl.
    - by rewrite bool_decide_false by lia.
    - rewrite IH by (rewrite length_insert; lia).
      repeat case_bool_decide; try lia.
      + apply Hf. intros k Hk. by rewrite list_lookup_total_insert_ne by lia.
      + assert (j = lo + n)%nat as -> by lia. by rewrite list_lookup_total_insert_eq by lia.
      + by rewrite list_lookup_total_insert_ne by lia. }
  destruct (decide (lo <= hi)%nat).
  - rewrite Hn by lia. by replace (lo + (hi - lo))%nat with hi by lia.
  - replace (hi - lo)%nat with 0%nat by lia. simpl. by rewrite bool_decide_false by lia.
Qed.

Lemma length_for_range_insert (g : list Z -> nat -> Z) lo hi (l : list Z) :
  length (for_range lo hi (fun i l => <[i := g l i]> l) l) = length l.
Proof.
  unfold for_range. generalize (hi - lo)%nat as n. intros n. revert lo l.
  induction n as [|n IH]; intros lo l; simpl; [done|]. by rewrite IH, length_insert.
Qed.

Lemma length_for_rev_insert (g : list Z -> nat -> Z) lo hi (l : list Z) :
  length (for_rev lo hi (fun i l => <[i := g l i]> l) l) = length l.
Proof.
  unfold for_rev. generalize (hi - lo)%nat as n. intros n. revert l.
  induction n as [|n IH]; intros l; simpl; [done|]. by rewrite IH, length_insert.
Qed.

Lemma lxor_range w a b : 0 < w -> in_range w a -> in_range w b -> in_range w (Z.lxor a b).
Proof.
  unfold in_range. intros Hw Ha Hb.
  assert (0 <= Z.lxor a b) by (apply Z.lxor_nonneg; lia). split; [done|].
  destruct (decide (Z.lxor a b = 0)) as [->|]; [lia|].
  apply Z.log2_lt_pow2; [lia|].
  pose proof (Z.log2_lxor a b ltac:(lia) ltac:(lia)) as Hle.
  assert (forall x, 0 <= x < 2 ^ w -> Z.log2 x < w \/ x = 0) as Hlog.
  { intros x Hx. destruct (decide (x = 0)); [by right|]. left. apply Z.log2_lt_pow2; lia. }
  assert (Z.log2 0 < w) by (simpl; lia).
  destruct (Hlog a Ha) as [? | ->], (Hlog b Hb) as [? | ->]; lia.
Qed.

Lemma filter_same_length {A} (f : A -> Prop) `{!forall x, Decision (f x)} (l : list A) :
  length (filter f l) = length l -> filter f l = l.
Proof.
  induction l as [|x l IH]; [done|]. rewrite filter_cons. pose proof (length_filter f l).
  case_decide; cbn [length]; [|lia]. intros [= H']. by rewrite IH.
Qed.

(** ** Finite sets of indices *)

Lemma elem_of_add (i x : nat) (q : gset nat) : x ∈ ({[ i ]} ∪ q : gset nat) <-> x = i \/ x ∈ q.
Proof. by rewrite elem_of_union, elem_of_singleton. Qed.

Lemma size_add (i : nat) (q : gset nat) : i ∉ q -> size ({[ i ]} ∪ q : gset nat) = S (size q).
Proof. intros H. rewrite size_union, size_singleton; [done|set_solver]. Qed.

Lemma full_set n (q : gset nat) :
  (forall i, i ∈ q -> (i < n)%nat) -> (n <= size q)%nat -> forall i, (i < n)%nat -> i ∈ q.
Proof.
  intros Hq Hs i Hi. assert (q = set_seq 0 n) as ->; [|apply elem_of_set_seq; lia].
  apply set_subseteq_size_eq; [|by rewrite size_set_seq].
  intros j Hj. apply elem_of_set_seq. specialize (Hq j Hj). lia.
Qed.

Lemma size_below n (q : gset nat) i :
  (forall j, j ∈ q -> (j < n)%nat) -> (i < n)%nat -> i ∉ q -> (size q < n)%nat.
Proof.
  intros Hq Hi Hn. destruct (decide (n <= size q)%nat) as [H|]; [|lia].
  destruct Hn. by apply (full_set n).
Qed.
