(* ===== verification/Bytes.v ===== *)
(** * Bytes and byte buffers

    [u8] values, big-endian integers ([to_be_bytes] / [from_be_bytes]), slices
    of a buffer and writes into a buffer, with the lemmas the codecs share.
    A byte is a constructor of [Byte.byte], so every list of bytes is a valid
    Rust byte slice; only its length needs a hypothesis. *)

From S2P Require Import Prelude.
From Stdlib Require Export Strings.Byte.

Local Open Scope Z_scope.

Abbreviation byte := Byte.byte.
Abbreviation bytes := (list Byte.byte).

(** [b as u64] and [z as u8] (truncating). *)
Definition b2z (b : byte) : Z := Z.of_N (Byte.to_N b).
Definition z2b (z : Z) : byte :=
  match Byte.of_N (Z.to_N (z mod 256)) with Some b => b | None => x00 end.

Global Instance byte_eq_dec : EqDecision byte := Byte.byte_eq_dec.

Global Instance byte_countable : Countable byte :=
  inj_countable Byte.to_N Byte.of_N Byte.of_to_N.

(** [&buf[a..b]]. *)
Definition slice (a b : nat) (l : bytes) : bytes := take (b - a) (drop a l).

(** [buf[off..off + src.len()].copy_from_slice(src)]. *)
Definition write_at (off : nat) (src buf : bytes) : bytes :=
  take off buf ++ src ++ drop (off + length src) buf.

(** [[0u8; n]]. *)
Definition zeros (n : nat) : bytes := replicate n x00.

(** [buf[i]] for an index the code has already checked. *)
Definition byte_at (i : nat) (l : bytes) : byte := default x00 (l !! i).

(** [x.to_be_bytes()] for an [n]-byte unsigned integer. *)
Fixpoint be_bytes (n : nat) (x : Z) : bytes :=
  match n with
  | O => []
  | S k => z2b (Z.shiftr x (8 * Z.of_nat k)) :: be_bytes k x
  end.

(** [uN::from_be_bytes(l)]. *)
Definition be_val (l : bytes) : Z :=
  fold_left (fun acc b => acc * 256 + b2z b) l 0.

(** ** Bytes *)

Lemma b2z_range b : 0 <= b2z b < 256.
Proof.
  unfold b2z. pose proof (Byte.to_N_bounded b). lia.
Qed.

Lemma z2b_b2z b : z2b (b2z b) = b.
Proof.
  unfold z2b. rewrite Z.mod_small by apply b2z_range.
  unfold b2z. rewrite N2Z.id, Byte.of_to_N. done.
Qed.

Lemma b2z_z2b z : b2z (z2b z) = z mod 256.
Proof.
  unfold z2b, b2z.
  pose proof (Z.mod_pos_bound z 256 eq_refl) as Hz.
  destruct (Byte.of_N (Z.to_N (z mod 256))) as [b|] eqn:E.
  - apply Byte.to_of_N in E. rewrite E. lia.
  - apply Byte.of_N_None_iff in E. lia.
Qed.

Lemma b2z_inj b c : b2z b = b2z c -> b = c.
Proof. intros H. rewrite <- (z2b_b2z b), <- (z2b_b2z c). by rewrite H. Qed.

Lemma b2z_z2b_small z : 0 <= z < 256 -> b2z (z2b z) = z.
Proof. intros H. rewrite b2z_z2b. by apply Z.mod_small. Qed.

(** ** Lengths *)

Lemma length_be_bytes n x : length (be_bytes n x) = n.
Proof. induction n; simpl; congruence. Qed.

Lemma length_zeros n : length (zeros n) = n.
Proof. apply length_replicate. Qed.

Lemma length_write_at off src buf :
  (off + length src <= length buf)%nat ->
  length (write_at off src buf) = length buf.
Proof.
  intros H. unfold write_at.
  rewrite !length_app, length_take, length_drop. lia.
Qed.

Lemma length_slice a b l :
  (a <= b)%nat -> (b <= length l)%nat -> length (slice a b l) = (b - a)%nat.
Proof. intros. unfold slice. rewrite length_take, length_drop. lia. Qed.

#[export] Hint Rewrite length_be_bytes length_zeros @length_app @length_take
  @length_drop @length_cons @length_nil @length_replicate : tunnel_len.
#[export] Hint Rewrite length_slice length_write_at using lia : tunnel_len.

(** Compute list lengths, then linear arithmetic. *)
Ltac len := autorewrite with tunnel_len in *; simpl length in *; lia.

(** ** Big-endian integers *)

Lemma be_val_app l1 l2 :
  be_val (l1 ++ l2) = be_val l1 * 256 ^ Z.of_nat (length l2) + be_val l2.
Proof.
  unfold be_val. rewrite fold_left_app.
  generalize (fold_left (fun acc b => acc * 256 + b2z b) l1 0).
  induction l2 as [|b l2 IH] using rev_ind; intros z; simpl; [lia|].
  rewrite !fold_left_app. simpl. rewrite IH, length_app, Nat2Z.inj_add.
  simpl. rewrite Z.pow_add_r by lia. lia.
Qed.

Lemma be_val_cons b l : be_val (b :: l) = b2z b * 256 ^ Z.of_nat (length l) + be_val l.
Proof. apply (be_val_app [b] l). Qed.

Lemma be_val_range l : 0 <= be_val l < 256 ^ Z.of_nat (length l).
Proof.
  induction l as [|b l IH]; [done|].
  rewrite be_val_cons. pose proof (b2z_range b).
  simpl length. rewrite Nat2Z.inj_succ, Z.pow_succ_r by lia. nia.
Qed.

Lemma be_bytes_cons_val n b x :
  0 <= x < 256 ^ Z.of_nat n ->
  be_bytes (S n) (b2z b * 256 ^ Z.of_nat n + x) = b :: be_bytes n (b2z b * 256 ^ Z.of_nat n + x).
Proof.
  intros Hx. simpl. f_equal.
  rewrite Z.shiftr_div_pow2 by lia.
  change 256 with (2 ^ 8) in *. rewrite <- !Z.pow_mul_r in * by lia.
  rewrite Z.div_add_l by lia. rewrite Z.div_small by lia.
  rewrite Z.add_0_r. apply z2b_b2z.
Qed.

Lemma be_bytes_mod n x : be_bytes n (x mod 256 ^ Z.of_nat n) = be_bytes n x.
Proof.
  change 256 with (2 ^ 8). rewrite <- Z.pow_mul_r by lia.
  enough (forall k, (k <= n)%nat ->
    be_bytes k (x mod 2 ^ (8 * Z.of_nat n)) = be_bytes k x) as H by auto.
  intros k. induction k as [|k IH]; intros Hk; [done|].
  simpl. rewrite IH by lia. f_equal.
  apply b2z_inj. rewrite !b2z_z2b.
  change 256 with (2 ^ 8). rewrite <- !Z.land_ones by lia.
  apply Z.bits_inj'. intros i Hi.
  rewrite !Z.land_spec, !Z.shiftr_spec, !Z.land_spec by lia.
  rewrite !Z.testbit_ones_nonneg by lia.
  destruct (Z.ltb_spec i 8); [|by rewrite !andb_false_r].
  replace (i + 8 * Z.of_nat k <? 8 * Z.of_nat n) with true by lia.
  by rewrite andb_true_r.
Qed.

Lemma be_val_be_bytes n x : be_val (be_bytes n x) = x mod 256 ^ Z.of_nat n.
Proof.
  revert x. induction n as [|n IH]; intros x; [by rewrite Z.mod_1_r|].
  simpl be_bytes. rewrite be_val_cons, length_be_bytes, IH, b2z_z2b.
  rewrite Z.shiftr_div_pow2, Nat2Z.inj_succ, Z.pow_succ_r by lia.
  rewrite (Z.pow_mul_r 2 8) by lia. change (2 ^ 8) with 256.
  rewrite (Z.mul_comm 256), Z.rem_mul_r by (try apply Z.pow_nonzero; lia).
  lia.
Qed.

Lemma be_val_be_bytes_small n x :
  0 <= x < 256 ^ Z.of_nat n -> be_val (be_bytes n x) = x.
Proof. intros H. rewrite be_val_be_bytes. by apply Z.mod_small. Qed.

Lemma be_bytes_be_val l : be_bytes (length l) (be_val l) = l.
Proof.
  induction l as [|b l IH]; [done|].
  rewrite be_val_cons. simpl length.
  rewrite be_bytes_cons_val by apply be_val_range. f_equal.
  rewrite <- be_bytes_mod.
  rewrite Z.add_comm, Z.mod_add by (apply Z.pow_nonzero; lia).
  by rewrite Z.mod_small by apply be_val_range.
Qed.

Lemma be_bytes_inj n x y :
  0 <= x < 256 ^ Z.of_nat n -> 0 <= y < 256 ^ Z.of_nat n ->
  be_bytes n x = be_bytes n y -> x = y.
Proof.
  intros Hx Hy E. rewrite <- (be_val_be_bytes_small n x Hx), E.
  by apply be_val_be_bytes_small.
Qed.

(** ** Slices and writes *)

Lemma slice_all l : slice 0 (length l) l = l.
Proof. unfold slice. rewrite drop_0, Nat.sub_0_r. apply firstn_all. Qed.

Lemma slice_app_l a b l1 l2 :
  (b <= length l1)%nat -> slice a b (l1 ++ l2) = slice a b l1.
Proof.
  intros H. unfold slice. destruct (decide (a <= length l1)%nat).
  - rewrite drop_app_le by lia. rewrite take_app_le; [done|]. rewrite length_drop; lia.
  - replace (b - a)%nat with 0%nat by lia. done.
Qed.

Lemma slice_app_r a b l1 l2 :
  (length l1 <= a)%nat ->
  slice a b (l1 ++ l2) = slice (a - length l1) (b - length l1) l2.
Proof.
  intros H. unfold slice. rewrite drop_app_ge by lia.
  f_equal. lia.
Qed.

Lemma slice_exact l1 l2 l3 a b :
  a = length l1 -> b = (length l1 + length l2)%nat ->
  slice a b (l1 ++ l2 ++ l3) = l2.
Proof.
  intros -> ->. rewrite slice_app_r by lia. rewrite slice_app_l by lia.
  rewrite Nat.sub_diag. replace (length l1 + length l2 - length l1)%nat with (length l2) by lia.
  apply slice_all.
Qed.

Lemma write_at_replace l1 l2 l3 src off :
  off = length l1 -> length src = length l2 ->
  write_at off src (l1 ++ l2 ++ l3) = l1 ++ src ++ l3.
Proof.
  intros -> Hl. unfold write_at. rewrite take_app_length.
  do 2 f_equal. rewrite app_assoc, drop_app_ge; rewrite length_app, Hl; [|lia].
  by rewrite Nat.sub_diag.
Qed.

(** Writing at the front of a buffer whose prefix is already filled. *)
Lemma write_at_zeros pre n src off :
  off = length pre -> (length src <= n)%nat ->
  write_at off src (pre ++ zeros n) = (pre ++ src) ++ zeros (n - length src).
Proof.
  intros -> H. unfold write_at. rewrite take_app_length, <- app_assoc.
  do 2 f_equal. rewrite drop_app_ge by lia.
  unfold zeros. rewrite drop_replicate. f_equal. lia.
Qed.

Lemma write_at_zeros_0 n src :
  (length src <= n)%nat ->
  write_at 0 src (zeros n) = src ++ zeros (n - length src).
Proof. apply (write_at_zeros [] n src 0 eq_refl). Qed.

Lemma zeros_0 : zeros 0 = [].
Proof. done. Qed.

Lemma byte_at_app_l i l1 l2 :
  (i < length l1)%nat -> byte_at i (l1 ++ l2) = byte_at i l1.
Proof. intros. unfold byte_at. by rewrite lookup_app_l. Qed.

Lemma byte_at_app_r i l1 l2 :
  (length l1 <= i)%nat -> byte_at i (l1 ++ l2) = byte_at (i - length l1) l2.
Proof. intros. unfold byte_at. by rewrite lookup_app_r. Qed.

Lemma slice_write_at_same off src buf :
  (off + length src <= length buf)%nat ->
  slice off (off + length src) (write_at off src buf) = src.
Proof. intros H. apply slice_exact; rewrite length_take; lia. Qed.

Lemma slice_write_at_other a b off src buf :
  (off + length src <= length buf)%nat ->
  (b <= off \/ off + length src <= a)%nat ->
  slice a b (write_at off src buf) = slice a b buf.
Proof.
  intros H Hd. unfold slice. apply list_eq. intros i.
  destruct (decide (i < b - a)%nat); [|rewrite !lookup_take_ge by lia; done].
  rewrite !lookup_take_lt, !lookup_drop by lia. unfold write_at.
  destruct Hd.
  - rewrite lookup_app_l by (rewrite length_take; lia). by rewrite lookup_take_lt by lia.
  - rewrite lookup_app_r by (rewrite length_take; lia).
    rewrite lookup_app_r by (rewrite length_take; lia).
    rewrite lookup_drop, length_take. f_equal. lia.
Qed.
