(* ===== verification/Chunks.v ===== *)
(** * Cutting a message into chunks and writing them back

    The overlay data plane and the handshake framing both cut a message into
    consecutive chunks of a fixed capacity and reassemble it in place, in any
    order. This file proves the buffer reasoning once for both. *)

From S2P Require Import Prelude Bytes.

Local Open Scope nat_scope.

(** [&msg[i * cap .. (i * cap + cap).min(msg.len())]]. *)
Definition chunk_of (cap : nat) (msg : bytes) (i : nat) : bytes :=
  slice (i * cap) (Nat.min (i * cap + cap) (length msg)) msg.

Lemma chunk_of_le cap msg i : length (chunk_of cap msg i) <= cap.
Proof. unfold chunk_of, slice. rewrite length_take. lia. Qed.

Lemma lookup_write_inside off (src buf : bytes) k :
  off + length src <= length buf -> off <= k < off + length src ->
  write_at off src buf !! k = src !! (k - off).
Proof.
  intros Hl Hk. unfold write_at.
  rewrite lookup_app_r by (rewrite length_take; lia). rewrite length_take.
  rewrite lookup_app_l by lia. f_equal. lia.
Qed.

Lemma lookup_write_outside off (src buf : bytes) k :
  off + length src <= length buf -> (k < off \/ off + length src <= k) ->
  write_at off src buf !! k = buf !! k.
Proof.
  intros Hl Hk. unfold write_at. destruct Hk.
  - rewrite lookup_app_l by (rewrite length_take; lia). by rewrite lookup_take_lt.
  - rewrite lookup_app_r by (rewrite length_take; lia). rewrite length_take.
    rewrite lookup_app_r by lia. rewrite lookup_drop. f_equal. lia.
Qed.

Lemma byte_at_write_before off src buf k :
  off + length src <= length buf -> k < off ->
  byte_at k (write_at off src buf) = byte_at k buf.
Proof. intros Hl Hk. unfold byte_at. rewrite lookup_write_outside by lia. done. Qed.

Section Chunks.
Variables (cap : nat) (msg : bytes) (n : nat).
Hypothesis Hcap : 0 < cap.
Hypothesis Hn : (n - 1) * cap < length msg <= n * cap.

Lemma length_chunk_of i :
  i < n -> length (chunk_of cap msg i) =
    (if i + 1 <? n then cap else length msg - (n - 1) * cap).
Proof.
  intros Hi. unfold chunk_of.
  destruct (Nat.ltb_spec (i + 1) n).
  - assert ((i + 1) * cap <= (n - 1) * cap) by (apply Nat.mul_le_mono_r; lia).
    rewrite length_slice by lia. lia.
  - assert (i = n - 1) as -> by lia.
    assert (n * cap = (n - 1) * cap + cap) by (destruct n; lia).
    rewrite length_slice by lia. lia.
Qed.

Lemma chunk_of_lookup i k :
  k < length msg -> k / cap = i -> chunk_of cap msg i !! (k - i * cap) = msg !! k.
Proof.
  intros Hk <-. unfold chunk_of, slice.
  pose proof (Nat.div_mod k cap ltac:(lia)). pose proof (Nat.mod_upper_bound k cap ltac:(lia)).
  rewrite (Nat.mul_comm cap) in *. rewrite lookup_take_lt by lia.
  rewrite lookup_drop. f_equal. lia.
Qed.

Lemma chunk_of_range i :
  i < n -> i * cap + length (chunk_of cap msg i) <= length msg /\
  (forall k, k < length msg ->
     k / cap = i <-> i * cap <= k < i * cap + length (chunk_of cap msg i)).
Proof.
  intros Hi. rewrite (length_chunk_of i Hi). destruct (Nat.ltb_spec (i + 1) n).
  - assert ((i + 1) * cap <= (n - 1) * cap) by (apply Nat.mul_le_mono_r; lia).
    split; [lia|]. intros k Hk.
    pose proof (Nat.div_mod k cap ltac:(lia)). pose proof (Nat.mod_upper_bound k cap ltac:(lia)).
    split; [intros <-; nia|]. intros Hr. symmetry. apply (Nat.div_unique k cap i (k - i * cap)); lia.
  - assert (i = n - 1) as -> by lia. assert (n * cap = (n - 1) * cap + cap) by (destruct n; lia).
    split; [lia|]. intros k Hk.
    pose proof (Nat.div_mod k cap ltac:(lia)). pose proof (Nat.mod_upper_bound k cap ltac:(lia)).
    split; [intros E; rewrite E in *; nia|].
    intros Hr. symmetry. apply (Nat.div_unique k cap (n - 1) (k - (n - 1) * cap)); lia.
Qed.

(** The bytes of [buf] that belong to the chunks of [q] are those of the message. *)
Definition holds_chunks (q : gset nat) (buf : bytes) : Prop :=
  length buf = length msg /\ forall k, k < length msg -> k / cap ∈ q -> buf !! k = msg !! k.

Lemma holds_chunks_write q buf i :
  i < n -> holds_chunks q buf ->
  holds_chunks ({[ i ]} ∪ q) (write_at (i * cap) (chunk_of cap msg i) buf).
Proof.
  intros Hi [Hl Hbuf]. destruct (chunk_of_range i Hi) as [Hle Hiff].
  split; [rewrite length_write_at by lia; done|]. intros k Hk Hin.
  destruct (decide (k / cap = i)) as [E|E].
  - rewrite lookup_write_inside; [by apply chunk_of_lookup|lia|by apply Hiff].
  - rewrite lookup_write_outside; [|lia|pose proof (proj2 (Hiff k Hk)); lia].
    apply Hbuf; [done|]. by apply elem_of_add in Hin as [?|?].
Qed.

Lemma holds_chunks_full q buf :
  holds_chunks q buf -> (forall i, i < n -> i ∈ q) -> buf = msg.
Proof.
  intros [Hl Hbuf] Hall. apply list_eq. intros k. destruct (decide (k < length msg)).
  - apply Hbuf; [done|]. apply Hall. apply Nat.Div0.div_lt_upper_bound. lia.
  - by rewrite !lookup_ge_None_2 by lia.
Qed.

Lemma holds_chunks_slice q buf i :
  i < n -> holds_chunks q buf -> i ∈ q ->
  slice (i * cap) (i * cap + length (chunk_of cap msg i)) buf = chunk_of cap msg i.
Proof.
  intros Hi [Hl Hbuf] Hin. destruct (chunk_of_range i Hi) as [Hle Hiff].
  apply list_eq. intros k. unfold slice.
  destruct (decide (k < length (chunk_of cap msg i))) as [Hk|Hk].
  - rewrite lookup_take_lt, lookup_drop by lia.
    assert ((i * cap + k) / cap = i) as Hx by (apply Hiff; lia).
    rewrite Hbuf by (rewrite ?Hx; done || lia).
    rewrite <- (chunk_of_lookup i (i * cap + k)) by (done || lia). f_equal. lia.
  - rewrite lookup_take_ge by lia. symmetry. apply lookup_ge_None_2. lia.
Qed.

End Chunks.

(** ** The received flags *)

(** [received[i]] is set exactly for the chunks of [q], for [i < m]. *)
Definition flags_are (m : nat) (q : gset nat) (received : list bool) : Prop :=
  length received = m /\ forall i, i < m -> received !! i = Some (bool_decide (i ∈ q)).

Lemma flags_are_empty m : flags_are m ∅ (replicate m false).
Proof.
  split; [apply length_replicate|]. intros i Hi.
  rewrite lookup_replicate_2 by done. by rewrite bool_decide_false by set_solver.
Qed.

Lemma flags_are_insert m q received i :
  i < m -> flags_are m q received -> flags_are m ({[ i ]} ∪ q) (<[i := true]> received).
Proof.
  intros Hi [Hl Hr]. split; [by rewrite length_insert|]. intros j Hj.
  destruct (decide (i = j)) as [<-|Hne].
  - rewrite list_lookup_insert_eq by lia. rewrite bool_decide_true; [done|].
    apply elem_of_add. by left.
  - rewrite list_lookup_insert_ne, Hr by done. f_equal. apply bool_decide_ext.
    rewrite elem_of_add. split; [by right|intros [?|?]; [lia|done]].
Qed.
