(* ===== verification/Exec.v ===== *)
(** * Stateful, fallible, panicking code

    A [&mut self] method of the source that returns a [Result] and may reach an
    [expect]/[unwrap] is a computation of type [M S E A]: it maps the state to
    an outcome and the state left behind, also when it fails or panics. The
    predicate [wp] gives the weakest precondition of such a computation; the
    theorems on the handshake machines and the session managers are proved with
    its rules.

    [Tables] holds the facts on a hash map kept in lockstep with a queue of its
    keys, the shape of both per-source rate tables. *)

From S2P Require Import Prelude.
From stdpp Require Import strings.

Local Open Scope Z_scope.

(** ** Outcomes and the monad *)

Inductive exec (E A : Type) : Type :=
| Ret (a : A)
| Fail (e : E)
| Panic (site : string).

Arguments Ret {E A} a.
Arguments Fail {E A} e.
Arguments Panic {E A} site.

Definition M (S E A : Type) : Type := S -> exec E A * S.

Global Instance M_ret {S E} : MRet (M S E) := fun A a s => (Ret a, s).

Global Instance M_bind {S E} : MBind (M S E) := fun A B k m s =>
  match m s with
  | (Ret a, s') => k a s'
  | (Fail e, s') => (Fail e, s')
  | (Panic p, s') => (Panic p, s')
  end.

Definition get {S E} : M S E S := fun s => (Ret s, s).
Definition modify {S E} (f : S -> S) : M S E () := fun s => (Ret (), f s).

(** A method that always returns a value. *)
Definition call {S E A} (f : S -> A * S) : M S E A := fun s => (Ret (f s).1, (f s).2).

(** The [?] operator on a [Result] whose error converts with [f]. *)
Definition try {S E F A} (f : F -> E) (r : result F A) : M S E A := fun s =>
  match r with Ok a => (Ret a, s) | Err e => (Fail (f e), s) end.

(** [Option::expect]. *)
Definition expect {S E A} (site : string) (o : option A) : M S E A := fun s =>
  match o with Some a => (Ret a, s) | None => (Panic site, s) end.

(** A call on a component of the state. *)
Definition zoom {S T E A} (sel : S -> T) (upd : T -> S -> S) (m : M T E A) : M S E A := fun s =>
  let '(r, t) := m (sel s) in (r, upd t s).

(** [Result::map_err] on a call. *)
Definition map_fail {S E F A} (f : E -> F) (m : M S E A) : M S F A := fun s =>
  match m s with
  | (Ret a, s') => (Ret a, s')
  | (Fail e, s') => (Fail (f e), s')
  | (Panic p, s') => (Panic p, s')
  end.

(** A call whose [Result] the caller inspects; a panic is not caught. *)
Definition attempt {S E A} (m : M S E A) : M S E (result E A) := fun s =>
  match m s with
  | (Ret a, s') => (Ret (Ok a), s')
  | (Fail e, s') => (Ret (Err e), s')
  | (Panic p, s') => (Panic p, s')
  end.

(** [for x in l { .. }]. *)
Fixpoint for_each {S E X} (f : X -> M S E ()) (l : list X) : M S E () :=
  match l with
  | [] => mret ()
  | x :: l => f x;; for_each f l
  end.

(** ** Weakest preconditions *)

Definition wp {S E A} (m : M S E A) (s : S) (Q : exec E A -> S -> Prop) : Prop :=
  Q (m s).1 (m s).2.

Section Wp.
Context {S E : Type}.

Lemma wp_ret {A} (a : A) (s : S) (Q : exec E A -> S -> Prop) : Q (Ret a) s -> wp (mret a) s Q.
Proof. done. Qed.

Lemma wp_bind {A B} (m : M S E A) (k : A -> M S E B) s Q :
  wp m s (fun r s' => match r with
    | Ret a => wp (k a) s' Q
    | Fail e => Q (Fail e) s'
    | Panic p => Q (Panic p) s'
    end) -> wp (m ≫= k) s Q.
Proof.
  unfold wp, mbind, M_bind. destruct (m s) as [[a|e|p] s']; simpl; done.
Qed.

Lemma wp_get s (Q : exec E S -> S -> Prop) : Q (Ret s) s -> wp get s Q.
Proof. done. Qed.

Lemma wp_modify f (s : S) (Q : exec E () -> S -> Prop) : Q (Ret ()) (f s) -> wp (modify f) s Q.
Proof. done. Qed.

Lemma wp_call {A} (f : S -> A * S) s (Q : exec E A -> S -> Prop) :
  Q (Ret (f s).1) (f s).2 -> wp (call f) s Q.
Proof. done. Qed.

Lemma wp_try {F A} (f : F -> E) (r : result F A) s (Q : exec E A -> S -> Prop) :
  (forall a, r = Ok a -> Q (Ret a) s) -> (forall e, r = Err e -> Q (Fail (f e)) s) ->
  wp (try f r) s Q.
Proof. intros H1 H2. unfold wp, try. destruct r; [by apply H1|by apply H2]. Qed.

Lemma wp_try_ok {F A} (f : F -> E) (r : result F A) a s (Q : exec E A -> S -> Prop) :
  r = Ok a -> Q (Ret a) s -> wp (try f r) s Q.
Proof. intros ->. done. Qed.

Lemma wp_expect {A} site (o : option A) a s (Q : exec E A -> S -> Prop) :
  o = Some a -> Q (Ret a) s -> wp (expect site o) s Q.
Proof. intros ->. done. Qed.

Lemma wp_zoom {T A} (sel : S -> T) upd (m : M T E A) s (Q : exec E A -> S -> Prop) :
  wp m (sel s) (fun r t => Q r (upd t s)) -> wp (zoom sel upd m) s Q.
Proof. unfold wp, zoom. destruct (m (sel s)); done. Qed.

Lemma wp_map_fail {F A} (f : E -> F) (m : M S E A) s (Q : exec F A -> S -> Prop) :
  wp m s (fun r s' => match r with
    | Ret a => Q (Ret a) s' | Fail e => Q (Fail (f e)) s' | Panic p => Q (Panic p) s' end) ->
  wp (map_fail f m) s Q.
Proof. unfold wp, map_fail. destruct (m s) as [[a|e|p] s']; done. Qed.

Lemma wp_attempt {A} (m : M S E A) s (Q : exec E (result E A) -> S -> Prop) :
  wp m s (fun r s' => match r with
    | Ret a => Q (Ret (Ok a)) s' | Fail e => Q (Ret (Err e)) s' | Panic p => Q (Panic p) s' end) ->
  wp (attempt m) s Q.
Proof. unfold wp, attempt. destruct (m s) as [[a|e|p] s']; done. Qed.

(** A loop keeps what each of its rounds keeps. *)
Lemma wp_for_each {X} (f : X -> M S E ()) (l : list X) (I : S -> Prop) s :
  I s -> (forall x s, x ∈ l -> I s -> wp (f x) s (fun r s' => r = Ret () /\ I s')) ->
  wp (for_each f l) s (fun r s' => r = Ret () /\ I s').
Proof.
  revert s. induction l as [|x l IH]; intros s Hs Hf; cbn [for_each]; [done|].
  apply wp_bind. specialize (Hf x s (list_elem_of_here _ _) Hs) as Hx.
  unfold wp in Hx |- * at 1. destruct (f x s) as [r s']. cbn [fst snd] in *. destruct Hx as [-> Hx].
  apply IH; [done|]. intros y s'' Hy. apply Hf. by apply list_elem_of_further.
Qed.

Lemma wp_mono {A} (m : M S E A) s (Q R : exec E A -> S -> Prop) :
  wp m s Q -> (forall r s', Q r s' -> R r s') -> wp m s R.
Proof. unfold wp. auto. Qed.

(** What [wp] says of a run. *)
Lemma wp_run {A} (m : M S E A) s r s' (Q : exec E A -> S -> Prop) :
  wp m s Q -> m s = (r, s') -> Q r s'.
Proof. unfold wp. intros H Hm. by rewrite Hm in H. Qed.

End Wp.

(** Steps through straight-line code; conditions are left to the caller. *)
Ltac wp_step :=
  lazymatch goal with
  | |- wp (mret _) _ _ => apply wp_ret
  | |- wp (mbind _ _) _ _ => apply wp_bind
  | |- wp get _ _ => apply wp_get
  | |- wp (modify _) _ _ => apply wp_modify
  | |- wp (call _) _ _ => apply wp_call
  | |- wp (zoom _ _ _) _ _ => apply wp_zoom
  | |- wp (map_fail _ _) _ _ => apply wp_map_fail
  | |- wp (attempt _) _ _ => apply wp_attempt
  end.

Ltac wp_steps := repeat (cbv beta iota zeta; wp_step); cbv beta iota zeta.

(** ** Maps with an insertion-order queue *)

Section Tables.
Context {K V : Type} `{Countable K}.

(** [order] holds exactly the keys of [tbl], each once. *)
Definition lockstep (order : list K) (tbl : gmap K V) : Prop :=
  NoDup order /\ forall k, k ∈ order <-> is_Some (tbl !! k).

Lemma lockstep_empty : lockstep [] (∅ : gmap K V).
Proof.
  split; [constructor|]. intros k. rewrite lookup_empty, elem_of_nil.
  split; [done|intros [? ?]; done].
Qed.

Lemma lockstep_length order tbl : lockstep order tbl -> length order = size tbl.
Proof.
  intros [Hn Hk]. rewrite <- (size_dom (D := gset K)), <- (size_list_to_set (C := gset K)) by done.
  f_equal. apply leibniz_equiv. intros k. rewrite elem_of_list_to_set, elem_of_dom. apply Hk.
Qed.

Lemma lockstep_push order tbl k v :
  lockstep order tbl -> tbl !! k = None -> lockstep (order ++ [k]) (<[k := v]> tbl).
Proof.
  intros [Hn Hk] Hnone. split.
  - apply NoDup_app. split; [done|]. split; [|apply NoDup_singleton].
    intros x Hx ->%list_elem_of_singleton. apply Hk in Hx as [? Hx]. by rewrite Hx in Hnone.
  - intros x. rewrite elem_of_app, list_elem_of_singleton, lookup_insert_is_Some, Hk.
    destruct (decide (k = x)); naive_solver.
Qed.

Lemma lockstep_update order tbl k v :
  lockstep order tbl -> is_Some (tbl !! k) -> lockstep order (<[k := v]> tbl).
Proof.
  intros [Hn Hk] Hsome. split; [done|]. intros x. rewrite lookup_insert_is_Some, Hk.
  destruct (decide (k = x)); naive_solver.
Qed.

Lemma lockstep_pop order tbl k : lockstep (k :: order) tbl -> lockstep order (delete k tbl).
Proof.
  intros [[Hk Hn]%NoDup_cons Hx]. split; [done|]. intros x. rewrite lookup_delete_is_Some, <- Hx.
  rewrite elem_of_cons. split; [|naive_solver]. intros Hin. split; [|by right].
  by intros ->.
Qed.

(** The front of the queue names an entry. *)
Lemma lockstep_front order tbl k :
  lockstep (k :: order) tbl -> Datatypes.S (size (delete k tbl)) = size tbl.
Proof.
  intros Hl. rewrite <- (lockstep_length _ _ Hl), <- (lockstep_length _ _ (lockstep_pop _ _ _ Hl)).
  done.
Qed.

(** Dropping entries from the map and the same keys from the queue. *)
Lemma lockstep_retain order tbl (f : K * V -> Prop) `{!forall x, Decision (f x)} :
  lockstep order tbl ->
  lockstep (filter (fun k => is_Some (filter f tbl !! k)) order) (filter f tbl).
Proof.
  intros [Hn Hk]. split; [by apply NoDup_filter|]. intros k. rewrite list_elem_of_filter, Hk.
  split; [naive_solver|]. intros Hs. split; [done|]. destruct Hs as [v Hv].
  apply map_lookup_filter_Some in Hv as [Hv _]. by exists v.
Qed.

Lemma map_Forall_sub (Q : K -> V -> Prop) (m1 m2 : gmap K V) :
  m1 ⊆ m2 -> map_Forall Q m2 -> map_Forall Q m1.
Proof. intros Hs Hq k v Hk. apply Hq. by eapply lookup_weaken. Qed.

(** [while len >= cap { pop the front and remove it }]. *)
Fixpoint evict_to (cap : Z) (order : list K) (tbl : gmap K V) : list K * gmap K V :=
  if Z.of_nat (size tbl) <? cap then (order, tbl)
  else match order with
       | [] => ([], tbl)
       | victim :: rest => evict_to cap rest (delete victim tbl)
       end.

Lemma evict_to_spec cap order tbl :
  0 < cap -> lockstep order tbl ->
  let '(order', tbl') := evict_to cap order tbl in
  lockstep order' tbl' /\ Z.of_nat (size tbl') < cap /\ tbl' ⊆ tbl /\
  (Z.of_nat (size tbl) <= cap -> Z.of_nat (size tbl) - 1 <= Z.of_nat (size tbl')).
Proof.
  revert tbl. induction order as [|k order IH]; intros tbl Hcap Hl; simpl.
  - pose proof (lockstep_length _ _ Hl) as Hs. simpl in Hs.
    destruct (Z.ltb_spec (Z.of_nat (size tbl)) cap); split; auto with lia.
  - destruct (Z.ltb_spec (Z.of_nat (size tbl)) cap) as [|Hge]; [split; auto with lia|].
    pose proof (lockstep_front _ _ _ Hl) as Hf.
    specialize (IH _ Hcap (lockstep_pop _ _ _ Hl)).
    destruct (evict_to cap order (delete k tbl)) as [o' t'] eqn:He.
    destruct IH as (Hl' & Hs & Hsub & Hm). split; [done|]. split; [done|]. split.
    + etrans; [done|]. apply delete_subseteq.
    + intros Hle. destruct order as [|k' order'].
      * simpl in He. destruct (_ <? _); injection He as <- <-; lia.
      * simpl in He. replace (_ <? _) with true in He by lia. injection He as <- <-. lia.
Qed.

End Tables.
