(* ===== verification/Oldest.v ===== *)
(** * Hash maps bounded by evicting the oldest entry

    The shape shared by the relay's binding table and the forwarder's socket
    pool: [iter().min_by_key(last_use)] and [while too_many { remove(oldest) }].
    A [HashMap] iterates in an unspecified order, so the order is an argument
    ([iteration]), with the one law that it lists every entry once. *)

From S2P Require Import Prelude.

Local Open Scope Z_scope.

(** The order in which a [HashMap<K, V>] is iterated. *)
Class IterOrder (K V : Type) `{Countable K} := {
  iteration : gmap K V -> list (K * V);
  iteration_perm : forall m, iteration m ≡ₚ map_to_list m }.

(** One order that satisfies the law. *)
Definition map_order {K V} `{Countable K} : IterOrder K V :=
  {| iteration := map_to_list; iteration_perm m := reflexivity _ |}.

Section Oldest.
Context {K V : Type} `{Countable K} {Ord : IterOrder K V}.

(** The instant an entry was last used. *)
Variable age : V -> Instant.

(** [min_by_key]: the first entry with the least instant. *)
Fixpoint min_by_age (best : K * V) (l : list (K * V)) : K * V :=
  match l with
  | [] => best
  | kv :: l => min_by_age (if age kv.2 <? age best.2 then kv else best) l
  end.

Definition oldest_of (l : list (K * V)) : option K :=
  match l with [] => None | kv :: l => Some (min_by_age kv l).1 end.

(** The entries of [m] whose key satisfies [P], in iteration order. *)
Definition candidates (P : K -> bool) (m : gmap K V) : list (K * V) :=
  filter (fun kv => P kv.1 = true) (iteration m).

(** [while candidates > cap { remove the oldest candidate }]. *)
Fixpoint evict_over (fuel : nat) (P : K -> bool) (cap : nat) (m : gmap K V) : gmap K V :=
  match fuel with
  | O => m
  | S fuel =>
      if (length (candidates P m) <=? cap)%nat then m
      else match oldest_of (candidates P m) with
           | Some k => evict_over fuel P cap (delete k m)
           | None => m
           end
  end.

(** ** Specifications *)

Lemma elem_of_candidates P m k v :
  (k, v) ∈ candidates P m <-> P k = true /\ m !! k = Some v.
Proof.
  unfold candidates. rewrite list_elem_of_filter. cbn [fst].
  by rewrite iteration_perm, elem_of_map_to_list.
Qed.

Lemma min_by_age_spec l best :
  (min_by_age best l = best \/ min_by_age best l ∈ l) /\
  age (min_by_age best l).2 <= age best.2 /\
  forall kv, kv ∈ l -> age (min_by_age best l).2 <= age kv.2.
Proof.
  revert best. induction l as [|x l IH]; intros best; simpl.
  - split; [by left|]. split; [lia|]. by intros kv ?%elem_of_nil.
  - destruct (IH (if age x.2 <? age best.2 then x else best)) as (Hin & Hle & Hall).
    destruct (Z.ltb_spec (age x.2) (age best.2)).
    + split; [destruct Hin as [->|Hin]; right; apply elem_of_cons; [by left|by right]|]. split; [lia|].
      intros kv [->|Hk]%elem_of_cons; [done|by apply Hall].
    + split; [destruct Hin as [->|Hin]; [by left|right; apply elem_of_cons; by right]|]. split; [lia|].
      intros kv [->|Hk]%elem_of_cons; [lia|by apply Hall].
Qed.

Lemma oldest_of_spec P m k :
  oldest_of (candidates P m) = Some k ->
  exists v, P k = true /\ m !! k = Some v /\
    forall k' v', P k' = true -> m !! k' = Some v' -> age v <= age v'.
Proof.
  unfold oldest_of. intros Hk. destruct (candidates P m) as [|kv l] eqn:E; [done|].
  injection Hk as <-. destruct (min_by_age_spec l kv) as (Hin & Hle & Hall).
  assert (min_by_age kv l ∈ candidates P m) as Hc.
  { rewrite E. apply elem_of_cons. destruct Hin as [->|Hin]; [by left|by right]. }
  destruct (min_by_age kv l) as [k v]. exists v. apply elem_of_candidates in Hc as [Hp Hm].
  split; [done|]. split; [done|]. intros k' v' Hp' Hm'.
  assert ((k', v') ∈ kv :: l) as [<-|Hl]%elem_of_cons
    by (rewrite <- E; by apply elem_of_candidates); [done|]. by apply (Hall (k', v')).
Qed.

Lemma oldest_of_None P m : oldest_of (candidates P m) = None -> candidates P m = [].
Proof. unfold oldest_of. by destruct (candidates P m). Qed.

(** How many entries satisfy [P], independently of the order. *)
Definition count (P : K -> bool) (m : gmap K V) : nat :=
  size (filter (fun kv => P kv.1 = true) m).

Lemma length_candidates P m : length (candidates P m) = count P m.
Proof.
  unfold candidates, count. rewrite iteration_perm, <- length_map_to_list.
  apply Permutation_length, NoDup_Permutation.
  - apply NoDup_filter, NoDup_map_to_list.
  - apply NoDup_map_to_list.
  - intros [k v]. rewrite list_elem_of_filter, !elem_of_map_to_list, map_lookup_filter_Some. tauto.
Qed.

Lemma count_delete P m k v :
  m !! k = Some v -> P k = true -> S (count P (delete k m)) = count P m.
Proof.
  intros Hk Hp. unfold count. rewrite map_filter_delete.
  assert (filter (fun kv => P kv.1 = true) m !! k = Some v) as Hf by (by apply map_lookup_filter_Some).
  rewrite map_size_delete_Some by done. apply Nat.succ_pred.
  intros E%map_size_empty_iff. by rewrite E, lookup_empty in Hf.
Qed.

(** The loop stops under the cap, removes only candidates, and never removes
    one newer than a candidate it keeps. *)
Lemma evict_over_spec P cap fuel m :
  (count P m <= fuel + cap)%nat ->
  let m' := evict_over fuel P cap m in
  m' ⊆ m /\ (count P m' <= cap)%nat /\
  (forall k, P k = false -> m' !! k = m !! k) /\
  ((count P m <= cap)%nat -> m' = m) /\
  (forall k v k' v', m !! k = Some v -> m' !! k = None ->
     m' !! k' = Some v' -> P k' = true -> age v <= age v').
Proof.
  revert m. induction fuel as [|fuel IH]; intros m Hf; simpl.
  - split_and!; try done; try lia; intros; congruence.
  - rewrite length_candidates. destruct (Nat.leb_spec (count P m) cap) as [Hle|Hgt].
    { split_and!; try done; intros; congruence. }
    destruct (oldest_of (candidates P m)) as [k|] eqn:Eo.
    2:{ apply oldest_of_None in Eo. rewrite <- length_candidates, Eo in Hgt. simpl in Hgt. lia. }
    apply oldest_of_spec in Eo as (v & Hp & Hm & Hmin).
    pose proof (count_delete P m k v Hm Hp) as Hc.
    destruct (IH (delete k m) ltac:(lia)) as (Hsub & Hle & Hother & Hsame & Hage).
    split_and!; [etrans; [done|apply delete_subseteq]|done| | |].
    + intros k' Hk'. rewrite Hother by done. apply lookup_delete_ne. intros ->. congruence.
    + lia.
    + intros k1 v1 k2 v2 H1 H1' H2 Hp2. destruct (decide (k1 = k)) as [->|Hne].
      * assert (v1 = v) as -> by congruence.
        apply (Hmin k2); [done|]. apply (lookup_weaken _ _ _ _ H2). etrans; [done|]. apply delete_subseteq.
      * apply (Hage k1 v1 k2); try done. by rewrite lookup_delete_ne.
Qed.

End Oldest.

Lemma count_all {K V} `{Countable K} (m : gmap K V) : count (fun _ => true) m = size m.
Proof.
  unfold count. f_equal. apply map_eq. intros k. apply option_eq. intros v.
  rewrite map_lookup_filter_Some. naive_solver.
Qed.

Lemma count_insert_le {K V} `{Countable K} (P : K -> bool) (m : gmap K V) k v :
  (count P (<[k := v]> m) <= (if P k then S (count P m) else count P m))%nat.
Proof.
  unfold count. destruct (P k) eqn:Ep.
  - rewrite map_filter_insert_True by done. rewrite map_size_insert. case_match; simpl; lia.
  - rewrite map_filter_insert_False by (cbn; congruence).
    rewrite map_filter_delete. apply map_subseteq_size, delete_subseteq.
Qed.

Lemma count_mono {K V} `{Countable K} (P : K -> bool) (m1 m2 : gmap K V) :
  m1 ⊆ m2 -> (count P m1 <= count P m2)%nat.
Proof. intros Hs. apply map_subseteq_size. by apply map_filter_subseteq_mono. Qed.

Lemma count_le_size {K V} `{Countable K} (P : K -> bool) (m : gmap K V) :
  (count P m <= size m)%nat.
Proof. apply map_subseteq_size, map_filter_subseteq. Qed.

(** The oldest of all entries is an entry. *)
Lemma oldest_of_all {K V} `{Countable K} {Ord : IterOrder K V} (age : V -> Instant) (m : gmap K V) :
  m <> ∅ -> exists k v, oldest_of age (iteration m) = Some k /\ m !! k = Some v.
Proof.
  intros Hm. assert (candidates (fun _ => true) m = iteration m) as Hc.
  { unfold candidates. induction (iteration m) as [|kv l IH]; [done|].
    rewrite filter_cons, decide_True by done. by rewrite IH. }
  rewrite <- Hc. destruct (oldest_of age (candidates (fun _ => true) m)) as [k|] eqn:E.
  - destruct (oldest_of_spec _ _ _ _ E) as (v & _ & Hk & _). by exists k, v.
  - apply oldest_of_None in E. rewrite Hc in E. destruct Hm. apply map_to_list_empty_iff.
    pose proof (iteration_perm m) as Hp. rewrite E in Hp. by apply Permutation_nil_l in Hp.
Qed.
