(* ===== verification/Net.v ===== *)
(** * Socket addresses

    [std::net::SocketAddr], the key of the per-source tables and the identity
    of a peer: an IPv4 or IPv6 endpoint, with decidable equality. *)

From S2P Require Import Prelude.

Local Open Scope Z_scope.

Inductive SocketAddr :=
| SocketAddrV4 (ip port : Z)
| SocketAddrV6 (ip port flowinfo scope_id : Z).

Global Instance SocketAddr_eq_dec : EqDecision SocketAddr.
Proof. solve_decision. Defined.

Global Instance SocketAddr_countable : Countable SocketAddr :=
  inj_countable'
    (fun a => match a with
              | SocketAddrV4 ip port => inl (ip, port)
              | SocketAddrV6 ip port fl sc => inr (ip, port, fl, sc)
              end)
    (fun x => match x with
              | inl (ip, port) => SocketAddrV4 ip port
              | inr (ip, port, fl, sc) => SocketAddrV6 ip port fl sc
              end)
    ltac:(by intros []).

Definition LOCALHOST : Z := 0x7f000001.
