(* ===== verification/IpAddr.v ===== *)
(** * IP addresses

    The parts of [std::net] the binary uses: [Ipv4Addr] as a 32-bit and
    [Ipv6Addr] as a 128-bit integer, their octets and segments, the address
    class predicates, and CIDR prefixes (the vocabulary of the policy
    specifications). *)

From S2P Require Import Prelude Bytes Net.

Local Open Scope Z_scope.

Inductive IpAddr := IpV4 (a : Z) | IpV6 (a : Z).

Global Instance IpAddr_eq_dec : EqDecision IpAddr.
Proof. solve_decision. Defined.

Definition IpAddr_wf (ip : IpAddr) : Prop :=
  match ip with IpV4 a => in_range 32 a | IpV6 a => in_range 128 a end.

(** ** [Ipv4Addr] *)

Definition Ipv4Addr_new (a b c d : Z) : Z := a * 2 ^ 24 + b * 2 ^ 16 + c * 2 ^ 8 + d.

(** [octets()[i]]. *)
Definition octet4 (i : Z) (a : Z) : Z := Z.land (Z.shiftr a (24 - 8 * i)) 255.

Definition v4_is_loopback (a : Z) : bool := octet4 0 a =? 127.
Definition v4_is_multicast (a : Z) : bool := (224 <=? octet4 0 a) && (octet4 0 a <=? 239).
Definition v4_is_broadcast (a : Z) : bool := a =? Ipv4Addr_new 255 255 255 255.
Definition v4_is_link_local (a : Z) : bool := (octet4 0 a =? 169) && (octet4 1 a =? 254).

(** ** [Ipv6Addr] *)

(** [segments()[i]]. *)
Definition segment6 (i : Z) (a : Z) : Z := Z.land (Z.shiftr a (112 - 16 * i)) 0xFFFF.

Definition Ipv6Addr_new (a b c d e f g h : Z) : Z :=
  fold_left (fun acc s => acc * 2 ^ 16 + s) [a; b; c; d; e; f; g; h] 0.

Definition V6_LOCALHOST : Z := 1.

Definition v6_is_loopback (a : Z) : bool := a =? V6_LOCALHOST.
Definition v6_is_unspecified (a : Z) : bool := a =? 0.
Definition v6_is_multicast (a : Z) : bool := Z.land (segment6 0 a) 0xFF00 =? 0xFF00.

(** [to_ipv4_mapped]: the last four octets of an address of [::ffff:0:0/96]. *)
Definition to_ipv4_mapped (a : Z) : option Z :=
  if Z.shiftr a 32 =? 0xFFFF then Some (Z.land a 0xFFFFFFFF) else None.

(** ** Socket addresses *)

Definition addr_ip (d : SocketAddr) : IpAddr :=
  match d with SocketAddrV4 ip _ => IpV4 ip | SocketAddrV6 ip _ _ _ => IpV6 ip end.

Definition addr_port (d : SocketAddr) : Z :=
  match d with SocketAddrV4 _ port => port | SocketAddrV6 _ port _ _ => port end.

Definition SocketAddr_wf (d : SocketAddr) : Prop :=
  match d with
  | SocketAddrV4 ip port => in_range 32 ip /\ in_range 16 port
  | SocketAddrV6 ip port fl sc =>
      in_range 128 ip /\ in_range 16 port /\ in_range 32 fl /\ in_range 32 sc
  end.

(** ** CIDR prefixes

    [in_prefix w net len a]: the [w]-bit address [a] lies in [net/len]. *)

Definition in_prefix (w net len a : Z) : Prop := a / 2 ^ (w - len) = net / 2 ^ (w - len).

Global Instance in_prefix_dec w net len a : Decision (in_prefix w net len a).
Proof. unfold in_prefix. apply _. Defined.

(** The host an address names: the IPv4-mapped ([::ffff:0:0/96]) and the
    deprecated IPv4-compatible ([::/96]) forms name an IPv4 host. *)
Definition canonical_ip (ip : IpAddr) : IpAddr :=
  match ip with
  | IpV4 a => IpV4 a
  | IpV6 a =>
      if decide (a / 2 ^ 32 = 0xFFFF) then IpV4 (a mod 2 ^ 32)
      else if decide (a < 2 ^ 32) then IpV4 a
      else IpV6 a
  end.

(** [a] lies in one of the prefixes [net/len] of [l]. *)
Definition in_prefixes (w : Z) (l : list (Z * Z)) (a : Z) : Prop :=
  Exists (fun p => in_prefix w p.1 p.2 a) l.

(** ** Arithmetic of octets and segments *)

Lemma land_ones_mod a n : 0 <= n -> Z.land a (2 ^ n - 1) = a mod 2 ^ n.
Proof. intros Hn. rewrite <- Z.land_ones by done. by rewrite Z.ones_equiv, Z.sub_1_r. Qed.

Lemma octet4_div i a : 0 <= i <= 3 -> octet4 i a = a / 2 ^ (24 - 8 * i) mod 256.
Proof.
  intros Hi. unfold octet4. change 255 with (2 ^ 8 - 1).
  by rewrite land_ones_mod, Z.shiftr_div_pow2 by lia.
Qed.

Lemma octet4_0 a : in_range 32 a -> octet4 0 a = a / 2 ^ 24.
Proof.
  unfold in_range. intros Ha. rewrite octet4_div by lia. change (24 - 8 * 0) with 24.
  apply Z.mod_small. split; [apply Z.div_pos; lia|]. apply Z.div_lt_upper_bound; lia.
Qed.

Lemma octet4_1 a : octet4 1 a = a / 2 ^ 16 mod 256.
Proof. by rewrite octet4_div by lia. Qed.

Lemma segment6_div i a : 0 <= i <= 7 -> segment6 i a = a / 2 ^ (112 - 16 * i) mod 2 ^ 16.
Proof.
  intros Hi. unfold segment6. change 0xFFFF with (2 ^ 16 - 1).
  by rewrite land_ones_mod, Z.shiftr_div_pow2 by lia.
Qed.

Lemma segment6_0 a : in_range 128 a -> segment6 0 a = a / 2 ^ 112.
Proof.
  unfold in_range. intros Ha. rewrite segment6_div by lia. change (112 - 16 * 0) with 112.
  apply Z.mod_small. split; [apply Z.div_pos; lia|]. apply Z.div_lt_upper_bound; lia.
Qed.

Lemma to_ipv4_mapped_spec a v :
  in_range 128 a -> to_ipv4_mapped a = Some v <-> a = 0xFFFF * 2 ^ 32 + v /\ in_range 32 v.
Proof.
  unfold in_range. intros Ha. unfold to_ipv4_mapped. change 0xFFFFFFFF with (2 ^ 32 - 1).
  rewrite land_ones_mod, Z.shiftr_div_pow2 by lia.
  pose proof (Z.div_mod a (2 ^ 32) ltac:(lia)). pose proof (Z.mod_pos_bound a (2 ^ 32) ltac:(lia)).
  destruct (Z.eqb_spec (a / 2 ^ 32) 0xFFFF) as [E|E].
  - rewrite E in *. split; [intros [= <-]; lia|]. intros [-> ?]. f_equal. lia.
  - split; [done|]. intros [-> Hv]. destruct E.
    rewrite Z.div_add_l, Z.div_small by lia. lia.
Qed.

Lemma to_ipv4_mapped_None a :
  in_range 128 a -> to_ipv4_mapped a = None <-> a / 2 ^ 32 <> 0xFFFF.
Proof.
  intros Ha. unfold to_ipv4_mapped. rewrite Z.shiftr_div_pow2 by lia.
  by destruct (Z.eqb_spec (a / 2 ^ 32) 0xFFFF).
Qed.

(** The six leading segments are zero exactly below [2^32]. *)
Lemma leading_segments_zero a :
  in_range 128 a ->
  (segment6 0 a =? 0) && (segment6 1 a =? 0) && (segment6 2 a =? 0) &&
  (segment6 3 a =? 0) && (segment6 4 a =? 0) && (segment6 5 a =? 0) = (a <? 2 ^ 32).
Proof.
  unfold in_range. intros Ha. rewrite !segment6_div by lia.
  change (112 - 16 * 0) with 112. change (112 - 16 * 1) with 96. change (112 - 16 * 2) with 80.
  change (112 - 16 * 3) with 64. change (112 - 16 * 4) with 48. change (112 - 16 * 5) with 32.
  assert (forall k, 0 <= k -> a / 2 ^ k = (a / 2 ^ (k + 16)) * 2 ^ 16 + (a / 2 ^ k) mod 2 ^ 16) as Hs.
  { intros k Hk. rewrite Z.pow_add_r, <- Z.div_div by lia.
    pose proof (Z.div_mod (a / 2 ^ k) (2 ^ 16) ltac:(lia)). lia. }
  assert (a / 2 ^ 128 = 0) by (apply Z.div_small; lia).
  pose proof (Hs 112 ltac:(lia)) as H1. pose proof (Hs 96 ltac:(lia)) as H2.
  pose proof (Hs 80 ltac:(lia)) as H3. pose proof (Hs 64 ltac:(lia)) as H4.
  pose proof (Hs 48 ltac:(lia)) as H5. pose proof (Hs 32 ltac:(lia)) as H6.
  simpl (_ + 16) in *.
  assert (forall k, 0 <= (a / 2 ^ k) mod 2 ^ 16) as Hm by (intros; apply Z.mod_pos_bound; lia).
  pose proof (Hm 112). pose proof (Hm 96). pose proof (Hm 80).
  pose proof (Hm 64). pose proof (Hm 48). pose proof (Hm 32).
  pose proof (Z.div_mod a (2 ^ 32) ltac:(lia)). pose proof (Z.mod_pos_bound a (2 ^ 32) ltac:(lia)).
  assert (a / 2 ^ 32 = 0 <-> a < 2 ^ 32) by lia.
  apply eq_true_iff_eq. rewrite !andb_true_iff, !Z.eqb_eq, Z.ltb_lt. lia.
Qed.

(** Reassembling the low 32 bits from the last two segments. *)
Lemma low_segments_v4 a :
  0 <= a < 2 ^ 32 ->
  Ipv4Addr_new (Z.shiftr (segment6 6 a) 8) (segment6 6 a mod 256)
    (Z.shiftr (segment6 7 a) 8) (segment6 7 a mod 256) = a.
Proof.
  intros Ha. rewrite !segment6_div by lia. change (112 - 16 * 6) with 16. change (112 - 16 * 7) with 0.
  rewrite Z.pow_0_r, Z.div_1_r, !Z.shiftr_div_pow2 by lia. unfold Ipv4Addr_new.
  rewrite (Z.mod_small (a / 2 ^ 16)) by (split; [apply Z.div_pos|apply Z.div_lt_upper_bound]; lia).
  pose proof (Z.div_mod a (2 ^ 16) ltac:(lia)).
  pose proof (Z.div_mod (a / 2 ^ 16) 256 ltac:(lia)).
  pose proof (Z.div_mod (a mod 2 ^ 16) 256 ltac:(lia)).
  change (2 ^ 8) with 256. lia.
Qed.

(** Masking with the high bits of a [w]-bit value drops the low [k] bits. *)
Lemma land_high_mask w k x :
  0 <= k <= w -> 0 <= x < 2 ^ w -> Z.land x (2 ^ w - 2 ^ k) = x / 2 ^ k * 2 ^ k.
Proof.
  intros Hk Hx.
  assert (2 ^ w - 2 ^ k = Z.shiftl (Z.ones (w - k)) k) as ->.
  { rewrite Z.shiftl_mul_pow2, Z.ones_equiv, <- Z.sub_1_r by lia.
    rewrite Z.mul_sub_distr_r, <- Z.pow_add_r by lia. replace (w - k + k) with w by lia. lia. }
  rewrite <- Z.shiftr_div_pow2, <- Z.shiftl_mul_pow2 by lia. apply Z.bits_inj'. intros i Hi.
  rewrite Z.land_spec, !Z.shiftl_spec by done. destruct (Z.ltb_spec i k).
  - rewrite !(Z.testbit_neg_r _ (i - k)) by lia. apply andb_false_r.
  - rewrite Z.shiftr_spec, Z.testbit_ones_nonneg by lia. replace (i - k + k) with i by lia.
    destruct (Z.ltb_spec (i - k) (w - k)); [by rewrite andb_true_r|].
    destruct (decide (x = 0)) as [->|]; [by rewrite Z.testbit_0_l|].
    rewrite (Z.bits_above_log2 x i); [done|lia|]. apply Z.log2_lt_pow2; [lia|].
    apply Z.lt_le_trans with (2 ^ w); [lia|]. apply Z.pow_le_mono_r; lia.
Qed.

Lemma segment6_0_range a : in_range 128 a -> 0 <= a / 2 ^ 112 < 2 ^ 16.
Proof.
  unfold in_range. intros Ha. split; [apply Z.div_pos|apply Z.div_lt_upper_bound]; lia.
Qed.

(** A mask test on the first segment is a prefix test. *)
Lemma segment6_0_prefix k s a :
  0 <= k <= 16 -> in_range 128 a ->
  (Z.land (segment6 0 a) (2 ^ 16 - 2 ^ k) =? s * 2 ^ k) =
  bool_decide (in_prefix 128 (s * 2 ^ k * 2 ^ 112) (16 - k) a).
Proof.
  intros Hk Ha. rewrite segment6_0, (land_high_mask 16 k) by (done || by apply segment6_0_range).
  apply eq_true_iff_eq. rewrite Z.eqb_eq, bool_decide_eq_true. unfold in_prefix.
  replace (128 - (16 - k)) with (k + 112) by lia. rewrite <- Z.mul_assoc, <- Z.pow_add_r by lia.
  rewrite Z.div_mul by lia. rewrite Z.add_comm, Z.pow_add_r, <- Z.div_div by lia.
  assert (0 < 2 ^ k) by lia. split; [|by intros ->]. intros E. by apply Z.mul_reg_r in E; [|lia].
Qed.

Lemma v6_is_multicast_prefix a :
  in_range 128 a -> v6_is_multicast a = bool_decide (in_prefix 128 (0xFF00 * 2 ^ 112) 8 a).
Proof. intros Ha. exact (segment6_0_prefix 8 255 a ltac:(lia) Ha). Qed.

Lemma segment6_1 a : segment6 1 a = a / 2 ^ 96 mod 2 ^ 16.
Proof. by rewrite segment6_div by lia. Qed.

(** Tests on the first two segments are tests on the top 32 bits. *)
Lemma segments_0_1_prefix s t a :
  0 <= s < 2 ^ 16 -> 0 <= t < 2 ^ 16 -> in_range 128 a ->
  (segment6 0 a =? s) && (segment6 1 a =? t) =
  bool_decide (in_prefix 128 ((s * 2 ^ 16 + t) * 2 ^ 96) 32 a).
Proof.
  intros Hs Ht Ha. rewrite segment6_0, segment6_1 by done.
  apply eq_true_iff_eq. rewrite andb_true_iff, !Z.eqb_eq, bool_decide_eq_true. unfold in_prefix.
  change (128 - 32) with 96. rewrite Z.div_mul by lia.
  assert (a / 2 ^ 112 = a / 2 ^ 96 / 2 ^ 16) as -> by (by rewrite Z.div_div by lia).
  pose proof (Z.div_mod (a / 2 ^ 96) (2 ^ 16) ltac:(lia)).
  pose proof (Z.mod_pos_bound (a / 2 ^ 96) (2 ^ 16) ltac:(lia)). lia.
Qed.
