(* ===== verification/Errors.v ===== *)
(** * Error types

    [pq-crypto/src/error.rs] and [pq-tunnel-core/src/error.rs]: the two error
    enumerations every fallible operation of the tunnel returns. *)

From S2P Require Import Prelude Bytes.
From stdpp Require Export strings.

Local Open Scope Z_scope.

(** [pq_crypto::CryptoError]. *)
Inductive CryptoError :=
| Kem (msg : string)
| Signature (msg : string)
| X25519 (msg : string)
| Aead (msg : string)
| Kdf (msg : string)
| InvalidInput (msg : string)
| VerificationFailed.

(** [pq_tunnel_core::CodecError]. *)
Inductive CodecError :=
| Truncated (field : string) (min got : nat)
| WrongLength (field : string) (expected got : nat)
| InvalidVersion (expected found : byte)
| InvalidMessageType (v : byte)
| InvalidDirection (v : byte)
| NonceExhausted (counter : Z)
| RekeyRejected (reason : string)
| DecryptionFailed
| Rejected
| Crypto (e : CryptoError).

Global Instance CryptoError_eq_dec : EqDecision CryptoError.
Proof. solve_decision. Defined.

Global Instance CodecError_eq_dec : EqDecision CodecError.
Proof. solve_decision. Defined.
