(* ===== verification/Codec.v ===== *)
(** * The packet codec

    [pq-tunnel-core/src/codec.rs]: the fixed 1280-byte wire packet, its
    clear-text header and the inner plaintext the AEAD protects. Every buffer
    is filled with the source's sequence of indexed writes; the lemmas give
    the resulting concatenation, from which the round trips follow. *)

From S2P Require Import Prelude Bytes Errors.

Local Open Scope nat_scope.

(** ** Dimensions *)

Definition PROTOCOL_VERSION : byte := x02.
Definition VERSION_LEN : nat := 1.
Definition PACKET_SIZE : nat := 1280.
Definition SESSION_ID_LEN : nat := 8.
Definition PACKET_NONCE_LEN : nat := 8.
Definition AEAD_TAG_LEN : nat := 16.
Definition AEAD_NONCE_LEN : nat := 12.
Definition MAX_PACKET_NONCE : Z := umax 64 - 2 ^ 32.

Definition is_counter_exhausted (counter : Z) : bool :=
  (MAX_PACKET_NONCE <=? counter)%Z.

Definition HEADER_LEN : nat := VERSION_LEN + SESSION_ID_LEN + PACKET_NONCE_LEN.
Definition INNER_PLAINTEXT_LEN : nat := PACKET_SIZE - HEADER_LEN - AEAD_TAG_LEN.
Definition PAYLOAD_LEN : nat := INNER_PLAINTEXT_LEN - 2.

(** ** Protocol enums *)

Inductive MessageType := Handshake | Data | Cover | Close | TunData.

Definition MessageType_as_u8 (m : MessageType) : byte :=
  match m with
  | Handshake => x00 | Data => x01 | Cover => x02 | Close => x03 | TunData => x04
  end.

Definition MessageType_from_u8 (v : byte) : result CodecError MessageType :=
  match v with
  | x00 => Ok Handshake
  | x01 => Ok Data
  | x02 => Ok Cover
  | x03 => Ok Close
  | x04 => Ok TunData
  | _ => Err (InvalidMessageType v)
  end.

Inductive Direction := ClientToServer | ServerToClient.

Definition Direction_as_u8 (d : Direction) : byte :=
  match d with ClientToServer => x00 | ServerToClient => x01 end.

Definition Direction_from_u8 (v : byte) : result CodecError Direction :=
  match v with
  | x00 => Ok ClientToServer
  | x01 => Ok ServerToClient
  | _ => Err (InvalidDirection v)
  end.

Global Instance MessageType_eq_dec : EqDecision MessageType.
Proof. solve_decision. Defined.

Global Instance Direction_eq_dec : EqDecision Direction.
Proof. solve_decision. Defined.

(** ** Clear-text header *)

Record PacketHeader := mkPacketHeader {
  ph_version : byte;
  ph_session_id : bytes;
  ph_packet_nonce : Z }.

(** What Rust's types [u8], [[u8; SESSION_ID_LEN]] and [u64] guarantee. *)
Definition PacketHeader_wf (h : PacketHeader) : Prop :=
  length (ph_session_id h) = SESSION_ID_LEN /\ in_range 64 (ph_packet_nonce h).

Definition PacketHeader_new (session_id : bytes) (packet_nonce : Z) : PacketHeader :=
  {| ph_version := PROTOCOL_VERSION;
     ph_session_id := session_id;
     ph_packet_nonce := packet_nonce |}.

Definition PacketHeader_encode (h : PacketHeader) : bytes :=
  let out := zeros HEADER_LEN in
  let out := write_at 0 [ph_version h] out in
  let out := write_at 1 (ph_session_id h) out in
  write_at (1 + SESSION_ID_LEN) (be_bytes 8 (ph_packet_nonce h)) out.

Definition PacketHeader_decode (data : bytes) : result CodecError PacketHeader :=
  if length data <? HEADER_LEN then
    Err (Truncated "PacketHeader" HEADER_LEN (length data))
  else
    let version := byte_at 0 data in
    if negb (bool_decide (version = PROTOCOL_VERSION)) then
      Err (InvalidVersion PROTOCOL_VERSION version)
    else
      let session_id := slice 1 (1 + SESSION_ID_LEN) data in
      let packet_nonce :=
        be_val (slice (1 + SESSION_ID_LEN) (1 + SESSION_ID_LEN + PACKET_NONCE_LEN) data) in
      Ok {| ph_version := version;
            ph_session_id := session_id;
            ph_packet_nonce := packet_nonce |}.

(** ** Inner plaintext *)

Record InnerPlaintext := mkInnerPlaintext {
  ip_msg_type : MessageType;
  ip_direction : Direction;
  ip_payload : bytes }.

Definition InnerPlaintext_wf (p : InnerPlaintext) : Prop :=
  length (ip_payload p) = PAYLOAD_LEN.

Definition InnerPlaintext_new (msg_type : MessageType) (direction : Direction)
    (payload : bytes) : result CodecError InnerPlaintext :=
  if negb (length payload =? PAYLOAD_LEN) then
    Err (WrongLength "payload" PAYLOAD_LEN (length payload))
  else
    Ok {| ip_msg_type := msg_type; ip_direction := direction; ip_payload := payload |}.

Definition InnerPlaintext_encode (p : InnerPlaintext) : bytes :=
  let out := zeros INNER_PLAINTEXT_LEN in
  let out := write_at 0 [MessageType_as_u8 (ip_msg_type p)] out in
  let out := write_at 1 [Direction_as_u8 (ip_direction p)] out in
  write_at 2 (ip_payload p) out.

Definition InnerPlaintext_decode (data : bytes) : result CodecError InnerPlaintext :=
  if negb (length data =? INNER_PLAINTEXT_LEN) then
    Err (Truncated "InnerPlaintext" INNER_PLAINTEXT_LEN (length data))
  else
    msg_type ← MessageType_from_u8 (byte_at 0 data);
    direction ← Direction_from_u8 (byte_at 1 data);
    let payload := slice 2 (2 + PAYLOAD_LEN) data in
    Ok {| ip_msg_type := msg_type; ip_direction := direction; ip_payload := payload |}.

Definition InnerPlaintext_cover (direction : Direction) (fill : byte) : InnerPlaintext :=
  {| ip_msg_type := Cover; ip_direction := direction;
     ip_payload := replicate PAYLOAD_LEN fill |}.

Definition InnerPlaintext_data (direction : Direction) (payload : bytes)
    : result CodecError InnerPlaintext :=
  InnerPlaintext_new Data direction payload.

(** ** On-wire packet *)

Record WirePacket := mkWirePacket { as_bytes : bytes }.

Definition WirePacket_wf (w : WirePacket) : Prop := length (as_bytes w) = PACKET_SIZE.

Definition WirePacket_zeroed : WirePacket := mkWirePacket (zeros PACKET_SIZE).

Definition WirePacket_from_bytes (data : bytes) : result CodecError WirePacket :=
  if negb (length data =? PACKET_SIZE) then
    Err (Truncated "WirePacket" PACKET_SIZE (length data))
  else Ok (mkWirePacket data).

Definition WirePacket_header_bytes (w : WirePacket) : bytes :=
  slice 0 HEADER_LEN (as_bytes w).

Definition WirePacket_ciphertext (w : WirePacket) : bytes :=
  slice HEADER_LEN (HEADER_LEN + INNER_PLAINTEXT_LEN) (as_bytes w).

Definition WirePacket_tag (w : WirePacket) : bytes :=
  drop (HEADER_LEN + INNER_PLAINTEXT_LEN) (as_bytes w).

Definition WirePacket_aad (w : WirePacket) : bytes := WirePacket_header_bytes w.

Definition WirePacket_parse_header (w : WirePacket) : result CodecError PacketHeader :=
  PacketHeader_decode (slice 0 HEADER_LEN (as_bytes w)).

Definition WirePacket_aead_region (w : WirePacket) : bytes := drop HEADER_LEN (as_bytes w).

Definition WirePacket_from_parts (header aead_region : bytes)
    : result CodecError WirePacket :=
  if negb (bool_decide (byte_at 0 header = PROTOCOL_VERSION)) then
    Err (InvalidVersion PROTOCOL_VERSION (byte_at 0 header))
  else if negb (length aead_region =? PACKET_SIZE - HEADER_LEN) then
    Err (Truncated "aead_region" (PACKET_SIZE - HEADER_LEN) (length aead_region))
  else
    let buf := zeros PACKET_SIZE in
    let buf := write_at 0 header buf in
    let buf := write_at HEADER_LEN aead_region buf in
    Ok (mkWirePacket buf).

(** Linear arithmetic over the packet dimensions. *)
Ltac dims :=
  unfold PAYLOAD_LEN, INNER_PLAINTEXT_LEN, HEADER_LEN, PACKET_SIZE, AEAD_TAG_LEN,
    AEAD_NONCE_LEN, PACKET_NONCE_LEN, SESSION_ID_LEN, VERSION_LEN in *;
  autorewrite with tunnel_len in *; simpl length in *; lia.

(** ** Enum round trips *)

Lemma MessageType_from_as m : MessageType_from_u8 (MessageType_as_u8 m) = Ok m.
Proof. by destruct m. Qed.

Lemma MessageType_as_from v m : MessageType_from_u8 v = Ok m -> MessageType_as_u8 m = v.
Proof. destruct v; simpl; intros [= <-]; done. Qed.

Lemma Direction_from_as d : Direction_from_u8 (Direction_as_u8 d) = Ok d.
Proof. by destruct d. Qed.

Lemma Direction_as_from v d : Direction_from_u8 v = Ok d -> Direction_as_u8 d = v.
Proof. destruct v; simpl; intros [= <-]; done. Qed.

(** ** Encodings as concatenations *)

Lemma PacketHeader_encode_app h :
  length (ph_session_id h) = SESSION_ID_LEN ->
  PacketHeader_encode h =
    [ph_version h] ++ ph_session_id h ++ be_bytes 8 (ph_packet_nonce h).
Proof.
  intros Hs. unfold PacketHeader_encode.
  rewrite write_at_zeros_0 by dims.
  rewrite write_at_zeros by dims.
  rewrite write_at_zeros by dims.
  rewrite length_be_bytes, Hs. simpl (zeros _). by rewrite app_nil_r, <- app_assoc.
Qed.

Lemma length_PacketHeader_encode h :
  length (ph_session_id h) = SESSION_ID_LEN -> length (PacketHeader_encode h) = HEADER_LEN.
Proof.
  intros Hs. rewrite PacketHeader_encode_app by done.
  autorewrite with tunnel_len. rewrite Hs. done.
Qed.

Lemma InnerPlaintext_encode_app p :
  InnerPlaintext_wf p ->
  InnerPlaintext_encode p =
    [MessageType_as_u8 (ip_msg_type p); Direction_as_u8 (ip_direction p)] ++ ip_payload p.
Proof.
  unfold InnerPlaintext_wf, InnerPlaintext_encode, PAYLOAD_LEN. intros Hp.
  assert (INNER_PLAINTEXT_LEN = 1247) as Hi by done.
  rewrite write_at_zeros_0 by dims.
  rewrite write_at_zeros by dims.
  rewrite write_at_zeros by dims.
  replace (_ - length (ip_payload p)) with 0 by dims.
  by rewrite zeros_0, app_nil_r.
Qed.

Lemma length_InnerPlaintext_encode p :
  InnerPlaintext_wf p -> length (InnerPlaintext_encode p) = INNER_PLAINTEXT_LEN.
Proof.
  intros Hp. rewrite InnerPlaintext_encode_app by done.
  autorewrite with tunnel_len. rewrite Hp. done.
Qed.

Lemma WirePacket_from_parts_app header region :
  length header = HEADER_LEN -> byte_at 0 header = PROTOCOL_VERSION ->
  length region = PACKET_SIZE - HEADER_LEN ->
  WirePacket_from_parts header region = Ok (mkWirePacket (header ++ region)).
Proof.
  intros Hh Hv Hr. unfold WirePacket_from_parts.
  rewrite Hv, bool_decide_true by done. simpl negb. cbv iota.
  rewrite Hr, Nat.eqb_refl. simpl negb. cbv iota.
  do 2 f_equal.
  rewrite write_at_zeros_0 by dims.
  rewrite write_at_zeros by dims.
  rewrite Hh, Hr, Nat.sub_diag. by rewrite zeros_0, app_nil_r.
Qed.

(** ** Splitting a buffer *)

Lemma slice_split a b l : a <= b -> drop a l = slice a b l ++ drop b l.
Proof.
  intros H. unfold slice. rewrite <- (take_drop (b - a) (drop a l)) at 1.
  f_equal. rewrite drop_drop. f_equal. lia.
Qed.

Lemma byte_at_split i l : i < length l -> drop i l = byte_at i l :: drop (S i) l.
Proof.
  intros H. destruct (lookup_lt_is_Some_2 l i H) as [b Hb].
  unfold byte_at. rewrite Hb. simpl. by apply drop_S.
Qed.

Lemma take_HEADER_split data :
  HEADER_LEN <= length data ->
  take HEADER_LEN data =
    [byte_at 0 data] ++ slice 1 (1 + SESSION_ID_LEN) data
      ++ slice (1 + SESSION_ID_LEN) (1 + SESSION_ID_LEN + PACKET_NONCE_LEN) data.
Proof.
  intros H. assert (HEADER_LEN = 17) as E by done.
  rewrite <- (drop_0 data) at 1. rewrite byte_at_split by lia.
  rewrite (slice_split 1 (1 + SESSION_ID_LEN)) by lia.
  rewrite (slice_split (1 + SESSION_ID_LEN) (1 + SESSION_ID_LEN + PACKET_NONCE_LEN)) by lia.
  rewrite (app_assoc (slice _ _ _)), app_comm_cons.
  rewrite take_app_le by dims.
  apply take_ge. dims.
Qed.

(** ** Decoding inverts encoding, exactly *)

Lemma PacketHeader_decode_encode h rest :
  PacketHeader_wf h -> ph_version h = PROTOCOL_VERSION ->
  PacketHeader_decode (PacketHeader_encode h ++ rest) = Ok h.
Proof.
  intros [Hs Hn] Hv. unfold PacketHeader_decode.
  rewrite length_app, length_PacketHeader_encode by done.
  replace (HEADER_LEN + length rest <? HEADER_LEN) with false by lia.
  rewrite PacketHeader_encode_app by done. rewrite <- !app_assoc.
  change (byte_at 0 _) with (ph_version h).
  rewrite bool_decide_true by done. simpl negb. cbv iota.
  rewrite (slice_exact [_] (ph_session_id h)) by dims.
  rewrite (app_assoc [_]).
  rewrite (slice_exact _ (be_bytes 8 _)) by (rewrite ?length_app, ?Hs; done).
  rewrite be_val_be_bytes_small by apply Hn. by destruct h.
Qed.

Lemma PacketHeader_decode_inv data h :
  PacketHeader_decode data = Ok h ->
  HEADER_LEN <= length data /\ PacketHeader_wf h /\ ph_version h = PROTOCOL_VERSION /\
  take HEADER_LEN data = PacketHeader_encode h.
Proof.
  unfold PacketHeader_decode. intros H. split_matches.
  assert (HEADER_LEN = 17) as E by done.
  assert (HEADER_LEN <= length data) as Hl by lia.
  assert (length (slice 1 (1 + SESSION_ID_LEN) data) = SESSION_ID_LEN) as Hs.
  { unfold SESSION_ID_LEN. rewrite length_slice; lia. }
  pose proof (be_val_range
    (slice (1 + SESSION_ID_LEN) (1 + SESSION_ID_LEN + PACKET_NONCE_LEN) data)) as Hr.
  assert (length (slice (1 + SESSION_ID_LEN) (1 + SESSION_ID_LEN + PACKET_NONCE_LEN) data) = 8) as H8.
  { unfold SESSION_ID_LEN, PACKET_NONCE_LEN. rewrite length_slice; lia. }
  rewrite H8 in Hr. split; [done|]. split; [split; [done|exact Hr]|].
  split; [by apply bool_decide_eq_true in H1|].
  rewrite PacketHeader_encode_app by done. simpl ph_version. simpl ph_session_id. simpl ph_packet_nonce.
  rewrite <- H8 at 1. rewrite be_bytes_be_val. by apply take_HEADER_split.
Qed.

Lemma WirePacket_parse_header_app h ct :
  PacketHeader_wf h -> ph_version h = PROTOCOL_VERSION ->
  WirePacket_parse_header (mkWirePacket (PacketHeader_encode h ++ ct)) = Ok h.
Proof.
  intros Hwf Hv. unfold WirePacket_parse_header. cbn [as_bytes].
  pose proof (length_PacketHeader_encode h (proj1 Hwf)) as Hl.
  rewrite slice_app_l by lia. rewrite <- Hl, slice_all, <- (app_nil_r (PacketHeader_encode h)).
  by apply PacketHeader_decode_encode.
Qed.

Lemma InnerPlaintext_decode_encode p :
  InnerPlaintext_wf p -> InnerPlaintext_decode (InnerPlaintext_encode p) = Ok p.
Proof.
  intros Hp. unfold InnerPlaintext_decode.
  rewrite length_InnerPlaintext_encode, Nat.eqb_refl by done. simpl negb. cbv iota.
  rewrite InnerPlaintext_encode_app by done.
  change (byte_at 0 _) with (MessageType_as_u8 (ip_msg_type p)).
  change (byte_at 1 _) with (Direction_as_u8 (ip_direction p)).
  rewrite MessageType_from_as, Direction_from_as. simpl mbind. cbv beta iota.
  unfold slice. simpl drop. rewrite drop_0, take_ge by (rewrite Hp; dims). by destruct p.
Qed.

Lemma InnerPlaintext_decode_inv data p :
  InnerPlaintext_decode data = Ok p ->
  InnerPlaintext_wf p /\ data = InnerPlaintext_encode p.
Proof.
  unfold InnerPlaintext_decode. intros H. split_matches.
  assert (INNER_PLAINTEXT_LEN = 1247) as E by done.
  apply Nat.eqb_eq in H0.
  apply bind_ok in H as (m & Hm & H). apply bind_ok in H as (d & Hd & H). simplify_res.
  assert (InnerPlaintext_wf (mkInnerPlaintext m d (slice 2 (2 + PAYLOAD_LEN) data))) as Hwf.
  { unfold InnerPlaintext_wf, PAYLOAD_LEN. simpl ip_payload. rewrite length_slice; lia. }
  split; [done|]. rewrite InnerPlaintext_encode_app by done. simpl.
  rewrite (MessageType_as_from _ _ Hm), (Direction_as_from _ _ Hd).
  rewrite <- (drop_0 data) at 1. rewrite byte_at_split by lia.
  rewrite byte_at_split by lia. do 2 f_equal.
  rewrite (slice_split 2 (2 + PAYLOAD_LEN)) by lia.
  rewrite (drop_ge data (2 + PAYLOAD_LEN)) by (unfold PAYLOAD_LEN; lia).
  by rewrite app_nil_r.
Qed.

Lemma WirePacket_parts_roundtrip w :
  WirePacket_wf w ->
  as_bytes w = WirePacket_header_bytes w ++ WirePacket_ciphertext w ++ WirePacket_tag w.
Proof.
  intros Hw. unfold WirePacket_header_bytes, WirePacket_ciphertext, WirePacket_tag.
  rewrite <- slice_split by lia.
  rewrite <- (drop_0 (as_bytes w)) at 1. apply slice_split. lia.
Qed.

Lemma WirePacket_region w :
  WirePacket_aead_region w = WirePacket_ciphertext w ++ WirePacket_tag w.
Proof. apply slice_split. lia. Qed.

Lemma WirePacket_app_parts header region :
  length header = HEADER_LEN ->
  WirePacket_header_bytes (mkWirePacket (header ++ region)) = header /\
  WirePacket_aead_region (mkWirePacket (header ++ region)) = region.
Proof.
  intros Hh. unfold WirePacket_header_bytes, WirePacket_aead_region. simpl as_bytes.
  rewrite slice_app_l by lia. rewrite <- Hh. split; [apply slice_all|apply drop_app_length].
Qed.

Lemma WirePacket_from_parts_inv header region w :
  length header = HEADER_LEN -> WirePacket_from_parts header region = Ok w ->
  byte_at 0 header = PROTOCOL_VERSION /\ length region = PACKET_SIZE - HEADER_LEN /\
  w = mkWirePacket (header ++ region).
Proof.
  intros Hh H. assert (Hok := H). unfold WirePacket_from_parts in H. split_matches.
  apply bool_decide_eq_true in H0. apply Nat.eqb_eq in H1.
  rewrite WirePacket_from_parts_app in Hok by done.
  split; [done|]. split; [done|]. congruence.
Qed.

#[export] Hint Resolve length_PacketHeader_encode length_InnerPlaintext_encode : tunnel.

(** ** Correctness of the codec *)

(** [PacketHeader::decode] accepts exactly the buffers that start with the
    encoding of a well-formed header of the supported version, and returns that
    header: encode/decode round-trips, decoding is injective on the 17 header
    bytes, and short or wrong-version buffers are rejected. *)
Theorem PacketHeader_decode_exact data h :
  PacketHeader_decode data = Ok h <->
  HEADER_LEN <= length data /\ PacketHeader_wf h /\ ph_version h = PROTOCOL_VERSION /\
  take HEADER_LEN data = PacketHeader_encode h.
Proof.
  split; [apply PacketHeader_decode_inv|]. intros (Hl & Hwf & Hv & Ht).
  rewrite <- (take_drop HEADER_LEN data), Ht. by apply PacketHeader_decode_encode.
Qed.

(** [InnerPlaintext::decode] accepts exactly the encodings of well-formed
    inner plaintexts and inverts [encode]; every other buffer (wrong size,
    unknown type or direction byte) is rejected. *)
Theorem InnerPlaintext_decode_exact data p :
  InnerPlaintext_decode data = Ok p <->
  InnerPlaintext_wf p /\ data = InnerPlaintext_encode p.
Proof.
  split; [apply InnerPlaintext_decode_inv|]. intros [Hwf ->].
  by apply InnerPlaintext_decode_encode.
Qed.

(** [WirePacket::from_parts] succeeds exactly on a current-version header and
    an AEAD region of the right size, and then the accessors of the packet give
    back the header, and the region split into ciphertext and tag, with nothing
    of the 1280 bytes left over. *)
Theorem WirePacket_from_parts_exact header region w :
  length header = HEADER_LEN ->
  WirePacket_from_parts header region = Ok w <->
  byte_at 0 header = PROTOCOL_VERSION /\ WirePacket_wf w /\
  WirePacket_aad w = header /\
  WirePacket_ciphertext w ++ WirePacket_tag w = region.
Proof.
  intros Hh. rewrite <- WirePacket_region. split.
  - intros (Hv & Hr & ->)%WirePacket_from_parts_inv; [|done].
    destruct (WirePacket_app_parts header region Hh).
    repeat split; try done. unfold WirePacket_wf. simpl. rewrite length_app, Hh, Hr. done.
  - destruct w as [l]. intros (Hv & Hw & Ha & Hr).
    rewrite WirePacket_from_parts_app; [| done | done |].
    + rewrite <- Ha, <- Hr, WirePacket_region. unfold WirePacket_aad.
      by rewrite <- (WirePacket_parts_roundtrip _ Hw).
    + rewrite <- Hr. unfold WirePacket_aead_region. rewrite length_drop. by rewrite Hw.
Qed.

Lemma WirePacket_from_parts_exact_witness :
  exists w, WirePacket_from_parts (PacketHeader_encode (PacketHeader_new (zeros 8) 5))
              (zeros (PACKET_SIZE - HEADER_LEN)) = Ok w /\
            WirePacket_aad w = PacketHeader_encode (PacketHeader_new (zeros 8) 5).
Proof.
  eexists. split; [vm_compute; reflexivity|].
  refine (proj1 (proj2 (proj2 (proj1 (WirePacket_from_parts_exact
    (PacketHeader_encode (PacketHeader_new (zeros 8) 5))
    (zeros (PACKET_SIZE - HEADER_LEN)) _ eq_refl) _)))).
  vm_compute. reflexivity.
Defined.
