(* ===== verification/Replay.v ===== *)
(** * The sliding replay window

    [pq-tunnel-core/src/replay.rs]: the 1024-bit bitmap below the highest
    accepted counter. The window is proved to refine an abstract detector that
    remembers every accepted counter, so no counter is accepted twice and every
    fresh counter inside the window is accepted. *)

From S2P Require Import Prelude Bytes Errors.

Local Open Scope Z_scope.

Definition WINDOW_BITS : Z := 1024.
Definition WINDOW_WORDS : nat := Z.to_nat (WINDOW_BITS / 64).

Record ReplayWindow := mkReplayWindow {
  highest : option Z;
  bitmap : list Z }.

Definition ReplayWindow_new : ReplayWindow :=
  {| highest := None; bitmap := replicate WINDOW_WORDS 0 |}.

(** [set_bit] and [get_bit] on the bitmap field. *)
Definition set_bit (bm : list Z) (bit_index : Z) : list Z :=
  let word := Z.to_nat (bit_index / 64) in
  let bit := bit_index mod 64 in
  <[word := Z.lor (bm !!! word) (Z.shiftl 1 bit)]> bm.

Definition get_bit (bm : list Z) (bit_index : Z) : bool :=
  let word := Z.to_nat (bit_index / 64) in
  let bit := bit_index mod 64 in
  negb (Z.land (bm !!! word) (Z.shiftl 1 bit) =? 0).

Definition shift_right (bm : list Z) (gap : Z) : list Z :=
  let word_gap := Z.to_nat (gap / 64) in
  let bit_shift := gap mod 64 in
  let bm :=
    if (0 <? word_gap)%nat then
      let bm := for_rev word_gap WINDOW_WORDS
                  (fun i b => <[i := b !!! (i - word_gap)%nat]> b) bm in
      for_range 0 word_gap (fun i b => <[i := 0]> b) bm
    else bm in
  if 0 <? bit_shift then
    let inv := 64 - bit_shift in
    let bm := for_rev 1 WINDOW_WORDS
      (fun i b => <[i := Z.lor (wrap 64 (Z.shiftl (b !!! i) bit_shift))
                               (Z.shiftr (b !!! (i - 1)%nat) inv)]> b) bm in
    <[0%nat := wrap 64 (Z.shiftl (bm !!! 0%nat) bit_shift)]> bm
  else bm.

(** [ReplayWindow::accept]: the result and the window afterwards. *)
Definition accept (w : ReplayWindow) (counter : Z) : result CodecError () * ReplayWindow :=
  match highest w with
  | None => (Ok (), {| highest := Some counter; bitmap := bitmap w |})
  | Some h =>
      if h <? counter then
        let gap := counter - h in
        let bm :=
          if WINDOW_BITS <? gap then replicate WINDOW_WORDS 0
          else if gap =? WINDOW_BITS then
            set_bit (replicate WINDOW_WORDS 0) (WINDOW_BITS - 1)
          else set_bit (shift_right (bitmap w) gap) (gap - 1) in
        (Ok (), {| highest := Some counter; bitmap := bm |})
      else if counter =? h then (Err DecryptionFailed, w)
      else
        let offset := h - counter in
        if WINDOW_BITS <? offset then (Err DecryptionFailed, w)
        else
          let bit_index := offset - 1 in
          if get_bit (bitmap w) bit_index then (Err DecryptionFailed, w)
          else (Ok (), {| highest := highest w; bitmap := set_bit (bitmap w) bit_index |})
  end.

Definition ReplayWindow_clear (w : ReplayWindow) : ReplayWindow :=
  {| highest := None; bitmap := replicate WINDOW_WORDS 0 |}.

(** Feeding a sequence of counters, collecting the verdicts. *)
Fixpoint accept_all (w : ReplayWindow) (cs : list Z) : list bool * ReplayWindow :=
  match cs with
  | [] => ([], w)
  | c :: cs =>
      let (r, w) := accept w c in
      let (rs, w) := accept_all w cs in
      (is_ok r :: rs, w)
  end.

(** ** Abstract specification

    The detector the window approximates in constant space: it keeps every
    counter it ever accepted. *)

Record Detector := mkDetector {
  d_highest : option Z;
  d_accepted : gset Z }.

Definition Detector_new : Detector := mkDetector None ∅.

Definition Detector_fresh (d : Detector) (c : Z) : bool :=
  negb (bool_decide (c ∈ d_accepted d)) &&
  match d_highest d with None => true | Some h => h - c <=? WINDOW_BITS end.

Definition Detector_accept (d : Detector) (c : Z) : bool * Detector :=
  if Detector_fresh d c then
    (true, mkDetector (Some (match d_highest d with None => c | Some h => Z.max h c end))
                      ({[ c ]} ∪ d_accepted d))
  else (false, d).

Fixpoint Detector_accept_all (d : Detector) (cs : list Z) : list bool * Detector :=
  match cs with
  | [] => ([], d)
  | c :: cs =>
      let (r, d) := Detector_accept d c in
      let (rs, d) := Detector_accept_all d cs in
      (r :: rs, d)
  end.

(** ** Bitmap invariant and bit-level lemmas *)

(** [[u64; WINDOW_WORDS]]. *)
Definition bitmap_wf (bm : list Z) : Prop :=
  length bm = WINDOW_WORDS /\ forall i, in_range 64 (bm !!! i).

(** Bit [i] of the bitmap seen as one 1024-bit number. *)
Definition seen (bm : list Z) (i : Z) : bool :=
  Z.testbit (bm !!! Z.to_nat (i / 64)) (i mod 64).

Lemma land_pow2 x b : 0 <= b -> Z.land x (2 ^ b) = if Z.testbit x b then 2 ^ b else 0.
Proof.
  intros Hb. apply Z.bits_inj'. intros n Hn.
  rewrite Z.land_spec, Z.pow2_bits_eqb by lia.
  destruct (Z.eqb_spec b n) as [<-|Hne].
  - rewrite andb_true_r. destruct (Z.testbit x b) eqn:E; [|by rewrite Z.bits_0].
    by rewrite Z.pow2_bits_true.
  - rewrite andb_false_r. destruct (Z.testbit x b); [|by rewrite Z.bits_0].
    by rewrite Z.pow2_bits_false.
Qed.

Lemma get_bit_seen bm i : get_bit bm i = seen bm i.
Proof.
  unfold get_bit, seen. pose proof (Z.mod_pos_bound i 64 eq_refl).
  rewrite Z.shiftl_1_l, land_pow2 by lia.
  destruct (Z.testbit _ _); [|done].
  apply negb_true_iff, Z.eqb_neq. pose proof (Z.pow_pos_nonneg 2 (i mod 64)). lia.
Qed.

Lemma word_lt i : 0 <= i < WINDOW_BITS -> (Z.to_nat (i / 64) < WINDOW_WORDS)%nat.
Proof. unfold WINDOW_WORDS, WINDOW_BITS. lia. Qed.

Lemma word_bit_inj i j :
  0 <= i -> 0 <= j -> Z.to_nat (i / 64) = Z.to_nat (j / 64) -> i mod 64 = j mod 64 -> i = j.
Proof. intros. lia. Qed.

Lemma seen_set_bit bm i j :
  length bm = WINDOW_WORDS -> 0 <= i < WINDOW_BITS -> 0 <= j ->
  seen (set_bit bm i) j = (i =? j) || seen bm j.
Proof.
  intros Hl Hi Hj. unfold seen, set_bit.
  destruct (decide (Z.to_nat (i / 64) = Z.to_nat (j / 64))) as [E|E].
  - rewrite <- E, list_lookup_total_insert_eq by (rewrite Hl; exact (word_lt i Hi)).
    pose proof (Z.mod_pos_bound i 64 eq_refl). pose proof (Z.mod_pos_bound j 64 eq_refl).
    rewrite Z.lor_spec, Z.shiftl_1_l, Z.pow2_bits_eqb, orb_comm by lia. f_equal.
    destruct (Z.eqb_spec i j) as [->|Hne]; [lia|].
    apply Z.eqb_neq. intros Hm. apply Hne, word_bit_inj; lia.
  - rewrite list_lookup_total_insert_ne by done.
    destruct (Z.eqb_spec i j) as [->|]; [done|]. done.
Qed.

Lemma testbit_above x n : in_range 64 x -> 64 <= n -> Z.testbit x n = false.
Proof.
  unfold in_range. intros Hx Hn. destruct (decide (x = 0)) as [->|]; [apply Z.bits_0|].
  apply Z.bits_above_log2; [lia|].
  pose proof (Z.log2_lt_pow2 x 64) as Hlt. lia.
Qed.

Lemma testbit_shl_word x s n :
  0 <= s -> 0 <= n < 64 ->
  Z.testbit (wrap 64 (Z.shiftl x s)) n = (s <=? n) && Z.testbit x (n - s).
Proof.
  intros Hs Hn. unfold wrap. rewrite Z.mod_pow2_bits_low by lia.
  rewrite Z.shiftl_spec by lia.
  destruct (Z.leb_spec s n); [done|]. by rewrite Z.testbit_neg_r by lia.
Qed.

Lemma seen_word_shift bm wg i :
  length bm = WINDOW_WORDS -> (wg <= WINDOW_WORDS)%nat -> 0 <= i < WINDOW_BITS ->
  seen (for_range 0 wg (fun i b => <[i := 0]> b)
         (for_rev wg WINDOW_WORDS (fun i b => <[i := b !!! (i - wg)%nat]> b) bm)) i =
  (64 * Z.of_nat wg <=? i) && seen bm (i - 64 * Z.of_nat wg).
Proof.
  intros Hl Hwg Hi. pose proof (word_lt i Hi). unfold seen.
  rewrite (lookup_for_range (fun _ => 0)) by
    (rewrite (length_for_rev_insert (fun b i => b !!! (i - wg)%nat)); lia).
  rewrite (lookup_for_rev (fun b i => b !!! (i - wg)%nat)) by
    (try lia; intros i' l1 l2 Heq; apply Heq; lia).
  destruct (Z.leb_spec (64 * Z.of_nat wg) i).
  - rewrite bool_decide_false by lia. rewrite bool_decide_true by (split; [lia|done]).
    simpl. f_equal; [f_equal|]; lia.
  - rewrite bool_decide_true by lia. by rewrite Z.bits_0.
Qed.

Lemma seen_bit_shift bm bs i :
  bitmap_wf bm -> 0 < bs < 64 -> 0 <= i < WINDOW_BITS ->
  let bm' := for_rev 1 WINDOW_WORDS
      (fun i b => <[i := Z.lor (wrap 64 (Z.shiftl (b !!! i) bs))
                               (Z.shiftr (b !!! (i - 1)%nat) (64 - bs))]> b) bm in
  seen (<[0%nat := wrap 64 (Z.shiftl (bm' !!! 0%nat) bs)]> bm') i =
  (bs <=? i) && seen bm (i - bs).
Proof.
  intros [Hl Hr] Hbs Hi bm'. pose proof (word_lt i Hi) as Hw.
  pose proof (Z.mod_pos_bound i 64 eq_refl) as Hm.
  set (f := fun b (i : nat) => Z.lor (wrap 64 (Z.shiftl (b !!! i) bs))
                               (Z.shiftr ((b : list Z) !!! (i - 1)%nat) (64 - bs))).
  assert (forall j, bm' !!! j = if bool_decide (1 <= j < WINDOW_WORDS)%nat then f bm j else bm !!! j) as Hb.
  { intros j. unfold bm'. apply (lookup_for_rev f); [|lia].
    intros k l1 l2 Heq. unfold f. by rewrite !Heq by lia. }
  assert (length bm' = WINDOW_WORDS) as Hl'.
  { unfold bm'. by rewrite (length_for_rev_insert f). }
  unfold seen. destruct (decide (Z.to_nat (i / 64) = 0%nat)) as [E|E].
  - rewrite E, list_lookup_total_insert_eq by (rewrite Hl'; unfold WINDOW_WORDS, WINDOW_BITS; lia).
    rewrite Hb, bool_decide_false by lia. rewrite testbit_shl_word by lia.
    assert (i / 64 = 0) as E' by lia. assert (i mod 64 = i) as -> by lia.
    destruct (Z.leb_spec bs i); [|done]. simpl. f_equal; [f_equal|]; lia.
  - rewrite list_lookup_total_insert_ne by done.
    rewrite Hb, bool_decide_true by lia. unfold f.
    rewrite Z.lor_spec, testbit_shl_word, Z.shiftr_spec by lia.
    assert (bs <= i) by lia. replace (bs <=? i) with true by lia. simpl.
    destruct (Z.leb_spec bs (i mod 64)) as [Hc|Hc]; simpl.
    + rewrite (testbit_above _ (i mod 64 + (64 - bs)) (Hr _)), orb_false_r by lia.
      f_equal; [f_equal|]; lia.
    + f_equal; [f_equal|]; lia.
Qed.

(** ** The operations keep sixteen 64-bit words *)

Lemma lor_range a b : in_range 64 a -> in_range 64 b -> in_range 64 (Z.lor a b).
Proof.
  unfold in_range. intros Ha Hb.
  assert (0 <= Z.lor a b) by (apply Z.lor_nonneg; lia). split; [done|].
  destruct (decide (Z.lor a b = 0)) as [->|]; [lia|].
  apply Z.log2_lt_pow2; [lia|]. rewrite Z.log2_lor by lia.
  assert (forall x, 0 <= x < 2 ^ 64 -> Z.log2 x < 64) as Hlog.
  { intros x Hx. destruct (decide (x = 0)) as [->|]; [simpl; lia|].
    apply Z.log2_lt_pow2; lia. }
  pose proof (Hlog a Ha). pose proof (Hlog b Hb). lia.
Qed.

Lemma shiftr_range a n : 0 <= n -> in_range 64 a -> in_range 64 (Z.shiftr a n).
Proof.
  unfold in_range. intros Hn Ha. rewrite Z.shiftr_div_pow2 by lia.
  pose proof (Z.pow_pos_nonneg 2 n). split; [apply Z.div_pos; lia|].
  eapply Z.le_lt_trans; [|apply Ha]. apply Z.div_le_upper_bound; nia.
Qed.

Lemma pow2_range b : 0 <= b < 64 -> in_range 64 (Z.shiftl 1 b).
Proof.
  intros Hb. rewrite Z.shiftl_1_l. unfold in_range.
  split; [lia|]. apply Z.pow_lt_mono_r; lia.
Qed.

Lemma zero_range : in_range 64 0.
Proof. done. Qed.

#[local] Hint Resolve lor_range shiftr_range pow2_range zero_range : tunnel.

Lemma bitmap_wf_insert bm i x :
  bitmap_wf bm -> in_range 64 x -> bitmap_wf (<[i := x]> bm).
Proof.
  intros [Hl Hr] Hx. split; [by rewrite length_insert|].
  intros j. rewrite list_lookup_total_insert. by case_decide.
Qed.

Lemma bitmap_wf_zero : bitmap_wf (replicate WINDOW_WORDS 0).
Proof.
  split; [apply length_replicate|]. intros i.
  destruct (decide (i < WINDOW_WORDS)%nat).
  - by rewrite lookup_total_replicate_2.
  - rewrite list_lookup_total_alt, lookup_ge_None_2; [done|]. rewrite length_replicate. lia.
Qed.

Lemma set_bit_wf bm i : bitmap_wf bm -> bitmap_wf (set_bit bm i).
Proof.
  intros Hwf. apply bitmap_wf_insert; [done|]. destruct Hwf as [_ Hr].
  pose proof (Z.mod_pos_bound i 64 eq_refl). auto with tunnel.
Qed.

Lemma bitmap_wf_for_rev (f : list Z -> nat -> Z) lo hi bm :
  (forall b i, bitmap_wf b -> in_range 64 (f b i)) ->
  bitmap_wf bm -> bitmap_wf (for_rev lo hi (fun i b => <[i := f b i]> b) bm).
Proof.
  intros Hf. unfold for_rev. generalize (hi - lo)%nat as n. intros n. revert bm.
  induction n as [|n IH]; intros bm Hwf; simpl; [done|].
  apply IH, bitmap_wf_insert; auto.
Qed.

Lemma bitmap_wf_for_range (f : list Z -> nat -> Z) lo hi bm :
  (forall b i, bitmap_wf b -> in_range 64 (f b i)) ->
  bitmap_wf bm -> bitmap_wf (for_range lo hi (fun i b => <[i := f b i]> b) bm).
Proof.
  intros Hf. unfold for_range. generalize (hi - lo)%nat as n. intros n. revert lo bm.
  induction n as [|n IH]; intros lo bm Hwf; simpl; [done|].
  apply IH, bitmap_wf_insert; auto.
Qed.

Lemma word_shift_wf wg bm :
  bitmap_wf bm ->
  bitmap_wf (for_range 0 wg (fun i b => <[i := 0]> b)
    (for_rev wg WINDOW_WORDS (fun i b => <[i := b !!! (i - wg)%nat]> b) bm)).
Proof.
  intros Hwf. apply (bitmap_wf_for_range (fun _ _ => 0)); [done|].
  apply (bitmap_wf_for_rev (fun b i => b !!! (i - wg)%nat)); [|done].
  intros b i [_ Hr]. apply Hr.
Qed.

Lemma shift_right_wf bm gap : bitmap_wf bm -> bitmap_wf (shift_right bm gap).
Proof.
  intros Hwf. unfold shift_right. pose proof (Z.mod_pos_bound gap 64 eq_refl).
  set (b1 := if (0 <? _)%nat then _ else bm).
  assert (bitmap_wf b1) as Hb.
  { unfold b1. destruct (0 <? _)%nat; [apply word_shift_wf|]; exact Hwf. }
  destruct (0 <? gap mod 64) eqn:E; [|exact Hb].
  assert (0 <= 64) by lia.
  apply bitmap_wf_insert; [|by apply wrap_range].
  apply (bitmap_wf_for_rev (fun b i => Z.lor (wrap 64 (Z.shiftl (b !!! i) (gap mod 64)))
    (Z.shiftr (b !!! (i - 1)%nat) (64 - gap mod 64)))); [|done].
  intros b' i [_ Hr]. apply lor_range; [by apply wrap_range|]. apply shiftr_range; [lia|apply Hr].
Qed.

Lemma seen_shift_right bm gap i :
  bitmap_wf bm -> 0 < gap < WINDOW_BITS -> 0 <= i < WINDOW_BITS ->
  seen (shift_right bm gap) i = (gap <=? i) && seen bm (i - gap).
Proof.
  intros Hwf Hg Hi. pose proof (word_lt gap ltac:(lia)) as Hw.
  unfold shift_right. set (wg := Z.to_nat (gap / 64)) in *. set (bs := gap mod 64).
  set (b1 := if (0 <? wg)%nat then _ else bm).
  assert (bitmap_wf b1) as Hb1.
  { unfold b1. destruct (0 <? wg)%nat; [apply word_shift_wf|]; exact Hwf. }
  assert (forall k, 0 <= k < WINDOW_BITS ->
    seen b1 k = (64 * Z.of_nat wg <=? k) && seen bm (k - 64 * Z.of_nat wg)) as Hs.
  { intros k Hk. unfold b1. destruct (Nat.ltb_spec 0 wg) as [Hc|Hc].
    - apply seen_word_shift; [apply Hwf|lia|done].
    - replace (64 * Z.of_nat wg) with 0 by lia.
      rewrite Z.sub_0_r. by replace (0 <=? k) with true by lia. }
  destruct (Z.ltb_spec 0 bs) as [Hc|Hc].
  - rewrite seen_bit_shift by (done || lia). destruct (Z.leb_spec bs i) as [Hle|Hle]; simpl.
    + rewrite Hs by lia. replace (64 * Z.of_nat wg <=? i - bs) with (gap <=? i) by lia.
      f_equal. f_equal. lia.
    + by replace (gap <=? i) with false by lia.
  - rewrite Hs by lia. replace (64 * Z.of_nat wg) with gap by lia. done.
Qed.

(** ** Simulation of the abstract detector *)

Definition seen_exactly (bm : list Z) (h : Z) (acc : gset Z) : Prop :=
  forall i, 0 <= i < WINDOW_BITS -> seen bm i = bool_decide (h - i - 1 ∈ acc).

Definition refines (w : ReplayWindow) (d : Detector) : Prop :=
  bitmap_wf (bitmap w) /\ highest w = d_highest d /\
  match highest w with
  | None => d_accepted d = ∅ /\
            forall i, 0 <= i < WINDOW_BITS -> seen (bitmap w) i = false
  | Some h => h ∈ d_accepted d /\ (forall c, c ∈ d_accepted d -> c <= h) /\
              seen_exactly (bitmap w) h (d_accepted d)
  end.

Lemma seen_zero i :
  0 <= i < WINDOW_BITS -> seen (replicate WINDOW_WORDS 0) i = false.
Proof.
  intros Hi. unfold seen. rewrite lookup_total_replicate_2 by by apply word_lt.
  apply Z.bits_0.
Qed.

Lemma refines_new : refines ReplayWindow_new Detector_new.
Proof.
  split; [apply bitmap_wf_zero|]. split; [done|]. split; [done|]. apply seen_zero.
Qed.

(** Advancing the window to a counter above the highest one. *)
Lemma seen_exactly_advance bm h c acc :
  bitmap_wf bm -> h < c -> h ∈ acc -> (forall c, c ∈ acc -> c <= h) ->
  seen_exactly bm h acc ->
  seen_exactly
    (if WINDOW_BITS <? c - h then replicate WINDOW_WORDS 0
     else if c - h =? WINDOW_BITS then set_bit (replicate WINDOW_WORDS 0) (WINDOW_BITS - 1)
     else set_bit (shift_right bm (c - h)) (c - h - 1)) c ({[ c ]} ∪ acc).
Proof.
  intros Hwf Hc Hh Hmax Hs i Hi.
  assert (WINDOW_BITS = 1024) as HW by done.
  assert (bool_decide (c - i - 1 ∈ ({[ c ]} ∪ acc : gset Z)) = bool_decide (c - i - 1 ∈ acc)) as ->.
  { apply bool_decide_ext. rewrite elem_of_union, elem_of_singleton.
    split; [intros [?|?]; [lia|done]|by right]. }
  destruct (Z.ltb_spec WINDOW_BITS (c - h)); [|destruct (Z.eqb_spec (c - h) WINDOW_BITS)].
  - rewrite seen_zero, bool_decide_false by (done || intros ?%Hmax; lia). done.
  - rewrite seen_set_bit by (apply bitmap_wf_zero || lia). rewrite seen_zero, orb_false_r by done.
    destruct (Z.eqb_spec (WINDOW_BITS - 1) i).
    + rewrite bool_decide_true; [done|]. by replace (c - i - 1) with h by lia.
    + rewrite bool_decide_false; [done|]. intros ?%Hmax. lia.
  - rewrite seen_set_bit by (try apply shift_right_wf; done || lia).
    rewrite seen_shift_right by (done || lia).
    destruct (Z.eqb_spec (c - h - 1) i); simpl.
    + rewrite bool_decide_true; [done|]. by replace (c - i - 1) with h by lia.
    + destruct (Z.leb_spec (c - h) i); simpl.
      * rewrite Hs by lia. by replace (h - (i - (c - h)) - 1) with (c - i - 1) by lia.
      * rewrite bool_decide_false; [done|]. intros ?%Hmax. lia.
Qed.

(** Marking a counter inside the window. *)
Lemma seen_exactly_mark bm h c acc :
  bitmap_wf bm -> c < h -> h - c <= WINDOW_BITS -> seen_exactly bm h acc ->
  seen_exactly (set_bit bm (h - c - 1)) h ({[ c ]} ∪ acc).
Proof.
  intros Hwf Hc Hw Hs i Hi.
  rewrite seen_set_bit by (apply Hwf || lia). rewrite Hs by lia.
  destruct (Z.eqb_spec (h - c - 1) i); simpl.
  - rewrite bool_decide_true; [done|]. apply elem_of_union_l, elem_of_singleton. lia.
  - apply bool_decide_ext. rewrite elem_of_union, elem_of_singleton.
    split; [by right|intros [?|?]; [lia|done]].
Qed.

Lemma accept_refines w d c :
  refines w d ->
  is_ok (accept w c).1 = (Detector_accept d c).1 /\
  refines (accept w c).2 (Detector_accept d c).2.
Proof.
  destruct w as [hw bm], d as [hd acc]. intros (Hwf & Hh & H). simpl in *. subst hd.
  unfold accept, Detector_accept, Detector_fresh. simpl.
  destruct hw as [h|]; simpl.
  - destruct H as (Hin & Hmax & Hs). destruct (Z.ltb_spec h c) as [Hc|Hc].
    + rewrite bool_decide_false by (intros ?%Hmax; lia).
      replace (h - c <=? WINDOW_BITS) with true by (unfold WINDOW_BITS; lia). simpl.
      split; [done|]. rewrite Z.max_r by lia. split; [|split; [done|]].
      * simpl. destruct (WINDOW_BITS <? c - h); [apply bitmap_wf_zero|].
        destruct (c - h =? WINDOW_BITS); auto using bitmap_wf_zero, set_bit_wf, shift_right_wf.
      * simpl. split; [set_solver|]. split.
        { intros x [->%elem_of_singleton|?%Hmax]%elem_of_union; lia. }
        by apply seen_exactly_advance.
    + destruct (Z.eqb_spec c h) as [->|Hne]; simpl.
      { rewrite bool_decide_true by done. simpl. done. }
      destruct (Z.ltb_spec WINDOW_BITS (h - c)) as [Hw|Hw]; simpl.
      { replace (h - c <=? WINDOW_BITS) with false by lia. rewrite andb_false_r. done. }
      replace (h - c <=? WINDOW_BITS) with true by lia. rewrite andb_true_r.
      rewrite get_bit_seen, Hs by lia.
      replace (h - (h - c - 1) - 1) with c by lia.
      destruct (bool_decide (c ∈ acc)) eqn:E; simpl; [done|].
      split; [done|]. rewrite Z.max_l by lia. split; [by apply set_bit_wf|].
      split; [done|]. simpl. split; [set_solver|]. split.
      * intros x [->%elem_of_singleton|?%Hmax]%elem_of_union; lia.
      * apply seen_exactly_mark; [done|lia|lia|done].
  - destruct H as [-> Hz]. rewrite bool_decide_false by set_solver. simpl.
    split; [done|]. split; [done|]. split; [done|]. simpl. split; [set_solver|]. split.
    + intros x [->%elem_of_singleton|?]%elem_of_union; [lia|set_solver].
    + intros i Hi. rewrite Hz, bool_decide_false by (done || set_unfold; lia). done.
Qed.

Lemma accept_all_refines cs w d :
  refines w d ->
  (accept_all w cs).1 = (Detector_accept_all d cs).1 /\
  refines (accept_all w cs).2 (Detector_accept_all d cs).2.
Proof.
  revert w d. induction cs as [|c cs IH]; intros w d HR; [done|]. simpl.
  destruct (accept_refines w d c HR) as [He HR'].
  destruct (accept w c) as [r w'], (Detector_accept d c) as [b d']. simpl in *.
  destruct (IH w' d' HR') as [He2 HR2].
  destruct (accept_all w' cs), (Detector_accept_all d' cs). simpl in *. by subst.
Qed.

(** An accepted counter stays remembered by the detector. *)
Lemma Detector_accept_all_seen cs d c j :
  c ∈ d_accepted d -> cs !! j = Some c -> (Detector_accept_all d cs).1 !! j = Some false.
Proof.
  revert d j. induction cs as [|c' cs IH]; intros d j Hin Hj; [done|]. simpl.
  destruct (Detector_accept d c') as [b d'] eqn:E.
  destruct (Detector_accept_all d' cs) as [rs d''] eqn:E2. simpl.
  destruct j as [|j]; simpl in Hj.
  - injection Hj as ->. unfold Detector_accept, Detector_fresh in E.
    rewrite bool_decide_true in E by done. simpl in E. by injection E as <- _.
  - pose proof (IH d' j) as IH'. rewrite E2 in IH'. simpl. apply IH'; [|done].
    unfold Detector_accept in E. case_match; simplify_eq; set_solver.
Qed.

Lemma Detector_no_double cs d i j c :
  (i < j)%nat -> cs !! i = Some c -> cs !! j = Some c ->
  (Detector_accept_all d cs).1 !! i = Some true ->
  (Detector_accept_all d cs).1 !! j = Some false.
Proof.
  revert d i j. induction cs as [|c' cs IH]; intros d i j Hij Hi Hj; [done|]. simpl.
  destruct (Detector_accept d c') as [b d'] eqn:E.
  destruct (Detector_accept_all d' cs) as [rs d''] eqn:E2. simpl.
  destruct j as [|j]; [lia|]. simpl in *. destruct i as [|i]; simpl in *.
  - intros [= ->]. injection Hi as ->.
    pose proof (Detector_accept_all_seen cs d' c j) as Hs. rewrite E2 in Hs. apply Hs; [|done].
    unfold Detector_accept in E. case_match; simplify_eq; set_solver.
  - pose proof (IH d' i j) as IH'. rewrite E2 in IH'. apply IH'; [lia|done|done].
Qed.

(** Rejection leaves the window as it was, and is always [DecryptionFailed]. *)
Lemma accept_err w c e : (accept w c).1 = Err e -> e = DecryptionFailed /\ (accept w c).2 = w.
Proof. unfold accept. intros H. repeat (case_match; simpl in *); simplify_res; done. Qed.

(** ** Correctness of the replay window *)

(** C21: The constant-size window implements the detector that remembers every
    accepted counter: on any sequence of counters, from the empty window, it
    gives the same verdicts, i.e. a counter is accepted iff it was never
    accepted before and is at most 1024 below the highest accepted one. *)
Theorem replay_refines_detector cs :
  (accept_all ReplayWindow_new cs).1 = (Detector_accept_all Detector_new cs).1.
Proof. apply accept_all_refines, refines_new. Qed.

(** Replay protection: in any sequence of counters given to a new window, a
    counter that was accepted at one position is rejected at every later one. *)
Theorem replay_no_double_accept cs i j c :
  (i < j)%nat -> cs !! i = Some c -> cs !! j = Some c ->
  (accept_all ReplayWindow_new cs).1 !! i = Some true ->
  (accept_all ReplayWindow_new cs).1 !! j = Some false.
Proof.
  intros Hij Hi Hj. destruct (accept_all_refines cs _ _ refines_new) as [-> _].
  by apply Detector_no_double with c.
Qed.

(** The bitmap of every window reachable from [new] consists of sixteen 64-bit
    words, no shift or mask ever leaves its width, and a rejected counter leaves
    the window unchanged. *)
Theorem replay_window_wf cs c e :
  let w := (accept_all ReplayWindow_new cs).2 in
  bitmap_wf (bitmap w) /\
  ((accept w c).1 = Err e -> e = DecryptionFailed /\ (accept w c).2 = w).
Proof.
  intros w. split; [|apply accept_err].
  apply (accept_all_refines cs _ _ refines_new).
Qed.

Lemma replay_no_double_accept_witness :
  (accept_all ReplayWindow_new [5; 2000; 1999; 1999]).1 !! 3%nat = Some false.
Proof.
  apply (replay_no_double_accept [5; 2000; 1999; 1999] 2 3 1999);
    [lia | reflexivity | reflexivity | vm_compute; reflexivity].
Defined.
