(* ===== verification/Crypto.v ===== *)
(** * Cryptographic primitives and the [pq-crypto] wrappers

    The primitives themselves (ChaCha20-Poly1305, HKDF/HMAC/SHA-256, ML-KEM-768,
    ML-DSA-65, X25519) are third-party crates: the class [Primitives] lists the
    functions [pq-crypto] calls, [PrimitivesLaws] the documented facts the tunnel
    relies on (lengths, correctness of honest use). Secrecy and unforgeability
    are not part of the model. The definitions after the classes translate the
    wrappers of [pq-crypto/src/]. Randomness is an explicit argument. *)

From S2P Require Import Prelude Bytes Errors.

Local Open Scope nat_scope.

(** [b"..."]. *)
Definition b_str (s : string) : bytes := String.list_byte_of_string s.

(** ** The third-party interface

    Fallible calls return the crate's error as its [Display] text. *)

Class Primitives := {
  hkdf_sha256 : forall (salt ikm info : bytes) (n : nat), result string bytes;
  hmac_sha256 : bytes -> bytes -> bytes;
  sha256_digest : bytes -> bytes;
  chacha_encrypt : forall (key nonce msg aad : bytes), result string bytes;
  chacha_decrypt : forall (key nonce msg aad : bytes), result string bytes;
  EncapsulationKey : Type;
  DecapsulationKey : Type;
  kem_generate : forall (rand : bytes), DecapsulationKey * EncapsulationKey;
  ek_to_bytes : EncapsulationKey -> bytes;
  ek_new : bytes -> result string EncapsulationKey;
  kem_encapsulate : EncapsulationKey -> forall (rand : bytes), bytes * bytes;
  kem_decapsulate : DecapsulationKey -> bytes -> bytes;
  SigningKey : Type;
  VerifyingKey : Type;
  DsaSig : Type;
  sk_from_seed : bytes -> SigningKey;
  sk_to_seed : SigningKey -> bytes;
  verifying_key : SigningKey -> VerifyingKey;
  dsa_sign : SigningKey -> bytes -> DsaSig;
  dsa_verify : VerifyingKey -> bytes -> DsaSig -> bool;
  vk_encode : VerifyingKey -> bytes;
  vk_decode : bytes -> VerifyingKey;
  sig_encode : DsaSig -> bytes;
  sig_decode : bytes -> option DsaSig;
  StaticSecret : Type;
  x25519_secret : forall (rand : bytes), StaticSecret;
  x25519_public : StaticSecret -> bytes;
  x25519_dh : StaticSecret -> bytes -> bytes
}.

(** RFC 7748 §6.1: a shared secret is contributory unless it is all-zero. *)
Definition was_contributory (shared : bytes) : bool :=
  negb (forallb (fun b => bool_decide (b = x00)) shared).

Definition ML_KEM_768_PUBLIC_KEY_BYTES : nat := 1184.
Definition ML_KEM_768_CIPHERTEXT_BYTES : nat := 1088.
Definition ML_KEM_768_SHARED_SECRET_BYTES : nat := 32.
Definition ML_DSA_65_PUBLIC_KEY_BYTES : nat := 1952.
Definition ML_DSA_65_SIGNATURE_BYTES : nat := 3309.
Definition AEAD_KEY_BYTES : nat := 32.
Definition AEAD_NONCE_BYTES : nat := 12.
Definition AEAD_TAG_BYTES : nat := 16.

Class PrimitivesLaws (P : Primitives) : Prop := {
  hkdf_ok : forall salt ikm info n, n <= 255 * 32 ->
    exists okm, hkdf_sha256 salt ikm info n = Ok okm /\ length okm = n;
  hmac_length : forall k m, length (hmac_sha256 k m) = 32;
  sha256_length : forall m, length (sha256_digest m) = 32;
  chacha_correct : forall key nonce msg aad,
    length key = AEAD_KEY_BYTES -> length nonce = AEAD_NONCE_BYTES ->
    length msg <= 4096 ->
    exists ct, chacha_encrypt key nonce msg aad = Ok ct /\
      length ct = length msg + AEAD_TAG_BYTES /\
      chacha_decrypt key nonce ct aad = Ok msg;
  chacha_open_length : forall key nonce ct aad msg,
    chacha_decrypt key nonce ct aad = Ok msg -> length ct = length msg + AEAD_TAG_BYTES;
  ek_length : forall ek, length (ek_to_bytes ek) = ML_KEM_768_PUBLIC_KEY_BYTES;
  ek_roundtrip : forall ek, ek_new (ek_to_bytes ek) = Ok ek;
  kem_correct : forall r r',
    let '(dk, ek) := kem_generate r in
    let '(ct, ss) := kem_encapsulate ek r' in kem_decapsulate dk ct = ss;
  kem_lengths : forall ek r,
    length (kem_encapsulate ek r).1 = ML_KEM_768_CIPHERTEXT_BYTES /\
    length (kem_encapsulate ek r).2 = ML_KEM_768_SHARED_SECRET_BYTES;
  dsa_correct : forall sk m, dsa_verify (verifying_key sk) m (dsa_sign sk m) = true;
  vk_length : forall vk, length (vk_encode vk) = ML_DSA_65_PUBLIC_KEY_BYTES;
  vk_roundtrip : forall vk, vk_decode (vk_encode vk) = vk;
  sig_length : forall s, length (sig_encode s) = ML_DSA_65_SIGNATURE_BYTES;
  sig_roundtrip : forall s, sig_decode (sig_encode s) = Some s;
  x25519_public_length : forall s, length (x25519_public s) = 32;
  x25519_dh_length : forall s p, length (x25519_dh s p) = 32;
  x25519_comm : forall a b,
    x25519_dh a (x25519_public b) = x25519_dh b (x25519_public a)
}.

(** ** Key derivation ([kdf.rs]) *)

Record MasterSecret := mkMasterSecret { ms_bytes : bytes }.
Record AeadKey := mkAeadKey { ak_bytes : bytes }.
Record AeadNonce := mkAeadNonce { an_bytes : bytes }.

Section Wrappers.
Context `{P : Primitives}.

Definition kdf_derive (input salt info : bytes) (out_len : nat) : result CryptoError bytes :=
  map_err (fun e => Kdf ("expand failed: " +:+ e)) (hkdf_sha256 salt input info out_len).

Definition kdf_derive_to_bytes (N : nat) (input salt info : bytes)
    : result CryptoError bytes :=
  okm ← map_err (fun e => Kdf ("expand failed: " +:+ e)) (hkdf_sha256 salt input info N);
  if length okm =? N then Ok okm
  else Err (Kdf "output size mismatch — unreachable").

Definition derive_master_secret (kem_ss_c kem_ss_s : bytes) : result CryptoError MasterSecret :=
  let ikm := kem_ss_c ++ kem_ss_s in
  let salt := zeros 32 in
  b ← kdf_derive_to_bytes 32 ikm salt (b_str "pq-tunnel-master-v1");
  Ok (mkMasterSecret b).

Definition session_info (label session_id : bytes) : bytes := label ++ session_id.

Definition derive_client_to_server_key (master : MasterSecret) (session_id : bytes)
    : result CryptoError bytes :=
  kdf_derive_to_bytes 32 (ms_bytes master) (zeros 32)
    (session_info (b_str "pq-tunnel-c2s-v2") session_id).

Definition derive_server_to_client_key (master : MasterSecret) (session_id : bytes)
    : result CryptoError bytes :=
  kdf_derive_to_bytes 32 (ms_bytes master) (zeros 32)
    (session_info (b_str "pq-tunnel-s2c-v2") session_id).

Definition derive_nonce_prefix_c2s (master : MasterSecret) (session_id : bytes)
    : result CryptoError bytes :=
  kdf_derive_to_bytes 4 (ms_bytes master) (zeros 32)
    (session_info (b_str "pq-tunnel-nonce-c2s-v2") session_id).

Definition derive_nonce_prefix_s2c (master : MasterSecret) (session_id : bytes)
    : result CryptoError bytes :=
  kdf_derive_to_bytes 4 (ms_bytes master) (zeros 32)
    (session_info (b_str "pq-tunnel-nonce-s2c-v2") session_id).

Definition derive_handshake_init_key (kem_ss : bytes) : result CryptoError bytes :=
  kdf_derive_to_bytes 32 kem_ss (zeros 32) (b_str "pq-tunnel-init-v1").

Definition derive_handshake_init_nonce (kem_ss : bytes) : result CryptoError bytes :=
  kdf_derive_to_bytes 12 kem_ss (zeros 32) (b_str "pq-tunnel-init-nonce-v1").

Definition derive_master_secret_v2 (ss_a ss_b dh_cs : bytes) (version : byte)
    (session_id th3 : bytes) : result CryptoError MasterSecret :=
  let ikm := ss_a ++ ss_b ++ dh_cs in
  let info := b_str "pq-tunnel-master-v2" ++ [version] ++ session_id ++ th3 in
  let out := kdf_derive_to_bytes 32 ikm (zeros 32) info in
  mkMasterSecret <$> out.

Definition derive_finished_key (master : MasterSecret) (version : byte) (session_id : bytes)
    : result CryptoError bytes :=
  let info := b_str "pq-tunnel-finished-v1" ++ [version] ++ session_id in
  kdf_derive_to_bytes 32 (ms_bytes master) (zeros 32) info.

Definition compute_client_finished (finished_key th3 : bytes) : bytes :=
  take 16 (hmac_sha256 finished_key th3).

Definition build_session_nonce (prefix : bytes) (counter : Z) : bytes :=
  let nonce := zeros 12 in
  let nonce := write_at 0 prefix nonce in
  write_at 4 (be_bytes 8 counter) nonce.

(** ** AEAD ([aead.rs])

    The key constructor [new_from_slice] cannot fail on a 32-byte key. *)

Definition aead_encrypt (key : AeadKey) (nonce : AeadNonce) (plaintext aad : bytes)
    : result CryptoError bytes :=
  map_err (fun e => Aead ("encryption failed: " +:+ e))
    (chacha_encrypt (ak_bytes key) (an_bytes nonce) plaintext aad).

Definition aead_decrypt (key : AeadKey) (nonce : AeadNonce) (ciphertext aad : bytes)
    : result CryptoError bytes :=
  map_err (fun e => Aead ("decryption failed: " +:+ e))
    (chacha_decrypt (ak_bytes key) (an_bytes nonce) ciphertext aad).

Definition encrypt_no_aad (key : AeadKey) (nonce : AeadNonce) (plaintext : bytes)
    : result CryptoError bytes := aead_encrypt key nonce plaintext [].

Definition decrypt_no_aad (key : AeadKey) (nonce : AeadNonce) (ciphertext : bytes)
    : result CryptoError bytes := aead_decrypt key nonce ciphertext [].

(** ** ML-KEM-768 ([kem.rs]) *)

Record MlKemKeypair := mkMlKemKeypair {
  kem_public : EncapsulationKey;
  kem_secret : DecapsulationKey }.

Definition MlKemKeypair_generate (rand : bytes) : result CryptoError MlKemKeypair :=
  let (dk, ek) := kem_generate rand in
  Ok {| kem_public := ek; kem_secret := dk |}.

Definition MlKemPublicKey_to_bytes (pk : EncapsulationKey) : bytes := ek_to_bytes pk.

Definition MlKemPublicKey_from_bytes (b : bytes) : result CryptoError EncapsulationKey :=
  if negb (length b =? 1184) then Err (Kem "invalid kem key length")
  else map_err (fun e => Kem ("invalid kem key: " +:+ e)) (ek_new b).

Definition MlKemCiphertext_from_bytes (b : bytes) : result CryptoError bytes :=
  if negb (length b =? ML_KEM_768_CIPHERTEXT_BYTES) then Err (Kem "invalid ciphertext length")
  else Ok b.

(** Returns the shared secret and the ciphertext. *)
Definition encapsulate (pk : EncapsulationKey) (rand : bytes) : result CryptoError (bytes * bytes) :=
  let (ct, ss) := kem_encapsulate pk rand in Ok (ss, ct).

Definition decapsulate (sk : DecapsulationKey) (ct : bytes) : result CryptoError bytes :=
  Ok (kem_decapsulate sk ct).

(** ** ML-DSA-65 ([signature.rs]) *)

Record MlDsaKeypair := mkMlDsaKeypair {
  dsa_public : VerifyingKey;
  dsa_secret : SigningKey }.

Definition MlDsaKeypair_generate (rand : bytes) : result CryptoError MlDsaKeypair :=
  let sk := sk_from_seed rand in
  Ok {| dsa_public := verifying_key sk; dsa_secret := sk |}.

Definition MlDsaKeypair_from_seed (seed : bytes) : MlDsaKeypair :=
  let secret := sk_from_seed seed in
  {| dsa_public := verifying_key secret; dsa_secret := secret |}.

Definition MlDsaKeypair_to_seed (kp : MlDsaKeypair) : bytes := sk_to_seed (dsa_secret kp).

Definition MlDsaKeypair_sign (kp : MlDsaKeypair) (msg : bytes) : result CryptoError DsaSig :=
  Ok (dsa_sign (dsa_secret kp) msg).

Definition MlDsaPublicKey_encode (pk : VerifyingKey) : bytes := vk_encode pk.

Definition MlDsaPublicKey_from_bytes (b : bytes) : result CryptoError VerifyingKey :=
  if negb (length b =? ML_DSA_65_PUBLIC_KEY_BYTES) then Err (Signature "invalid dsa key length")
  else Ok (vk_decode b).

Definition MlDsaSignature_encode (s : DsaSig) : bytes := sig_encode s.

Definition MlDsaSignature_from_bytes (b : bytes) : result CryptoError DsaSig :=
  if negb (length b =? ML_DSA_65_SIGNATURE_BYTES) then Err (Signature "invalid signature length")
  else match sig_decode b with
       | Some sig => Ok sig
       | None => Err (Signature "signature decode failed")
       end.

Definition dsa_verify_msg (pk : VerifyingKey) (msg : bytes) (sig : DsaSig)
    : result CryptoError bool :=
  if dsa_verify pk msg sig then Ok true else Ok false.

(** ** X25519 ([classical.rs]) *)

Record X25519Keypair := mkX25519Keypair {
  x_public : bytes;
  x_secret : StaticSecret }.

Definition X25519Keypair_generate (rand : bytes) : X25519Keypair :=
  let secret := x25519_secret rand in
  {| x_public := x25519_public secret; x_secret := secret |}.

Definition diffie_hellman (kp : X25519Keypair) (other : bytes) : option bytes :=
  let shared := x25519_dh (x_secret kp) other in
  if negb (was_contributory shared) then None else Some shared.

(** ** Transcript hash ([transcript.rs])

    The incremental SHA-256 state is the byte string absorbed so far. *)

Record Transcript := mkTranscript { t_absorbed : bytes }.

Definition Transcript_new : Transcript := mkTranscript [].

Definition Transcript_update (t : Transcript) (data : bytes) : Transcript :=
  mkTranscript (t_absorbed t ++ data).

Definition Transcript_new_with_initial (data : bytes) : Transcript :=
  Transcript_update Transcript_new data.

Definition Transcript_challenge (t : Transcript) : bytes := sha256_digest (t_absorbed t).

Definition Transcript_into_bytes (t : Transcript) : bytes := sha256_digest (t_absorbed t).

Definition Transcript_reset (t : Transcript) : Transcript := mkTranscript [].

Definition sha256 (data : bytes) : bytes := sha256_digest data.

End Wrappers.

(** ** A concrete instance

    A transparent stand-in for the primitives that satisfies every law: it is
    what the witnesses of the development evaluate. Keys are single bytes padded
    to the wire sizes, tags and digests are checksums. *)

Module Toy.

Definition checksum (l : bytes) : Z :=
  fold_left (fun acc b => (acc * 31 + b2z b + 7) mod 65521)%Z l 1%Z.

(** [n] bytes expanded from a checksum. *)
Fixpoint stream (z : Z) (n : nat) : bytes :=
  match n with O => [] | S n => z2b z :: stream (z * 5 + 3) n end.

Definition tag (key nonce aad msg : bytes) : bytes :=
  stream (checksum (key ++ nonce ++ aad ++ msg)) 16.

Definition open (key nonce ct aad : bytes) : result string bytes :=
  let n := length ct - 16 in
  if (16 <=? length ct) && bool_decide (drop n ct = tag key nonce aad (take n ct))
  then Ok (take n ct) else Err "aead::Error".

Definition hd (l : bytes) : byte := default x00 (head l).

#[global] Instance toy_primitives : Primitives := {|
  hkdf_sha256 salt ikm info n :=
    if n <=? 255 * 32 then Ok (stream (checksum (salt ++ ikm ++ info)) n)
    else Err "invalid number of blocks, too large output";
  hmac_sha256 k m := stream (checksum (k ++ m)) 32;
  sha256_digest m := stream (checksum m) 32;
  chacha_encrypt key nonce msg aad := Ok (msg ++ tag key nonce aad msg);
  chacha_decrypt key nonce ct aad := open key nonce ct aad;
  EncapsulationKey := byte;
  DecapsulationKey := byte;
  kem_generate rand := (hd rand, hd rand);
  ek_to_bytes ek := ek :: zeros 1183;
  ek_new b := Ok (hd b);
  kem_encapsulate ek rand := (hd rand :: zeros 1087, stream (checksum [ek; hd rand]) 32);
  kem_decapsulate dk ct := stream (checksum [dk; hd ct]) 32;
  SigningKey := byte;
  VerifyingKey := byte;
  DsaSig := byte * byte;
  sk_from_seed seed := hd seed;
  sk_to_seed sk := sk :: zeros 31;
  verifying_key sk := sk;
  dsa_sign sk m := (sk, z2b (checksum m));
  dsa_verify vk m s := bool_decide (s = (vk, z2b (checksum m)));
  vk_encode vk := vk :: zeros 1951;
  vk_decode b := hd b;
  sig_encode s := s.1 :: s.2 :: zeros 3307;
  sig_decode b := Some (byte_at 0 b, byte_at 1 b);
  StaticSecret := byte;
  x25519_secret rand := hd rand;
  x25519_public s := s :: zeros 31;
  x25519_dh s p := z2b (b2z s + b2z (hd p)) :: replicate 31 x01
|}.

Lemma length_stream z n : length (stream z n) = n.
Proof. revert z. induction n as [|n IH]; intros z; simpl; [done|]. by rewrite IH. Qed.

Lemma open_seal key nonce aad msg : open key nonce (msg ++ tag key nonce aad msg) aad = Ok msg.
Proof.
  unfold open. assert (length (tag key nonce aad msg) = 16) as Ht by apply length_stream.
  rewrite length_app, Ht.
  replace (length msg + 16 - 16) with (length msg) by lia.
  replace (16 <=? length msg + 16) with true by lia. simpl.
  rewrite take_app_length, drop_app_length. by rewrite bool_decide_true.
Qed.

Lemma open_length key nonce ct aad msg :
  open key nonce ct aad = Ok msg -> length ct = length msg + 16.
Proof. unfold open. intros H. split_matches. rewrite length_take. lia. Qed.

#[global] Instance toy_laws : PrimitivesLaws toy_primitives.
Proof.
  split; cbn [hkdf_sha256 hmac_sha256 sha256_digest chacha_encrypt chacha_decrypt ek_to_bytes
    ek_new kem_generate kem_encapsulate kem_decapsulate verifying_key dsa_sign dsa_verify
    vk_encode vk_decode sig_encode sig_decode x25519_public x25519_dh toy_primitives].
  - intros salt ikm info n Hn. apply Nat.leb_le in Hn. rewrite Hn.
    eexists. split; [reflexivity|]. apply length_stream.
  - intros. apply length_stream.
  - intros. apply length_stream.
  - intros key nonce msg aad _ _ _. eexists. split; [done|]. split.
    + rewrite length_app. unfold tag. by rewrite length_stream.
    + apply open_seal.
  - intros key nonce ct aad msg. apply open_length.
  - intros. by rewrite !length_cons, length_zeros.
  - done.
  - done.
  - intros. split; [by cbn [fst]; rewrite length_cons, length_zeros|]. apply length_stream.
  - intros. by apply bool_decide_true.
  - intros. by rewrite !length_cons, length_zeros.
  - done.
  - intros. by rewrite !length_cons, length_zeros.
  - by intros [a b].
  - done.
  - done.
  - intros. by rewrite Z.add_comm.
Qed.

End Toy.

(** ** Lengths and success of the derivations *)

Section Laws.
Context {P : Primitives} {L : PrimitivesLaws P}.

Lemma kdf_derive_to_bytes_ok N input salt info :
  N <= 255 * 32 ->
  exists b, kdf_derive_to_bytes N input salt info = Ok b /\ length b = N.
Proof.
  intros HN. destruct (hkdf_ok salt input info N HN) as (okm & E & Hl).
  exists okm. unfold kdf_derive_to_bytes. rewrite E. simpl. by rewrite Hl, Nat.eqb_refl.
Qed.

Lemma kdf_derive_to_bytes_length N input salt info b :
  kdf_derive_to_bytes N input salt info = Ok b -> length b = N.
Proof.
  unfold kdf_derive_to_bytes. intros H. apply bind_ok in H as (okm & _ & H).
  split_matches. lia.
Qed.

Lemma derive_session_keys_ok master sid :
  exists kc ks pc ps,
    derive_client_to_server_key master sid = Ok kc /\
    derive_server_to_client_key master sid = Ok ks /\
    derive_nonce_prefix_c2s master sid = Ok pc /\
    derive_nonce_prefix_s2c master sid = Ok ps /\
    length kc = 32 /\ length ks = 32 /\ length pc = 4 /\ length ps = 4.
Proof.
  assert (32 <= 255 * 32 /\ 4 <= 255 * 32) as [H32 H4] by (split; apply Nat.leb_le; reflexivity).
  unfold derive_client_to_server_key, derive_server_to_client_key,
    derive_nonce_prefix_c2s, derive_nonce_prefix_s2c.
  edestruct (kdf_derive_to_bytes_ok 32) as (kc & -> & ?); [done|].
  edestruct (kdf_derive_to_bytes_ok 32) as (ks & -> & ?); [done|].
  edestruct (kdf_derive_to_bytes_ok 4) as (pc & -> & ?); [done|].
  edestruct (kdf_derive_to_bytes_ok 4) as (ps & -> & ?); [done|].
  exists kc, ks, pc, ps. done.
Qed.

End Laws.

Lemma build_session_nonce_app prefix counter :
  length prefix = 4 -> build_session_nonce prefix counter = prefix ++ be_bytes 8 counter.
Proof.
  intros Hp. unfold build_session_nonce.
  rewrite write_at_zeros_0 by lia. rewrite write_at_zeros by (rewrite ?length_be_bytes; lia).
  rewrite length_be_bytes, Hp. apply app_nil_r.
Qed.

Lemma length_build_session_nonce prefix counter :
  length prefix = 4 -> length (build_session_nonce prefix counter) = 12.
Proof. intros. rewrite build_session_nonce_app by done. len. Qed.

Lemma build_session_nonce_inj prefix c c' :
  length prefix = 4 -> in_range 64 c -> in_range 64 c' ->
  build_session_nonce prefix c = build_session_nonce prefix c' -> c = c'.
Proof.
  intros Hp Hc Hc'. rewrite !build_session_nonce_app by done.
  intros H%app_inv_head. by apply (be_bytes_inj 8).
Qed.
