(* ===== verification/Envelope.v ===== *)
(** * The AEAD envelope

    [pq-tunnel-core/src/nonce.rs] (send counter) and
    [pq-tunnel-core/src/envelope.rs] ([CipherSession]): encryption under a
    strictly increasing counter and decryption guarded by the replay window.
    Operations return their result with the session afterwards; encryption also
    returns the calls it made into the AEAD. *)

From S2P Require Import Prelude Bytes Errors Codec Replay Crypto.

Local Open Scope Z_scope.

(** ** Send counter ([nonce.rs]) *)

Record SendCounter := mkSendCounter { sc_counter : Z }.

Definition SendCounter_new : SendCounter := mkSendCounter 0.

Definition next_nonce (s : SendCounter) (prefix : bytes)
    : result CodecError AeadNonce * SendCounter :=
  if is_counter_exhausted (sc_counter s) then
    (Err (NonceExhausted (sc_counter s)), s)
  else
    let nonce := mkAeadNonce (build_session_nonce prefix (sc_counter s)) in
    match checked_add 64 (sc_counter s) 1 with
    | Some c => (Ok nonce, mkSendCounter c)
    | None => (Err (NonceExhausted (sc_counter s)), s)
    end.

(** ** Cipher session ([envelope.rs]) *)

Inductive Role := Client | Server.

Definition send_direction (r : Role) : Direction :=
  match r with Client => ClientToServer | Server => ServerToClient end.

Definition recv_direction (r : Role) : Direction :=
  match r with Client => ServerToClient | Server => ClientToServer end.

Record CipherSession := mkCipherSession {
  cs_role : Role;
  cs_session_id : bytes;
  key_c2s : AeadKey;
  key_s2c : AeadKey;
  prefix_c2s : bytes;
  prefix_s2c : bytes;
  send_counter : Z;
  replay : ReplayWindow }.

Definition set_send_counter (s : CipherSession) (c : Z) : CipherSession :=
  mkCipherSession (cs_role s) (cs_session_id s) (key_c2s s) (key_s2c s)
    (prefix_c2s s) (prefix_s2c s) c (replay s).

Definition set_replay (s : CipherSession) (w : ReplayWindow) : CipherSession :=
  mkCipherSession (cs_role s) (cs_session_id s) (key_c2s s) (key_s2c s)
    (prefix_c2s s) (prefix_s2c s) (send_counter s) w.

Definition recv_highest (s : CipherSession) : option Z := highest (replay s).

Definition send_key (s : CipherSession) : AeadKey :=
  match cs_role s with Client => key_c2s s | Server => key_s2c s end.

Definition send_prefix (s : CipherSession) : bytes :=
  match cs_role s with Client => prefix_c2s s | Server => prefix_s2c s end.

Definition recv_key (s : CipherSession) : AeadKey :=
  match cs_role s with Client => key_s2c s | Server => key_c2s s end.

Definition recv_prefix (s : CipherSession) : bytes :=
  match cs_role s with Client => prefix_s2c s | Server => prefix_c2s s end.

Section Envelope.
Context {P : Primitives}.

Definition CipherSession_new (role : Role) (master : MasterSecret) (session_id : bytes)
    : result CodecError CipherSession :=
  kc ← map_err Crypto (derive_client_to_server_key master session_id);
  ks ← map_err Crypto (derive_server_to_client_key master session_id);
  pc ← map_err Crypto (derive_nonce_prefix_c2s master session_id);
  ps ← map_err Crypto (derive_nonce_prefix_s2c master session_id);
  Ok {| cs_role := role; cs_session_id := session_id;
        key_c2s := mkAeadKey kc; key_s2c := mkAeadKey ks;
        prefix_c2s := pc; prefix_s2c := ps;
        send_counter := 0; replay := ReplayWindow_new |}.

(** A call into the AEAD, with the arguments it was given, and the call itself:
    [encrypt] reaches the cipher only through it, so the calls it returns are
    the ones that were made. *)
Record AeadCall := mkAeadCall {
  ac_key : AeadKey; ac_nonce : AeadNonce; ac_plaintext : bytes; ac_aad : bytes }.

Definition aead_call (c : AeadCall) : result CryptoError bytes * list AeadCall :=
  (aead_encrypt (ac_key c) (ac_nonce c) (ac_plaintext c) (ac_aad c), [c]).

Definition encrypt_traced (s : CipherSession) (msg_type : MessageType) (payload : bytes)
    : result CodecError WirePacket * CipherSession * list AeadCall :=
  if negb (length payload =? PAYLOAD_LEN)%nat then
    (Err (WrongLength "payload" PAYLOAD_LEN (length payload)), s, [])
  else if is_counter_exhausted (send_counter s) then
    (Err (NonceExhausted (send_counter s)), s, [])
  else
    match InnerPlaintext_new msg_type (send_direction (cs_role s)) payload with
    | Err e => (Err e, s, [])
    | Ok inner =>
        let header := PacketHeader_new (cs_session_id s) (send_counter s) in
        let aad := PacketHeader_encode header in
        let nonce := mkAeadNonce (build_session_nonce (send_prefix s) (send_counter s)) in
        let (sealed, calls) := aead_call (mkAeadCall (send_key s) nonce (InnerPlaintext_encode inner) aad) in
        match sealed with
        | Err e => (Err (Crypto e), s, calls)
        | Ok ciphertext =>
            match WirePacket_from_parts aad ciphertext with
            | Err e => (Err e, s, calls)
            | Ok packet =>
                match checked_add 64 (send_counter s) 1 with
                | None => (Err (NonceExhausted (send_counter s)), s, calls)
                | Some c => (Ok packet, set_send_counter s c, calls)
                end
            end
        end
    end.

Definition encrypt (s : CipherSession) (msg_type : MessageType) (payload : bytes)
    : result CodecError WirePacket * CipherSession :=
  (encrypt_traced s msg_type payload).1.

Definition decrypt (s : CipherSession) (packet : WirePacket)
    : result CodecError InnerPlaintext * CipherSession :=
  match WirePacket_parse_header packet with
  | Err _ => (Err Rejected, s)
  | Ok header =>
      let counter := ph_packet_nonce header in
      let nonce := mkAeadNonce (build_session_nonce (recv_prefix s) counter) in
      let aad := WirePacket_header_bytes packet in
      match aead_decrypt (recv_key s) nonce (WirePacket_aead_region packet) aad with
      | Err _ => (Err DecryptionFailed, s)
      | Ok plaintext =>
          if is_counter_exhausted counter then (Err (NonceExhausted counter), s)
          else
            let (r, w) := accept (replay s) counter in
            let s := set_replay s w in
            if negb (is_ok r) then (Err Rejected, s)
            else if negb (length plaintext =? INNER_PLAINTEXT_LEN)%nat then (Err Rejected, s)
            else
              match InnerPlaintext_decode plaintext with
              | Err _ => (Err Rejected, s)
              | Ok inner =>
                  if negb (bool_decide (ip_direction inner = recv_direction (cs_role s)))
                  then (Err Rejected, s)
                  else (Ok inner, s)
              end
      end
  end.

(** Sequences of calls on one session, with the result of each call. *)

Fixpoint encrypt_all (s : CipherSession) (msgs : list (MessageType * bytes))
    : list (result CodecError WirePacket) * CipherSession :=
  match msgs with
  | [] => ([], s)
  | (t, p) :: msgs =>
      let (r, s) := encrypt s t p in
      let (rs, s) := encrypt_all s msgs in
      (r :: rs, s)
  end.

(** The AEAD calls of such a sequence of encryptions. *)
Fixpoint encrypt_calls (s : CipherSession) (msgs : list (MessageType * bytes)) : list AeadCall :=
  match msgs with
  | [] => []
  | (t, p) :: msgs =>
      let '(_, s, calls) := encrypt_traced s t p in
      calls ++ encrypt_calls s msgs
  end.

Fixpoint decrypt_all (s : CipherSession) (ps : list WirePacket)
    : list (result CodecError InnerPlaintext) * CipherSession :=
  match ps with
  | [] => ([], s)
  | p :: ps =>
      let (r, s) := decrypt s p in
      let (rs, s) := decrypt_all s ps in
      (r :: rs, s)
  end.

(** ** Invariant *)

(** Array lengths, and the send counter never passes the rotation threshold. *)
Definition CipherSession_wf (s : CipherSession) : Prop :=
  length (cs_session_id s) = SESSION_ID_LEN /\
  length (ak_bytes (key_c2s s)) = AEAD_KEY_BYTES /\
  length (ak_bytes (key_s2c s)) = AEAD_KEY_BYTES /\
  length (prefix_c2s s) = 4%nat /\ length (prefix_s2c s) = 4%nat /\
  0 <= send_counter s <= MAX_PACKET_NONCE.

(** The header counter of a packet ([parse_header] then [packet_nonce]). *)
Definition packet_counter (p : WirePacket) : option Z :=
  match WirePacket_parse_header p with Ok h => Some (ph_packet_nonce h) | Err _ => None end.

(** The packets a run of [encrypt_all] emitted. *)
Fixpoint emitted (rs : list (result CodecError WirePacket)) : list WirePacket :=
  match rs with
  | [] => []
  | Ok p :: rs => p :: emitted rs
  | Err _ :: rs => emitted rs
  end.

(** Two ends of one tunnel: same keys and session id, opposite roles. *)
Definition paired (a b : CipherSession) : Prop :=
  cs_session_id a = cs_session_id b /\
  key_c2s a = key_c2s b /\ key_s2c a = key_s2c b /\
  prefix_c2s a = prefix_c2s b /\ prefix_s2c a = prefix_s2c b /\
  cs_role a <> cs_role b.

Lemma paired_keys a b :
  paired a b ->
  send_key a = recv_key b /\ send_prefix a = recv_prefix b /\
  send_direction (cs_role a) = recv_direction (cs_role b).
Proof.
  intros (_ & Hc & Hs & Hpc & Hps & Hr). unfold send_key, recv_key, send_prefix, recv_prefix.
  destruct (cs_role a), (cs_role b); try done; by rewrite ?Hc, ?Hs, ?Hpc, ?Hps.
Qed.

Lemma send_key_length s : CipherSession_wf s -> length (ak_bytes (send_key s)) = AEAD_KEY_BYTES.
Proof. intros (_ & ? & ? & _). unfold send_key. by destruct (cs_role s). Qed.

Lemma send_prefix_length s : CipherSession_wf s -> length (send_prefix s) = 4%nat.
Proof. intros (_ & _ & _ & ? & ? & _). unfold send_prefix. by destruct (cs_role s). Qed.

Lemma MAX_PACKET_NONCE_lt : MAX_PACKET_NONCE < umax 64.
Proof. done. Qed.

Lemma checked_add_counter c :
  0 <= c < MAX_PACKET_NONCE -> checked_add 64 c 1 = Some (c + 1).
Proof.
  intros H. unfold checked_add. pose proof MAX_PACKET_NONCE_lt.
  by replace (c + 1 <=? umax 64) with true by lia.
Qed.

Lemma PacketHeader_new_wf sid c :
  length sid = SESSION_ID_LEN -> 0 <= c <= MAX_PACKET_NONCE -> PacketHeader_wf (PacketHeader_new sid c).
Proof.
  intros Hs Hc. split; [done|]. pose proof MAX_PACKET_NONCE_lt.
  unfold umax, in_range in *. simpl ph_packet_nonce. lia.
Qed.

Section WithLaws.
Context {L : PrimitivesLaws P}.

Lemma CipherSession_new_ok role master sid :
  length sid = SESSION_ID_LEN ->
  exists s, CipherSession_new role master sid = Ok s /\ CipherSession_wf s /\
    cs_role s = role /\ cs_session_id s = sid /\ send_counter s = 0 /\
    replay s = ReplayWindow_new.
Proof.
  intros Hs. unfold CipherSession_new.
  destruct (derive_session_keys_ok master sid) as
    (kc & ks & pc & ps & -> & -> & -> & -> & ? & ? & ? & ?).
  simpl. eexists. split; [reflexivity|]. repeat split; try done; simpl; lia.
Qed.

(** The call [encrypt] is to make for a message. *)
Definition message_call (s : CipherSession) (t : MessageType) (payload : bytes) : AeadCall :=
  mkAeadCall (send_key s) (mkAeadNonce (build_session_nonce (send_prefix s) (send_counter s)))
    (InnerPlaintext_encode (mkInnerPlaintext t (send_direction (cs_role s)) payload))
    (PacketHeader_encode (PacketHeader_new (cs_session_id s) (send_counter s))).

(** What one successful [encrypt] call produces, and that it succeeds exactly
    below the threshold. *)
Lemma encrypt_traced_ok s t payload :
  CipherSession_wf s -> length payload = PAYLOAD_LEN -> send_counter s < MAX_PACKET_NONCE ->
  exists ct,
    encrypt_traced s t payload =
      (Ok (mkWirePacket (PacketHeader_encode (PacketHeader_new (cs_session_id s) (send_counter s)) ++ ct)),
       set_send_counter s (send_counter s + 1), [message_call s t payload]) /\
    length ct = (PACKET_SIZE - HEADER_LEN)%nat /\
    (aead_call (message_call s t payload)).1 = Ok ct /\
    aead_decrypt (send_key s)
      (mkAeadNonce (build_session_nonce (send_prefix s) (send_counter s))) ct
      (PacketHeader_encode (PacketHeader_new (cs_session_id s) (send_counter s))) =
    Ok (InnerPlaintext_encode (mkInnerPlaintext t (send_direction (cs_role s)) payload)).
Proof.
  intros Hwf Hp Hc. assert (Hwf' := Hwf). destruct Hwf' as (Hsid & _ & _ & _ & _ & Hr).
  set (h := PacketHeader_new (cs_session_id s) (send_counter s)).
  set (inner := mkInnerPlaintext t (send_direction (cs_role s)) payload).
  set (n := build_session_nonce (send_prefix s) (send_counter s)).
  assert (length (PacketHeader_encode h) = HEADER_LEN) as Hh
    by by apply length_PacketHeader_encode.
  assert (length (InnerPlaintext_encode inner) = INNER_PLAINTEXT_LEN) as Hi
    by by apply length_InnerPlaintext_encode.
  destruct (chacha_correct (ak_bytes (send_key s)) n (InnerPlaintext_encode inner)
    (PacketHeader_encode h)) as (ct & He & Hl & Hd).
  { by apply send_key_length. }
  { apply length_build_session_nonce. by apply send_prefix_length. }
  { rewrite Hi. apply Nat.leb_le. reflexivity. }
  exists ct. assert (length ct = (PACKET_SIZE - HEADER_LEN)%nat) as Hct by (rewrite Hl, Hi; done).
  split; [|split; [done|split; [|unfold aead_decrypt; simpl; by rewrite Hd]]].
  2: { unfold message_call, aead_call, aead_encrypt. cbn [fst ac_key ac_nonce ac_plaintext ac_aad].
       cbn [an_bytes]. fold h n inner. by rewrite He. }
  unfold message_call. unfold encrypt_traced, aead_call. rewrite Hp, Nat.eqb_refl. simpl negb. cbv iota.
  unfold is_counter_exhausted.
  replace (MAX_PACKET_NONCE <=? send_counter s) with false by lia.
  unfold InnerPlaintext_new. rewrite Hp, Nat.eqb_refl. simpl negb. cbv iota.
  cbn [ac_key ac_nonce ac_plaintext ac_aad].
  unfold aead_encrypt. simpl ak_bytes. simpl an_bytes. fold h n inner. rewrite He. cbn [map_err].
  rewrite WirePacket_from_parts_app; [|done|by rewrite PacketHeader_encode_app|done].
  by rewrite checked_add_counter by lia.
Qed.

Lemma encrypt_ok s t payload :
  CipherSession_wf s -> length payload = PAYLOAD_LEN -> send_counter s < MAX_PACKET_NONCE ->
  exists ct,
    encrypt s t payload =
      (Ok (mkWirePacket (PacketHeader_encode (PacketHeader_new (cs_session_id s) (send_counter s)) ++ ct)),
       set_send_counter s (send_counter s + 1)) /\
    length ct = (PACKET_SIZE - HEADER_LEN)%nat /\
    aead_decrypt (send_key s)
      (mkAeadNonce (build_session_nonce (send_prefix s) (send_counter s))) ct
      (PacketHeader_encode (PacketHeader_new (cs_session_id s) (send_counter s))) =
    Ok (InnerPlaintext_encode (mkInnerPlaintext t (send_direction (cs_role s)) payload)).
Proof.
  intros Hwf Hp Hc. destruct (encrypt_traced_ok s t payload Hwf Hp Hc) as (ct & E & Hl & _ & Hd).
  exists ct. unfold encrypt. by rewrite E.
Qed.

Lemma encrypt_err s t payload e :
  (encrypt s t payload).1 = Err e -> (encrypt s t payload).2 = s.
Proof. unfold encrypt, encrypt_traced. intros H. repeat (case_match; simpl in *); done. Qed.

(** A refused message never reaches the cipher. *)
Lemma encrypt_refused_traced s t payload :
  length payload <> PAYLOAD_LEN \/ MAX_PACKET_NONCE <= send_counter s ->
  exists e, encrypt_traced s t payload = (Err e, s, []).
Proof.
  unfold encrypt_traced, is_counter_exhausted. intros H.
  destruct (Nat.eqb_spec (length payload) PAYLOAD_LEN); simpl; [|by eexists].
  replace (MAX_PACKET_NONCE <=? send_counter s) with true by lia. by eexists.
Qed.

Lemma encrypt_refused s t payload :
  length payload <> PAYLOAD_LEN \/ MAX_PACKET_NONCE <= send_counter s ->
  is_ok (encrypt s t payload).1 = false.
Proof.
  intros H. destruct (encrypt_refused_traced s t payload H) as [e E]. unfold encrypt. by rewrite E.
Qed.

(** Every call either fails without effect or emits one packet carrying the
    current counter and advances the counter by one. *)
Lemma encrypt_step s t payload :
  CipherSession_wf s ->
  (exists e, encrypt s t payload = (Err e, s)) \/
  (send_counter s < MAX_PACKET_NONCE /\ exists p,
    encrypt s t payload = (Ok p, set_send_counter s (send_counter s + 1)) /\
    packet_counter p = Some (send_counter s)).
Proof.
  intros Hwf.
  destruct (decide (length payload = PAYLOAD_LEN)) as [Hp|Hp];
    [destruct (decide (send_counter s < MAX_PACKET_NONCE)) as [Hc|Hc]|].
  - right. split; [done|]. destruct (encrypt_ok s t payload Hwf Hp Hc) as (ct & E & Hct & _).
    eexists. split; [exact E|]. destruct Hwf as (Hsid & _ & _ & _ & _ & Hr).
    unfold packet_counter. rewrite WirePacket_parse_header_app; [done| |done].
    apply PacketHeader_new_wf; [done|lia].
  - left. pose proof (encrypt_refused s t payload ltac:(right; lia)) as Hr.
    destruct (encrypt s t payload) as [[?|e] s'] eqn:E; [done|].
    exists e. f_equal. pose proof (encrypt_err s t payload e) as He. rewrite E in He. by apply He.
  - left. pose proof (encrypt_refused s t payload ltac:(by left)) as Hr.
    destruct (encrypt s t payload) as [[?|e] s'] eqn:E; [done|].
    exists e. f_equal. pose proof (encrypt_err s t payload e) as He. rewrite E in He. by apply He.
Qed.

Lemma set_send_counter_wf s :
  CipherSession_wf s -> send_counter s < MAX_PACKET_NONCE ->
  CipherSession_wf (set_send_counter s (send_counter s + 1)).
Proof. intros (? & ? & ? & ? & ? & ?) ?. repeat split; try done; simpl; lia. Qed.

(** The counters of the emitted packets are consecutive. *)
Lemma encrypt_all_counters msgs s :
  CipherSession_wf s ->
  let rs := (encrypt_all s msgs).1 in
  let s' := (encrypt_all s msgs).2 in
  packet_counter <$> emitted rs =
    Some <$> seqZ (send_counter s) (Z.of_nat (length (emitted rs))) /\
  s' = set_send_counter s (send_counter s + Z.of_nat (length (emitted rs))) /\
  CipherSession_wf s'.
Proof.
  revert s. induction msgs as [|[t p] msgs IH]; intros s Hwf.
  { simpl. split; [done|]. split; [|done]. destruct s; unfold set_send_counter; simpl. f_equal. lia. }
  simpl. destruct (encrypt_step s t p Hwf) as [[e E]|(Hc & pkt & E & Hk)]; rewrite E.
  - specialize (IH s Hwf). destruct (encrypt_all s msgs) as [rs s']. exact IH.
  - specialize (IH _ (set_send_counter_wf s Hwf Hc)).
    destruct (encrypt_all _ msgs) as [rs s']. destruct IH as (IH1 & IH2 & IH3).
    cbn [fst snd emitted length send_counter set_send_counter] in *.
    split; [|split; [|done]].
    + rewrite seqZ_cons by lia. rewrite !fmap_cons, Hk, IH1. do 3 f_equal; lia.
    + rewrite IH2. unfold set_send_counter. simpl. f_equal. lia.
Qed.

(** The packet [p] carries the output of the call [c]: its header is the
    authenticated data and its body the sealed plaintext. *)
Definition carries (p : WirePacket) (c : AeadCall) : Prop :=
  (aead_call c).1 = Ok (WirePacket_aead_region p) /\ ac_aad c = WirePacket_header_bytes p.

(** The calls behind a run: one per emitted packet, under the sending key and the
    nonces of consecutive counters. *)
Lemma encrypt_calls_spec msgs s :
  CipherSession_wf s ->
  let pkts := emitted (encrypt_all s msgs).1 in
  Forall2 carries pkts (encrypt_calls s msgs) /\
  Forall (fun c => ac_key c = send_key s) (encrypt_calls s msgs) /\
  ac_nonce <$> encrypt_calls s msgs =
    (fun n => mkAeadNonce (build_session_nonce (send_prefix s) n)) <$>
      seqZ (send_counter s) (Z.of_nat (length pkts)).
Proof.
  revert s. induction msgs as [|[t p] msgs IH]; intros s Hwf; [done|].
  destruct (decide (length p = PAYLOAD_LEN /\ send_counter s < MAX_PACKET_NONCE)) as [[Hp Hc]|Hno].
  - destruct (encrypt_traced_ok s t p Hwf Hp Hc) as (ct & E & _ & Ha & _).
    specialize (IH _ (set_send_counter_wf s Hwf Hc)). cbn [encrypt_all encrypt_calls].
    unfold encrypt. rewrite E. cbn [fst]. destruct (encrypt_all _ msgs) as [rs s'].
    cbn [fst emitted app length] in *. destruct IH as (IH1 & IH2 & IH3).
    split; [|split].
    + constructor; [|exact IH1].
      edestruct WirePacket_app_parts as [Hh Hr]; [by apply (length_PacketHeader_encode
        (PacketHeader_new (cs_session_id s) (send_counter s))), Hwf|].
      split; [by rewrite Hr|by rewrite Hh].
    + by constructor.
    + rewrite seqZ_cons by lia. rewrite !fmap_cons, IH3. cbn [set_send_counter send_counter].
      f_equal. replace (Z.succ (send_counter s)) with (send_counter s + 1) by lia.
      by replace (Z.pred (Z.of_nat (S (length (emitted rs))))) with (Z.of_nat (length (emitted rs))) by lia.
  - destruct (encrypt_refused_traced s t p) as [e E].
    { destruct (decide (length p = PAYLOAD_LEN)); [right; lia|by left]. }
    specialize (IH s Hwf). cbn [encrypt_all encrypt_calls]. unfold encrypt. rewrite E. cbn [fst].
    by destruct (encrypt_all s msgs).
Qed.

Lemma encrypt_all_honest msgs s :
  CipherSession_wf s -> Forall (fun m => length m.2 = PAYLOAD_LEN) msgs ->
  send_counter s + Z.of_nat (length msgs) <= MAX_PACKET_NONCE ->
  forall i t p, msgs !! i = Some (t, p) ->
  exists ct, emitted (encrypt_all s msgs).1 !! i =
      Some (mkWirePacket (PacketHeader_encode
        (PacketHeader_new (cs_session_id s) (send_counter s + Z.of_nat i)) ++ ct)) /\
    aead_decrypt (send_key s)
      (mkAeadNonce (build_session_nonce (send_prefix s) (send_counter s + Z.of_nat i))) ct
      (PacketHeader_encode (PacketHeader_new (cs_session_id s) (send_counter s + Z.of_nat i))) =
    Ok (InnerPlaintext_encode (mkInnerPlaintext t (send_direction (cs_role s)) p)).
Proof.
  revert s. induction msgs as [|[t0 p0] msgs IH]; intros s Hwf Hall Hmax i t p Hi; [done|].
  apply Forall_cons in Hall as [Hp0 Hall]. simpl in Hmax, Hp0.
  assert (send_counter s < MAX_PACKET_NONCE) as Hc by lia.
  destruct (encrypt_ok s t0 p0 Hwf Hp0 Hc) as (ct & E & _ & Hd). simpl. rewrite E.
  destruct i as [|i]; simpl in Hi.
  - injection Hi as -> ->. exists ct. rewrite Z.add_0_r.
    destruct (encrypt_all _ msgs). split; [done|exact Hd].
  - destruct (IH (set_send_counter s (send_counter s + 1))
      (set_send_counter_wf s Hwf Hc) Hall ltac:(simpl; lia) i t p Hi) as (ct' & E' & Hd').
    destruct (encrypt_all _ msgs) as [rs s']. simpl in *.
    replace (send_counter s + 1 + Z.of_nat i) with (send_counter s + Z.of_nat (S i)) in * by lia.
    exists ct'. split; [exact E'|exact Hd'].
Qed.

(** Receiving one packet of the paired sender: only the replay window decides. *)
Lemma decrypt_honest a b c t p ct :
  paired a b -> length (cs_session_id a) = SESSION_ID_LEN ->
  0 <= c < MAX_PACKET_NONCE -> length p = PAYLOAD_LEN ->
  aead_decrypt (send_key a) (mkAeadNonce (build_session_nonce (send_prefix a) c)) ct
    (PacketHeader_encode (PacketHeader_new (cs_session_id a) c)) =
    Ok (InnerPlaintext_encode (mkInnerPlaintext t (send_direction (cs_role a)) p)) ->
  decrypt b (mkWirePacket (PacketHeader_encode (PacketHeader_new (cs_session_id a) c) ++ ct)) =
  (if is_ok (accept (replay b) c).1
   then Ok (mkInnerPlaintext t (send_direction (cs_role a)) p) else Err Rejected,
   set_replay b (accept (replay b) c).2).
Proof.
  intros Hpair Hsid Hc Hp Hd. destruct (paired_keys a b Hpair) as (Hk & Hpre & Hdir).
  unfold decrypt. rewrite WirePacket_parse_header_app by
    (done || apply PacketHeader_new_wf; done || lia).
  edestruct WirePacket_app_parts as [-> ->]; [by apply length_PacketHeader_encode|].
  cbn [ph_packet_nonce PacketHeader_new]. rewrite <- Hk, <- Hpre, Hd.
  unfold is_counter_exhausted. replace (MAX_PACKET_NONCE <=? c) with false by lia.
  destruct (accept (replay b) c) as [[[]|e] w]; cbn [is_ok negb fst snd]; [|done].
  rewrite length_InnerPlaintext_encode, Nat.eqb_refl by done. cbn [negb].
  rewrite InnerPlaintext_decode_encode by done.
  cbn [ip_direction cs_role set_replay]. by rewrite bool_decide_true.
Qed.

(** The verdicts of a replay-window run drive a run of [decrypt] on any
    delivery order of the sender's packets. *)
Lemma decrypt_all_delivery a b msgs order :
  CipherSession_wf a -> paired a b ->
  Forall (fun m => length m.2 = PAYLOAD_LEN) msgs ->
  send_counter a + Z.of_nat (length msgs) <= MAX_PACKET_NONCE ->
  Forall (fun i => (i < length msgs)%nat) order ->
  let pkts := emitted (encrypt_all a msgs).1 in
  let counters := (fun i => send_counter a + Z.of_nat i) <$> order in
  forall k i t p, order !! k = Some i -> msgs !! i = Some (t, p) ->
  (decrypt_all b (omap (fun i => pkts !! i) order)).1 !! k =
  Some (if default false ((accept_all (replay b) counters).1 !! k)
        then Ok (mkInnerPlaintext t (send_direction (cs_role a)) p) else Err Rejected).
Proof.
  intros Hwf Hpair Hall Hmax Hord pkts. revert b Hpair.
  induction order as [|j order IH]; intros b Hpair counters k i t p Hk Hi; [done|].
  apply Forall_cons in Hord as [Hj Hord].
  destruct (lookup_lt_is_Some_2 msgs j Hj) as [[tj pj] Hmj].
  destruct (encrypt_all_honest msgs a Hwf Hall Hmax j tj pj Hmj) as (ct & Hpkt & Hd).
  assert (Hsid := proj1 Hwf). assert (Hlo := proj2 (proj2 (proj2 (proj2 (proj2 Hwf))))).
  assert (length pj = PAYLOAD_LEN) as Hpj.
  { apply (proj1 (Forall_lookup _ _) Hall j (tj, pj) Hmj). }
  subst counters. rewrite (omap_cons_Some (fun i => pkts !! i) j order _ Hpkt). cbn [decrypt_all].
  erewrite decrypt_honest; [|done|done|lia|done|exact Hd].
  set (b' := set_replay b (accept (replay b) (send_counter a + Z.of_nat j)).2).
  assert (paired a b') as Hpair' by exact Hpair.
  rewrite fmap_cons. cbn [accept_all].
  specialize (IH Hord b' Hpair').
  destruct k as [|k]; simpl in Hk.
  - injection Hk as ->. assert ((tj, pj) = (t, p)) as [= -> ->] by congruence.
    destruct (decrypt_all b' _), (accept _ _) as [r w], (accept_all w _). done.
  - specialize (IH k i t p Hk Hi). cbv zeta in IH. change (replay b') with
      (accept (replay b) (send_counter a + Z.of_nat j)).2 in IH. revert IH.
    destruct (decrypt_all b' _), (accept _ _) as [r w]. simpl.
    destruct (accept_all w _). done.
Qed.

End WithLaws.

(** ** Reception of arbitrary packets *)

(** What the outcome of [decrypt] says about the packet and the session. *)
Definition decrypt_outcome (s : CipherSession) (p : WirePacket)
    (out : result CodecError InnerPlaintext * CipherSession) : Prop :=
  let aead h := aead_decrypt (recv_key s)
    (mkAeadNonce (build_session_nonce (recv_prefix s) (ph_packet_nonce h)))
    (WirePacket_aead_region p) (WirePacket_header_bytes p) in
  match out with
  | (Ok inner, s') => exists h pt,
      WirePacket_parse_header p = Ok h /\ aead h = Ok pt /\
      ph_packet_nonce h < MAX_PACKET_NONCE /\
      (accept (replay s) (ph_packet_nonce h)).1 = Ok () /\
      InnerPlaintext_decode pt = Ok inner /\
      ip_direction inner = recv_direction (cs_role s) /\
      s' = set_replay s (accept (replay s) (ph_packet_nonce h)).2
  | (Err DecryptionFailed, s') => exists h,
      WirePacket_parse_header p = Ok h /\ is_ok (aead h) = false /\ s' = s
  | (Err (NonceExhausted c), s') => exists h,
      WirePacket_parse_header p = Ok h /\ is_ok (aead h) = true /\
      c = ph_packet_nonce h /\ MAX_PACKET_NONCE <= c /\ s' = s
  | (Err Rejected, s') =>
      (is_ok (WirePacket_parse_header p) = false /\ s' = s) \/
      (exists h, WirePacket_parse_header p = Ok h /\
        (exists pt, aead h = Ok pt /\ ph_packet_nonce h < MAX_PACKET_NONCE /\
          (is_ok (accept (replay s) (ph_packet_nonce h)).1 = false \/
           length pt <> INNER_PLAINTEXT_LEN \/ is_ok (InnerPlaintext_decode pt) = false \/
           exists inner, InnerPlaintext_decode pt = Ok inner /\
             ip_direction inner <> recv_direction (cs_role s))) /\
        s' = set_replay s (accept (replay s) (ph_packet_nonce h)).2)
  | (Err _, _) => False
  end.

Lemma decrypt_classified s p : decrypt_outcome s p (decrypt s p).
Proof.
  unfold decrypt, is_counter_exhausted.
  destruct (WirePacket_parse_header p) as [h|e] eqn:Eh; [|simpl; rewrite Eh; by left].
  destruct (aead_decrypt _ _ _ _) as [pt|e] eqn:Ea; [|exists h; by rewrite Ea].
  destruct (Z.leb_spec MAX_PACKET_NONCE (ph_packet_nonce h));
    [exists h; rewrite Ea; repeat split; done || lia|].
  destruct (accept (replay s) (ph_packet_nonce h)) as [r w] eqn:Ew.
  destruct r as [[]|e]; cbn [is_ok negb]; [|right; exists h; rewrite Ew; eauto 7].
  destruct (Nat.eqb_spec (length pt) INNER_PLAINTEXT_LEN); cbn [negb];
    [|right; exists h; rewrite Ew; eauto 8].
  destruct (InnerPlaintext_decode pt) as [inner|e'] eqn:Ei;
    [|right; exists h; rewrite Ew; split; [done|]; split; [|done];
      exists pt; rewrite Ei; eauto 7].
  case_bool_decide as Hdir; cbn [negb];
    [|right; exists h; rewrite Ew; split; [done|]; split; [|done]; exists pt; eauto 10].
  exists h, pt. rewrite Ew. done.
Qed.

(** A delivered counter is new and remembered; nothing else is forgotten. *)
Lemma decrypt_detector s p d :
  refines (replay s) d ->
  exists d', refines (replay (decrypt s p).2) d' /\ d_accepted d ⊆ d_accepted d' /\
    (is_ok (decrypt s p).1 = true -> forall c, packet_counter p = Some c ->
      (c ∉ d_accepted d) /\ (c ∈ d_accepted d')).
Proof.
  intros HR. pose proof (decrypt_classified s p) as Hc. unfold packet_counter.
  assert (forall h, WirePacket_parse_header p = Ok h ->
    exists d', refines (accept (replay s) (ph_packet_nonce h)).2 d' /\
      d_accepted d ⊆ d_accepted d' /\
      ((accept (replay s) (ph_packet_nonce h)).1 = Ok () ->
        (ph_packet_nonce h ∉ d_accepted d) /\ (ph_packet_nonce h ∈ d_accepted d'))) as Hstep.
  { intros h Hh. destruct (accept_refines _ d (ph_packet_nonce h) HR) as [He HR'].
    eexists. split; [exact HR'|]. revert He. unfold Detector_accept, Detector_fresh.
    case_bool_decide as Hin; simpl.
    - intros He. split; [done|]. intros Ho. by rewrite Ho in He.
    - case_match; simpl; intros He; [|split; [done|]; intros Ho; by rewrite Ho in He].
      split; [set_solver|]. intros _. split; [done|set_solver]. }
  destruct (decrypt s p) as [[inner|e] s'] eqn:E; simpl in *.
  - destruct Hc as (h & pt & Hh & _ & _ & Hacc & _ & _ & ->). rewrite Hh.
    destruct (Hstep h Hh) as (d' & HR' & Hsub & Hok). exists d'.
    split; [done|]. split; [done|]. intros _ c [= <-]. by apply Hok.
  - destruct e; try done.
    + destruct Hc as (h & _ & _ & _ & _ & ->). by exists d.
    + destruct Hc as (h & _ & _ & ->). by exists d.
    + destruct Hc as [[_ ->]|(h & Hh & _ & ->)]; [by exists d|].
      destruct (Hstep h Hh) as (d' & HR' & Hsub & _). by exists d'.
Qed.

Lemma decrypt_all_seen ps s d j p c :
  refines (replay s) d -> ps !! j = Some p -> packet_counter p = Some c ->
  c ∈ d_accepted d -> is_ok <$> (decrypt_all s ps).1 !! j = Some false.
Proof.
  revert s d j. induction ps as [|p0 ps IH]; intros s d j HR Hj Hp Hin; [done|]. simpl.
  destruct (decrypt_detector s p0 d HR) as (d' & HR' & Hsub & Hok).
  destruct (decrypt s p0) as [r s'] eqn:E. simpl in *.
  destruct (decrypt_all s' ps) as [rs s''] eqn:E2. simpl.
  destruct j as [|j]; simpl in *.
  - injection Hj as ->. destruct r as [inner|e]; [|done].
    by destruct (proj1 (Hok eq_refl c Hp)).
  - pose proof (IH s' d' j HR' Hj Hp ltac:(by apply Hsub)) as IH'. by rewrite E2 in IH'.
Qed.

Lemma decrypt_all_no_double ps s d i j pi pj :
  refines (replay s) d -> (i < j)%nat -> ps !! i = Some pi -> ps !! j = Some pj ->
  is_Some (packet_counter pi) -> packet_counter pi = packet_counter pj ->
  is_ok <$> (decrypt_all s ps).1 !! i = Some true ->
  is_ok <$> (decrypt_all s ps).1 !! j = Some false.
Proof.
  revert s d i j. induction ps as [|p0 ps IH]; intros s d i j HR Hij Hi Hj [c Hc] Heq; [done|].
  simpl. destruct (decrypt_detector s p0 d HR) as (d' & HR' & Hsub & Hok).
  destruct (decrypt s p0) as [r s'] eqn:E. simpl in *.
  destruct (decrypt_all s' ps) as [rs s''] eqn:E2.
  destruct j as [|j]; [lia|]. destruct i as [|i]; simpl in *.
  - injection Hi as ->. intros [= Hr]. destruct (Hok Hr c Hc) as [_ Hin].
    pose proof (decrypt_all_seen ps s' d' j pj c HR' Hj ltac:(congruence) Hin) as Hs.
    by rewrite E2 in Hs.
  - pose proof (IH s' d' i j HR' ltac:(lia) Hi Hj ltac:(by exists c) Heq) as IH'.
    by rewrite E2 in IH'.
Qed.

End Envelope.

(** Consecutive counters below the threshold give distinct nonces. *)
Lemma nonces_NoDup s n :
  CipherSession_wf s -> send_counter s + n <= MAX_PACKET_NONCE ->
  NoDup ((fun c => mkAeadNonce (build_session_nonce (send_prefix s) c)) <$> seqZ (send_counter s) n).
Proof.
  intros Hwf Hmax. apply NoDup_fmap_2_strong; [|apply NoDup_seqZ].
  intros x y Hx%elem_of_seqZ Hy%elem_of_seqZ [= E]. revert E.
  pose proof MAX_PACKET_NONCE_lt. pose proof (send_prefix_length s Hwf).
  destruct Hwf as (_ & _ & _ & _ & _ & ?).
  unfold umax in *. apply build_session_nonce_inj; [done|unfold in_range; lia..].
Qed.

(** ** Two concrete ends of a tunnel, for the witnesses *)

Definition sample_end (role : Role) : CipherSession :=
  {| cs_role := role; cs_session_id := zeros 8;
     key_c2s := mkAeadKey (replicate 32 x07); key_s2c := mkAeadKey (replicate 32 x09);
     prefix_c2s := replicate 4 x01; prefix_s2c := replicate 4 x02;
     send_counter := 0; replay := ReplayWindow_new |}.

Definition sample_payload (b : byte) : bytes := replicate PAYLOAD_LEN b.

Lemma sample_end_wf role : CipherSession_wf (sample_end role).
Proof. repeat split; done. Qed.

(** ** Correctness of the envelope *)

(** C22: End-to-end delivery. Two ends of a tunnel share keys and session id; one
    encrypts a sequence of messages and the network delivers the packets in any
    order, with any losses and duplications. Each delivered packet is decrypted
    to exactly the message that was sent (type, direction and payload) when the
    abstract replay detector finds its counter fresh, and is rejected
    otherwise: exactly-once delivery within the window. *)
Theorem envelope_delivery {P : Primitives} {L : PrimitivesLaws P} a b msgs order :
  CipherSession_wf a -> paired a b -> replay b = ReplayWindow_new ->
  Forall (fun m => length m.2 = PAYLOAD_LEN) msgs ->
  send_counter a + Z.of_nat (length msgs) <= MAX_PACKET_NONCE ->
  Forall (fun i => (i < length msgs)%nat) order ->
  let pkts := emitted (encrypt_all a msgs).1 in
  let fresh := (Detector_accept_all Detector_new
                 ((fun i => send_counter a + Z.of_nat i) <$> order)).1 in
  forall k i t p, order !! k = Some i -> msgs !! i = Some (t, p) ->
  (decrypt_all b (omap (fun i => pkts !! i) order)).1 !! k =
  Some (if default false (fresh !! k)
        then Ok (mkInnerPlaintext t (send_direction (cs_role a)) p) else Err Rejected).
Proof.
  intros Hwf Hpair Hnew Hall Hmax Hord pkts fresh k i t p Hk Hi. subst pkts fresh.
  rewrite (decrypt_all_delivery a b msgs order Hwf Hpair Hall Hmax Hord k i t p Hk Hi), Hnew.
  by destruct (accept_all_refines ((fun i => send_counter a + Z.of_nat i) <$> order)
    _ _ refines_new) as [-> _].
Qed.

Lemma envelope_delivery_witness :
  (decrypt_all (sample_end Server)
     (omap (fun i => emitted (encrypt_all (sample_end Client)
               [(Data, sample_payload x05); (Close, sample_payload x06)]).1 !! i)
           [1; 0; 1]%nat)).1 !! 2%nat = Some (Err Rejected).
Proof.
  refine (envelope_delivery (sample_end Client) (sample_end Server)
    [(Data, sample_payload x05); (Close, sample_payload x06)] [1; 0; 1]%nat
    (sample_end_wf Client) _ eq_refl _ _ _ 2%nat 1%nat Close (sample_payload x06)
    eq_refl eq_refl).
  - repeat split; done.
  - by repeat constructor.
  - vm_compute. discriminate.
  - repeat constructor.
Defined.

(** C23: AEAD nonces are never reused: over any sequence of [encrypt] calls on a
    session, whatever the message types and payload sizes, the calls made into
    the AEAD are all under the sending key and no two of them are given the same
    nonce. There is one call per emitted packet and none for a refused message:
    the packet's header is the call's authenticated data and its body the call's
    output, and the headers carry consecutive counters below the rotation
    threshold. *)
Theorem envelope_nonce_unique {P : Primitives} {L : PrimitivesLaws P} s msgs :
  CipherSession_wf s ->
  let pkts := emitted (encrypt_all s msgs).1 in
  let calls := encrypt_calls s msgs in
  NoDup (ac_nonce <$> calls) /\ Forall (fun c => ac_key c = send_key s) calls /\
  Forall2 carries pkts calls /\
  packet_counter <$> pkts = Some <$> seqZ (send_counter s) (Z.of_nat (length pkts)) /\
  send_counter s + Z.of_nat (length pkts) <= MAX_PACKET_NONCE.
Proof.
  intros Hwf pkts calls. destruct (encrypt_all_counters msgs s Hwf) as (Hc & Hs & Hwf').
  destruct (encrypt_calls_spec msgs s Hwf) as (Hp & Hk & Hn).
  fold pkts in Hc, Hs, Hp, Hn. fold calls in Hp, Hk, Hn. rewrite Hs in Hwf'.
  destruct Hwf' as (_ & _ & _ & _ & _ & Hr). cbn [send_counter set_send_counter] in Hr.
  split; [|split; [done|split; [done|split; [done|lia]]]].
  rewrite Hn. apply nonces_NoDup; [done|lia].
Qed.

Lemma envelope_nonce_unique_witness :
  let msgs := [(Data, sample_payload x05); (Data, []); (Cover, sample_payload x00)] in
  length (encrypt_calls (sample_end Client) msgs) = 2%nat /\
  NoDup (ac_nonce <$> encrypt_calls (sample_end Client) msgs).
Proof.
  intros msgs. split; [vm_compute; reflexivity|].
  apply (envelope_nonce_unique (sample_end Client) msgs (sample_end_wf Client)).
Defined.

(** Replay protection of the session: whatever packets arrive (forged, replayed
    or reordered), two packets with the same counter are never both delivered. *)
Theorem envelope_no_double_delivery {P : Primitives} s ps i j pi pj :
  replay s = ReplayWindow_new ->
  (i < j)%nat -> ps !! i = Some pi -> ps !! j = Some pj ->
  is_Some (packet_counter pi) -> packet_counter pi = packet_counter pj ->
  is_ok <$> (decrypt_all s ps).1 !! i = Some true ->
  is_ok <$> (decrypt_all s ps).1 !! j = Some false.
Proof.
  intros Hnew. apply decrypt_all_no_double with Detector_new. rewrite Hnew. apply refines_new.
Qed.

Lemma envelope_no_double_delivery_witness :
  let p := default WirePacket_zeroed
             (head (emitted (encrypt_all (sample_end Client) [(Data, sample_payload x05)]).1)) in
  is_ok <$> (decrypt_all (sample_end Server) [WirePacket_zeroed; p; p]).1 !! 2%nat = Some false.
Proof.
  intros p. apply (envelope_no_double_delivery (sample_end Server) [WirePacket_zeroed; p; p]
    1 2 p p); [reflexivity|lia|reflexivity|reflexivity| |reflexivity|].
  - eexists. vm_compute. reflexivity.
  - vm_compute. reflexivity.
Defined.

(** C25: Classification of received packets: [DecryptionFailed] is returned exactly
    for a current-version packet whose AEAD tag does not verify; the session
    changes only when the tag verified, and then only in its replay window;
    [NonceExhausted] is only raised by an authentic packet at the threshold; a
    delivered packet is authentic, fresh, well-framed and of the peer's
    direction; an authentic packet below the threshold is [Rejected] only when its
    counter is not fresh, its plaintext is not a well-formed frame or its
    direction is not the peer's; no other error escapes. *)
Theorem decrypt_classification {P : Primitives} s p : decrypt_outcome s p (decrypt s p).
Proof. apply decrypt_classified. Qed.

(** [encrypt] succeeds exactly for a full-size payload on a session below the
    rotation threshold, then advances the counter by exactly one and keeps the
    session well-formed; otherwise it reports the length or the exhaustion and
    leaves the session as it was. *)
Theorem encrypt_exact {P : Primitives} {L : PrimitivesLaws P} s t payload :
  CipherSession_wf s ->
  let out := encrypt s t payload in
  (is_ok out.1 = bool_decide (length payload = PAYLOAD_LEN /\ send_counter s < MAX_PACKET_NONCE)) /\
  CipherSession_wf out.2 /\
  out.2 = (if is_ok out.1 then set_send_counter s (send_counter s + 1) else s).
Proof.
  intros Hwf out. subst out.
  destruct (decide (length payload = PAYLOAD_LEN /\ send_counter s < MAX_PACKET_NONCE)) as [[Hp Hc]|Hn].
  - destruct (encrypt_ok s t payload Hwf Hp Hc) as (ct & -> & _). rewrite bool_decide_true by done.
    split; [done|]. split; [by apply set_send_counter_wf|done].
  - rewrite bool_decide_false by done.
    assert (is_ok (encrypt s t payload).1 = false) as Hf by (apply encrypt_refused; lia).
    split; [done|]. rewrite Hf.
    destruct (encrypt s t payload) as [[?|e] s'] eqn:E; [done|].
    pose proof (encrypt_err s t payload e) as He. rewrite E in He.
    simpl in *. by rewrite He.
Qed.

Lemma encrypt_exact_witness :
  is_ok (encrypt (set_send_counter (sample_end Client) MAX_PACKET_NONCE)
           Data (sample_payload x01)).1 = false.
Proof.
  refine (proj1 (encrypt_exact (set_send_counter (sample_end Client) MAX_PACKET_NONCE)
    Data (sample_payload x01) _)).
  repeat split; done.
Defined.
