(* ===== verification/WireSession.v ===== *)
(** * Connection lifecycle and wire session

    [pq-tunnel-core/src/state.rs] (the lifecycle state machine) and
    [pq-tunnel-core/src/wire_session.rs] (the envelope bound to it), with the
    metrics of [metrics.rs]. The operations are also packaged as a transition
    system over sequences of calls, on which the lifecycle theorems are stated. *)

From S2P Require Import Prelude Bytes Errors Codec Replay Crypto Envelope.

Local Open Scope Z_scope.

(** ** State machine ([state.rs]) *)

(** The source's [Handshake] state is [HandshakeInProgress] here: [Handshake] is
    a [MessageType]. *)
Inductive ProtocolState := Initial | HandshakeInProgress | Established | Rekey | Closed.

Global Instance ProtocolState_eq_dec : EqDecision ProtocolState.
Proof. solve_decision. Defined.

Record InvalidTransition := mkInvalidTransition { it_from : ProtocolState; it_to : ProtocolState }.

Definition is_terminal (s : ProtocolState) : bool :=
  match s with Closed => true | _ => false end.

Definition can_transition_to (self to : ProtocolState) : bool :=
  match self, to with
  | Initial, HandshakeInProgress
  | HandshakeInProgress, Established
  | HandshakeInProgress, Closed
  | Established, Rekey
  | Established, Closed
  | Rekey, Established
  | Rekey, Closed => true
  | _, _ => false
  end.

Definition transition (self to : ProtocolState) : result InvalidTransition ProtocolState :=
  if can_transition_to self to then Ok to else Err (mkInvalidTransition self to).

(** ** Session ([wire_session.rs]) *)

Inductive SessionError :=
| SE_State (e : InvalidTransition)
| SE_WrongState (required actual : ProtocolState)
| SE_Codec (e : CodecError)
| SE_Crypto (e : CryptoError)
| SE_RekeyRequired.

Record SessionMetrics := mkSessionMetrics {
  bytes_sent : Z;
  bytes_received : Z;
  packets_sent : Z;
  packets_received : Z;
  handshake_duration_ms : option Z;
  created_at : option Instant }.

Record WireSession := mkWireSession {
  ws_role : Role;
  ws_session_id : bytes;
  ws_state : ProtocolState;
  ws_cipher : CipherSession;
  ws_metrics : SessionMetrics }.

Definition ws_with (w : WireSession) (st : ProtocolState) (c : CipherSession)
    (m : SessionMetrics) : WireSession :=
  mkWireSession (ws_role w) (ws_session_id w) st c m.

(** The metric updates of the data path ([+=] on [u64]). *)
Definition count_sent (m : SessionMetrics) : SessionMetrics :=
  mkSessionMetrics (wrap 64 (bytes_sent m + Z.of_nat PACKET_SIZE)) (bytes_received m)
    (wrap 64 (packets_sent m + 1)) (packets_received m) (handshake_duration_ms m) (created_at m).

Definition count_received (m : SessionMetrics) : SessionMetrics :=
  mkSessionMetrics (bytes_sent m) (wrap 64 (bytes_received m + Z.of_nat PACKET_SIZE))
    (packets_sent m) (wrap 64 (packets_received m + 1)) (handshake_duration_ms m) (created_at m).

Section WireSession.
Context {P : Primitives}.

(** [handshake_v2::HandshakeOutcome]. *)
Record HandshakeOutcome := mkHandshakeOutcome {
  ho_master : MasterSecret;
  ho_session_id : bytes;
  ho_peer_identity : VerifyingKey;
  ho_handshake_duration : Duration }.

Definition WireSession_new (role : Role) (master : MasterSecret) (session_id : bytes)
    (now : Instant) : result SessionError WireSession :=
  cipher ← map_err SE_Codec (CipherSession_new role master session_id);
  let metrics := mkSessionMetrics 0 0 0 0 None (Some now) in
  Ok (mkWireSession role session_id Initial cipher metrics).

Definition WireSession_established (role : Role) (outcome : HandshakeOutcome) (now : Instant)
    : result SessionError WireSession :=
  cipher ← map_err SE_Codec (CipherSession_new role (ho_master outcome) (ho_session_id outcome));
  let metrics := mkSessionMetrics 0 0 0 0 None (Some now) in
  Ok (mkWireSession role (ho_session_id outcome) Established cipher metrics).

Definition WireSession_goto (w : WireSession) (to : ProtocolState)
    : result SessionError () * WireSession :=
  match transition (ws_state w) to with
  | Ok st => (Ok (), ws_with w st (ws_cipher w) (ws_metrics w))
  | Err e => (Err (SE_State e), w)
  end.

Definition begin_handshake (w : WireSession) := WireSession_goto w HandshakeInProgress.
Definition complete_handshake (w : WireSession) := WireSession_goto w Established.

Definition WireSession_close (w : WireSession) : result SessionError () * WireSession :=
  (Ok (), ws_with w Closed (ws_cipher w) (ws_metrics w)).

Definition require_established (w : WireSession) : result SessionError () :=
  if bool_decide (ws_state w = Established) then Ok ()
  else Err (SE_WrongState Established (ws_state w)).

Definition WireSession_encrypt (w : WireSession) (msg_type : MessageType) (payload : bytes)
    : result SessionError WirePacket * WireSession :=
  match require_established w with
  | Err e => (Err e, w)
  | Ok _ =>
      match encrypt (ws_cipher w) msg_type payload with
      | (Ok pkt, c) => (Ok pkt, ws_with w (ws_state w) c (count_sent (ws_metrics w)))
      | (Err (NonceExhausted _), c) =>
          (Err SE_RekeyRequired, ws_with w Rekey c (ws_metrics w))
      | (Err e, c) => (Err (SE_Codec e), ws_with w (ws_state w) c (ws_metrics w))
      end
  end.

(** [fill] is the outcome of [getrandom::fill]: random bytes or its error text. *)
Definition WireSession_cover (w : WireSession) (fill : result string bytes)
    : result SessionError WirePacket * WireSession :=
  match require_established w with
  | Err e => (Err e, w)
  | Ok _ =>
      match fill with
      | Err e => (Err (SE_Crypto (InvalidInput ("getrandom: " +:+ e))), w)
      | Ok fill => WireSession_encrypt w Cover fill
      end
  end.

Definition WireSession_decrypt (w : WireSession) (packet : WirePacket)
    : result SessionError InnerPlaintext * WireSession :=
  match require_established w with
  | Err e => (Err e, w)
  | Ok _ =>
      match decrypt (ws_cipher w) packet with
      | (Ok inner, c) => (Ok inner, ws_with w (ws_state w) c (count_received (ws_metrics w)))
      | (Err (NonceExhausted _), c) =>
          (Err SE_RekeyRequired, ws_with w Rekey c (ws_metrics w))
      | (Err e, c) => (Err (SE_Codec e), ws_with w (ws_state w) c (ws_metrics w))
      end
  end.

(** ** Sequences of calls *)

Inductive ws_op :=
| OpBeginHandshake
| OpCompleteHandshake
| OpClose
| OpEncrypt (t : MessageType) (payload : bytes)
| OpCover (fill : result string bytes)
| OpDecrypt (p : WirePacket).

(** What a call hands to its caller: a packet for the wire, a plaintext for the
    application, or neither. *)
Inductive ws_out := OutNone | OutSent (p : WirePacket) | OutDelivered (i : InnerPlaintext).

Definition sent_out (r : result SessionError WirePacket) : ws_out :=
  match r with Ok p => OutSent p | Err _ => OutNone end.

Definition delivered_out (r : result SessionError InnerPlaintext) : ws_out :=
  match r with Ok i => OutDelivered i | Err _ => OutNone end.

Definition ws_exec (w : WireSession) (op : ws_op) : ws_out * WireSession :=
  match op with
  | OpBeginHandshake => (OutNone, (begin_handshake w).2)
  | OpCompleteHandshake => (OutNone, (complete_handshake w).2)
  | OpClose => (OutNone, (WireSession_close w).2)
  | OpEncrypt t p => let (r, w) := WireSession_encrypt w t p in (sent_out r, w)
  | OpCover f => let (r, w) := WireSession_cover w f in (sent_out r, w)
  | OpDecrypt p => let (r, w) := WireSession_decrypt w p in (delivered_out r, w)
  end.

Inductive ws_steps : WireSession -> list ws_out -> WireSession -> Prop :=
| ws_done w : ws_steps w [] w
| ws_step w op outs w' :
    ws_steps (ws_exec w op).2 outs w' -> ws_steps w ((ws_exec w op).1 :: outs) w'.

(** The packets of an output sequence, in order. *)
Fixpoint sent (outs : list ws_out) : list WirePacket :=
  match outs with
  | [] => []
  | OutSent p :: outs => p :: sent outs
  | _ :: outs => sent outs
  end.

(** ** One call *)

(** The lifecycle edges a call may take: an edge of the state machine, staying,
    or closing. *)
Definition lifecycle_edge (s s' : ProtocolState) : bool :=
  can_transition_to s s' || bool_decide (s' = s) || bool_decide (s' = Closed).

Lemma ws_exec_lifecycle w op :
  lifecycle_edge (ws_state w) (ws_state (ws_exec w op).2) = true /\
  ((ws_exec w op).1 <> OutNone ->
    ws_state w = Established /\ ws_state (ws_exec w op).2 = Established).
Proof.
  unfold lifecycle_edge.
  destruct op; simpl; unfold begin_handshake, complete_handshake, WireSession_goto, transition,
    WireSession_cover, WireSession_encrypt, WireSession_decrypt, require_established;
  destruct (ws_state w) eqn:Es; simpl; rewrite ?Es; try done.
  - destruct (encrypt (ws_cipher w) t payload) as [[pkt|[]] c]; simpl; rewrite ?Es; done.
  - destruct fill as [f|e]; simpl; rewrite ?Es; simpl; [|done].
    destruct (encrypt (ws_cipher w) Cover f) as [[pkt|[]] c]; simpl; rewrite ?Es; done.
  - destruct (decrypt (ws_cipher w) p) as [[pkt|[]] c]; simpl; rewrite ?Es; done.
Qed.

Section WithLaws.
Context {L : PrimitivesLaws P}.

(** A call changes the send direction only by sending one packet that carries
    the current counter. *)
Lemma ws_exec_cipher w op :
  CipherSession_wf (ws_cipher w) ->
  let w' := (ws_exec w op).2 in
  CipherSession_wf (ws_cipher w') /\
  send_prefix (ws_cipher w') = send_prefix (ws_cipher w) /\
  match (ws_exec w op).1 with
  | OutSent p => packet_counter p = Some (send_counter (ws_cipher w)) /\
                 send_counter (ws_cipher w') = send_counter (ws_cipher w) + 1
  | _ => send_counter (ws_cipher w') = send_counter (ws_cipher w)
  end.
Proof.
  intros Hwf.
  assert (forall t payload,
    let w' := (WireSession_encrypt w t payload).2 in
    CipherSession_wf (ws_cipher w') /\
    send_prefix (ws_cipher w') = send_prefix (ws_cipher w) /\
    match sent_out (WireSession_encrypt w t payload).1 with
    | OutSent p => packet_counter p = Some (send_counter (ws_cipher w)) /\
                 send_counter (ws_cipher w') = send_counter (ws_cipher w) + 1
    | _ => send_counter (ws_cipher w') = send_counter (ws_cipher w)
    end) as Henc.
  { intros t payload. unfold WireSession_encrypt, require_established.
    case_bool_decide; [|done].
    destruct (encrypt_step (ws_cipher w) t payload Hwf) as [[e E]|(Hc & p & E & Hk)]; rewrite E.
    - destruct e; done.
    - simpl. split; [by apply set_send_counter_wf|]. done. }
  destruct op as [| | |t payload|fill|p]; simpl.
  - unfold begin_handshake, WireSession_goto. by case_match.
  - unfold complete_handshake, WireSession_goto. by case_match.
  - done.
  - specialize (Henc t payload). by destruct (WireSession_encrypt w t payload).
  - unfold WireSession_cover, require_established. case_bool_decide; [|done].
    destruct fill as [f|e]; [|done].
    specialize (Henc Cover f). by destruct (WireSession_encrypt w Cover f).
  - unfold WireSession_decrypt, require_established. case_bool_decide; [|done].
    pose proof (decrypt_classified (ws_cipher w) p) as Hc.
    destruct (decrypt (ws_cipher w) p) as [[inner|e] c] eqn:E; simpl in Hc.
    + destruct Hc as (h & pt & _ & _ & _ & _ & _ & _ & ->). done.
    + destruct e; try done.
      * by destruct Hc as (? & ? & ? & ? & ? & ->).
      * by destruct Hc as (? & ? & ? & ->).
      * by destruct Hc as [[_ ->]|(? & ? & ? & ->)].
Qed.

Lemma ws_steps_counters w outs w' :
  ws_steps w outs w' -> CipherSession_wf (ws_cipher w) ->
  packet_counter <$> sent outs =
    Some <$> seqZ (send_counter (ws_cipher w)) (Z.of_nat (length (sent outs))) /\
  send_counter (ws_cipher w) + Z.of_nat (length (sent outs)) <= MAX_PACKET_NONCE.
Proof.
  induction 1 as [w|w op outs w' _ IH]; intros Hwf.
  { simpl. split; [done|]. destruct Hwf as (_ & _ & _ & _ & _ & ?). lia. }
  destruct (ws_exec_cipher w op Hwf) as (Hwf' & _ & Hout). specialize (IH Hwf').
  destruct IH as [IH1 IH2].
  destruct ((ws_exec w op).1) as [|p|i] eqn:Eo; cbn [sent];
    [rewrite Hout in IH1, IH2; done| |rewrite Hout in IH1, IH2; done].
  destruct Hout as [Hk Hn]. rewrite Hn in IH1, IH2. cbn [length].
  rewrite fmap_cons, IH1, Hk, (seqZ_cons (send_counter (ws_cipher w))) by lia. split; [|lia].
  rewrite fmap_cons. do 3 f_equal; lia.
Qed.

End WithLaws.

Lemma ws_steps_closed w outs w' :
  ws_steps w outs w' -> ws_state w = Closed ->
  Forall (fun o => o = OutNone) outs /\ ws_state w' = Closed.
Proof.
  induction 1 as [w|w op outs w' _ IH]; intros Hc; [done|].
  destruct (ws_exec_lifecycle w op) as [He Ho]. rewrite Hc in He.
  destruct IH as [IH1 IH2].
  { by destruct (ws_state (ws_exec w op).2). }
  split; [|done]. constructor; [|done].
  destruct ((ws_exec w op).1); [done|..]; destruct Ho as [? _]; try done; congruence.
Qed.

End WireSession.

Definition sample_session (role : Role) (st : ProtocolState) : WireSession :=
  mkWireSession role (zeros 8) st (sample_end role) (mkSessionMetrics 0 0 0 0 None None).

(** ** Correctness of the session *)

(** Counters of the whole session API: under any interleaving of lifecycle calls,
    encryptions, cover packets and receptions, the packets a session sends carry
    consecutive counters below the rotation threshold, so no counter is used
    twice, even across a [Rekey] state left by [complete_handshake]. *)
Theorem session_counters {P : Primitives} {L : PrimitivesLaws P} w outs w' :
  ws_steps w outs w' -> CipherSession_wf (ws_cipher w) ->
  packet_counter <$> sent outs =
    Some <$> seqZ (send_counter (ws_cipher w)) (Z.of_nat (length (sent outs))) /\
  send_counter (ws_cipher w) + Z.of_nat (length (sent outs)) <= MAX_PACKET_NONCE /\
  NoDup (packet_counter <$> sent outs).
Proof.
  intros Hs Hwf. destruct (ws_steps_counters w outs w' Hs Hwf) as [Hc Hm].
  split; [done|]. split; [done|]. rewrite Hc. apply NoDup_fmap_2; [apply _|apply NoDup_seqZ].
Qed.

Lemma session_counters_witness : exists outs w',
  ws_steps (sample_session Client Established) outs w' /\ length (sent outs) = 2%nat /\
  NoDup (packet_counter <$> sent outs).
Proof.
  eexists _, _. split; [|split].
  - apply (ws_step _ (OpEncrypt Data (sample_payload x05))).
    apply (ws_step _ (OpCover (Ok (sample_payload x06)))).
    apply (ws_step _ OpClose). apply (ws_step _ (OpEncrypt Data (sample_payload x05))).
    apply ws_done.
  - vm_compute. reflexivity.
  - refine (proj2 (proj2 (session_counters (sample_session Client Established) _ _ _ _))).
    + apply (ws_step _ (OpEncrypt Data (sample_payload x05))).
      apply (ws_step _ (OpCover (Ok (sample_payload x06)))).
      apply (ws_step _ OpClose). apply (ws_step _ (OpEncrypt Data (sample_payload x05))).
      apply ws_done.
    + apply sample_end_wf.
Defined.

(** Every call on a session follows an edge of the lifecycle machine, stays in
    its state or closes the session, and a packet is sent or a plaintext
    delivered only by a call that starts and ends in [Established]. *)
Theorem session_lifecycle {P : Primitives} w op :
  lifecycle_edge (ws_state w) (ws_state (ws_exec w op).2) = true /\
  ((ws_exec w op).1 <> OutNone ->
    ws_state w = Established /\ ws_state (ws_exec w op).2 = Established).
Proof. apply ws_exec_lifecycle. Qed.

(** [Closed] is terminal: after [close], no sequence of calls sends a packet,
    delivers a plaintext or leaves [Closed]. *)
Theorem session_closed_terminal {P : Primitives} w outs w' :
  ws_steps (WireSession_close w).2 outs w' ->
  Forall (fun o => o = OutNone) outs /\ ws_state w' = Closed.
Proof. intros Hs. by apply (ws_steps_closed _ _ _ Hs). Qed.

Lemma session_closed_terminal_witness : exists outs w',
  length outs = 2%nat /\ Forall (fun o => o = OutNone) outs /\ ws_state w' = Closed.
Proof.
  eexists _, _. split; [|refine (session_closed_terminal (sample_session Client Established) _ _ _)].
  2: { apply (ws_step _ OpCompleteHandshake).
       apply (ws_step _ (OpEncrypt Data (sample_payload x05))). apply ws_done. }
  reflexivity.
Defined.
