(* ===== verification/Scheduler.v ===== *)
(** * The cover-traffic scheduler

    [pq-tunnel-core/src/scheduler.rs]: the pure-periodic schedule of cover
    packets. Instants and intervals are nanoseconds. *)

From S2P Require Import Prelude Bytes Errors Codec.

Local Open Scope Z_scope.

Definition DEFAULT_COVER_RATE_BPS : Z := 2000000.
Definition MIN_COVER_INTERVAL_NANOS : Z := 21762.
Definition MAX_COVER_RATE_BPS : Z :=
  Z.of_nat PACKET_SIZE * 8 * 1000000000 / MIN_COVER_INTERVAL_NANOS.

Record CoverPolicy := mkCoverPolicy { enabled : bool; interval : Duration }.

Definition interval_from_rate_bps (rate_bps : Z) : Duration :=
  let bits_per_packet := Z.of_nat PACKET_SIZE * 8 in
  let nanos := saturating_mul 64 bits_per_packet 1000000000 / Z.max rate_bps 1 in
  Z.max nanos MIN_COVER_INTERVAL_NANOS.

Definition CoverPolicy_default : CoverPolicy :=
  {| enabled := true; interval := interval_from_rate_bps DEFAULT_COVER_RATE_BPS |}.

Record CoverScheduler := mkCoverScheduler { policy : CoverPolicy; next : option Instant }.

Definition CoverScheduler_new (p : CoverPolicy) : CoverScheduler :=
  {| policy := p; next := None |}.

Definition CoverScheduler_start (s : CoverScheduler) (now : Instant) : CoverScheduler :=
  match next s with
  | None => if enabled (policy s)
            then mkCoverScheduler (policy s) (Some (now + interval (policy s)))
            else s
  | Some _ => s
  end.

Definition CoverScheduler_stop (s : CoverScheduler) : CoverScheduler :=
  mkCoverScheduler (policy s) None.

Definition next_deadline (s : CoverScheduler) : option Instant := next s.

Definition on_deadline (s : CoverScheduler) (now : Instant) : bool * CoverScheduler :=
  if negb (enabled (policy s)) then (false, mkCoverScheduler (policy s) None)
  else
    match next s with
    | None => (false, s)
    | Some due =>
        if due <=? now
        then (true, mkCoverScheduler (policy s) (Some (now + interval (policy s))))
        else (false, s)
    end.

(** ** Runs of the scheduler under a monotonic clock *)

Inductive sched_call := CallStart | CallStop | CallDeadline.

(** One call at time [now]: whether it emits, and the scheduler afterwards. *)
Definition sched_exec (s : CoverScheduler) (c : sched_call) (now : Instant)
    : bool * CoverScheduler :=
  match c with
  | CallStart => (false, CoverScheduler_start s now)
  | CallStop => (false, CoverScheduler_stop s)
  | CallDeadline => on_deadline s now
  end.

(** The times of the emissions of a run. *)
Fixpoint emissions (s : CoverScheduler) (calls : list (sched_call * Instant)) : list Instant :=
  match calls with
  | [] => []
  | (c, now) :: calls =>
      let (emit, s) := sched_exec s c now in
      if emit then now :: emissions s calls else emissions s calls
  end.

(** ** Interval arithmetic *)

Lemma bits_per_packet_value : Z.of_nat PACKET_SIZE * 8 = 10240.
Proof. reflexivity. Qed.

Lemma interval_unsaturated rate :
  interval_from_rate_bps rate =
    Z.max (10240 * 1000000000 / Z.max rate 1) MIN_COVER_INTERVAL_NANOS.
Proof.
  unfold interval_from_rate_bps. rewrite bits_per_packet_value.
  unfold saturating_mul, umax. rewrite Z.min_r by lia. done.
Qed.

Lemma max_rate_value : MAX_COVER_RATE_BPS = 10240 * 1000000000 / MIN_COVER_INTERVAL_NANOS.
Proof. unfold MAX_COVER_RATE_BPS. by rewrite bits_per_packet_value. Qed.

Lemma min_interval_iff rate :
  1 <= rate ->
  (MIN_COVER_INTERVAL_NANOS <= 10240 * 1000000000 / rate <-> rate <= MAX_COVER_RATE_BPS).
Proof.
  intros Hr. rewrite max_rate_value. unfold MIN_COVER_INTERVAL_NANOS.
  split; intros H; (apply Z.div_le_lower_bound; [lia|]).
  - pose proof (Z.mul_div_le (10240 * 1000000000) rate). nia.
  - pose proof (Z.mul_div_le (10240 * 1000000000) 21762). nia.
Qed.

(** ** Spacing of emissions *)

(** Nothing is emitted before [t], and at least an interval separates any two
    consecutive emissions. *)
Fixpoint spaced (t gap : Z) (ts : list Z) : Prop :=
  match ts with
  | [] => True
  | t' :: ts => t <= t' /\ spaced (t' + gap) gap ts
  end.

(** Calls at non-decreasing times from [t] on. *)
Fixpoint clocked (t : Z) (calls : list (sched_call * Instant)) : Prop :=
  match calls with
  | [] => True
  | (_, now) :: calls => t <= now /\ clocked now calls
  end.

(** An armed deadline is never earlier than [lo]. *)
Definition armed_after (s : CoverScheduler) (lo : Z) : Prop :=
  match next s with Some due => lo <= due | None => True end.

Lemma emissions_spaced calls s t lo :
  0 <= interval (policy s) ->
  clocked t calls -> armed_after s lo -> lo <= t + interval (policy s) ->
  spaced lo (interval (policy s)) (emissions s calls).
Proof.
  revert s t lo. induction calls as [|[c now] calls IH]; intros s t lo Hi Hc Ha Hlo; [done|].
  destruct Hc as [Ht Hc]. simpl.
  assert (forall s', policy s' = policy s -> armed_after s' lo ->
    spaced lo (interval (policy s)) (emissions s' calls)) as Hquiet.
  { intros s' Hp Ha'. rewrite <- Hp. apply (IH s' now); rewrite ?Hp; done || lia. }
  destruct c; simpl.
  - apply Hquiet; unfold CoverScheduler_start; repeat case_match; try done.
    unfold armed_after. simpl. lia.
  - by apply Hquiet.
  - unfold on_deadline. destruct (enabled (policy s)); simpl; [|by apply Hquiet].
    destruct (next s) as [due|] eqn:En; [|by apply Hquiet].
    destruct (Z.leb_spec due now) as [Hd|Hd]; [|by apply Hquiet].
    unfold armed_after in Ha. rewrite En in Ha. simpl. split; [lia|].
    apply (IH (mkCoverScheduler (policy s) (Some (now + interval (policy s)))) now);
      unfold armed_after; simpl; done || lia.
Qed.

(** How many of the emissions can fall before a horizon. *)
Lemma spaced_count ts lo gap horizon :
  0 < gap -> spaced lo gap ts -> Forall (fun t => t <= horizon) ts ->
  lo + (Z.of_nat (length ts) - 1) * gap <= Z.max horizon (lo - gap).
Proof.
  revert lo. induction ts as [|t ts IH]; intros lo Hg Hs Hall; simpl; [lia|].
  destruct Hs as [Ht Hs]. apply Forall_cons in Hall as [Hth Hall].
  pose proof (IH (t + gap) Hg Hs Hall). simpl in *. nia.
Qed.

(** ** Correctness of the scheduler *)

(** The conversion from a bit rate never saturates: for a positive rate up to
    [MAX_COVER_RATE_BPS] the interval is exactly the time of one 1280-byte packet
    at that rate, rounded down to the nanosecond; [MAX_COVER_RATE_BPS] is the
    largest such rate, and above it the interval is the floor. *)
Theorem interval_exact rate :
  1 <= rate ->
  (rate <= MAX_COVER_RATE_BPS -> interval_from_rate_bps rate = 10240 * 1000000000 / rate) /\
  (MAX_COVER_RATE_BPS < rate -> interval_from_rate_bps rate = MIN_COVER_INTERVAL_NANOS /\
    10240 * 1000000000 / rate < MIN_COVER_INTERVAL_NANOS).
Proof.
  intros Hr. rewrite interval_unsaturated, (Z.max_l rate 1) by lia.
  pose proof (min_interval_iff rate Hr). split; intros; lia.
Qed.

Lemma interval_exact_witness :
  interval_from_rate_bps DEFAULT_COVER_RATE_BPS = 10240 * 1000000000 / DEFAULT_COVER_RATE_BPS.
Proof.
  apply (interval_exact DEFAULT_COVER_RATE_BPS); unfold DEFAULT_COVER_RATE_BPS; [lia|].
  vm_compute. discriminate.
Defined.

(** Rate bound: under a monotonic clock, whatever the order of start, stop and
    deadline calls and however late the wake-ups, consecutive emissions of a new
    scheduler are at least one interval apart and the first comes at least one
    interval after the first call; so at most [(horizon - t) / interval] packets
    are emitted up to any horizon, with no catch-up burst. *)
Theorem emissions_rate_bound p t calls horizon :
  0 < interval p -> clocked t calls -> t <= horizon ->
  let ts := emissions (CoverScheduler_new p) calls in
  spaced (t + interval p) (interval p) ts /\
  (Forall (fun x => x <= horizon) ts -> Z.of_nat (length ts) <= (horizon - t) / interval p).
Proof.
  intros Hi Hc Hh ts.
  assert (spaced (t + interval p) (interval p) ts) as Hs.
  { apply (emissions_spaced calls (CoverScheduler_new p) t); simpl; done || lia. }
  split; [done|]. intros Hall.
  pose proof (spaced_count ts _ _ horizon Hi Hs Hall).
  apply Z.div_le_lower_bound; [done|]. rewrite Z.max_l in H by lia. lia.
Qed.

Lemma emissions_rate_bound_witness :
  spaced 10 10 (emissions (CoverScheduler_new (mkCoverPolicy true 10))
    [(CallStart, 0); (CallDeadline, 35); (CallDeadline, 36); (CallStop, 40); (CallStart, 41);
     (CallDeadline, 60)]).
Proof.
  refine (proj1 (emissions_rate_bound (mkCoverPolicy true 10) 0
    [(CallStart, 0); (CallDeadline, 35); (CallDeadline, 36); (CallStop, 40); (CallStart, 41);
     (CallDeadline, 60)] 100 _ _ _)); simpl; lia.
Defined.
