(* ===== verification/Dataplane.v ===== *)
(** * The overlay data plane

    [pq-tunnel-core/src/dataplane.rs]: fragmentation of inner IP packets into
    payload slots, the CRC-32 and the bounded reassembler. Lengths are [nat]
    (indices into buffers) or [Z] (fields and byte budgets); the map of entries
    is a [gmap] keyed by the 64-bit datagram id. *)

From S2P Require Import Prelude Bytes Errors Codec Replay Chunks.

Local Open Scope Z_scope.

Definition OVERLAY_VERSION : byte := x01.
Definition OVERLAY_HEADER_LEN : nat := 20.
Definition FRAG_CAP : nat := PAYLOAD_LEN - OVERLAY_HEADER_LEN.
Definition MAX_FRAG_COUNT : Z := 54.
Definition MAX_IP_PACKET_LEN : Z := 65535.
Definition MAX_ENTRIES_PER_SESSION : Z := 256.
Definition MAX_BYTES_PER_SESSION : Z := 16 * 1024 * 1024.
Definition DEFAULT_REASSEMBLY_DEADLINE : Duration := from_secs 2.

Inductive OverlayError :=
| OTruncated
| OInvalidVersion
| InvalidFlags
| InvalidReserved
| InvalidFragCount
| InvalidFragIndex
| InvalidIpTotalLen
| InconsistentFragCount
| InvalidIpHeader
| InvalidPadding
| IpLengthMismatch.

Definition zlen (l : bytes) : Z := Z.of_nat (length l).

(** ** Overlay header *)

Record OverlayHeader := mkOverlayHeader {
  overlay_version : byte;
  frag_index : byte;
  frag_count : byte;
  flags : byte;
  ip_total_len : Z;
  reserved : Z;
  datagram_id : Z;
  datagram_crc : Z }.

(** [u16], [u64] and [u32] fields. *)
Definition OverlayHeader_wf (h : OverlayHeader) : Prop :=
  in_range 16 (ip_total_len h) /\ in_range 16 (reserved h) /\
  in_range 64 (datagram_id h) /\ in_range 32 (datagram_crc h).

Definition OverlayHeader_decode (data : bytes) : result OverlayError OverlayHeader :=
  if (length data <? OVERLAY_HEADER_LEN)%nat then Err OTruncated
  else
    let h := slice 0 OVERLAY_HEADER_LEN data in
    let overlay_version := byte_at 0 h in
    let frag_index := byte_at 1 h in
    let frag_count := byte_at 2 h in
    let flags := byte_at 3 h in
    let ip_total_len := be_val [byte_at 4 h; byte_at 5 h] in
    let reserved := be_val [byte_at 6 h; byte_at 7 h] in
    let datagram_id := be_val (slice 8 16 h) in
    let datagram_crc := be_val (slice 16 20 h) in
    if negb (bool_decide (overlay_version = OVERLAY_VERSION)) then Err OInvalidVersion
    else if negb (b2z flags =? 0) then Err InvalidFlags
    else if negb (reserved =? 0) then Err InvalidReserved
    else if (b2z frag_count =? 0) || (MAX_FRAG_COUNT <? b2z frag_count) then Err InvalidFragCount
    else if b2z frag_count <=? b2z frag_index then Err InvalidFragIndex
    else
      let ipt := ip_total_len in
      if negb ((20 <=? ipt) && (ipt <=? MAX_IP_PACKET_LEN)) then Err InvalidIpTotalLen
      else
        let fc := b2z frag_count in
        if (ipt <=? (fc - 1) * Z.of_nat FRAG_CAP) || (fc * Z.of_nat FRAG_CAP <? ipt) then
          Err InconsistentFragCount
        else
          Ok (mkOverlayHeader overlay_version frag_index frag_count flags ip_total_len
                reserved datagram_id datagram_crc).

(** [encode] writes into the caller's 20-byte buffer. *)
Definition OverlayHeader_encode (h : OverlayHeader) (out : bytes) : bytes :=
  let out := write_at 0 [overlay_version h] out in
  let out := write_at 1 [frag_index h] out in
  let out := write_at 2 [frag_count h] out in
  let out := write_at 3 [flags h] out in
  let out := write_at 4 (be_bytes 2 (ip_total_len h)) out in
  let out := write_at 6 (be_bytes 2 (reserved h)) out in
  let out := write_at 8 (be_bytes 8 (datagram_id h)) out in
  write_at 16 (be_bytes 4 (datagram_crc h)) out.

Definition expected_frag_len (h : OverlayHeader) : nat :=
  let ipt := Z.to_nat (ip_total_len h) in
  let idx := Z.to_nat (b2z (frag_index h)) in
  let fc := Z.to_nat (b2z (frag_count h)) in
  if (idx + 1 <? fc)%nat then FRAG_CAP else (ipt - (fc - 1) * FRAG_CAP)%nat.

(** ** IP validation *)

Definition declared_ip_len (ip : bytes) : result OverlayError Z :=
  if (length ip =? 0)%nat then Err InvalidIpHeader
  else
    let v := Z.shiftr (b2z (byte_at 0 ip)) 4 in
    if v =? 4 then
      if (length ip <? 20)%nat then Err InvalidIpHeader
      else
        let total := be_val [byte_at 2 ip; byte_at 3 ip] in
        if total <? 20 then Err InvalidIpHeader
        else
          let ihl := Z.land (b2z (byte_at 0 ip)) 15 * 4 in
          if (ihl <? 20) || (total <? ihl) then Err InvalidIpHeader
          else if MAX_IP_PACKET_LEN <? total then Err InvalidIpHeader
          else Ok total
    else if v =? 6 then
      if (length ip <? 40)%nat then Err InvalidIpHeader
      else
        let payload := be_val [byte_at 4 ip; byte_at 5 ip] in
        let total := saturating_add 64 40 payload in
        if total <? 40 then Err InvalidIpHeader
        else if MAX_IP_PACKET_LEN <? total then Err InvalidIpHeader
        else Ok total
    else Err InvalidIpHeader.

Definition validate_ip_packet (ip : bytes) : result OverlayError Z :=
  declared ← declared_ip_len ip;
  if negb (declared =? zlen ip) then Err IpLengthMismatch else Ok declared.

Definition validate_ip_header_at (buf : bytes) (expected_len : Z) : result OverlayError () :=
  if MAX_IP_PACKET_LEN <? expected_len then Err InvalidIpHeader
  else if zlen buf <? expected_len then Err InvalidIpHeader
  else
    let v := Z.shiftr (b2z (byte_at 0 buf)) 4 in
    if v =? 4 then
      if expected_len <? 20 then Err InvalidIpHeader
      else
        let total := be_val [byte_at 2 buf; byte_at 3 buf] in
        if negb (total =? expected_len) then Err InvalidIpHeader
        else
          let ihl := Z.land (b2z (byte_at 0 buf)) 15 * 4 in
          if (ihl <? 20) || (expected_len <? ihl) then Err InvalidIpHeader else Ok ()
    else if v =? 6 then
      if expected_len <? 40 then Err InvalidIpHeader
      else
        let payload := be_val [byte_at 4 buf; byte_at 5 buf] in
        if negb (saturating_add 64 40 payload =? expected_len) then Err InvalidIpHeader else Ok ()
    else Err InvalidIpHeader.

(** ** CRC-32 *)

(** The loop body of the table construction. *)
Definition crc_step (crc : Z) : Z :=
  if Z.land crc 1 =? 1 then Z.lxor (Z.shiftr crc 1) 0xEDB88320 else Z.shiftr crc 1.

Definition crc32_table : list Z :=
  for_range 0 256
    (fun i table => <[i := for_range 0 8 (fun _ crc => crc_step crc) (Z.of_nat i)]> table)
    (replicate 256 0).

Definition crc32 (data : bytes) : Z :=
  let table := crc32_table in
  let crc := fold_left (fun crc b =>
    let idx := Z.to_nat (Z.land (Z.lxor crc (b2z b)) 0xFF) in
    Z.lxor (Z.shiftr crc 8) (table !!! idx)) data 0xFFFFFFFF in
  Z.lxor crc 0xFFFFFFFF.

(** ** Sender *)

Inductive DataplaneError := InvalidIpPacket | TooLarge.

Definition div_ceil (a b : nat) : nat := ((a + b - 1) / b)%nat.

(** One iteration of the fragmentation loop. *)
Definition fragment_slot (ip_packet : bytes) (datagram_id crc : Z) (frag_count idx : nat) : bytes :=
  let len := length ip_packet in
  let start := (idx * FRAG_CAP)%nat in
  let end_ := Nat.min (start + FRAG_CAP) len in
  let slot := zeros PAYLOAD_LEN in
  let slot := write_at 0 [OVERLAY_VERSION] slot in
  let slot := write_at 1 [z2b (Z.of_nat idx)] slot in
  let slot := write_at 2 [z2b (Z.of_nat frag_count)] slot in
  let slot := write_at 3 [x00] slot in
  let slot := write_at 4 (be_bytes 2 (Z.of_nat len)) slot in
  let slot := write_at 6 (be_bytes 2 0) slot in
  let slot := write_at 8 (be_bytes 8 datagram_id) slot in
  let slot := write_at 16 (be_bytes 4 crc) slot in
  write_at 20 (slice start end_ ip_packet) slot.

Definition fragment_ip_packet (ip_packet : bytes) (datagram_id : Z)
    : result DataplaneError (list bytes) :=
  let len := length ip_packet in
  if negb ((20 <=? Z.of_nat len) && (Z.of_nat len <=? MAX_IP_PACKET_LEN)) then Err InvalidIpPacket
  else
    _ ← map_err (fun _ => InvalidIpPacket) (validate_ip_packet ip_packet);
    let frag_count := div_ceil len FRAG_CAP in
    if (frag_count =? 0)%nat || (MAX_FRAG_COUNT <? Z.of_nat frag_count) then Err TooLarge
    else
      let crc := crc32 ip_packet in
      Ok (fragment_slot ip_packet datagram_id crc frag_count <$> seq 0 frag_count).

Definition replay_span_ok (first_counter current_counter : Z) : bool :=
  wrapping_sub 64 current_counter first_counter <? WINDOW_BITS.

(** ** Reassembler *)

Inductive FeedOutcome :=
| Pending
| DuplicateIgnored
| Poisoned
| DroppedCap
| InvalidHeader (e : OverlayError)
| Malformed
| Complete (packet : bytes).

Record Entry := mkEntry {
  e_frag_count : byte;
  e_ip_total_len : Z;
  e_datagram_crc : Z;
  e_received : list bool;
  e_buf : bytes;
  e_received_count : nat;
  e_poisoned : bool;
  e_has_fragment0 : bool;
  e_fragment0_valid : bool;
  e_deadline : Instant }.

Record Reassembler := mkReassembler {
  r_entries : gmap Z Entry;
  r_max_entries : Z;
  r_max_bytes : Z;
  r_current_bytes : Z;
  r_deadline : Duration }.

Definition with_caps (deadline : Duration) (max_entries max_bytes : Z) : Reassembler :=
  mkReassembler ∅ max_entries max_bytes 0 deadline.

Definition Reassembler_new (deadline : Duration) : Reassembler :=
  with_caps deadline MAX_ENTRIES_PER_SESSION MAX_BYTES_PER_SESSION.

Definition r_update (r : Reassembler) (m : gmap Z Entry) (bytes : Z) : Reassembler :=
  mkReassembler m (r_max_entries r) (r_max_bytes r) bytes (r_deadline r).

(** One iteration of the removal loop of [expire]. *)
Definition expire_one (r : Reassembler) (id : Z) : Reassembler :=
  match r_entries r !! id with
  | Some e => r_update r (delete id (r_entries r))
                (saturating_sub (r_current_bytes r) (e_ip_total_len e))
  | None => r
  end.

Definition expire (r : Reassembler) (now : Instant) : Reassembler :=
  let to_remove := (filter (fun p => e_deadline p.2 <= now) (map_to_list (r_entries r))).*1 in
  fold_left expire_one to_remove r.

Definition Reassembler_clear (r : Reassembler) : Reassembler := r_update r ∅ 0.

Definition set_poisoned (e : Entry) : Entry :=
  mkEntry (e_frag_count e) (e_ip_total_len e) (e_datagram_crc e) (e_received e) (e_buf e)
    (e_received_count e) true (e_has_fragment0 e) (e_fragment0_valid e) (e_deadline e).

(** The part of [feed] that works on the entry: the outcome, and the entry
    afterwards ([None] when the datagram completed and is removed). *)
Definition feed_entry (e : Entry) (hdr : OverlayHeader) (slot : bytes) (trailing_bad : bool)
    : FeedOutcome * option Entry :=
  let expected := expected_frag_len hdr in
  if e_poisoned e then (Poisoned, Some e)
  else if negb (bool_decide (e_frag_count e = frag_count hdr))
          || negb (e_ip_total_len e =? ip_total_len hdr)
          || negb (e_datagram_crc e =? datagram_crc hdr)
  then (Poisoned, Some (set_poisoned e))
  else if trailing_bad then (Poisoned, Some (set_poisoned e))
  else
    let idx := Z.to_nat (b2z (frag_index hdr)) in
    let frag_len := expected in
    let offset := (idx * FRAG_CAP)%nat in
    let newbytes := slice OVERLAY_HEADER_LEN (OVERLAY_HEADER_LEN + frag_len) slot in
    if default false (e_received e !! idx) then
      if bool_decide (slice offset (offset + frag_len) (e_buf e) = newbytes)
      then (DuplicateIgnored, Some e)
      else (Poisoned, Some (set_poisoned e))
    else
      let buf := write_at offset newbytes (e_buf e) in
      let received := <[idx := true]> (e_received e) in
      let count := S (e_received_count e) in
      let is0 := (idx =? 0)%nat in
      let has0 := if is0 then true else e_has_fragment0 e in
      let valid0 := if is0 then is_ok (validate_ip_header_at buf (e_ip_total_len e))
                    else e_fragment0_valid e in
      let e' := mkEntry (e_frag_count e) (e_ip_total_len e) (e_datagram_crc e) received buf count
                  (e_poisoned e) has0 valid0 (e_deadline e) in
      if is0 && negb valid0 then (Poisoned, Some (set_poisoned e'))
      else
        let fc := Z.to_nat (b2z (e_frag_count e)) in
        if (count =? fc)%nat && has0 && valid0 then
          let crc := crc32 (take (Z.to_nat (e_ip_total_len e)) buf) in
          if negb (crc =? e_datagram_crc e) then (Poisoned, Some (set_poisoned e'))
          else (Complete buf, None)
        else (Pending, Some e').

(** The freshly allocated entry for a header. *)
Definition new_entry (hdr : OverlayHeader) (deadline : Instant) : Entry :=
  let ipt := Z.to_nat (ip_total_len hdr) in
  let fc := Z.to_nat (b2z (frag_count hdr)) in
  mkEntry (frag_count hdr) (ip_total_len hdr) (datagram_crc hdr) (replicate fc false) (zeros ipt)
    0 false false false deadline.

Definition trailing_nonzero (slot : bytes) (from : nat) : bool :=
  existsb (fun b => negb (bool_decide (b = x00))) (slice from PAYLOAD_LEN slot).

(** The tail of [feed], from the entry of the datagram on: step the entry, then
    write it back, or remove it and release its bytes. *)
Definition feed_on_entry (r : Reassembler) (e : Entry) (hdr : OverlayHeader) (slot : bytes)
    (trailing_bad : bool) : FeedOutcome * Reassembler :=
  let id := datagram_id hdr in
  match feed_entry e hdr slot trailing_bad with
  | (o, Some e') => (o, r_update r (<[id := e']> (r_entries r)) (r_current_bytes r))
  | (o, None) =>
      (o, r_update r (delete id (r_entries r))
            (saturating_sub (r_current_bytes r) (e_ip_total_len e)))
  end.

Definition feed (r : Reassembler) (slot : bytes) (now : Instant) : FeedOutcome * Reassembler :=
  let r := expire r now in
  match OverlayHeader_decode slot with
  | Err e => (InvalidHeader e, r)
  | Ok hdr =>
      let expected := expected_frag_len hdr in
      let trailing_bad := trailing_nonzero slot (OVERLAY_HEADER_LEN + expected) in
      let id := datagram_id hdr in
      match r_entries r !! id with
      | Some e => feed_on_entry r e hdr slot trailing_bad
      | None =>
          if trailing_bad then (Malformed, r)
          else if r_max_entries r <=? Z.of_nat (size (r_entries r)) then (DroppedCap, r)
          else
            let ipt := ip_total_len hdr in
            if r_max_bytes r <? saturating_add 64 (r_current_bytes r) ipt then (DroppedCap, r)
            else
              let e := new_entry hdr (now + r_deadline r) in
              feed_on_entry (r_update r (<[id := e]> (r_entries r)) (r_current_bytes r + ipt))
                e hdr slot trailing_bad
      end
  end.

(** Linear arithmetic over the overlay dimensions. *)
Lemma FRAG_CAP_value : FRAG_CAP = 1225%nat.
Proof. reflexivity. Qed.

Lemma PAYLOAD_LEN_value : PAYLOAD_LEN = 1245%nat.
Proof. reflexivity. Qed.

Lemma PAYLOAD_LEN_split : PAYLOAD_LEN = (OVERLAY_HEADER_LEN + FRAG_CAP)%nat.
Proof. reflexivity. Qed.

(** ** Header codec *)

(** The §4.4 checks of [decode]. *)
Definition OverlayHeader_valid (h : OverlayHeader) : Prop :=
  overlay_version h = OVERLAY_VERSION /\ flags h = x00 /\ reserved h = 0 /\
  1 <= b2z (frag_count h) <= MAX_FRAG_COUNT /\ b2z (frag_index h) < b2z (frag_count h) /\
  20 <= ip_total_len h <= MAX_IP_PACKET_LEN /\
  (b2z (frag_count h) - 1) * Z.of_nat FRAG_CAP < ip_total_len h /\
  ip_total_len h <= b2z (frag_count h) * Z.of_nat FRAG_CAP.

Definition OverlayHeader_bytes (h : OverlayHeader) : bytes :=
  [overlay_version h; frag_index h; frag_count h; flags h]
  ++ be_bytes 2 (ip_total_len h) ++ be_bytes 2 (reserved h)
  ++ be_bytes 8 (datagram_id h) ++ be_bytes 4 (datagram_crc h).

Lemma length_OverlayHeader_bytes h : length (OverlayHeader_bytes h) = OVERLAY_HEADER_LEN.
Proof. reflexivity. Qed.

Lemma OverlayHeader_encode_bytes h out :
  length out = OVERLAY_HEADER_LEN -> OverlayHeader_encode h out = OverlayHeader_bytes h.
Proof.
  intros Hl. do 20 (destruct out as [|? out]; [discriminate|]).
  destruct out; [|discriminate]. reflexivity.
Qed.

Lemma b2z_zero b : b2z b = 0 <-> b = x00.
Proof. split; [|by intros ->]. intros H. by apply b2z_inj. Qed.

(** Decoding before validation: the header fields of the first 20 bytes. *)
Lemma header_fields h rest :
  OverlayHeader_wf h ->
  let l := slice 0 OVERLAY_HEADER_LEN (OverlayHeader_bytes h ++ rest) in
  byte_at 0 l = overlay_version h /\ byte_at 1 l = frag_index h /\ byte_at 2 l = frag_count h /\
  byte_at 3 l = flags h /\ be_val [byte_at 4 l; byte_at 5 l] = ip_total_len h /\
  be_val [byte_at 6 l; byte_at 7 l] = reserved h /\ be_val (slice 8 16 l) = datagram_id h /\
  be_val (slice 16 20 l) = datagram_crc h.
Proof.
  intros (H1 & H2 & H3 & H4) l. subst l.
  rewrite slice_app_l by (rewrite length_OverlayHeader_bytes; lia).
  rewrite <- (length_OverlayHeader_bytes h) at 1 2 3 4 5 6 7 8. rewrite slice_all.
  do 4 (split; [reflexivity|]).
  split; [apply (be_val_be_bytes_small 2), H1|]. split; [apply (be_val_be_bytes_small 2), H2|].
  split; [apply (be_val_be_bytes_small 8), H3|apply (be_val_be_bytes_small 4), H4].
Qed.

Lemma OverlayHeader_decode_bytes h rest :
  OverlayHeader_wf h -> OverlayHeader_valid h ->
  OverlayHeader_decode (OverlayHeader_bytes h ++ rest) = Ok h.
Proof.
  intros Hwf (Hv & Hf & Hr & Hc & Hi & Ht & Hlo & Hhi).
  unfold OverlayHeader_decode. rewrite length_app, length_OverlayHeader_bytes.
  replace (OVERLAY_HEADER_LEN + length rest <? OVERLAY_HEADER_LEN)%nat with false by lia.
  destruct (header_fields h rest Hwf) as (-> & -> & -> & -> & -> & -> & -> & ->).
  rewrite bool_decide_true by done. rewrite Hf, Hr. cbn [negb].
  change (negb (b2z x00 =? 0)) with false. change (negb (0 =? 0)) with false. cbv iota.
  replace ((b2z (frag_count h) =? 0) || (MAX_FRAG_COUNT <? b2z (frag_count h))) with false by lia.
  replace (b2z (frag_count h) <=? b2z (frag_index h)) with false by lia.
  replace ((20 <=? ip_total_len h) && (ip_total_len h <=? MAX_IP_PACKET_LEN)) with true by lia.
  cbn [negb].
  replace ((ip_total_len h <=? _) || (_ <? ip_total_len h)) with false by lia.
  rewrite <- Hf, <- Hr. by destruct h.
Qed.

(** Any 20 bytes are the bytes of some header record. *)
Lemma header_of_bytes l :
  length l = OVERLAY_HEADER_LEN -> exists h, OverlayHeader_wf h /\ OverlayHeader_bytes h = l.
Proof.
  intros Hl. do 20 (destruct l as [|? l]; [discriminate|]). destruct l; [|discriminate].
  match type of Hl with length [?a0;?a1;?a2;?a3;?a4;?a5;?a6;?a7;?a8;?a9;?a10;?a11;?a12;?a13;
                               ?a14;?a15;?a16;?a17;?a18;?a19] = _ =>
    exists (mkOverlayHeader a0 a1 a2 a3 (be_val [a4;a5]) (be_val [a6;a7])
      (be_val [a8;a9;a10;a11;a12;a13;a14;a15]) (be_val [a16;a17;a18;a19])); split;
    [repeat split; apply be_val_range|];
    unfold OverlayHeader_bytes;
    pose proof (be_bytes_be_val [a4;a5]) as E1; pose proof (be_bytes_be_val [a6;a7]) as E2;
    pose proof (be_bytes_be_val [a8;a9;a10;a11;a12;a13;a14;a15]) as E3;
    pose proof (be_bytes_be_val [a16;a17;a18;a19]) as E4
  end.
  cbn [length] in E1, E2, E3, E4.
  cbn [overlay_version frag_index frag_count flags ip_total_len reserved datagram_id datagram_crc].
  rewrite E1, E2, E3, E4. reflexivity.
Qed.

Lemma OverlayHeader_decode_inv data h :
  OverlayHeader_decode data = Ok h ->
  (OVERLAY_HEADER_LEN <= length data)%nat /\ OverlayHeader_wf h /\ OverlayHeader_valid h /\
  take OVERLAY_HEADER_LEN data = OverlayHeader_bytes h.
Proof.
  intros H. destruct (Nat.ltb_spec (length data) OVERLAY_HEADER_LEN) as [Hl|Hl].
  { unfold OverlayHeader_decode in H. by rewrite (proj2 (Nat.ltb_lt _ _) Hl) in H. }
  destruct (header_of_bytes (take OVERLAY_HEADER_LEN data)) as (h0 & Hwf & Hb).
  { rewrite length_take. lia. }
  rewrite <- (take_drop OVERLAY_HEADER_LEN data), <- Hb in H.
  unfold OverlayHeader_decode in H. rewrite length_app, length_OverlayHeader_bytes in H.
  replace (OVERLAY_HEADER_LEN + length (drop OVERLAY_HEADER_LEN data) <? OVERLAY_HEADER_LEN)%nat
    with false in H by lia.
  destruct (header_fields h0 (drop OVERLAY_HEADER_LEN data) Hwf)
    as (E1 & E2 & E3 & E4 & E5 & E6 & E7 & E8).
  rewrite E1, E2, E3, E4, E5, E6, E7, E8 in H. clear E1 E2 E3 E4 E5 E6 E7 E8.
  pose proof (b2z_range (frag_count h0)).
  destruct (bool_decide (overlay_version h0 = OVERLAY_VERSION)) eqn:Ev; [|done].
  apply bool_decide_eq_true in Ev. cbn [negb] in H. split_matches.
  assert (mkOverlayHeader (overlay_version h0) (frag_index h0) (frag_count h0) (flags h0)
    (ip_total_len h0) (reserved h0) (datagram_id h0) (datagram_crc h0) = h0) as -> by by destruct h0.
  split; [done|]. split; [done|]. split; [|done].
  unfold OverlayHeader_valid. rewrite <- b2z_zero. repeat split; try done; lia.
Qed.

(** ** CRC-32: the table-driven routine is the bitwise one *)

(** Reference: the reflected CRC-32 register shifted one message bit at a time. *)
Definition crc_register_shift (crc : Z) : Z :=
  if Z.odd crc then Z.lxor (crc / 2) 0xEDB88320 else crc / 2.

Definition crc32_bitwise (data : bytes) : Z :=
  Z.lxor (fold_left (fun crc b => Nat.iter 8 crc_register_shift (Z.lxor crc (b2z b)))
            data 0xFFFFFFFF) 0xFFFFFFFF.

Lemma crc_step_register c : crc_step c = crc_register_shift c.
Proof.
  unfold crc_step, crc_register_shift.
  rewrite Z.shiftr_div_pow2, Z.pow_1_r by lia.
  change 1 with (Z.ones 1) at 1. rewrite Z.land_ones by lia. change (2 ^ 1) with 2.
  rewrite Zmod_odd. by destruct (Z.odd c).
Qed.

Lemma crc_step_alt c :
  crc_step c = Z.lxor (Z.shiftr c 1) (if Z.testbit c 0 then 0xEDB88320 else 0).
Proof.
  rewrite crc_step_register. unfold crc_register_shift.
  rewrite Z.bit0_odd, Z.shiftr_div_pow2, Z.pow_1_r by lia.
  destruct (Z.odd c); [done|]. by rewrite Z.lxor_0_r.
Qed.

Lemma crc_step_lxor a b : crc_step (Z.lxor a b) = Z.lxor (crc_step a) (crc_step b).
Proof.
  rewrite !crc_step_alt, Z.shiftr_lxor, Z.lxor_spec.
  apply Z.bits_inj'. intros n _. rewrite !Z.lxor_spec.
  destruct (Z.testbit a 0), (Z.testbit b 0); simpl xorb; rewrite ?Z.bits_0;
    by destruct (Z.testbit (Z.shiftr a 1) n), (Z.testbit (Z.shiftr b 1) n),
      (Z.testbit 0xEDB88320 n).
Qed.

Lemma crc_iter_lxor n a b :
  Nat.iter n crc_step (Z.lxor a b) = Z.lxor (Nat.iter n crc_step a) (Nat.iter n crc_step b).
Proof. induction n as [|n IH]; simpl; [done|]. by rewrite IH, crc_step_lxor. Qed.

Lemma crc_iter_shiftl n h : Nat.iter n crc_step (Z.shiftl h (Z.of_nat n)) = h.
Proof.
  revert h. induction n as [|n IH]; intros h; [apply Z.shiftl_0_r|].
  rewrite Nat.iter_succ_r. rewrite <- (IH h) at 2. f_equal.
  rewrite crc_step_alt, Z.shiftl_spec_low, Z.lxor_0_r by lia.
  rewrite Z.shiftr_shiftl_l by lia. f_equal. lia.
Qed.

Lemma split_low_byte c : c = Z.lxor (Z.land c 0xFF) (Z.shiftl (Z.shiftr c 8) 8).
Proof.
  change 0xFF with (Z.ones 8). apply Z.bits_inj'. intros n Hn.
  rewrite Z.lxor_spec, Z.land_spec, Z.testbit_ones_nonneg by lia.
  destruct (Z.ltb_spec n 8).
  - rewrite Z.shiftl_spec_low by lia. by rewrite andb_true_r, xorb_false_r.
  - rewrite Z.shiftl_spec, Z.shiftr_spec by lia. rewrite andb_false_r. simpl. f_equal. lia.
Qed.

Lemma crc32_table_lookup i :
  (i < 256)%nat -> crc32_table !!! i = Nat.iter 8 crc_step (Z.of_nat i).
Proof.
  intros Hi. unfold crc32_table.
  rewrite (lookup_for_range (fun i => for_range 0 8 (fun _ crc => crc_step crc) (Z.of_nat i)))
    by (rewrite length_replicate; lia).
  rewrite bool_decide_true by lia. reflexivity.
Qed.

Lemma crc_table_step crc b :
  Z.lxor (Z.shiftr crc 8) (crc32_table !!! Z.to_nat (Z.land (Z.lxor crc (b2z b)) 0xFF)) =
  Nat.iter 8 crc_step (Z.lxor crc (b2z b)).
Proof.
  pose proof (b2z_range b) as Hb.
  set (c := Z.lxor crc (b2z b)).
  assert (0 <= Z.land c 0xFF < 256) as Hr.
  { change 0xFF with (Z.ones 8). rewrite Z.land_ones by lia. by apply Z.mod_pos_bound. }
  rewrite crc32_table_lookup by lia. rewrite Z2Nat.id by lia.
  rewrite (split_low_byte c) at 2. rewrite crc_iter_lxor, (crc_iter_shiftl 8), Z.lxor_comm.
  f_equal. unfold c. rewrite Z.shiftr_lxor.
  rewrite (Z.shiftr_div_pow2 (b2z b)), (Z.div_small (b2z b)) by lia. by rewrite Z.lxor_0_r.
Qed.

Lemma crc_iter_register n c : Nat.iter n crc_step c = Nat.iter n crc_register_shift c.
Proof. induction n as [|n IH]; simpl; [done|]. by rewrite IH, crc_step_register. Qed.

Lemma crc32_bitwise_eq data : crc32 data = crc32_bitwise data.
Proof.
  unfold crc32, crc32_bitwise. f_equal. generalize 0xFFFFFFFF.
  induction data as [|b data IH]; intros crc; [done|]. cbn [fold_left].
  by rewrite crc_table_step, IH, crc_iter_register.
Qed.

Lemma crc32_check_value : crc32 (z2b <$> [49; 50; 51; 52; 53; 54; 55; 56; 57]) = 0xCBF43926.
Proof. vm_compute. reflexivity. Qed.

Lemma crc_step_range c : in_range 32 c -> in_range 32 (crc_step c).
Proof.
  intros Hc. rewrite crc_step_alt. apply lxor_range; [lia| |by destruct (Z.testbit c 0)].
  unfold in_range in *. rewrite Z.shiftr_div_pow2 by lia. change (2 ^ 1) with 2. lia.
Qed.

Lemma crc32_range data : in_range 32 (crc32 data).
Proof.
  rewrite crc32_bitwise_eq. unfold crc32_bitwise. apply lxor_range; [lia| |done].
  assert (in_range 32 0xFFFFFFFF) as H by done. revert H. generalize 0xFFFFFFFF.
  induction data as [|b data IH]; intros c Hc; [done|]. cbn [fold_left]. apply IH.
  rewrite <- crc_iter_register. apply (Nat.iter_invariant 8 _ crc_step (in_range 32)).
  - intros x. apply crc_step_range.
  - apply lxor_range; [lia|done|]. pose proof (b2z_range b). unfold in_range. lia.
Qed.

(** ** Fragments *)

(** The header of fragment [i] of [n]. *)
Definition fragment_header (ip : bytes) (id : Z) (n i : nat) : OverlayHeader :=
  mkOverlayHeader OVERLAY_VERSION (z2b (Z.of_nat i)) (z2b (Z.of_nat n)) x00 (zlen ip) 0 id (crc32 ip).

(** The bytes of the packet fragment [i] carries. *)
Abbreviation chunk := (chunk_of FRAG_CAP).

(** A packet that [fragment_ip_packet] cuts into [n] fragments. *)
Definition fragmentable (ip : bytes) (n : nat) : Prop :=
  20 <= zlen ip <= MAX_IP_PACKET_LEN /\ validate_ip_packet ip = Ok (zlen ip) /\
  n = div_ceil (length ip) FRAG_CAP.

Lemma fragment_count_bounds ip n :
  fragmentable ip n ->
  (1 <= n)%nat /\ Z.of_nat n <= MAX_FRAG_COUNT /\
  ((n - 1) * FRAG_CAP < length ip <= n * FRAG_CAP)%nat.
Proof.
  intros ([Hlo Hhi] & _ & ->). unfold zlen, MAX_IP_PACKET_LEN, MAX_FRAG_COUNT, div_ceil in *.
  rewrite FRAG_CAP_value.
  pose proof (Nat.div_mod (length ip + 1225 - 1) 1225 ltac:(lia)).
  pose proof (Nat.mod_upper_bound (length ip + 1225 - 1) 1225 ltac:(lia)).
  set (q := ((length ip + 1225 - 1) / 1225)%nat) in *. lia.
Qed.

Lemma validate_ip_packet_ok ip l : validate_ip_packet ip = Ok l -> l = zlen ip.
Proof.
  unfold validate_ip_packet. intros H. apply bind_ok in H as (d & _ & H). split_matches. lia.
Qed.

Lemma fragment_ip_packet_inv ip id slots :
  fragment_ip_packet ip id = Ok slots ->
  exists n, fragmentable ip n /\ slots = fragment_slot ip id (crc32 ip) n <$> seq 0 n.
Proof.
  unfold fragment_ip_packet. intros H.
  destruct ((20 <=? _) && _) eqn:Hr; [|done]. cbn [negb] in H. cbv iota in H.
  destruct (validate_ip_packet ip) as [l|] eqn:Ev; [|done]. simpl in H.
  destruct ((_ =? 0)%nat || _) eqn:Hc; [done|]. simplify_res.
  exists (div_ceil (length ip) FRAG_CAP). split; [|done].
  rewrite (validate_ip_packet_ok _ _ Ev) in Ev.
  split; [unfold zlen; lia|done].
Qed.

Lemma fragment_header_valid ip id n i :
  fragmentable ip n -> (i < n)%nat -> in_range 64 id ->
  OverlayHeader_wf (fragment_header ip id n i) /\ OverlayHeader_valid (fragment_header ip id n i) /\
  b2z (z2b (Z.of_nat i)) = Z.of_nat i /\ b2z (z2b (Z.of_nat n)) = Z.of_nat n.
Proof.
  intros Hf Hi Hid. destruct (fragment_count_bounds ip n Hf) as (H1 & H2 & H3 & H4).
  destruct Hf as ([Hlo Hhi] & _ & _).
  unfold MAX_FRAG_COUNT, MAX_IP_PACKET_LEN in *.
  assert (b2z (z2b (Z.of_nat i)) = Z.of_nat i) as Ei by (apply b2z_z2b_small; lia).
  assert (b2z (z2b (Z.of_nat n)) = Z.of_nat n) as En by (apply b2z_z2b_small; lia).
  split; [|split; [|done]].
  - repeat split; simpl; try apply Hid; try apply crc32_range; unfold in_range; lia.
  - unfold OverlayHeader_valid, fragment_header; cbn -[FRAG_CAP z2b b2z]. rewrite Ei, En.
    unfold zlen, MAX_FRAG_COUNT, MAX_IP_PACKET_LEN in *. rewrite FRAG_CAP_value in *.
    repeat split; lia.
Qed.

Lemma FRAG_CAP_pos : (0 < FRAG_CAP)%nat.
Proof. rewrite FRAG_CAP_value. lia. Qed.

Lemma fragment_chunks ip n :
  fragmentable ip n -> ((n - 1) * FRAG_CAP < length ip <= n * FRAG_CAP)%nat.
Proof. intros Hf. apply (fragment_count_bounds ip n Hf). Qed.

Lemma expected_fragment_header ip id n i :
  fragmentable ip n -> (i < n)%nat -> in_range 64 id ->
  expected_frag_len (fragment_header ip id n i) = length (chunk ip i).
Proof.
  intros Hf Hi Hid. destruct (fragment_header_valid ip id n i Hf Hi Hid) as (_ & _ & Ei & En).
  unfold expected_frag_len, fragment_header. cbn [frag_index frag_count ip_total_len].
  rewrite Ei, En, (length_chunk_of FRAG_CAP ip n FRAG_CAP_pos (fragment_chunks ip n Hf) i Hi).
  unfold zlen. by rewrite !Nat2Z.id.
Qed.

Lemma fragment_slot_bytes ip id n i :
  fragment_slot ip id (crc32 ip) n i =
  OverlayHeader_bytes (fragment_header ip id n i) ++ chunk ip i
    ++ zeros (FRAG_CAP - length (chunk ip i)).
Proof.
  pose proof (chunk_of_le FRAG_CAP ip i) as Hc. unfold fragment_slot. fold (chunk ip i).
  rewrite PAYLOAD_LEN_split. unfold OVERLAY_HEADER_LEN.
  rewrite write_at_zeros_0 by (simpl; lia).
  do 8 (rewrite write_at_zeros by (autorewrite with tunnel_len; simpl length; lia)).
  by rewrite app_assoc.
Qed.

Lemma fragment_slot_decode ip id n i :
  fragmentable ip n -> (i < n)%nat -> in_range 64 id ->
  OverlayHeader_decode (fragment_slot ip id (crc32 ip) n i) = Ok (fragment_header ip id n i).
Proof.
  intros Hf Hi Hid. destruct (fragment_header_valid ip id n i Hf Hi Hid) as (Hw & Hv & _).
  rewrite fragment_slot_bytes. by apply OverlayHeader_decode_bytes.
Qed.

(** The payload bytes and the zero padding of a fragment, as [feed] reads them. *)
Lemma fragment_slot_payload ip id n i :
  slice OVERLAY_HEADER_LEN (OVERLAY_HEADER_LEN + length (chunk ip i))
    (fragment_slot ip id (crc32 ip) n i) = chunk ip i.
Proof. rewrite fragment_slot_bytes. by apply slice_exact. Qed.

Lemma fragment_slot_padding ip id n i :
  trailing_nonzero (fragment_slot ip id (crc32 ip) n i)
    (OVERLAY_HEADER_LEN + length (chunk ip i)) = false.
Proof.
  unfold trailing_nonzero. rewrite fragment_slot_bytes, app_assoc.
  rewrite slice_app_r by (rewrite length_app, length_OverlayHeader_bytes; lia).
  unfold slice, zeros. rewrite drop_replicate, take_replicate.
  by induction (_ `min` _)%nat.
Qed.

(** ** Correctness of the header codec and of the checksum *)

(** [OverlayHeader::decode] accepts exactly the slots that start with the
    encoding of a header satisfying every check of the overlay format, and
    returns that header; encoding and decoding are inverse. *)
Theorem OverlayHeader_decode_exact data h :
  OverlayHeader_decode data = Ok h <->
  (OVERLAY_HEADER_LEN <= length data)%nat /\ OverlayHeader_wf h /\ OverlayHeader_valid h /\
  take OVERLAY_HEADER_LEN data = OverlayHeader_encode h (zeros OVERLAY_HEADER_LEN).
Proof.
  rewrite OverlayHeader_encode_bytes by apply length_zeros.
  split; [apply OverlayHeader_decode_inv|]. intros (Hl & Hwf & Hv & Ht).
  rewrite <- (take_drop OVERLAY_HEADER_LEN data), Ht. by apply OverlayHeader_decode_bytes.
Qed.

(** C40: The table-driven [crc32] computes the bit-by-bit CRC-32 register on every
    byte string. *)
Theorem crc32_table_correct data : crc32 data = crc32_bitwise data.
Proof. apply crc32_bitwise_eq. Qed.
