(* ===== verification/PacketPolicy.v ===== *)
(** * Inner-packet policy of the binary

    [pq-tunnel-bin/src/packet_len.rs], [pq-tunnel-bin/src/tun/mod.rs] and
    [pq-tunnel-bin/src/tun_policy.rs]: recovery of an IP packet's length from a
    padded slot, the link-local/NDP boundary filter, and the server's verdict on
    an inner packet (structure, source anti-spoofing, destination policy). The
    destination policy is specified by a list of CIDR prefixes. *)

From S2P Require Import Prelude Bytes Net IpAddr Errors Codec Dataplane.

Local Open Scope Z_scope.

(** ** [packet_len.rs] *)

Definition ip_packet_len (payload : bytes) : Z :=
  if (length payload <? 20)%nat then 0
  else
    let v := Z.shiftr (b2z (byte_at 0 payload)) 4 in
    if v =? 4 then
      let total := be_val [byte_at 2 payload; byte_at 3 payload] in
      if (total <? 20) || (zlen payload <? total) then 0 else total
    else if v =? 6 then
      let payload_len := be_val [byte_at 4 payload; byte_at 5 payload] in
      let total := saturating_add 64 40 payload_len in
      if (total <? 40) || (zlen payload <? total) then 0 else total
    else 0.

(** ** [tun/mod.rs] *)

Definition INNER_MTU : Z := 1280.
Definition REASSEMBLY_DEADLINE : Duration := from_secs 2.

(** [Ipv4Addr::new(pkt[i], .., pkt[i + 3])] and
    [Ipv6Addr::from(pkt[i..i + 16])]. *)
Definition v4_at (i : nat) (pkt : bytes) : Z := be_val (slice i (i + 4) pkt).
Definition v6_at (i : nat) (pkt : bytes) : Z := be_val (slice i (i + 16) pkt).

Definition ip_version (pkt : bytes) : Z := Z.shiftr (b2z (byte_at 0 pkt)) 4.

(** [(b[0] == 0xfe && (b[1] & 0xc0) == 0x80)] on the address at [i]. *)
Definition link_local_octets (i : nat) (pkt : bytes) : bool :=
  (b2z (byte_at i pkt) =? 0xfe) && (Z.land (b2z (byte_at (i + 1) pkt)) 0xc0 =? 0x80).

Definition is_boundary_dropped (pkt : bytes) : bool :=
  if (length pkt =? 0)%nat then true
  else if ip_version pkt =? 4 then
    if (length pkt <? 20)%nat then true
    else
      let src := v4_at 12 pkt in
      let dst := v4_at 16 pkt in
      if v4_is_link_local src || v4_is_link_local dst then true
      else v4_is_multicast src || v4_is_multicast dst || v4_is_broadcast dst
  else if ip_version pkt =? 6 then
    if (length pkt <? 40)%nat then true
    else
      let src := v6_at 8 pkt in
      let dst := v6_at 24 pkt in
      if link_local_octets 8 pkt || link_local_octets 24 pkt then true
      else
        let nh := b2z (byte_at 6 pkt) in
        let icmp_type := b2z (byte_at 40 pkt) in
        if (nh =? 58) && (41 <=? length pkt)%nat
           && (((133 <=? icmp_type) && (icmp_type <=? 137))
               || ((143 <=? icmp_type) && (icmp_type <=? 147)))
        then true
        else v6_is_multicast src || v6_is_multicast dst
  else true.

Definition validate_inner (pkt : bytes) : bool := is_ok (validate_ip_packet pkt).

(** ** [tun_policy.rs] *)

Record ClientAssignment := mkClientAssignment { ca_v4 : Z; ca_v6 : Z }.

Definition ClientAssignment_default : ClientAssignment :=
  {| ca_v4 := Ipv4Addr_new 10 77 0 2; ca_v6 := Ipv6Addr_new 0xfd00 0x77 0 0 0 0 0 2 |}.

Definition source_allowed (src : IpAddr) (assignment : ClientAssignment) : bool :=
  match src with
  | IpV4 v4 => v4 =? ca_v4 assignment
  | IpV6 v6 =>
      match to_ipv4_mapped v6 with
      | Some v4 => v4 =? ca_v4 assignment
      | None => v6 =? ca_v6 assignment
      end
  end.

Definition extract_dst_port (pkt : bytes) : option Z :=
  if (length pkt =? 0)%nat then None
  else if ip_version pkt =? 4 then
    if (length pkt <? 20)%nat then None
    else
      let ihl := (Z.to_nat (Z.land (b2z (byte_at 0 pkt)) 0x0F) * 4)%nat in
      if (ihl <? 20)%nat || (length pkt <? ihl + 4)%nat then None
      else
        let proto := b2z (byte_at 9 pkt) in
        if negb (proto =? 6) && negb (proto =? 17) then None
        else Some (be_val [byte_at (ihl + 2) pkt; byte_at (ihl + 3) pkt])
  else if ip_version pkt =? 6 then
    if (length pkt <? 40)%nat then None
    else
      let next := b2z (byte_at 6 pkt) in
      if negb (next =? 6) && negb (next =? 17) then None
      else if (length pkt <? 44)%nat then None
      else Some (be_val [byte_at 42 pkt; byte_at 43 pkt])
  else None.

Definition extract_dst_ip (pkt : bytes) : option IpAddr :=
  if (length pkt =? 0)%nat then None
  else if ip_version pkt =? 4 then
    if (length pkt <? 20)%nat then None else Some (IpV4 (v4_at 16 pkt))
  else if ip_version pkt =? 6 then
    if (length pkt <? 40)%nat then None else Some (IpV6 (v6_at 24 pkt))
  else None.

Definition extract_src_ip (pkt : bytes) : option IpAddr :=
  if (length pkt =? 0)%nat then None
  else if ip_version pkt =? 4 then
    if (length pkt <? 20)%nat then None else Some (IpV4 (v4_at 12 pkt))
  else if ip_version pkt =? 6 then
    if (length pkt <? 40)%nat then None else Some (IpV6 (v6_at 8 pkt))
  else None.

Inductive PacketVerdict := Allow | SpoofedSource | DeniedDestination | PortZero | Malformed.

Global Instance PacketVerdict_eq_dec : EqDecision PacketVerdict.
Proof. solve_decision. Defined.

(** The [V4] arm of [is_denied_destination]. *)
Definition is_denied_v4 (v4 : Z) : bool :=
  if v4_is_loopback v4 then true
  else if octet4 0 v4 =? 0 then true
  else if v4_is_multicast v4 then true
  else if v4 =? Ipv4Addr_new 255 255 255 255 then true
  else if (octet4 0 v4 =? 169) && (octet4 1 v4 =? 254) then true
  else if v4 =? Ipv4Addr_new 169 254 169 254 then true
  else if v4 =? Ipv4Addr_new 100 100 100 200 then true
  else if (octet4 0 v4 =? 100) && (Z.land (octet4 1 v4) 0xC0 =? 64) then true
  else 240 <=? octet4 0 v4.

(** The [V6] arm, after the IPv4-embedded forms. *)
Definition is_denied_v6 (v6 : Z) : bool :=
  if v6 =? V6_LOCALHOST then true
  else if v6_is_unspecified v6 then true
  else if v6_is_multicast v6 then true
  else if Z.land (segment6 0 v6) 0xFFC0 =? 0xFE80 then true
  else if (v6 =? Ipv6Addr_new 0xFD00 0x0EC2 0 0 0 0 0 0x0254)
          || (v6 =? Ipv6Addr_new 0xFD20 0x00CE 0 0 0 0 0 0x0254) then true
  else if segment6 0 v6 =? 0x2002 then true
  else if (segment6 0 v6 =? 0x2001) && (segment6 1 v6 =? 0) then true
  else (segment6 0 v6 =? 0x0064) && (segment6 1 v6 =? 0xFF9B).

(** The address of the deprecated [::/96] form, from the last two segments. *)
Definition ipv4_compatible (v6 : Z) : option Z :=
  if (segment6 0 v6 =? 0) && (segment6 1 v6 =? 0) && (segment6 2 v6 =? 0) &&
     (segment6 3 v6 =? 0) && (segment6 4 v6 =? 0) && (segment6 5 v6 =? 0) then
    let hi := segment6 6 v6 in
    let lo := segment6 7 v6 in
    Some (Ipv4Addr_new (Z.shiftr hi 8) (hi mod 256) (Z.shiftr lo 8) (lo mod 256))
  else None.

Definition is_denied_destination (dst : IpAddr) : bool :=
  match dst with
  | IpV4 v4 => is_denied_v4 v4
  | IpV6 v6 =>
      match to_ipv4_mapped v6 with
      | Some v4 => is_denied_v4 v4
      | None =>
          match ipv4_compatible v6 with
          | Some v4 => is_denied_v4 v4
          | None => is_denied_v6 v6
          end
      end
  end.

Definition validate_inner_packet (pkt : bytes) (assignment : ClientAssignment) : PacketVerdict :=
  if negb (is_ok (validate_ip_packet pkt)) then Malformed
  else
    match extract_src_ip pkt with
    | None => Malformed
    | Some src =>
        if negb (source_allowed src assignment) then SpoofedSource
        else
          match extract_dst_ip pkt with
          | None => Malformed
          | Some dst =>
              if bool_decide (extract_dst_port pkt = Some 0) then PortZero
              else if is_denied_destination dst then DeniedDestination
              else Allow
          end
    end.

(** ** Specification of the destination policy *)

Definition v4_net (a b len : Z) : Z * Z := (Ipv4Addr_new a b 0 0, len).
Definition v6_net (s t len : Z) : Z * Z := ((s * 2 ^ 16 + t) * 2 ^ 96, len).

(** 0/8, 127/8, 100.64/10, 169.254/16 and 224/3 (multicast, reserved,
    broadcast). *)
Definition TUN_DENIED_V4 : list (Z * Z) :=
  [v4_net 0 0 8; v4_net 127 0 8; v4_net 100 64 10; v4_net 169 254 16; v4_net 224 0 3].

(** Multicast, link-local, the metadata hosts, 6to4, Teredo and [64:ff9b::/32]. *)
Definition TUN_DENIED_V6 : list (Z * Z) :=
  [v6_net 0xFF00 0 8; v6_net 0xFE80 0 10;
   (Ipv6Addr_new 0xFD00 0x0EC2 0 0 0 0 0 0x0254, 128);
   (Ipv6Addr_new 0xFD20 0x00CE 0 0 0 0 0 0x0254, 128);
   v6_net 0x2002 0 16; v6_net 0x2001 0 32; v6_net 0x0064 0xFF9B 32].

Definition tun_denied (dst : IpAddr) : Prop :=
  match canonical_ip dst with
  | IpV4 a => in_prefixes 32 TUN_DENIED_V4 a
  | IpV6 a => in_prefixes 128 TUN_DENIED_V6 a
  end.

(** The address a packet must carry as its source. *)
Definition assigned (ip : IpAddr) (assignment : ClientAssignment) : Prop :=
  match ip with
  | IpV4 a => a = ca_v4 assignment
  | IpV6 a => if decide (a / 2 ^ 32 = 0xFFFF) then a mod 2 ^ 32 = ca_v4 assignment
              else a = ca_v6 assignment
  end.

#[local] Ltac Zify.zify_post_hook ::= Z.to_euclidean_division_equations.

Lemma if_true_orb (b c : bool) : (if b then true else c) = b || c.
Proof. done. Qed.

(** Evaluate the quotients of constants. *)
Ltac eval_divs :=
  repeat match goal with
  | |- context [?x / ?y] =>
      let v := eval vm_compute in (x / y) in
      lazymatch v with Z0 => idtac | Zpos _ => idtac end; change (x / y) with v
  end; change (2 ^ 6) with 64.

(** An IPv4 address as its first two octets and the rest; [v4_split a o0 o1 r]
    gives every prefix the policies test. *)
Lemma v4_split a :
  in_range 32 a -> exists o0 o1 r, 0 <= o0 < 256 /\ 0 <= o1 < 256 /\ 0 <= r < 2 ^ 16 /\
    a = o0 * 2 ^ 24 + o1 * 2 ^ 16 + r /\ octet4 0 a = o0 /\ octet4 1 a = o1 /\
    a / 2 ^ 24 = o0 /\ a / 2 ^ 22 = o0 * 4 + o1 / 64 /\ a / 2 ^ 16 = o0 * 256 + o1 /\
    a / 2 ^ 29 = o0 / 32 /\ a / 2 ^ 28 = o0 / 16.
Proof.
  intros Ha. rewrite octet4_0, octet4_1 by done. unfold in_range in Ha.
  exists (a / 2 ^ 24), (a / 2 ^ 16 mod 256), (a mod 2 ^ 16).
  assert (a / 2 ^ 24 = a / 2 ^ 16 / 256) as E1 by (by rewrite Z.div_div by lia).
  assert (a / 2 ^ 22 = a / 2 ^ 16 / 64) as E2 by (by rewrite Z.div_div by lia).
  assert (a / 2 ^ 29 = a / 2 ^ 16 / 256 / 32) as E3 by (by rewrite !Z.div_div by lia).
  assert (a / 2 ^ 28 = a / 2 ^ 16 / 256 / 16) as E4 by (by rewrite !Z.div_div by lia).
  rewrite E1, E2, E3, E4. pose proof (Z.div_mod a (2 ^ 16) ltac:(lia)).
  pose proof (Z.mod_pos_bound a (2 ^ 16) ltac:(lia)).
  assert (0 <= a / 2 ^ 16 < 2 ^ 16) by (split; [apply Z.div_pos|apply Z.div_lt_upper_bound]; lia).
  revert H H0 H1. generalize (a mod 2 ^ 16) (a / 2 ^ 16). intros r h Hh Hr Hb.
  split_and!; lia.
Qed.

Lemma is_denied_v4_spec a :
  in_range 32 a -> is_denied_v4 a = true <-> in_prefixes 32 TUN_DENIED_V4 a.
Proof.
  intros Ha. unfold in_prefixes, TUN_DENIED_V4. rewrite !Exists_cons, Exists_nil.
  unfold in_prefix, v4_net, is_denied_v4, v4_is_loopback, v4_is_multicast. cbn [fst snd].
  destruct (v4_split a Ha) as (o0 & o1 & r & H0 & H1 & Hr & Ea & -> & -> & E24 & E22 & E16 & E29 & _).
  change (32 - 8) with 24. change (32 - 10) with 22. change (32 - 16) with 16. change (32 - 3) with 29.
  rewrite E24, E22, E16, E29, Ea. change 0xC0 with (2 ^ 8 - 2 ^ 6). rewrite land_high_mask by lia.
  unfold Ipv4Addr_new. clear -H0 H1 Hr.
  eval_divs. assert (64 * (o1 / 64) <= o1 < 64 * (o1 / 64) + 64) as Hq by lia.
  revert Hq. generalize (o1 / 64). intros q Hq.
  repeat case_match; lia.
Qed.

Lemma ipv4_compatible_spec a :
  in_range 128 a -> ipv4_compatible a = if decide (a < 2 ^ 32) then Some a else None.
Proof.
  intros Ha. unfold ipv4_compatible. rewrite leading_segments_zero by done.
  destruct (Z.ltb_spec a (2 ^ 32)); case_decide; try lia; [|done].
  f_equal. apply low_segments_v4. unfold in_range in Ha. lia.
Qed.

Lemma is_denied_v6_spec a :
  in_range 128 a -> 2 ^ 32 <= a ->
  is_denied_v6 a = true <-> in_prefixes 128 TUN_DENIED_V6 a.
Proof.
  intros Ha Hbig. unfold in_prefixes, TUN_DENIED_V6. rewrite !Exists_cons, Exists_nil. cbn [fst snd v6_net].
  unfold is_denied_v6. rewrite v6_is_multicast_prefix by done.
  change 0xFFC0 with (2 ^ 16 - 2 ^ 6). change 0xFE80 with (0x3FA * 2 ^ 6).
  rewrite segment6_0_prefix by (done || lia).
  rewrite (segments_0_1_prefix 0x2001 0), (segments_0_1_prefix 0x64 0xFF9B) by (done || lia).
  pose proof (segment6_0_prefix 0 0x2002 a ltac:(lia) Ha) as H2002.
  change (2 ^ 16 - 2 ^ 0) with (Z.ones 16) in H2002. rewrite Z.land_ones in H2002 by lia.
  rewrite segment6_0, Z.mod_small in H2002 by (done || by apply segment6_0_range).
  rewrite segment6_0 by done. change (0x2002 * 2 ^ 0) with 0x2002 in H2002. rewrite H2002.
  unfold v6_is_unspecified, V6_LOCALHOST.
  assert (forall n, in_prefix 128 n 128 a <-> a = n) as Hhost
    by (intros n; unfold in_prefix; change (2 ^ (128 - 128)) with 1; by rewrite !Z.div_1_r).
  rewrite !Hhost.
  rewrite !if_true_orb, !orb_true_iff, !bool_decide_eq_true, !Z.eqb_eq.
  assert (a <> 1) by lia. assert (a <> 0) by lia. tauto.
Qed.

Lemma canonical_mapped a :
  in_range 128 a -> match to_ipv4_mapped a with
  | Some v => canonical_ip (IpV6 a) = IpV4 v /\ in_range 32 v
  | None => canonical_ip (IpV6 a) = if decide (a < 2 ^ 32) then IpV4 a else IpV6 a
  end.
Proof.
  intros Ha. destruct (to_ipv4_mapped a) as [v|] eqn:E.
  - apply to_ipv4_mapped_spec in E as [-> Hv]; [|done]. split; [|done]. unfold in_range in Hv.
    unfold canonical_ip. rewrite Z.div_add_l, Z.div_small by lia. rewrite decide_True by lia.
    f_equal. rewrite Z.add_comm, Z.mod_add by lia. by apply Z.mod_small.
  - apply to_ipv4_mapped_None in E; [|done]. unfold canonical_ip. by rewrite decide_False by done.
Qed.

Lemma is_denied_destination_spec dst :
  IpAddr_wf dst -> is_denied_destination dst = true <-> tun_denied dst.
Proof.
  destruct dst as [a|a]; intros Ha; [by apply is_denied_v4_spec|].
  pose proof (canonical_mapped a Ha) as Hc. unfold is_denied_destination, tun_denied.
  destruct (to_ipv4_mapped a) as [v|]; [destruct Hc as [-> Hv]; by apply is_denied_v4_spec|].
  rewrite Hc, ipv4_compatible_spec by done. case_decide.
  - apply is_denied_v4_spec. unfold IpAddr_wf, in_range in *. lia.
  - apply is_denied_v6_spec; [done|lia].
Qed.

Lemma source_allowed_spec src assignment :
  IpAddr_wf src -> source_allowed src assignment = true <-> assigned src assignment.
Proof.
  unfold source_allowed, assigned. destruct src as [a|a]; intros Ha; [apply Z.eqb_eq|].
  destruct (to_ipv4_mapped a) as [v|] eqn:E.
  - apply to_ipv4_mapped_spec in E as [-> Hv]; [|done]. unfold in_range in Hv.
    rewrite Z.div_add_l, Z.div_small, decide_True by lia.
    by rewrite Z.eqb_eq, Z.add_comm, Z.mod_add, Z.mod_small by lia.
  - rewrite Z.eqb_eq. apply to_ipv4_mapped_None in E; [|done]. by rewrite decide_False.
Qed.

(** ** Addresses read from a packet *)

Lemma slice_val_range i n pkt :
  (i + n <= length pkt)%nat -> 0 <= be_val (slice i (i + n) pkt) < 256 ^ Z.of_nat n.
Proof.
  intros H. pose proof (be_val_range (slice i (i + n) pkt)) as Hr.
  rewrite length_slice in Hr by lia. by replace (i + n - i)%nat with n in Hr by lia.
Qed.

Lemma extract_src_wf pkt src : extract_src_ip pkt = Some src -> IpAddr_wf src.
Proof.
  unfold extract_src_ip. intros H. split_matches; simplify_res; simplify_eq.
  - apply (slice_val_range 12 4). lia.
  - apply (slice_val_range 8 16). lia.
Qed.

Lemma extract_dst_wf pkt dst : extract_dst_ip pkt = Some dst -> IpAddr_wf dst.
Proof.
  unfold extract_dst_ip. intros H. split_matches; simplify_res; simplify_eq.
  - apply (slice_val_range 16 4). lia.
  - apply (slice_val_range 24 16). lia.
Qed.

(** The source and destination of a packet, by the layout of the two headers: in an
    IPv4 packet they are the big-endian words after the first twelve octets, in an
    IPv6 packet those after the first eight. *)
Inductive ip_fields : bytes -> IpAddr -> IpAddr -> Prop :=
| fields_v4 hdr src dst rest :
    length hdr = 12%nat -> ip_version hdr = 4 -> 0 <= src < 2 ^ 32 -> 0 <= dst < 2 ^ 32 ->
    ip_fields (hdr ++ be_bytes 4 src ++ be_bytes 4 dst ++ rest) (IpV4 src) (IpV4 dst)
| fields_v6 hdr src dst rest :
    length hdr = 8%nat -> ip_version hdr = 6 -> 0 <= src < 2 ^ 128 -> 0 <= dst < 2 ^ 128 ->
    ip_fields (hdr ++ be_bytes 16 src ++ be_bytes 16 dst ++ rest) (IpV6 src) (IpV6 dst).

Lemma slice_second (n : nat) (hdr a rest : bytes) :
  length a = n -> slice (length hdr) (length hdr + n) (hdr ++ a ++ rest) = a.
Proof.
  intros <-. rewrite slice_app_r by lia. rewrite Nat.sub_diag. replace (_ + _ - _)%nat with (length a) by lia.
  rewrite slice_app_l by lia. apply slice_all.
Qed.

(** Cutting a buffer into a header, two big-endian words and the rest. *)
Lemma cut_words (k n : nat) (pkt : bytes) :
  (k + n + n <= length pkt)%nat ->
  pkt = take k pkt ++ be_bytes n (be_val (slice k (k + n) pkt)) ++
        be_bytes n (be_val (slice (k + n) (k + n + n) pkt)) ++ drop (k + n + n) pkt.
Proof.
  intros H. assert (forall i, (i + n <= length pkt)%nat -> be_bytes n (be_val (slice i (i + n) pkt)) = take n (drop i pkt)) as Hb.
  { intros i Hi. assert (length (slice i (i + n) pkt) = n) as Hl by (rewrite length_slice; lia).
    pose proof (be_bytes_be_val (slice i (i + n) pkt)) as E. rewrite Hl in E. rewrite E. unfold slice. f_equal. lia. }
  assert (forall i, drop (i + n) pkt = drop n (drop i pkt)) as Hd by (intros i; rewrite drop_drop; f_equal; lia).
  by rewrite !Hb, (Hd (k + n)%nat), take_drop, (Hd k), take_drop, take_drop by lia.
Qed.

Lemma word_range (n i : nat) (pkt : bytes) :
  (i + n <= length pkt)%nat -> 0 <= be_val (slice i (i + n) pkt) < 256 ^ Z.of_nat n.
Proof.
  intros H. pose proof (be_val_range (slice i (i + n) pkt)) as Hr. rewrite length_slice in Hr by lia.
  by replace (i + n - i)%nat with n in Hr by lia.
Qed.

Lemma extract_fields pkt src dst :
  ip_fields pkt src dst <-> extract_src_ip pkt = Some src /\ extract_dst_ip pkt = Some dst.
Proof.
  assert (forall hdr rest : bytes, (0 < length hdr)%nat -> ip_version (hdr ++ rest) = ip_version hdr) as Hv
    by (intros hdr rest Hh; unfold ip_version; by rewrite byte_at_app_l).
  split.
  - assert (forall n hdr src dst rest,
      be_val (slice (length hdr) (length hdr + n) (hdr ++ be_bytes n src ++ be_bytes n dst ++ rest)) = src mod 256 ^ Z.of_nat n /\
      be_val (slice (length hdr + n) (length hdr + n + n) (hdr ++ be_bytes n src ++ be_bytes n dst ++ rest)) =
        dst mod 256 ^ Z.of_nat n) as Hs.
    { intros n hdr s d rest. rewrite slice_second by apply length_be_bytes. split; [apply be_val_be_bytes|].
      pose proof (slice_second n (hdr ++ be_bytes n s) (be_bytes n d) rest (length_be_bytes n d)) as E.
      rewrite length_app, length_be_bytes, <- app_assoc in E. rewrite E. apply be_val_be_bytes. }
    intros [hdr s d rest Hh H4 Hsr Hdr|hdr s d rest Hh H6 Hsr Hdr].
    + destruct (Hs 4%nat hdr s d rest) as [E1 E2]. rewrite Hh in E1, E2. rewrite !Z.mod_small in E1, E2 by lia.
      unfold extract_src_ip, extract_dst_ip, v4_at. rewrite Hv, H4 by lia.
      rewrite !length_app, !length_be_bytes, Hh. cbn [Nat.add Nat.eqb Nat.ltb Nat.leb].
      split; do 2 f_equal; [exact E1|exact E2].
    + destruct (Hs 16%nat hdr s d rest) as [E1 E2]. rewrite Hh in E1, E2. rewrite !Z.mod_small in E1, E2 by lia.
      unfold extract_src_ip, extract_dst_ip, v6_at. rewrite Hv, H6 by lia.
      rewrite !length_app, !length_be_bytes, Hh. cbn [Nat.add Nat.eqb Nat.ltb Nat.leb].
      split; do 2 f_equal; [exact E1|exact E2].
  - unfold extract_src_ip, extract_dst_ip, v4_at, v6_at. intros [Es Ed].
    assert (forall k, (0 < k <= length pkt)%nat -> ip_version (take k pkt) = ip_version pkt) as Ht.
    { intros k Hk. rewrite <- (Hv (take k pkt) (drop k pkt)); [by rewrite take_drop|]. rewrite length_take. lia. }
    destruct (Nat.eqb_spec (length pkt) 0); [done|].
    destruct (Z.eqb_spec (ip_version pkt) 4).
    + destruct (Nat.ltb_spec (length pkt) 20); [done|]. injection Es as <-. injection Ed as <-.
      rewrite (cut_words 12 4 pkt) at 1 by lia.
      apply fields_v4; [rewrite length_take; lia|rewrite Ht by lia; done| |]; apply (word_range 4); lia.
    + destruct (Z.eqb_spec (ip_version pkt) 6); [|done].
      destruct (Nat.ltb_spec (length pkt) 40); [done|]. injection Es as <-. injection Ed as <-.
      rewrite (cut_words 8 16 pkt) at 1 by lia.
      apply fields_v6; [rewrite length_take; lia|rewrite Ht by lia; done| |]; apply (word_range 16); lia.
Qed.

(** C19: The verdict [Allow] is given exactly to a structurally valid packet whose
    header, by its layout, names the assigned address as source and a destination
    outside the denied prefixes, and that is not to port 0. *)
Theorem inner_packet_allow_exact pkt assignment :
  validate_inner_packet pkt assignment = Allow <->
  is_ok (validate_ip_packet pkt) = true /\
  (exists src dst, ip_fields pkt src dst /\ assigned src assignment /\ ~ tun_denied dst) /\
  extract_dst_port pkt <> Some 0.
Proof.
  setoid_rewrite extract_fields. unfold validate_inner_packet.
  destruct (is_ok (validate_ip_packet pkt)); simpl; [|split; [done|by intros [? _]]].
  destruct (extract_src_ip pkt) as [src|] eqn:Es; [|split; [done|naive_solver]].
  destruct (extract_dst_ip pkt) as [dst|] eqn:Ed; [|split; [by case_match|naive_solver]].
  pose proof (source_allowed_spec src assignment (extract_src_wf _ _ Es)) as Hs.
  pose proof (is_denied_destination_spec dst (extract_dst_wf _ _ Ed)) as Hd.
  destruct (source_allowed src assignment); simpl;
    [|split; [done|intros (_ & (? & ? & ([= <-] & _) & Hx & _) & _); by apply Hs in Hx]].
  case_bool_decide; [split; [done|naive_solver]|].
  destruct (is_denied_destination dst); naive_solver.
Qed.

(** ** Recovering a packet's length from its slot *)

(** The length of a valid packet is recovered from any slot it starts, whatever
    follows it; and whatever the slot holds, the answer is 0 or a length
    between a bare header and the slot. *)
Theorem slot_length_recovery :
  (forall p n pad, validate_ip_packet p = Ok n -> ip_packet_len (p ++ pad) = zlen p) /\
  (forall slot, ip_packet_len slot = 0 \/ 20 <= ip_packet_len slot <= zlen slot).
Proof.
  split.
  - intros p n pad Hv. pose proof (validate_ip_packet_ok _ _ Hv) as ->.
    unfold validate_ip_packet in Hv. apply bind_ok in Hv as (d & Hd & Hv).
    assert (d = zlen p) as -> by (destruct (negb _); simplify_res; done). clear Hv.
    unfold ip_packet_len. rewrite length_app. unfold declared_ip_len in Hd.
    assert (zlen (p ++ pad) = zlen p + zlen pad) as Hl by (unfold zlen; rewrite length_app; lia).
    assert (0 <= zlen pad) by (unfold zlen; lia).
    destruct (Nat.eqb_spec (length p) 0); [done|]. rewrite byte_at_app_l by lia.
    destruct (_ =? 4).
    + destruct (Nat.ltb_spec (length p) 20); [done|].
      destruct (Nat.ltb_spec (length p + length pad) 20); [lia|].
      rewrite !byte_at_app_l by lia. repeat case_match; simplify_res; lia.
    + destruct (_ =? 6); [|done]. destruct (Nat.ltb_spec (length p) 40); [done|].
      destruct (Nat.ltb_spec (length p + length pad) 20); [lia|].
      rewrite !byte_at_app_l by lia. repeat case_match; simplify_res; lia.
  - intros slot. unfold ip_packet_len. repeat case_match; lia.
Qed.
