(* ===== verification/Reassembly.v ===== *)
(** * Correctness of fragmentation and reassembly

    The resource invariant of the [Reassembler] of [dataplane.rs], soundness of
    the packets it completes, and the round trip from [fragment_ip_packet]
    through [feed], with fragments reordered, duplicated and interleaved with
    arbitrary other traffic. *)

From S2P Require Import Prelude Bytes Errors Codec Replay Chunks Dataplane.

Local Open Scope Z_scope.

(** Feeding a sequence of slots, each at its time. *)
Fixpoint feed_all (r : Reassembler) (l : list (bytes * Instant)) : list FeedOutcome * Reassembler :=
  match l with
  | [] => ([], r)
  | (slot, now) :: l =>
      let (o, r) := feed r slot now in
      let (os, r) := feed_all r l in
      (o :: os, r)
  end.

(** ** The resource invariant *)

Definition count_true (l : list bool) : nat := length (filter (fun b => b = true) l).

Definition Entry_wf (e : Entry) : Prop :=
  1 <= b2z (e_frag_count e) <= MAX_FRAG_COUNT /\
  20 <= e_ip_total_len e <= MAX_IP_PACKET_LEN /\
  (b2z (e_frag_count e) - 1) * Z.of_nat FRAG_CAP < e_ip_total_len e
    <= b2z (e_frag_count e) * Z.of_nat FRAG_CAP /\
  Z.of_nat (length (e_received e)) = b2z (e_frag_count e) /\
  zlen (e_buf e) = e_ip_total_len e /\
  e_received_count e = count_true (e_received e) /\
  (e_has_fragment0 e = true -> e_fragment0_valid e = true ->
    validate_ip_header_at (e_buf e) (e_ip_total_len e) = Ok ()).

(** Bytes reserved by the live entries. *)
Definition total (m : gmap Z Entry) : Z := map_fold (fun _ e acc => e_ip_total_len e + acc) 0 m.

Definition Reassembler_wf (r : Reassembler) : Prop :=
  (forall id e, r_entries r !! id = Some e -> Entry_wf e) /\
  r_current_bytes r = total (r_entries r) /\
  Z.of_nat (size (r_entries r)) <= r_max_entries r /\
  r_current_bytes r <= r_max_bytes r < umax 64.

Lemma total_insert m id e : m !! id = None -> total (<[id := e]> m) = e_ip_total_len e + total m.
Proof. intros H. unfold total. rewrite map_fold_insert_L; [done| |done]. intros. lia. Qed.

Lemma total_delete m id e : m !! id = Some e -> total m = e_ip_total_len e + total (delete id m).
Proof.
  intros H. rewrite <- (insert_delete_id m id e H) at 1.
  apply total_insert, lookup_delete_eq.
Qed.

Lemma total_update m id e e' :
  m !! id = Some e -> e_ip_total_len e' = e_ip_total_len e -> total (<[id := e']> m) = total m.
Proof.
  intros H He. rewrite <- insert_delete_eq, total_insert by apply lookup_delete_eq.
  rewrite (total_delete m id e H). lia.
Qed.

Lemma total_nonneg m : (forall id e, m !! id = Some e -> Entry_wf e) -> 0 <= total m.
Proof.
  induction m as [|id e m Hm IH] using map_ind; intros Hall; [done|].
  rewrite total_insert by done.
  assert (Entry_wf e) as (_ & ? & _) by apply (Hall id), lookup_insert_eq.
  assert (0 <= total m); [|lia]. apply IH. intros id' e' Hl.
  apply (Hall id'). rewrite lookup_insert_ne; [done|congruence].
Qed.

Lemma count_true_insert l i :
  l !! i = Some false -> count_true (<[i := true]> l) = S (count_true l).
Proof.
  unfold count_true. revert i. induction l as [|b l IH]; intros [|i] H; simpl in *; [done..| |].
  - injection H as ->. done.
  - specialize (IH i H). destruct b; simpl; rewrite ?IH; done.
Qed.

(** ** Expiry *)

Lemma expire_fold_lookup ids r id :
  r_entries (fold_left expire_one ids r) !! id =
  if bool_decide (id ∈ ids) then None else r_entries r !! id.
Proof.
  revert r. induction ids as [|i ids IH]; intros r; [done|]. simpl. rewrite IH.
  assert (r_entries (expire_one r i) !! id =
    if bool_decide (id = i) then None else r_entries r !! id) as E.
  { unfold expire_one. destruct (decide (id = i)) as [->|Hne].
    - rewrite bool_decide_true by done.
      destruct (r_entries r !! i) eqn:El; [apply lookup_delete_eq|done].
    - rewrite bool_decide_false by done.
      destruct (r_entries r !! i); [by apply lookup_delete_ne|done]. }
  rewrite E. destruct (decide (id = i)) as [->|Hne].
  - rewrite (bool_decide_true (i = i)), (bool_decide_true (i ∈ i :: ids)) by set_solver.
    by destruct (bool_decide _).
  - rewrite (bool_decide_false (id = i)) by done.
    by rewrite (bool_decide_ext (id ∈ i :: ids) (id ∈ ids)) by (rewrite elem_of_cons; tauto).
Qed.

Lemma expire_lookup r now id :
  r_entries (expire r now) !! id =
  match r_entries r !! id with
  | Some e => if e_deadline e <=? now then None else Some e
  | None => None
  end.
Proof.
  unfold expire. rewrite expire_fold_lookup. case_bool_decide as Hin.
  - apply list_elem_of_fmap in Hin as ([i e] & -> & Hin).
    apply list_elem_of_filter in Hin as [Hd Hin]. apply elem_of_map_to_list in Hin. simpl in *.
    rewrite Hin. by replace (e_deadline e <=? now) with true by lia.
  - destruct (r_entries r !! id) as [e|] eqn:E; [|done].
    destruct (Z.leb_spec (e_deadline e) now); [|done]. destruct Hin.
    apply list_elem_of_fmap. exists (id, e). split; [done|].
    apply list_elem_of_filter. split; [done|]. by apply elem_of_map_to_list.
Qed.

(** The configuration of a reassembler never changes. *)
Definition same_config (r r' : Reassembler) : Prop :=
  r_max_entries r' = r_max_entries r /\ r_max_bytes r' = r_max_bytes r /\
  r_deadline r' = r_deadline r.

Lemma expire_one_wf r id :
  Reassembler_wf r -> Reassembler_wf (expire_one r id) /\ same_config r (expire_one r id).
Proof.
  intros Hr. assert (Hr' := Hr). destruct Hr' as (He & Hc & Hs & Hb). unfold expire_one.
  destruct (r_entries r !! id) as [e|] eqn:E; [|by split].
  split; [|done]. assert (Entry_wf e) as (_ & ? & _) by by apply (He id).
  pose proof (total_nonneg _ He). pose proof (total_delete _ _ _ E) as Ht.
  assert (0 <= total (delete id (r_entries r))) as Hn.
  { apply total_nonneg. intros i e' [_ Hi]%lookup_delete_Some. by apply (He i). }
  assert (saturating_sub (r_current_bytes r) (e_ip_total_len e) =
    total (delete id (r_entries r))) as Es by (unfold saturating_sub; lia).
  split; [|split; [|split]]; cbn [r_entries r_current_bytes r_max_entries r_max_bytes r_update].
  - intros i e' [_ Hi]%lookup_delete_Some. by apply (He i).
  - exact Es.
  - rewrite map_size_delete_Some by done. lia.
  - lia.
Qed.

Lemma expire_wf r now :
  Reassembler_wf r -> Reassembler_wf (expire r now) /\ same_config r (expire r now).
Proof.
  unfold expire. generalize ((filter (fun p => e_deadline p.2 <= now) (map_to_list (r_entries r))).*1).
  intros ids. revert r. induction ids as [|id ids IH]; intros r Hr; [done|]. simpl.
  destruct (expire_one_wf r id Hr) as [Hr' (E1 & E2 & E3)].
  destruct (IH _ Hr') as [Hw (E1' & E2' & E3')]. split; [done|].
  split; [congruence|]. split; congruence.
Qed.

(** ** One slot *)

Lemma frag_bounds h :
  OverlayHeader_valid h ->
  let idx := Z.to_nat (b2z (frag_index h)) in
  (1 <= expected_frag_len h <= FRAG_CAP)%nat /\
  Z.of_nat (idx * FRAG_CAP + expected_frag_len h) <= ip_total_len h /\
  Z.of_nat idx < b2z (frag_count h).
Proof.
  intros (_ & _ & _ & Hc & Hi & Ht & Hlo & Hhi). pose proof (b2z_range (frag_index h)).
  unfold expected_frag_len, MAX_FRAG_COUNT, MAX_IP_PACKET_LEN in *. rewrite FRAG_CAP_value in *.
  destruct (Nat.ltb_spec (Z.to_nat (b2z (frag_index h)) + 1) (Z.to_nat (b2z (frag_count h)))); lia.
Qed.

(** The header check reads only the first six bytes and the length. *)
Lemma validate_agree buf buf' n :
  length buf' = length buf -> (forall k, (k < 6)%nat -> byte_at k buf' = byte_at k buf) ->
  validate_ip_header_at buf' n = validate_ip_header_at buf n.
Proof.
  intros Hl Hb. unfold validate_ip_header_at, zlen. rewrite Hl, !Hb by lia. done.
Qed.

(** The outcome of the entry step and what it keeps. *)
Definition entry_step_ok (e : Entry) (hdr : OverlayHeader) (out : FeedOutcome * option Entry) : Prop :=
  match out.2 with
  | Some e' => Entry_wf e' /\ e_ip_total_len e' = e_ip_total_len e /\
               e_deadline e' = e_deadline e
  | None =>
      match out.1 with
      | Complete buf =>
          crc32 buf = datagram_crc hdr /\ zlen buf = ip_total_len hdr /\
          validate_ip_header_at buf (ip_total_len hdr) = Ok () /\
          count_true (e_received e) = (length (e_received e) - 1)%nat
      | _ => False
      end
  end.

Lemma set_poisoned_wf e : Entry_wf e -> Entry_wf (set_poisoned e).
Proof. done. Qed.

(** The entry after a new fragment was written. *)
Lemma write_fragment_wf e idx newbytes valid0 has0 :
  Entry_wf e -> Z.of_nat (idx * FRAG_CAP + length newbytes) <= e_ip_total_len e ->
  Z.of_nat idx < b2z (e_frag_count e) ->
  default false (e_received e !! idx) = false ->
  (idx = 0%nat -> has0 = true /\ valid0 =
     is_ok (validate_ip_header_at (write_at (idx * FRAG_CAP) newbytes (e_buf e)) (e_ip_total_len e))) ->
  (idx <> 0%nat -> has0 = e_has_fragment0 e /\ valid0 = e_fragment0_valid e) ->
  Entry_wf (mkEntry (e_frag_count e) (e_ip_total_len e) (e_datagram_crc e)
    (<[idx := true]> (e_received e)) (write_at (idx * FRAG_CAP) newbytes (e_buf e))
    (S (e_received_count e)) (e_poisoned e) has0 valid0 (e_deadline e)).
Proof.
  intros (Hfc & Hip & Hcons & Hrl & Hbl & Hrc & Hv0) Hb Hidx Hnr H0 Hn0.
  unfold zlen in Hbl.
  assert (idx * FRAG_CAP + length newbytes <= length (e_buf e))%nat as Hlen by lia.
  assert (e_received e !! idx = Some false) as Hrf.
  { destruct (lookup_lt_is_Some_2 (e_received e) idx ltac:(lia)) as [b Hb'].
    rewrite Hb' in *. simpl in Hnr. by subst b. }
  split; [done|]. split; [done|]. split; [done|].
  cbn [e_received e_frag_count e_buf e_received_count e_ip_total_len e_has_fragment0 e_fragment0_valid].
  split; [by rewrite length_insert|]. split; [unfold zlen; by rewrite length_write_at|].
  split; [by rewrite count_true_insert, Hrc|].
  destruct (decide (idx = 0%nat)) as [->|Hne].
  - destruct (H0 eq_refl) as [-> ->]. intros _.
    apply is_ok_unit.
  - destruct (Hn0 Hne) as [-> ->]. intros Hh Hv. rewrite <- (Hv0 Hh Hv).
    apply validate_agree; [by apply length_write_at|]. intros k Hk.
    apply byte_at_write_before; [done|]. rewrite FRAG_CAP_value. lia.
Qed.

Lemma feed_entry_step e hdr slot bad :
  Entry_wf e -> OverlayHeader_valid hdr -> length slot = PAYLOAD_LEN ->
  entry_step_ok e hdr (feed_entry e hdr slot bad).
Proof.
  intros Hwf Hv Hs. destruct (frag_bounds hdr Hv) as (Hlen & Hoff & Hidx).
  unfold feed_entry. destruct (e_poisoned e) eqn:Ep; [done|].
  destruct (bool_decide (e_frag_count e = frag_count hdr)) eqn:Efc; [|done].
  destruct (Z.eqb_spec (e_ip_total_len e) (ip_total_len hdr)) as [Eip|]; [|done].
  destruct (Z.eqb_spec (e_datagram_crc e) (datagram_crc hdr)) as [Ecrc|]; [|done].
  cbn [negb orb]. destruct bad; [done|]. apply bool_decide_eq_true in Efc.
  set (idx := Z.to_nat (b2z (frag_index hdr))) in *.
  set (nb := slice OVERLAY_HEADER_LEN (OVERLAY_HEADER_LEN + expected_frag_len hdr) slot).
  assert (length nb = expected_frag_len hdr) as Hnb.
  { pose proof PAYLOAD_LEN_split. unfold nb. rewrite length_slice by lia. lia. }
  destruct (default false (e_received e !! idx)) eqn:Er; [by case_match|].
  set (is0 := (idx =? 0)%nat).
  set (has0 := if is0 then true else e_has_fragment0 e).
  set (valid0 := if is0 then _ else e_fragment0_valid e).
  assert (Entry_wf (mkEntry (e_frag_count e) (e_ip_total_len e) (e_datagram_crc e)
    (<[idx := true]> (e_received e)) (write_at (idx * FRAG_CAP) nb (e_buf e))
    (S (e_received_count e)) false has0 valid0 (e_deadline e))) as He'.
  { rewrite <- Ep. apply write_fragment_wf; try done; [rewrite Hnb; lia|by rewrite Efc|..];
      unfold has0, valid0, is0; intros H0.
    - rewrite H0. done.
    - by rewrite (proj2 (Nat.eqb_neq idx 0) H0). }
  destruct (is0 && negb valid0); [split; [by apply set_poisoned_wf|done]|].
  destruct ((_ =? _)%nat && has0 && valid0) eqn:Ec; [|split; [exact He'|done]].
  assert (Hkeep := He').
  apply andb_true_iff in Ec as [Ec Hva]. apply andb_true_iff in Ec as [Hcnt Hha].
  destruct He' as (_ & _ & _ & Hrl & Hbl & Hrc & Hval). simpl in Hrl, Hbl, Hrc, Hval.
  rewrite take_ge by (unfold zlen in Hbl; lia).
  destruct (Z.eqb_spec (crc32 (write_at (idx * FRAG_CAP) nb (e_buf e))) (e_datagram_crc e)) as [Hcrc|];
    [|split; [apply set_poisoned_wf, Hkeep|done]].
  cbn [negb]. unfold entry_step_ok. cbn [fst snd]. rewrite Hcrc, Hbl, <- Eip. split; [done|]. split; [done|]. split; [by apply Hval|].
  rewrite length_insert in Hrl. destruct Hwf as (_ & _ & _ & _ & _ & Hrc0 & _).
  apply Nat.eqb_eq in Hcnt. lia.
Qed.

Lemma feed_on_entry_wf r e hdr slot bad :
  Reassembler_wf r -> r_entries r !! datagram_id hdr = Some e ->
  OverlayHeader_valid hdr -> length slot = PAYLOAD_LEN ->
  Reassembler_wf (feed_on_entry r e hdr slot bad).2 /\
  same_config r (feed_on_entry r e hdr slot bad).2.
Proof.
  intros Hr E Hv Hs. assert (Hr' := Hr). destruct Hr' as (He & Hc & Hsz & Hb).
  pose proof (feed_entry_step e hdr slot bad (He _ _ E) Hv Hs) as Hstep.
  unfold feed_on_entry. destruct (feed_entry e hdr slot bad) as [o [e'|]].
  - split; [|done]. destruct Hstep as (He' & Hip & _).
    split; [|split; [|split]]; cbn [snd r_entries r_current_bytes r_max_entries r_max_bytes r_update].
    + intros i x [[<- <-]|[_ Hx]]%lookup_insert_Some; [done|by apply (He i)].
    + by rewrite (total_update _ _ e).
    + rewrite map_size_insert_Some; [done|by eexists].
    + done.
  - pose proof (expire_one_wf r (datagram_id hdr) Hr) as Hx. unfold expire_one in Hx.
    rewrite E in Hx. exact Hx.
Qed.

Lemma new_entry_wf hdr deadline :
  OverlayHeader_valid hdr -> Entry_wf (new_entry hdr deadline).
Proof.
  intros (_ & _ & _ & Hc & _ & Ht & Hlo & Hhi).
  unfold Entry_wf, new_entry, zlen; cbn -[FRAG_CAP Z.to_nat Z.mul Z.of_nat].
  rewrite length_replicate, length_zeros.
  repeat split; try done; try lia.
  unfold count_true. by induction (Z.to_nat (b2z (frag_count hdr))).
Qed.

Lemma feed_wf r slot now :
  Reassembler_wf r -> length slot = PAYLOAD_LEN ->
  Reassembler_wf (feed r slot now).2 /\ same_config r (feed r slot now).2.
Proof.
  intros Hr Hs. unfold feed. destruct (expire_wf r now Hr) as [Hx (C1 & C2 & C3)].
  destruct (OverlayHeader_decode slot) as [hdr|] eqn:Ed; [|done].
  apply OverlayHeader_decode_inv in Ed as (_ & Hwf & Hv & _).
  assert (forall r', Reassembler_wf r' /\ same_config (expire r now) r' ->
    Reassembler_wf r' /\ same_config r r') as Hcfg.
  { intros r' [H1 (D1 & D2 & D3)]. split; [done|]. repeat split; congruence. }
  destruct (r_entries (expire r now) !! datagram_id hdr) as [e|] eqn:El.
  { apply Hcfg. by apply feed_on_entry_wf. }
  destruct (trailing_nonzero _ _); [done|].
  destruct (Z.leb_spec (r_max_entries (expire r now)) (Z.of_nat (size (r_entries (expire r now)))));
    [done|].
  destruct (Z.ltb_spec (r_max_bytes (expire r now))
    (saturating_add 64 (r_current_bytes (expire r now)) (ip_total_len hdr))) as [|Hcap]; [done|].
  destruct Hx as (He & Hc & Hsz & Hb). set (x := expire r now) in *.
  pose proof (new_entry_wf hdr (now + r_deadline x) Hv) as Hn.
  apply (Hcfg (feed_on_entry _ _ _ _ _).2).
  edestruct (feed_on_entry_wf (r_update x (<[datagram_id hdr := new_entry hdr (now + r_deadline x)]>
    (r_entries x)) (r_current_bytes x + ip_total_len hdr))) as [Hw Hsc];
    [|apply lookup_insert_eq|done|done|split; [exact Hw|exact Hsc]].
  split; [|split; [|split]]; cbn [r_entries r_current_bytes r_max_entries r_max_bytes r_update].
  - intros i e' [[<- <-]|[_ Hi]]%lookup_insert_Some; [done|by apply (He i)].
  - rewrite total_insert by done. simpl. lia.
  - rewrite map_size_insert_None by done. lia.
  - unfold saturating_add in Hcap. lia.
Qed.

Lemma feed_all_wf l r :
  Reassembler_wf r -> Forall (fun p => length p.1 = PAYLOAD_LEN) l ->
  Reassembler_wf (feed_all r l).2 /\ same_config r (feed_all r l).2.
Proof.
  revert r. induction l as [|[slot now] l IH]; intros r Hr Hl; [done|].
  apply Forall_cons in Hl as [Hs Hl]. simpl.
  destruct (feed_wf r slot now Hr Hs) as [Hr' (C1 & C2 & C3)].
  destruct (feed r slot now) as [o r']. destruct (IH r' Hr' Hl) as [Hw (D1 & D2 & D3)].
  destruct (feed_all r' l) as [os r'']. simpl in *. split; [done|]. repeat split; congruence.
Qed.

Lemma with_caps_wf d me mb :
  0 <= me -> 0 <= mb < umax 64 -> Reassembler_wf (with_caps d me mb).
Proof.
  intros Hme Hmb. split; [intros id e; cbn [r_entries with_caps]; by rewrite lookup_empty|].
  split; [done|]. split; [|done]. cbn [r_entries with_caps]. by rewrite map_size_empty.
Qed.

(** ** Soundness of completion *)

Lemma feed_complete r slot now buf :
  Reassembler_wf r -> length slot = PAYLOAD_LEN ->
  (feed r slot now).1 = Complete buf ->
  exists hdr, OverlayHeader_decode slot = Ok hdr /\
    crc32 buf = datagram_crc hdr /\ zlen buf = ip_total_len hdr /\
    validate_ip_header_at buf (ip_total_len hdr) = Ok () /\
    r_entries (feed r slot now).2 !! datagram_id hdr = None.
Proof.
  intros Hr Hs. unfold feed. destruct (expire_wf r now Hr) as [(He & _) _].
  destruct (OverlayHeader_decode slot) as [hdr|] eqn:Ed; [|done].
  apply OverlayHeader_decode_inv in Ed as (_ & _ & Hv & _).
  assert (forall r' e bad, Entry_wf e -> (feed_on_entry r' e hdr slot bad).1 = Complete buf ->
    crc32 buf = datagram_crc hdr /\ zlen buf = ip_total_len hdr /\
    validate_ip_header_at buf (ip_total_len hdr) = Ok () /\
    r_entries (feed_on_entry r' e hdr slot bad).2 !! datagram_id hdr = None) as Hon.
  { intros r' e bad Hwf. unfold feed_on_entry.
    pose proof (feed_entry_step e hdr slot bad Hwf Hv Hs) as Hstep.
    destruct (feed_entry e hdr slot bad) as [o [e'|]] eqn:Ef; simpl; intros ->.
    - exfalso. revert Ef. unfold feed_entry. intros Ef. by split_matches.
    - destruct Hstep as (H1 & H2 & H3 & _). repeat split; try done. apply lookup_delete_eq. }
  intros H. exists hdr. split; [done|].
  destruct (r_entries (expire r now) !! datagram_id hdr) as [e|] eqn:El.
  { apply Hon; [by apply (He _ _ El)|done]. }
  repeat (case_match; [done|]). apply Hon; [by apply new_entry_wf|done].
Qed.

(** ** Round trip *)

(** The datagram a slot belongs to. *)
Definition slot_id (slot : bytes) : option Z :=
  match OverlayHeader_decode slot with Ok h => Some (datagram_id h) | Err _ => None end.

(** A slot of another datagram only lets an entry expire. *)
Lemma feed_other r slot now id :
  slot_id slot <> Some id ->
  r_entries (feed r slot now).2 !! id = r_entries (expire r now) !! id.
Proof.
  unfold slot_id, feed. intros Hid.
  destruct (OverlayHeader_decode slot) as [hdr|]; [|done].
  assert (datagram_id hdr <> id) as Hne by congruence.
  assert (forall r' e bad, r_entries (feed_on_entry r' e hdr slot bad).2 !! id = r_entries r' !! id) as Hon.
  { intros r' e bad. unfold feed_on_entry.
    destruct (feed_entry e hdr slot bad) as [o [e'|]]; simpl.
    - by rewrite lookup_insert_ne.
    - by rewrite lookup_delete_ne. }
  destruct (r_entries (expire r now) !! datagram_id hdr); [apply Hon|].
  repeat (case_match; [done|]). rewrite Hon. cbn [r_entries r_update].
  by rewrite lookup_insert_ne.
Qed.

Section RoundTrip.
Variables (ip : bytes) (id : Z) (n : nat).
Hypothesis Hfrag : fragmentable ip n.
Hypothesis Hid : in_range 64 id.

Abbreviation slot_of i := (fragment_slot ip id (crc32 ip) n i).

(** An entry that has received exactly the fragments of [q]. *)
Record tracking (q : gset nat) (e : Entry) : Prop := {
  tr_count : e_frag_count e = z2b (Z.of_nat n);
  tr_len : e_ip_total_len e = zlen ip;
  tr_crc : e_datagram_crc e = crc32 ip;
  tr_clean : e_poisoned e = false;
  tr_received : flags_are n q (e_received e);
  tr_received_count : e_received_count e = size q;
  tr_buf : holds_chunks FRAG_CAP ip q (e_buf e);
  tr_has0 : e_has_fragment0 e = bool_decide (0%nat ∈ q);
  tr_valid0 : e_fragment0_valid e = bool_decide (0%nat ∈ q) }.

Definition below (q : gset nat) : Prop := forall i, i ∈ q -> (i < n)%nat.

(** The IP header of the packet validates in any buffer holding its first chunk. *)
Lemma header_validates q buf :
  holds_chunks FRAG_CAP ip q buf -> 0%nat ∈ q ->
  validate_ip_header_at buf (zlen ip) = Ok ().
Proof.
  intros [Hl Hb] H0. destruct Hfrag as ([Hlo Hhi] & Hv & _).
  rewrite (validate_agree ip buf).
  - unfold validate_ip_packet in Hv. apply bind_ok in Hv as (d & Hd & Hv).
    unfold declared_ip_len in Hd. unfold validate_ip_header_at.
    replace (MAX_IP_PACKET_LEN <? zlen ip) with false by lia. rewrite Z.ltb_irrefl.
    split_matches; exfalso; unfold zlen in *; lia.
  - done.
  - intros k Hk. unfold byte_at. rewrite Hb; [done|unfold zlen in Hlo; lia|].
    rewrite Nat.div_small by (rewrite FRAG_CAP_value; lia). done.
Qed.

Lemma tracking_new hdl :
  tracking ∅ (new_entry (fragment_header ip id n 0) hdl).
Proof.
  destruct (fragment_count_bounds ip n Hfrag) as (H1 & H2 & _). unfold MAX_FRAG_COUNT in H2.
  assert (Z.to_nat (b2z (z2b (Z.of_nat n))) = n) as En by (rewrite b2z_z2b_small; lia).
  split; try done; unfold new_entry, fragment_header;
    cbn [e_received e_buf frag_count ip_total_len]; rewrite ?En.
  - apply flags_are_empty.
  - split; [rewrite length_zeros; unfold zlen; lia|]. intros k _ Hk. by apply elem_of_empty in Hk.
Qed.

(** A flag kept for fragment 0, after fragment [i] was taken. *)
Lemma flag0_add i (q : gset nat) (b b' : bool) :
  b = bool_decide (0%nat ∈ q) -> (i = 0%nat -> b' = true) ->
  (if (i =? 0)%nat then b' else b) = bool_decide (0%nat ∈ ({[ i ]} ∪ q : gset nat)).
Proof.
  intros Hb Hb'. destruct (Nat.eqb_spec i 0) as [E|Hne].
  - rewrite (Hb' E), bool_decide_true; [done|]. apply elem_of_add. by left.
  - rewrite Hb. apply bool_decide_ext. rewrite elem_of_add.
    split; [by right|intros [?|?]; [lia|done]].
Qed.

(** Feeding a fragment not seen before. *)
Lemma feed_entry_fresh q e i :
  tracking q e -> below q -> (i < n)%nat -> i ∉ q ->
  if (S (size q) =? n)%nat
  then feed_entry e (fragment_header ip id n i) (slot_of i) false = (Complete ip, None)
  else exists e', feed_entry e (fragment_header ip id n i) (slot_of i) false = (Pending, Some e') /\
         tracking ({[ i ]} ∪ q) e' /\ e_deadline e' = e_deadline e.
Proof.
  intros Htr Hq Hi Hnin.
  destruct (fragment_header_valid ip id n i Hfrag Hi Hid) as (_ & _ & Ei & En).
  set (buf := write_at (i * FRAG_CAP) (chunk ip i) (e_buf e)).
  assert (holds_chunks FRAG_CAP ip ({[ i ]} ∪ q) buf) as Hbuf.
  { apply (holds_chunks_write _ _ n FRAG_CAP_pos (fragment_chunks ip n Hfrag)); [done|apply Htr]. }
  assert (0%nat ∈ ({[ i ]} ∪ q : gset nat) -> validate_ip_header_at buf (zlen ip) = Ok ()) as Hval
    by by apply header_validates.
  unfold feed_entry. rewrite (tr_clean q e Htr), (tr_count q e Htr), (tr_len q e Htr), (tr_crc q e Htr).
  cbn [frag_count ip_total_len datagram_crc frag_index fragment_header].
  rewrite bool_decide_true by done. rewrite !Z.eqb_refl. cbn [negb orb]. rewrite Ei, En, !Nat2Z.id.
  rewrite (expected_fragment_header ip id n i) by done.
  rewrite fragment_slot_payload, (proj2 (tr_received q e Htr) i Hi), bool_decide_false by done.
  change (default false (Some false)) with false. cbv iota. fold buf. rewrite (tr_received_count q e Htr).
  set (valid0 := if (i =? 0)%nat then _ else _). set (has0 := if (i =? 0)%nat then _ else _).
  pose proof (flag0_add i q) as Hadd.
  assert (has0 = bool_decide (0%nat ∈ ({[ i ]} ∪ q : gset nat))) as Hh
    by by apply Hadd; [apply Htr|].
  assert (valid0 = bool_decide (0%nat ∈ ({[ i ]} ∪ q : gset nat))) as Hv.
  { apply Hadd; [apply Htr|]. intros E. rewrite Hval; [done|]. apply elem_of_add. by left. }
  assert ((i =? 0)%nat && negb valid0 = false) as ->.
  { destruct (Nat.eqb_spec i 0) as [E|]; [|done]. rewrite Hv, bool_decide_true; [done|].
    apply elem_of_add. by left. }
  assert (below ({[ i ]} ∪ q)) as Hq'.
  { intros j Hj. apply elem_of_add in Hj as [->|Hj]; [done|by apply Hq]. }
  destruct (Nat.eqb_spec (S (size q)) n) as [Hfull|Hpart].
  - assert (forall j, (j < n)%nat -> j ∈ ({[ i ]} ∪ q : gset nat)) as Hall.
    { apply full_set; [done|]. rewrite size_add by done. lia. }
    rewrite Hh, Hv, bool_decide_true by (apply Hall; lia). cbn [andb].
    rewrite (holds_chunks_full _ _ n FRAG_CAP_pos (fragment_chunks ip n Hfrag) _ buf Hbuf Hall).
    unfold zlen. rewrite Nat2Z.id, firstn_all, Z.eqb_refl. done.
  - cbn [andb]. eexists. split; [reflexivity|]. split; [|done].
    split; cbn [e_frag_count e_ip_total_len e_datagram_crc e_poisoned e_received e_received_count
      e_buf e_has_fragment0 e_fragment0_valid]; try done; try apply Htr.
    + apply flags_are_insert; [done|apply Htr].
    + by rewrite size_add.
Qed.

(** Feeding a fragment again. *)
Lemma feed_entry_dup q e i :
  tracking q e -> (i < n)%nat -> i ∈ q ->
  feed_entry e (fragment_header ip id n i) (slot_of i) false = (DuplicateIgnored, Some e).
Proof.
  intros Htr Hi Hin.
  destruct (fragment_header_valid ip id n i Hfrag Hi Hid) as (_ & _ & Ei & En).
  unfold feed_entry. rewrite (tr_clean q e Htr), (tr_count q e Htr), (tr_len q e Htr), (tr_crc q e Htr).
  cbn [frag_count ip_total_len datagram_crc frag_index fragment_header].
  rewrite bool_decide_true by done. rewrite !Z.eqb_refl. cbn [negb orb]. rewrite Ei, !Nat2Z.id.
  rewrite (expected_fragment_header ip id n i) by done.
  rewrite fragment_slot_payload, (proj2 (tr_received q e Htr) i Hi), bool_decide_true by done.
  change (default false (Some true)) with true. cbv iota. rewrite bool_decide_true; [done|].
  apply (holds_chunks_slice _ _ n FRAG_CAP_pos (fragment_chunks ip n Hfrag) q); [done|apply Htr|done].
Qed.

Lemma slot_of_id i : (i < n)%nat -> slot_id (slot_of i) = Some id.
Proof. intros Hi. unfold slot_id. by rewrite (fragment_slot_decode ip id n i) by done. Qed.

Lemma slot_of_inj i j : (i < n)%nat -> (j < n)%nat -> slot_of i = slot_of j -> i = j.
Proof.
  intros Hi Hj E. destruct (fragment_header_valid ip id n i Hfrag Hi Hid) as (_ & _ & Ei & _).
  destruct (fragment_header_valid ip id n j Hfrag Hj Hid) as (_ & _ & Ej & _).
  pose proof (fragment_slot_decode ip id n i Hfrag Hi Hid) as Hdi.
  rewrite E, (fragment_slot_decode ip id n j Hfrag Hj Hid) in Hdi.
  injection Hdi as Hb. rewrite Hb, Ei in Ej. lia.
Qed.

(** The state of the reassembler with respect to the datagram: nothing yet, or a
    clean entry with the fragments of [q] that lives until [dl]. *)
Definition in_flight (dl : Instant) (q : gset nat) (r : Reassembler) : Prop :=
  below q /\
  match r_entries r !! id with
  | None => q = ∅
  | Some e => tracking q e /\ dl <= e_deadline e
  end.

Lemma feed_config r slot now : same_config r (feed r slot now).2.
Proof.
  assert (forall ids r, same_config r (fold_left expire_one ids r)) as Hx.
  { intros ids. induction ids as [|i ids IH]; intros r'; [done|]. simpl.
    destruct (IH (expire_one r' i)) as (E1 & E2 & E3).
    unfold same_config. rewrite E1, E2, E3.
    unfold expire_one. by destruct (r_entries r' !! i). }
  assert (forall r' e hdr bad, same_config r r' ->
    same_config r (feed_on_entry r' e hdr slot bad).2) as Hon.
  { intros r' e hdr bad. unfold feed_on_entry. by destruct (feed_entry e hdr slot bad) as [o [e'|]]. }
  unfold feed. specialize (Hx ((filter (fun p => e_deadline p.2 <= now)
    (map_to_list (r_entries r))).*1) r). fold (expire r now) in Hx.
  repeat (case_match; try done); by apply Hon.
Qed.

(** One fragment of the datagram arrives. *)
Lemma feed_fragment dl q r i now :
  in_flight dl q r -> (i < n)%nat -> now < dl -> dl <= now + r_deadline r ->
  (feed r (slot_of i) now).1 <> DroppedCap ->
  if bool_decide (i ∈ q) then
    (feed r (slot_of i) now).1 = DuplicateIgnored /\ in_flight dl q (feed r (slot_of i) now).2
  else if (S (size q) =? n)%nat then
    (feed r (slot_of i) now).1 = Complete ip /\ r_entries (feed r (slot_of i) now).2 !! id = None
  else
    (feed r (slot_of i) now).1 = Pending /\ in_flight dl ({[ i ]} ∪ q) (feed r (slot_of i) now).2.
Proof.
  intros [Hq Hfl] Hi Hnow Hdl.
  assert (forall r' e, r_entries r' !! id = Some e -> tracking q e -> dl <= e_deadline e ->
    let out := feed_on_entry r' e (fragment_header ip id n i) (slot_of i) false in
    if bool_decide (i ∈ q) then out.1 = DuplicateIgnored /\ in_flight dl q out.2
    else if (S (size q) =? n)%nat then out.1 = Complete ip /\ r_entries out.2 !! id = None
    else out.1 = Pending /\ in_flight dl ({[ i ]} ∪ q) out.2) as Hon.
  { intros r' e He Htr Hd. unfold feed_on_entry. case_bool_decide as Hin.
    - rewrite (feed_entry_dup q e i) by done. split; [done|]. split; [done|].
      cbn [r_entries snd r_update datagram_id fragment_header]. by rewrite lookup_insert_eq.
    - pose proof (feed_entry_fresh q e i Htr Hq Hi Hin) as Hf.
      destruct (Nat.eqb_spec (S (size q)) n).
      + rewrite Hf. split; [done|]. apply lookup_delete_eq.
      + destruct Hf as (e' & -> & Htr' & Hd'). split; [done|]. split.
        * intros j Hj. apply elem_of_add in Hj as [->|Hj]; [done|by apply Hq].
        * cbn [r_entries snd r_update datagram_id fragment_header]. rewrite lookup_insert_eq.
          split; [done|lia]. }
  unfold feed. rewrite (fragment_slot_decode ip id n i) by done.
  rewrite (expected_fragment_header ip id n i) by done. rewrite fragment_slot_padding.
  cbn [datagram_id fragment_header]. rewrite expire_lookup.
  destruct (r_entries r !! id) as [e|] eqn:Er.
  - destruct Hfl as [Htr Hd]. replace (e_deadline e <=? now) with false by lia. intros _.
    apply Hon; [|done|done]. rewrite expire_lookup, Er.
    by replace (e_deadline e <=? now) with false by lia.
  - destruct (r_max_entries (expire r now) <=? _); [done|].
    destruct (r_max_bytes (expire r now) <? _); [done|]. intros _.
    apply Hon; [apply lookup_insert_eq| |].
    + subst q. apply (tracking_new (now + r_deadline (expire r now))).
    + destruct (feed_config r [] now) as (_ & _ & Hd). cbn [new_entry e_deadline].
      unfold feed in Hd. cbn in Hd. lia.
Qed.

(** A whole run before the last fragment. *)
Lemma feed_all_in_flight dl start i0 pre r q :
  (i0 < n)%nat -> dl = start + r_deadline r ->
  in_flight dl q r -> i0 ∉ q -> slot_of i0 ∉ pre.*1 ->
  (forall s, s ∈ pre.*1 -> slot_id s = Some id -> exists i, (i < n)%nat /\ s = slot_of i) ->
  Forall (fun p => start <= p.2 < dl) pre ->
  DroppedCap ∉ (feed_all r pre).1 ->
  exists q', in_flight dl q' (feed_all r pre).2 /\ (i0 ∉ q') /\
    (forall i, i ∈ q -> i ∈ q') /\ (forall i, (i < n)%nat -> slot_of i ∈ pre.*1 -> i ∈ q').
Proof.
  intros Hi0. revert r q. induction pre as [|[s now] pre IH]; intros r q Edl Hfl Hnq Hnp Hmine Ht Hcap.
  { exists q. repeat split; try done; [apply Hfl|apply Hfl|]. intros i _ Hin. by apply elem_of_nil in Hin. }
  apply Forall_cons in Ht as [[Ht1 Ht2] Ht]. simpl in Ht1, Ht2.
  rewrite fmap_cons in Hnp, Hmine |- *. simpl in Hnp, Hmine, Hcap |- *.
  destruct (feed_config r s now) as (_ & _ & Hcfg).
  assert (exists q1, in_flight dl q1 (feed r s now).2 /\ (i0 ∉ q1) /\ (forall i, i ∈ q -> i ∈ q1) /\
    (forall i, (i < n)%nat -> slot_of i = s -> i ∈ q1)) as (q1 & Hfl1 & Hn1 & Hsub & Hs1).
  { assert ((feed r s now).1 <> DroppedCap) as Hnc.
    { intros E. apply Hcap. destruct (feed r s now), (feed_all _ pre). simpl in E. subst. by left. }
    destruct (decide (slot_id s = Some id)) as [Hsid|Hsid].
    - destruct (Hmine s ltac:(by left) Hsid) as (i & Hi & ->).
      assert (i <> i0) as Hne by (intros ->; apply Hnp; by left).
      pose proof (feed_fragment dl q r i now Hfl Hi Ht2 ltac:(lia) Hnc) as Hf.
      case_bool_decide as Hin.
      { exists q. split; [apply Hf|]. split; [done|]. split; [done|].
        intros j Hj Ej. by rewrite (slot_of_inj j i Hj Hi Ej). }
      assert (below ({[ i ]} ∪ q)) as Hq'.
      { intros j Hj. apply elem_of_add in Hj as [->|Hj]; [done|by apply Hfl]. }
      assert (i0 ∉ ({[ i ]} ∪ q : gset nat)) as Hn' by (rewrite elem_of_add; intros [?|?]; [lia|done]).
      pose proof (size_below n _ i0 Hq' Hi0 Hn') as Hsz. rewrite size_add in Hsz by done.
      destruct (Nat.eqb_spec (S (size q)) n); [lia|]. destruct Hf as [_ Hf].
      exists ({[ i ]} ∪ q). split; [done|]. split; [done|].
      split; [intros; apply elem_of_add; by right|].
      intros j Hj Ej. rewrite (slot_of_inj j i Hj Hi Ej). apply elem_of_add. by left.
    - exists q. split; [|split; [done|split; [done|]]].
      + destruct Hfl as [Hq Hfl]. split; [done|]. rewrite feed_other, expire_lookup by done.
        destruct (r_entries r !! id) as [e|]; [|done]. destruct Hfl as [Htr Hd].
        by replace (e_deadline e <=? now) with false by lia.
      + intros j Hj <-. by rewrite slot_of_id in Hsid. }
  destruct (feed r s now) as [o r1] eqn:Ef. cbn [snd fst] in *.
  destruct (IH r1 q1) as (q' & Hfl' & Hn' & Hsub' & Hs'); try done.
  - by rewrite Hcfg.
  - intros Hin. apply Hnp. by right.
  - intros x Hx. apply Hmine. by right.
  - intros Hin. apply Hcap. destruct (feed_all r1 pre). by right.
  - destruct (feed_all r1 pre) as [os r2] eqn:Ea. cbn [snd fst] in *.
    exists q'. split; [done|]. split; [done|]. split; [auto|].
    intros i Hi Hin. apply elem_of_cons in Hin as [Hin|Hin]; [|by apply Hs'].
    apply Hsub'. by apply Hs1.
Qed.

End RoundTrip.

(** ** Fragmentation is total on valid packets *)

Lemma declared_bounds ip d : declared_ip_len ip = Ok d -> 20 <= d <= MAX_IP_PACKET_LEN.
Proof.
  unfold declared_ip_len. intros H. repeat (case_match; try done); simplify_res; lia.
Qed.

Lemma length_fragment_slot ip id n i :
  length (fragment_slot ip id (crc32 ip) n i) = PAYLOAD_LEN.
Proof.
  rewrite fragment_slot_bytes, !length_app, length_OverlayHeader_bytes, length_zeros.
  pose proof (chunk_of_le FRAG_CAP ip i). pose proof PAYLOAD_LEN_split. lia.
Qed.

Lemma fragment_ip_packet_ok ip id d :
  validate_ip_packet ip = Ok d ->
  exists n, fragmentable ip n /\
    fragment_ip_packet ip id = Ok (fragment_slot ip id (crc32 ip) n <$> seq 0 n).
Proof.
  intros Hv. exists (div_ceil (length ip) FRAG_CAP).
  pose proof (validate_ip_packet_ok _ _ Hv) as ->.
  assert (20 <= zlen ip <= MAX_IP_PACKET_LEN) as Hr.
  { unfold validate_ip_packet in Hv. apply bind_ok in Hv as (d & Hd & Hv).
    apply declared_bounds in Hd. by split_matches. }
  assert (fragmentable ip (div_ceil (length ip) FRAG_CAP)) as Hf by done.
  split; [done|]. destruct (fragment_count_bounds ip _ Hf) as (H1 & H2 & _).
  unfold fragment_ip_packet. rewrite Hv. unfold zlen in Hr.
  replace ((20 <=? Z.of_nat (length ip)) && (Z.of_nat (length ip) <=? MAX_IP_PACKET_LEN))
    with true by lia.
  cbn [negb map_err]. unfold mbind, result_bind.
  by replace ((div_ceil (length ip) FRAG_CAP =? 0)%nat
    || (MAX_FRAG_COUNT <? Z.of_nat (div_ceil (length ip) FRAG_CAP))) with false by lia.
Qed.

(** ** Correctness of the data plane *)

(** A minimal IPv4 packet with a payload, for the witnesses. *)
Definition sample_ip (len : nat) : bytes :=
  [x45; x00] ++ be_bytes 2 (Z.of_nat len) ++ replicate (len - 4) x2a.

(** C28: Round trip through the data plane. Whatever order the fragments of a packet
    arrive in, with duplicates, and interleaved with arbitrary other traffic
    (other datagrams, garbage), when the last missing fragment arrives within the
    deadline and no slot was refused for lack of capacity, the reassembler
    returns exactly the original packet and releases the datagram's entry. *)
Theorem reassembly_roundtrip ip id slots r pre last start tl :
  fragment_ip_packet ip id = Ok slots -> in_range 64 id ->
  r_entries r !! id = None ->
  (forall s, s ∈ pre.*1 -> slot_id s = Some id -> s ∈ slots) ->
  last ∈ slots -> last ∉ pre.*1 -> (forall s, s ∈ slots -> s = last \/ s ∈ pre.*1) ->
  Forall (fun p => start <= p.2 < start + r_deadline r) pre ->
  start <= tl < start + r_deadline r ->
  DroppedCap ∉ (feed_all r pre).1 ->
  (feed (feed_all r pre).2 last tl).1 <> DroppedCap ->
  (feed (feed_all r pre).2 last tl).1 = Complete ip /\
  r_entries (feed (feed_all r pre).2 last tl).2 !! id = None.
Proof.
  intros Hfr Hid Hnone Hmine Hlast Hnp Hall Htimes Htl Hcap Hcl.
  apply fragment_ip_packet_inv in Hfr as (n & Hf & ->).
  assert (forall s, s ∈ (fragment_slot ip id (crc32 ip) n <$> seq 0 n) ->
    exists i, (i < n)%nat /\ s = fragment_slot ip id (crc32 ip) n i) as Hin.
  { intros s (i & -> & Hi%elem_of_seq)%list_elem_of_fmap. exists i. split; [lia|done]. }
  destruct (Hin last Hlast) as (i0 & Hi0 & ->).
  destruct (feed_all_in_flight ip id n Hf Hid (start + r_deadline r) start i0 pre r ∅)
    as (q & Hfl & Hn0 & _ & Hq); try done.
  { split; [|by rewrite Hnone]. intros i Hi. by apply elem_of_empty in Hi. }
  { intros s Hs Hsid. by apply Hin, Hmine. }
  assert (forall i, (i < n)%nat -> i ∈ ({[ i0 ]} ∪ q : gset nat)) as Hfull.
  { intros i Hi. apply elem_of_add.
    destruct (Hall (fragment_slot ip id (crc32 ip) n i)) as [E|E].
    - apply list_elem_of_fmap. exists i. split; [done|]. apply elem_of_seq. lia.
    - left. by apply (slot_of_inj ip id n).
    - right. by apply Hq. }
  assert (r_deadline (feed_all r pre).2 = r_deadline r) as Hd.
  { clear. revert r. induction pre as [|[s now] pre IH]; intros r; [done|]. simpl.
    destruct (feed_config r s now) as (_ & _ & E). destruct (feed r s now) as [o r1].
    specialize (IH r1). destruct (feed_all r1 pre). simpl in *. congruence. }
  pose proof (feed_fragment ip id n Hf Hid (start + r_deadline r) q _ i0 tl Hfl Hi0
    ltac:(lia) ltac:(lia) Hcl) as Hstep.
  rewrite bool_decide_false in Hstep by done.
  assert (S (size q) = n) as Hsz.
  { rewrite <- (size_add i0 q Hn0). apply Nat.le_antisymm.
    - rewrite <- (size_set_seq (C := gset nat) 0 n) at 1. apply subseteq_size.
      intros i Hi. apply elem_of_set_seq. apply elem_of_add in Hi as [->|Hi]; [lia|].
      destruct Hfl as [Hb _]. specialize (Hb i Hi). lia.
    - rewrite <- (size_set_seq (C := gset nat) 0 n) at 1. apply subseteq_size.
      intros i Hi%elem_of_set_seq. apply Hfull. lia. }
  by rewrite Hsz, Nat.eqb_refl in Hstep.
Qed.

Lemma reassembly_roundtrip_witness :
  let ip := sample_ip 1300 in
  let s i := fragment_slot ip 9 (crc32 ip) 2 i in
  (feed (feed_all (Reassembler_new DEFAULT_REASSEMBLY_DEADLINE)
           [(s 1%nat, 5); (zeros PAYLOAD_LEN, 6); (s 1%nat, 7)]).2 (s 0%nat) 8).1 = Complete ip.
Proof.
  intros ip s.
  refine (proj1 (reassembly_roundtrip ip 9 [s 0%nat; s 1%nat]
    (Reassembler_new DEFAULT_REASSEMBLY_DEADLINE)
    [(s 1%nat, 5); (zeros PAYLOAD_LEN, 6); (s 1%nat, 7)] (s 0%nat) 5 8 _ _ _ _ _ _ _ _ _ _ _)).
  - vm_compute. reflexivity.
  - by split.
  - reflexivity.
  - intros x Hx Hid. cbn in Hx.
    apply elem_of_cons in Hx as [->|Hx]; [right; left|].
    apply elem_of_cons in Hx as [->|Hx]; [by vm_compute in Hid|].
    apply elem_of_cons in Hx as [->|Hx]; [right; left|]. by apply elem_of_nil in Hx.
  - left.
  - apply (bool_decide_unpack _). vm_compute. exact I.
  - intros x Hx. apply elem_of_cons in Hx as [->|Hx]; [by left|].
    apply elem_of_cons in Hx as [->|Hx]; [right; left|]. by apply elem_of_nil in Hx.
  - repeat constructor; cbn; unfold DEFAULT_REASSEMBLY_DEADLINE, from_secs; lia.
  - cbn. unfold DEFAULT_REASSEMBLY_DEADLINE, from_secs. lia.
  - vm_compute. intros H. repeat (apply elem_of_cons in H as [H|H]; [done|]). by apply elem_of_nil in H.
  - vm_compute. discriminate.
Defined.

(** A completed packet is genuine: the bytes [feed] returns have the length and
    CRC announced by the header of the completing fragment and a consistent IP
    header, and the entry is gone, so the datagram completes at most once. *)
Theorem reassembly_complete_sound r slot now buf :
  Reassembler_wf r -> length slot = PAYLOAD_LEN ->
  (feed r slot now).1 = Complete buf ->
  exists hdr, OverlayHeader_decode slot = Ok hdr /\
    crc32 buf = datagram_crc hdr /\ zlen buf = ip_total_len hdr /\
    validate_ip_header_at buf (ip_total_len hdr) = Ok () /\
    r_entries (feed r slot now).2 !! datagram_id hdr = None.
Proof. apply feed_complete. Qed.

Lemma reassembly_complete_sound_witness :
  let ip := sample_ip 40 in
  exists hdr, OverlayHeader_decode (fragment_slot ip 9 (crc32 ip) 1 0) = Ok hdr /\
    crc32 ip = datagram_crc hdr.
Proof.
  intros ip.
  destruct (reassembly_complete_sound (Reassembler_new DEFAULT_REASSEMBLY_DEADLINE)
    (fragment_slot ip 9 (crc32 ip) 1 0) 5 ip) as (hdr & H1 & H2 & _).
  - apply with_caps_wf; [done|split; done].
  - apply length_fragment_slot.
  - vm_compute. reflexivity.
  - exists hdr. split; [exact H1|exact H2].
Defined.

(** Memory is bounded: after any sequence of slots at any times, the reassembler
    holds at most [max_entries] entries, its byte counter is exactly the sum of the
    live buffers and never exceeds [max_bytes], and every entry is well-formed
    (buffer and bitmap sizes, fragment count, received count). *)
Theorem reassembler_bounded deadline max_entries max_bytes l :
  0 <= max_entries -> 0 <= max_bytes < umax 64 ->
  Forall (fun p => length p.1 = PAYLOAD_LEN) l ->
  let r := (feed_all (with_caps deadline max_entries max_bytes) l).2 in
  (forall id e, r_entries r !! id = Some e -> Entry_wf e) /\
  r_current_bytes r = total (r_entries r) /\
  Z.of_nat (size (r_entries r)) <= max_entries /\ r_current_bytes r <= max_bytes.
Proof.
  intros Hme Hmb Hl r.
  destruct (feed_all_wf l _ (with_caps_wf deadline _ _ Hme Hmb) Hl) as [(H1 & H2 & H3 & H4) (C1 & C2 & _)].
  fold r in H1, H2, H3, H4, C1, C2. simpl in C1, C2.
  split; [done|]. split; [done|]. lia.
Qed.

Lemma reassembler_bounded_witness :
  r_current_bytes (feed_all (with_caps 100 1 2000)
    [(fragment_slot (sample_ip 1300) 9 0 2 0, 5); (fragment_slot (sample_ip 1300) 8 0 2 0, 6)]).2
    <= 2000.
Proof.
  refine (proj2 (proj2 (proj2 (reassembler_bounded 100 1 2000
    [(fragment_slot (sample_ip 1300) 9 0 2 0, 5); (fragment_slot (sample_ip 1300) 8 0 2 0, 6)]
    _ _ _)))); [lia|split; [lia|done]|].
  repeat constructor.
Defined.

(** Fragmentation succeeds exactly on the packets whose declared length is their
    actual length (so [TooLarge] is unreachable), and yields between 1 and 54
    slots, each of exactly one record payload. *)
Theorem fragment_ip_packet_total ip id :
  match fragment_ip_packet ip id with
  | Ok slots => is_ok (validate_ip_packet ip) = true /\
      1 <= Z.of_nat (length slots) <= MAX_FRAG_COUNT /\
      Forall (fun s => length s = PAYLOAD_LEN) slots
  | Err e => is_ok (validate_ip_packet ip) = false /\ e = InvalidIpPacket
  end.
Proof.
  destruct (validate_ip_packet ip) as [d|e] eqn:Ev.
  - destruct (fragment_ip_packet_ok ip id d Ev) as (n & Hf & ->).
    destruct (fragment_count_bounds ip n Hf) as (H1 & H2 & _).
    rewrite length_fmap, length_seq. split; [done|]. split; [lia|].
    apply Forall_fmap, Forall_true. intros i. apply length_fragment_slot.
  - unfold fragment_ip_packet. destruct (_ && _); [|done]. simpl. by rewrite Ev.
Qed.
