(* ===== verification/HandshakeMsg.v ===== *)
(** * Handshake messages

    [pq-tunnel-core/src/handshake_v2.rs], first half: wire constants, fragment
    framing and reassembly, the three messages (ClientHello, ServerHello,
    ClientConfirm), the canonical transcript and the shared helpers. *)

From S2P Require Import Prelude Bytes Errors Codec Replay Crypto Envelope WireSession.
From stdpp Require Import pretty.

Local Open Scope nat_scope.

(** ** Constants *)

Definition HS_TYPE_CLIENT_HELLO : byte := x10.
Definition HS_TYPE_SERVER_HELLO : byte := x20.
Definition HS_TYPE_CLIENT_CONFIRM : byte := x30.
Definition HS_FRAG_HEADER_LEN : nat := VERSION_LEN + SESSION_ID_LEN + 3.
Definition HS_FRAG_BODY_MAX : nat := PACKET_SIZE - HS_FRAG_HEADER_LEN.
Definition X25519_PUBLIC_KEY_BYTES : nat := 32.
Definition FINISHED_MAC_LEN : nat := 16.
Definition M1_BODY_LEN : nat :=
  VERSION_LEN + SESSION_ID_LEN + ML_KEM_768_PUBLIC_KEY_BYTES + X25519_PUBLIC_KEY_BYTES
  + ML_DSA_65_SIGNATURE_BYTES.
Definition M2_BODY_LEN : nat :=
  VERSION_LEN + SESSION_ID_LEN + ML_KEM_768_PUBLIC_KEY_BYTES + X25519_PUBLIC_KEY_BYTES
  + ML_KEM_768_CIPHERTEXT_BYTES + ML_DSA_65_SIGNATURE_BYTES.
Definition M3_BODY_LEN : nat :=
  VERSION_LEN + SESSION_ID_LEN + ML_KEM_768_CIPHERTEXT_BYTES + FINISHED_MAC_LEN.
Definition M1_FRAG_COUNT : byte := x04.
Definition M2_FRAG_COUNT : byte := x05.
Definition M3_FRAG_COUNT : byte := x01.
Definition HANDSHAKE_DOMAIN : bytes := b_str "pq-tunnel-v1".

(** ** Errors *)

Inductive HandshakeV2Error :=
| HS_Transport (msg : string)
| HS_TransportReset
| HS_DatagramRejected
| HS_Codec (e : CodecError)
| HS_Crypto (e : CryptoError)
| HS_Timeout
| HS_InvalidConfig (msg : string).

(** ** Fragment framing *)

Definition expected_frag_count (hs_type : byte) : option byte :=
  match hs_type with
  | x10 => Some M1_FRAG_COUNT
  | x20 => Some M2_FRAG_COUNT
  | x30 => Some M3_FRAG_COUNT
  | _ => None
  end.

Definition message_body_len (hs_type : byte) : option nat :=
  match hs_type with
  | x10 => Some M1_BODY_LEN
  | x20 => Some M2_BODY_LEN
  | x30 => Some M3_BODY_LEN
  | _ => None
  end.

Definition is_handshake_fragment (pkt : WirePacket) : bool :=
  match byte_at (VERSION_LEN + SESSION_ID_LEN) (as_bytes pkt) with
  | x10 | x20 | x30 => true
  | _ => false
  end.

Record HandshakeFragment := mkHandshakeFragment {
  hf_version : byte;
  hf_sid : bytes;
  hf_hs_type : byte;
  hf_frag_idx : byte;
  hf_frag_total : byte;
  hf_body : bytes }.

Definition from_datagram (pkt : WirePacket) : result CodecError HandshakeFragment :=
  let b := as_bytes pkt in
  let version := byte_at 0 b in
  if negb (bool_decide (version = PROTOCOL_VERSION)) then
    Err (InvalidVersion PROTOCOL_VERSION version)
  else
    let sid := slice VERSION_LEN (VERSION_LEN + SESSION_ID_LEN) b in
    let hs_type := byte_at (VERSION_LEN + SESSION_ID_LEN) b in
    let frag_idx := byte_at (VERSION_LEN + SESSION_ID_LEN + 1) b in
    let frag_total := byte_at (VERSION_LEN + SESSION_ID_LEN + 2) b in
    expected ← ok_or (expected_frag_count hs_type) (InvalidMessageType hs_type);
    if negb (bool_decide (frag_total = expected)) then
      Err (Truncated "frag_total" (Z.to_nat (b2z expected)) (Z.to_nat (b2z frag_total)))
    else if (b2z frag_total <=? b2z frag_idx)%Z then
      Err (Truncated "frag_idx" (Z.to_nat (b2z frag_total)) (Z.to_nat (b2z frag_idx)))
    else
      let msg_len := default 0 (message_body_len hs_type) in
      let start := Z.to_nat (b2z frag_idx) * HS_FRAG_BODY_MAX in
      let body_len := Nat.min (msg_len - start) HS_FRAG_BODY_MAX in
      let body := slice HS_FRAG_HEADER_LEN (HS_FRAG_HEADER_LEN + body_len) b in
      Ok (mkHandshakeFragment version sid hs_type frag_idx frag_total body).

(** One iteration of the fragmentation loop. *)
Definition fragment_datagram (hs_type version : byte) (sid message : bytes) (total : byte)
    (idx : nat) : WirePacket :=
  let dg := zeros PACKET_SIZE in
  let dg := write_at 0 [version] dg in
  let dg := write_at VERSION_LEN sid dg in
  let dg := write_at (VERSION_LEN + SESSION_ID_LEN) [hs_type] dg in
  let dg := write_at (VERSION_LEN + SESSION_ID_LEN + 1) [z2b (Z.of_nat idx)] dg in
  let dg := write_at (VERSION_LEN + SESSION_ID_LEN + 2) [total] dg in
  let start := idx * HS_FRAG_BODY_MAX in
  let end_ := Nat.min (start + HS_FRAG_BODY_MAX) (length message) in
  let dg := write_at HS_FRAG_HEADER_LEN (slice start end_ message) dg in
  mkWirePacket dg.

Definition fragment_message (hs_type version : byte) (sid message : bytes)
    : result CodecError (list WirePacket) :=
  total ← ok_or (expected_frag_count hs_type) (InvalidMessageType hs_type);
  let msg_len := default 0 (message_body_len hs_type) in
  if negb (length message =? msg_len) then
    Err (WrongLength "handshake message" msg_len (length message))
  else
    Ok (fragment_datagram hs_type version sid message total <$> seq 0 (Z.to_nat (b2z total))).

(** ** Fragment reassembly *)

Inductive FragmentResult := FrIgnored | FrAdvanced | FrCompleted.

Record FragmentAssembler := mkFragmentAssembler {
  fa_hs_type : byte;
  fa_total : byte;
  fa_received : list bool;
  fa_buffer : bytes;
  fa_complete : bool }.

Definition FragmentAssembler_new (hs_type : byte) : option FragmentAssembler :=
  total ← expected_frag_count hs_type;
  msg_len ← message_body_len hs_type;
  Some {| fa_hs_type := hs_type; fa_total := total;
          fa_received := replicate (Z.to_nat (b2z M2_FRAG_COUNT)) false;
          fa_buffer := zeros msg_len; fa_complete := false |}.

Definition add_fragment (a : FragmentAssembler) (frag : HandshakeFragment)
    : FragmentResult * FragmentAssembler :=
  if fa_complete a || negb (bool_decide (hf_hs_type frag = fa_hs_type a))
     || negb (bool_decide (hf_frag_total frag = fa_total a)) then (FrIgnored, a)
  else
    let idx := Z.to_nat (b2z (hf_frag_idx frag)) in
    if (Z.to_nat (b2z (fa_total a)) <=? idx) || default false (fa_received a !! idx)
    then (FrIgnored, a)
    else
      let start := idx * HS_FRAG_BODY_MAX in
      let end_ := start + length (hf_body frag) in
      if length (fa_buffer a) <? end_ then (FrIgnored, a)
      else
        let received := <[idx := true]> (fa_received a) in
        let buffer := write_at start (hf_body frag) (fa_buffer a) in
        if forallb id (take (Z.to_nat (b2z (fa_total a))) received) then
          (FrCompleted, mkFragmentAssembler (fa_hs_type a) (fa_total a) received buffer true)
        else
          (FrAdvanced, mkFragmentAssembler (fa_hs_type a) (fa_total a) received buffer (fa_complete a)).

Definition assembled_message (a : FragmentAssembler) : option bytes :=
  if fa_complete a then Some (fa_buffer a) else None.

(** ** Messages *)

Section Messages.
Context {P : Primitives}.

Definition encode_m1 (version : byte) (sid : bytes) (eph_pk_c : EncapsulationKey) (x_c : bytes)
    (sig : option DsaSig) : bytes :=
  let out := zeros M1_BODY_LEN in
  let out := write_at 0 [version] out in
  let out := write_at VERSION_LEN sid out in
  let pk := MlKemPublicKey_to_bytes eph_pk_c in
  let out := write_at 9 pk out in
  let out := write_at (9 + ML_KEM_768_PUBLIC_KEY_BYTES) x_c out in
  match sig with
  | Some s => write_at (M1_BODY_LEN - ML_DSA_65_SIGNATURE_BYTES) (MlDsaSignature_encode s) out
  | None => out
  end.

Record ClientHello := mkClientHello {
  m1_version : byte;
  m1_sid : bytes;
  m1_eph_pk_c : EncapsulationKey;
  m1_x_c : bytes;
  m1_client_sig : DsaSig }.

Definition ClientHello_encode (m : ClientHello) : bytes :=
  encode_m1 (m1_version m) (m1_sid m) (m1_eph_pk_c m) (m1_x_c m) (Some (m1_client_sig m)).

Definition ClientHello_decode (data : bytes) : result CodecError ClientHello :=
  if negb (length data =? M1_BODY_LEN) then
    Err (Truncated "ClientHello" M1_BODY_LEN (length data))
  else
    let version := byte_at 0 data in
    if negb (bool_decide (version = PROTOCOL_VERSION)) then
      Err (InvalidVersion PROTOCOL_VERSION version)
    else
      let sid := slice 1 9 data in
      eph_pk_c ← map_err Crypto
        (MlKemPublicKey_from_bytes (slice 9 (9 + ML_KEM_768_PUBLIC_KEY_BYTES) data));
      let x_c := slice (9 + ML_KEM_768_PUBLIC_KEY_BYTES)
                       (M1_BODY_LEN - ML_DSA_65_SIGNATURE_BYTES) data in
      client_sig ← map_err Crypto
        (MlDsaSignature_from_bytes (drop (M1_BODY_LEN - ML_DSA_65_SIGNATURE_BYTES) data));
      Ok (mkClientHello version sid eph_pk_c x_c client_sig).

Definition encode_m2 (version : byte) (sid : bytes) (eph_pk_s : EncapsulationKey)
    (x_s ct2 : bytes) (sig : option DsaSig) : bytes :=
  let out := zeros M2_BODY_LEN in
  let out := write_at 0 [version] out in
  let out := write_at VERSION_LEN sid out in
  let pk := MlKemPublicKey_to_bytes eph_pk_s in
  let out := write_at 9 pk out in
  let out := write_at (9 + ML_KEM_768_PUBLIC_KEY_BYTES) x_s out in
  let out := write_at (9 + ML_KEM_768_PUBLIC_KEY_BYTES + 32) ct2 out in
  match sig with
  | Some s => write_at (M2_BODY_LEN - ML_DSA_65_SIGNATURE_BYTES) (MlDsaSignature_encode s) out
  | None => out
  end.

Record ServerHello := mkServerHello {
  m2_version : byte;
  m2_sid : bytes;
  m2_eph_pk_s : EncapsulationKey;
  m2_x_s : bytes;
  m2_ct2 : bytes;
  m2_server_sig : DsaSig }.

Definition ServerHello_encode (m : ServerHello) : bytes :=
  encode_m2 (m2_version m) (m2_sid m) (m2_eph_pk_s m) (m2_x_s m) (m2_ct2 m) (Some (m2_server_sig m)).

Definition ServerHello_decode (data : bytes) : result CodecError ServerHello :=
  if negb (length data =? M2_BODY_LEN) then
    Err (Truncated "ServerHello" M2_BODY_LEN (length data))
  else
    let version := byte_at 0 data in
    if negb (bool_decide (version = PROTOCOL_VERSION)) then
      Err (InvalidVersion PROTOCOL_VERSION version)
    else
      let sid := slice 1 9 data in
      eph_pk_s ← map_err Crypto
        (MlKemPublicKey_from_bytes (slice 9 (9 + ML_KEM_768_PUBLIC_KEY_BYTES) data));
      let x_s := slice (9 + ML_KEM_768_PUBLIC_KEY_BYTES)
                       (9 + ML_KEM_768_PUBLIC_KEY_BYTES + 32) data in
      ct2 ← map_err Crypto
        (MlKemCiphertext_from_bytes
           (slice (9 + ML_KEM_768_PUBLIC_KEY_BYTES + 32)
                  (9 + ML_KEM_768_PUBLIC_KEY_BYTES + 32 + ML_KEM_768_CIPHERTEXT_BYTES) data));
      server_sig ← map_err Crypto
        (MlDsaSignature_from_bytes (drop (M2_BODY_LEN - ML_DSA_65_SIGNATURE_BYTES) data));
      Ok (mkServerHello version sid eph_pk_s x_s ct2 server_sig).

Definition encode_m3 (version : byte) (sid ct3 : bytes) (finished : option bytes) : bytes :=
  let out := zeros M3_BODY_LEN in
  let out := write_at 0 [version] out in
  let out := write_at VERSION_LEN sid out in
  let out := write_at 9 ct3 out in
  match finished with
  | Some m => write_at (M3_BODY_LEN - FINISHED_MAC_LEN) m out
  | None => out
  end.

Record ClientConfirm := mkClientConfirm {
  m3_version : byte;
  m3_sid : bytes;
  m3_ct3 : bytes;
  m3_client_finished : bytes }.

Definition ClientConfirm_encode (m : ClientConfirm) : bytes :=
  encode_m3 (m3_version m) (m3_sid m) (m3_ct3 m) (Some (m3_client_finished m)).

Definition ClientConfirm_decode (data : bytes) : result CodecError ClientConfirm :=
  if negb (length data =? M3_BODY_LEN) then
    Err (Truncated "ClientConfirm" M3_BODY_LEN (length data))
  else
    let version := byte_at 0 data in
    if negb (bool_decide (version = PROTOCOL_VERSION)) then
      Err (InvalidVersion PROTOCOL_VERSION version)
    else
      let sid := slice 1 9 data in
      ct3 ← map_err Crypto
        (MlKemCiphertext_from_bytes (slice 9 (9 + ML_KEM_768_CIPHERTEXT_BYTES) data));
      let client_finished := drop (M3_BODY_LEN - FINISHED_MAC_LEN) data in
      Ok (mkClientConfirm version sid ct3 client_finished).

(** ** Canonical transcript *)

Definition canonical_zerofill (hs_type : byte) (message : bytes) : option bytes :=
  slot ← match hs_type with
         | x10 | x20 => Some ML_DSA_65_SIGNATURE_BYTES
         | x30 => Some FINISHED_MAC_LEN
         | _ => None
         end;
  len ← message_body_len hs_type;
  if negb (length message =? len) then None
  else Some (take (len - slot) message ++ zeros slot).

Definition hash_with_domain (parts : list bytes) : bytes :=
  let t := Transcript_new_with_initial HANDSHAKE_DOMAIN in
  Transcript_into_bytes (fold_left Transcript_update parts t).

Definition th1_from_m1 (m1 : bytes) : option bytes :=
  canon ← canonical_zerofill HS_TYPE_CLIENT_HELLO m1;
  Some (hash_with_domain [canon]).

Definition th2_from_m1_m2 (m1_s m2 : bytes) : option bytes :=
  if negb (length m1_s =? M1_BODY_LEN) then None
  else
    m2_z ← canonical_zerofill HS_TYPE_SERVER_HELLO m2;
    Some (hash_with_domain [m1_s; m2_z]).

Definition th3_from_m1_m2_m3 (m1 m2 m3 : bytes) : option bytes :=
  m1_z ← canonical_zerofill HS_TYPE_CLIENT_HELLO m1;
  m2_z ← canonical_zerofill HS_TYPE_SERVER_HELLO m2;
  m3_z ← canonical_zerofill HS_TYPE_CLIENT_CONFIRM m3;
  Some (hash_with_domain [m1_z; m2_z; m3_z]).

Definition derive_master (ss_a ss_b dh_cs : bytes) (version : byte) (sid th3 : bytes)
    : result HandshakeV2Error MasterSecret :=
  map_err HS_Crypto (derive_master_secret_v2 ss_a ss_b dh_cs version sid th3).

End Messages.

(** ** Shared helpers

    [rand] is the value of [getrandom::u64().unwrap_or(0)]; durations are
    nanoseconds, [Duration::MAX] is the largest representable one. *)

Local Open Scope Z_scope.

Definition DURATION_MAX : Duration := umax 64 * 1000000000 + 999999999.

Definition jittered (base : Duration) (rand : Z) : Duration :=
  let nanos := base in
  let factor := 80 + rand mod 40 in
  let n := nanos * factor / 100 in
  if n <=? umax 64 then n else umax 64.

Definition backoff_delay (base : Duration) (attempt rand : Z) : Duration :=
  let shift := Z.min attempt 5 in
  jittered (Z.min DURATION_MAX (base * Z.shiftl 1 shift)) rand.

(** [fill] is the outcome of [getrandom::fill]. *)
Definition random_sid (fill : result string bytes) : result HandshakeV2Error bytes :=
  map_err (fun e => HS_Crypto (InvalidInput ("getrandom: " +:+ e))) fill.

Definition validate_version (version : byte) : result HandshakeV2Error () :=
  if bool_decide (version = PROTOCOL_VERSION) then Ok ()
  else Err (HS_InvalidConfig ("version " +:+ pretty (Byte.to_N version) +:+
                              " unsupported (expected " +:+ pretty (Byte.to_N PROTOCOL_VERSION)
                              +:+ ")")).

Local Open Scope nat_scope.

(** Linear arithmetic over the handshake dimensions. *)
Ltac hdims :=
  unfold M1_BODY_LEN, M2_BODY_LEN, M3_BODY_LEN, HS_FRAG_BODY_MAX, HS_FRAG_HEADER_LEN,
    X25519_PUBLIC_KEY_BYTES, FINISHED_MAC_LEN, ML_KEM_768_PUBLIC_KEY_BYTES,
    ML_KEM_768_CIPHERTEXT_BYTES, ML_KEM_768_SHARED_SECRET_BYTES, ML_DSA_65_SIGNATURE_BYTES,
    ML_DSA_65_PUBLIC_KEY_BYTES in *; dims.

(** ** Encodings as concatenations *)

Section Encodings.
Context {P : Primitives} {L : PrimitivesLaws P}.

(** The contents of a signature or MAC slot. *)
Definition slot_bytes (n : nat) (s : option bytes) : bytes := default (zeros n) s.

Lemma encode_m1_app v sid pk x sig :
  length sid = SESSION_ID_LEN -> length x = X25519_PUBLIC_KEY_BYTES ->
  encode_m1 v sid pk x sig =
  ([v] ++ sid ++ ek_to_bytes pk ++ x) ++ slot_bytes ML_DSA_65_SIGNATURE_BYTES (sig_encode <$> sig).
Proof.
  intros Hs Hx. pose proof (ek_length pk) as Hk.
  unfold encode_m1, MlKemPublicKey_to_bytes, MlDsaSignature_encode.
  rewrite write_at_zeros_0 by hdims. rewrite write_at_zeros by hdims.
  rewrite write_at_zeros by hdims. rewrite write_at_zeros by hdims.
  rewrite <- !app_assoc. destruct sig as [s|]; simpl fmap; unfold slot_bytes; simpl default.
  - pose proof (sig_length s) as Hsl.
    rewrite !app_assoc, write_at_zeros by hdims. rewrite Hsl.
    replace (_ - _) with 0 by hdims. by rewrite zeros_0, app_nil_r.
  - do 5 f_equal. hdims.
Qed.

Lemma encode_m2_app v sid pk x ct sig :
  length sid = SESSION_ID_LEN -> length x = X25519_PUBLIC_KEY_BYTES ->
  length ct = ML_KEM_768_CIPHERTEXT_BYTES ->
  encode_m2 v sid pk x ct sig =
  ([v] ++ sid ++ ek_to_bytes pk ++ x ++ ct)
    ++ slot_bytes ML_DSA_65_SIGNATURE_BYTES (sig_encode <$> sig).
Proof.
  intros Hs Hx Hc. pose proof (ek_length pk) as Hk.
  unfold encode_m2, MlKemPublicKey_to_bytes, MlDsaSignature_encode.
  rewrite write_at_zeros_0 by hdims. do 4 (rewrite write_at_zeros by hdims).
  rewrite <- !app_assoc. destruct sig as [s|]; simpl fmap; unfold slot_bytes; simpl default.
  - pose proof (sig_length s) as Hsl.
    rewrite !app_assoc, write_at_zeros by hdims. rewrite Hsl.
    replace (_ - _) with 0 by hdims. by rewrite zeros_0, app_nil_r.
  - do 6 f_equal. hdims.
Qed.

Lemma encode_m3_app v sid ct fin :
  length sid = SESSION_ID_LEN -> length ct = ML_KEM_768_CIPHERTEXT_BYTES ->
  (forall m, fin = Some m -> length m = FINISHED_MAC_LEN) ->
  encode_m3 v sid ct fin = ([v] ++ sid ++ ct) ++ slot_bytes FINISHED_MAC_LEN fin.
Proof.
  intros Hs Hc Hf. unfold encode_m3.
  rewrite write_at_zeros_0 by hdims. do 2 (rewrite write_at_zeros by hdims).
  rewrite <- !app_assoc. destruct fin as [m|]; unfold slot_bytes; simpl default.
  - pose proof (Hf m eq_refl) as Hm.
    rewrite !app_assoc, write_at_zeros by hdims. rewrite Hm.
    replace (_ - _) with 0 by hdims. by rewrite zeros_0, app_nil_r.
  - do 4 f_equal. hdims.
Qed.

Lemma length_encode_m1 v sid pk x sig :
  length sid = SESSION_ID_LEN -> length x = X25519_PUBLIC_KEY_BYTES ->
  length (encode_m1 v sid pk x sig) = M1_BODY_LEN.
Proof.
  intros Hs Hx. rewrite encode_m1_app by done. pose proof (ek_length pk).
  destruct sig as [s|]; simpl fmap; unfold slot_bytes; simpl default; [pose proof (sig_length s)|];
    hdims.
Qed.

Lemma length_encode_m2 v sid pk x ct sig :
  length sid = SESSION_ID_LEN -> length x = X25519_PUBLIC_KEY_BYTES ->
  length ct = ML_KEM_768_CIPHERTEXT_BYTES ->
  length (encode_m2 v sid pk x ct sig) = M2_BODY_LEN.
Proof.
  intros Hs Hx Hc. rewrite encode_m2_app by done. pose proof (ek_length pk).
  destruct sig as [s|]; simpl fmap; unfold slot_bytes; simpl default; [pose proof (sig_length s)|];
    hdims.
Qed.

Lemma length_encode_m3 v sid ct fin :
  length sid = SESSION_ID_LEN -> length ct = ML_KEM_768_CIPHERTEXT_BYTES ->
  (forall m, fin = Some m -> length m = FINISHED_MAC_LEN) ->
  length (encode_m3 v sid ct fin) = M3_BODY_LEN.
Proof.
  intros Hs Hc Hf. rewrite encode_m3_app by done.
  destruct fin as [m|]; unfold slot_bytes; simpl default; [pose proof (Hf m eq_refl)|]; hdims.
Qed.

Lemma zerofill_slot t n slot m :
  message_body_len t = Some n -> length m = n ->
  slot = (if bool_decide (t = x30) then FINISHED_MAC_LEN else ML_DSA_65_SIGNATURE_BYTES) ->
  canonical_zerofill t m = Some (take (n - slot) m ++ zeros slot).
Proof.
  intros Ht Hm ->. unfold canonical_zerofill. rewrite Ht.
  destruct t; try discriminate Ht; unfold mbind, option_bind; rewrite Hm, Nat.eqb_refl; done.
Qed.

(** Zero-filling the slot of a full message gives its pre-signature form. *)
Lemma zerofill_m1 v sid pk x sig :
  length sid = SESSION_ID_LEN -> length x = X25519_PUBLIC_KEY_BYTES ->
  canonical_zerofill HS_TYPE_CLIENT_HELLO (encode_m1 v sid pk x sig) =
  Some (encode_m1 v sid pk x None).
Proof.
  intros Hs Hx. pose proof (ek_length pk) as Hk.
  rewrite (zerofill_slot _ M1_BODY_LEN ML_DSA_65_SIGNATURE_BYTES) by (done || by apply length_encode_m1).
  f_equal. rewrite !encode_m1_app by done. f_equal.
  apply take_app_length'. hdims.
Qed.

Lemma zerofill_m2 v sid pk x ct sig :
  length sid = SESSION_ID_LEN -> length x = X25519_PUBLIC_KEY_BYTES ->
  length ct = ML_KEM_768_CIPHERTEXT_BYTES ->
  canonical_zerofill HS_TYPE_SERVER_HELLO (encode_m2 v sid pk x ct sig) =
  Some (encode_m2 v sid pk x ct None).
Proof.
  intros Hs Hx Hc. pose proof (ek_length pk) as Hk.
  rewrite (zerofill_slot _ M2_BODY_LEN ML_DSA_65_SIGNATURE_BYTES) by (done || by apply length_encode_m2).
  f_equal. rewrite !encode_m2_app by done. f_equal.
  apply take_app_length'. hdims.
Qed.

Lemma zerofill_m3 v sid ct fin :
  length sid = SESSION_ID_LEN -> length ct = ML_KEM_768_CIPHERTEXT_BYTES ->
  (forall m, fin = Some m -> length m = FINISHED_MAC_LEN) ->
  canonical_zerofill HS_TYPE_CLIENT_CONFIRM (encode_m3 v sid ct fin) =
  Some (encode_m3 v sid ct None).
Proof.
  intros Hs Hc Hf.
  rewrite (zerofill_slot _ M3_BODY_LEN FINISHED_MAC_LEN) by (done || by apply length_encode_m3).
  f_equal. rewrite !encode_m3_app by done. f_equal.
  apply take_app_length'. hdims.
Qed.

(** ** Message round trips *)

Lemma MlKemPublicKey_roundtrip pk : MlKemPublicKey_from_bytes (ek_to_bytes pk) = Ok pk.
Proof.
  unfold MlKemPublicKey_from_bytes. rewrite (ek_length pk), ek_roundtrip. done.
Qed.

Lemma MlDsaSignature_roundtrip s : MlDsaSignature_from_bytes (sig_encode s) = Ok s.
Proof.
  unfold MlDsaSignature_from_bytes. rewrite (sig_length s), Nat.eqb_refl, sig_roundtrip. done.
Qed.

Lemma ClientHello_roundtrip m :
  m1_version m = PROTOCOL_VERSION -> length (m1_sid m) = SESSION_ID_LEN ->
  length (m1_x_c m) = X25519_PUBLIC_KEY_BYTES -> ClientHello_decode (ClientHello_encode m) = Ok m.
Proof.
  intros Hv Hs Hx. unfold ClientHello_decode, ClientHello_encode.
  rewrite length_encode_m1, Nat.eqb_refl by done. simpl negb. cbv iota.
  rewrite encode_m1_app by done. simpl fmap. unfold slot_bytes. simpl default.
  pose proof (ek_length (m1_eph_pk_c m)) as Hk.
  change (byte_at 0 _) with (m1_version m). rewrite bool_decide_true by done. simpl negb. cbv iota.
  rewrite <- !app_assoc.
  rewrite (slice_exact [_] (m1_sid m) _ 1) by hdims.
  rewrite (app_assoc [_] (m1_sid m)).
  rewrite (slice_exact _ (ek_to_bytes _) _ 9) by hdims.
  rewrite MlKemPublicKey_roundtrip. cbn [map_err]. unfold mbind, result_bind.
  rewrite (app_assoc _ (ek_to_bytes _)).
  rewrite (slice_exact _ (m1_x_c m) _ (9 + ML_KEM_768_PUBLIC_KEY_BYTES)) by hdims.
  rewrite (app_assoc _ (m1_x_c m)), drop_app_length' by hdims.
  rewrite MlDsaSignature_roundtrip. by destruct m.
Qed.

Lemma ServerHello_roundtrip m :
  m2_version m = PROTOCOL_VERSION -> length (m2_sid m) = SESSION_ID_LEN ->
  length (m2_x_s m) = X25519_PUBLIC_KEY_BYTES -> length (m2_ct2 m) = ML_KEM_768_CIPHERTEXT_BYTES ->
  ServerHello_decode (ServerHello_encode m) = Ok m.
Proof.
  intros Hv Hs Hx Hc. unfold ServerHello_decode, ServerHello_encode.
  rewrite length_encode_m2, Nat.eqb_refl by done. simpl negb. cbv iota.
  rewrite encode_m2_app by done. simpl fmap. unfold slot_bytes. simpl default.
  pose proof (ek_length (m2_eph_pk_s m)) as Hk.
  change (byte_at 0 _) with (m2_version m). rewrite bool_decide_true by done. simpl negb. cbv iota.
  rewrite <- !app_assoc.
  rewrite (slice_exact [_] (m2_sid m) _ 1) by hdims.
  rewrite (app_assoc [_] (m2_sid m)).
  rewrite (slice_exact _ (ek_to_bytes _) _ 9) by hdims.
  rewrite MlKemPublicKey_roundtrip. cbn [map_err]. unfold mbind, result_bind.
  rewrite (app_assoc _ (ek_to_bytes _)).
  rewrite (slice_exact _ (m2_x_s m) _ (9 + ML_KEM_768_PUBLIC_KEY_BYTES)) by hdims.
  rewrite (app_assoc _ (m2_x_s m)).
  rewrite (slice_exact _ (m2_ct2 m) _ (9 + ML_KEM_768_PUBLIC_KEY_BYTES + 32)) by hdims.
  unfold MlKemCiphertext_from_bytes. rewrite Hc, Nat.eqb_refl. cbn [negb map_err].
  rewrite (app_assoc _ (m2_ct2 m)), drop_app_length' by hdims.
  rewrite MlDsaSignature_roundtrip. by destruct m.
Qed.

Lemma ClientConfirm_roundtrip m :
  m3_version m = PROTOCOL_VERSION -> length (m3_sid m) = SESSION_ID_LEN ->
  length (m3_ct3 m) = ML_KEM_768_CIPHERTEXT_BYTES ->
  length (m3_client_finished m) = FINISHED_MAC_LEN ->
  ClientConfirm_decode (ClientConfirm_encode m) = Ok m.
Proof.
  intros Hv Hs Hc Hf. unfold ClientConfirm_decode, ClientConfirm_encode.
  assert (forall x, Some (m3_client_finished m) = Some x -> length x = FINISHED_MAC_LEN) as Hf'
    by (intros x [= <-]; done).
  rewrite length_encode_m3, Nat.eqb_refl by done. simpl negb. cbv iota.
  rewrite encode_m3_app by done. unfold slot_bytes. simpl default.
  change (byte_at 0 _) with (m3_version m). rewrite bool_decide_true by done. simpl negb. cbv iota.
  rewrite <- !app_assoc.
  rewrite (slice_exact [_] (m3_sid m) _ 1) by hdims.
  rewrite (app_assoc [_] (m3_sid m)).
  rewrite (slice_exact _ (m3_ct3 m) _ 9) by hdims.
  unfold MlKemCiphertext_from_bytes. rewrite Hc, Nat.eqb_refl. cbn [negb map_err].
  unfold mbind, result_bind.
  rewrite (app_assoc _ (m3_ct3 m)), drop_app_length' by hdims. by destruct m.
Qed.

End Encodings.
