(* ===== verification/HandshakeFrag.v ===== *)
(** * Correctness of handshake framing

    Theorems about the definitions of [HandshakeMsg]: fragmentation and
    reassembly of a handshake message in any order, the message codecs, the
    canonical transcript, and the dispatch between handshake fragments and data
    packets. *)

From S2P Require Import Prelude Bytes Chunks Errors Codec Replay Crypto Envelope WireSession HandshakeMsg.

Local Open Scope nat_scope.

Global Instance FragmentResult_eq_dec : EqDecision FragmentResult.
Proof. solve_decision. Defined.

(** A message of a pinned type and size, cut into [n] fragments. *)
Definition hs_message (t total : byte) (n : nat) (msg : bytes) : Prop :=
  expected_frag_count t = Some total /\ message_body_len t = Some (length msg) /\
  n = Z.to_nat (b2z total).

Lemma HS_FRAG_BODY_MAX_value : HS_FRAG_BODY_MAX = 1268.
Proof. reflexivity. Qed.

Lemma HS_FRAG_BODY_MAX_pos : 0 < HS_FRAG_BODY_MAX.
Proof. rewrite HS_FRAG_BODY_MAX_value. lia. Qed.

Lemma hs_message_bounds t total n msg :
  hs_message t total n msg ->
  1 <= n <= 5 /\ (n - 1) * HS_FRAG_BODY_MAX < length msg <= n * HS_FRAG_BODY_MAX /\
  b2z total = Z.of_nat n.
Proof.
  intros (Ht & Hl & ->).
  assert (forall a b, (a <? b)%nat = true -> a < b) as Hlt by (intros a b; apply Nat.ltb_lt).
  assert (forall a b, (a <=? b)%nat = true -> a <= b) as Hle by (intros a b; apply Nat.leb_le).
  destruct t; try discriminate Ht; injection Ht as <-; injection Hl as <-;
    (split; [split; apply Hle; reflexivity|]);
    (split; [split; [apply Hlt|apply Hle]; vm_compute; reflexivity|reflexivity]).
Qed.

Section Frag.
Variables (t total : byte) (n : nat) (msg sid : bytes).
Hypothesis Hmsg : hs_message t total n msg.
Hypothesis Hsid : length sid = SESSION_ID_LEN.

Abbreviation chunk := (chunk_of HS_FRAG_BODY_MAX msg).
Abbreviation datagram i := (fragment_datagram t PROTOCOL_VERSION sid msg total i).

(** The parsed form of fragment [i]. *)
Definition fragment_of (i : nat) : HandshakeFragment :=
  mkHandshakeFragment PROTOCOL_VERSION sid t (z2b (Z.of_nat i)) total (chunk i).

Lemma datagram_bytes i :
  as_bytes (datagram i) =
  [PROTOCOL_VERSION] ++ sid ++ [t; z2b (Z.of_nat i); total] ++ chunk i
    ++ zeros (HS_FRAG_BODY_MAX - length (chunk i)).
Proof.
  pose proof (chunk_of_le HS_FRAG_BODY_MAX msg i) as Hc.
  unfold fragment_datagram. cbn [as_bytes]. fold (chunk i).
  rewrite HS_FRAG_BODY_MAX_value in *.
  rewrite write_at_zeros_0 by hdims. do 5 (rewrite write_at_zeros by hdims).
  rewrite <- !app_assoc. cbn [app]. do 7 f_equal. hdims.
Qed.

Lemma datagram_wf i : WirePacket_wf (datagram i).
Proof.
  unfold WirePacket_wf. rewrite datagram_bytes. pose proof (chunk_of_le HS_FRAG_BODY_MAX msg i).
  rewrite HS_FRAG_BODY_MAX_value in *. hdims.
Qed.

Lemma index_byte i : i < n -> b2z (z2b (Z.of_nat i)) = Z.of_nat i.
Proof.
  intros Hi. apply b2z_z2b_small. destruct (hs_message_bounds t total n msg Hmsg). lia.
Qed.

Lemma length_chunk_min i :
  i < n -> length (chunk i) = Nat.min (length msg - i * HS_FRAG_BODY_MAX) HS_FRAG_BODY_MAX.
Proof.
  intros Hi. destruct (hs_message_bounds t total n msg Hmsg) as (Hn & Hb & _).
  unfold chunk_of. rewrite HS_FRAG_BODY_MAX_value in *. rewrite length_slice by lia. lia.
Qed.

(** Parsing a fragment datagram. *)
Lemma from_datagram_fragment i : i < n -> from_datagram (datagram i) = Ok (fragment_of i).
Proof.
  intros Hi. destruct (hs_message_bounds t total n msg Hmsg) as (Hn & Hb & Ht).
  destruct Hmsg as (Hcount & Hlen & _).
  assert (length sid = 8) as Hs by exact Hsid.
  unfold from_datagram. rewrite datagram_bytes.
  set (tail := chunk i ++ zeros (HS_FRAG_BODY_MAX - length (chunk i))).
  assert (forall b k, byte_at (9 + k) ([PROTOCOL_VERSION] ++ sid ++ b ++ tail) =
    byte_at k (b ++ tail)) as Hat.
  { intros b k. rewrite app_assoc, byte_at_app_r by len. f_equal. len. }
  change (VERSION_LEN + SESSION_ID_LEN + 1) with (9 + 1).
  change (VERSION_LEN + SESSION_ID_LEN + 2) with (9 + 2).
  change (VERSION_LEN + SESSION_ID_LEN) with (9 + 0).
  rewrite !Hat. change (byte_at 0 ([PROTOCOL_VERSION] ++ _)) with PROTOCOL_VERSION.
  change (byte_at 0 ([t; z2b (Z.of_nat i); total] ++ tail)) with t.
  change (byte_at 1 ([t; z2b (Z.of_nat i); total] ++ tail)) with (z2b (Z.of_nat i)).
  change (byte_at 2 ([t; z2b (Z.of_nat i); total] ++ tail)) with total.
  rewrite bool_decide_true by done. cbn [negb]. rewrite Hcount. cbn [ok_or].
  unfold mbind, result_bind. rewrite bool_decide_true by done. cbn [negb].
  rewrite index_byte, Ht by done.
  replace (Z.of_nat n <=? Z.of_nat i)%Z with false by lia.
  rewrite Hlen. cbn [default from_option]. unfold id.
  rewrite Nat2Z.id, <- length_chunk_min by done. unfold fragment_of. do 2 f_equal.
  - apply slice_exact; [done|]. by rewrite Hs.
  - unfold tail. rewrite (app_assoc [PROTOCOL_VERSION]), (app_assoc (_ ++ sid)).
    apply slice_exact; hdims.
Qed.

Lemma datagram_is_handshake i : is_handshake_fragment (datagram i) = true.
Proof.
  unfold is_handshake_fragment. rewrite datagram_bytes, app_assoc, byte_at_app_r by hdims.
  replace (_ - _) with 0 by hdims. change (byte_at 0 _) with t.
  destruct Hmsg as (Hcount & _). by destruct t.
Qed.

(** ** Reassembly *)

(** An assembler that received exactly the fragments of [q]. *)
Record assembling (q : gset nat) (a : FragmentAssembler) : Prop := {
  as_type : fa_hs_type a = t;
  as_total : fa_total a = total;
  as_received : flags_are 5 q (fa_received a);
  as_buffer : holds_chunks HS_FRAG_BODY_MAX msg q (fa_buffer a);
  as_open : fa_complete a = false }.

Lemma assembler_new : exists a, FragmentAssembler_new t = Some a /\ assembling ∅ a.
Proof.
  destruct Hmsg as (Hcount & Hlen & _). unfold FragmentAssembler_new. rewrite Hcount, Hlen.
  eexists. split; [reflexivity|]. split; try done.
  - apply (flags_are_empty 5).
  - cbn [fa_buffer]. split; [apply length_zeros|]. intros k _ Hk. by apply elem_of_empty in Hk.
Qed.

(** All of the first [n] flags set means every fragment arrived. *)
Lemma all_received q received :
  flags_are 5 q received -> n <= 5 ->
  forallb id (take n received) = true <-> forall i, i < n -> i ∈ q.
Proof.
  intros [Hl Hr] Hn. rewrite forallb_forall. split.
  - intros Hall i Hi. apply (bool_decide_eq_true_1 (i ∈ q)), (Hall (bool_decide (i ∈ q))).
    apply list_elem_of_In, list_elem_of_lookup. exists i.
    rewrite lookup_take_lt by done. apply Hr. lia.
  - intros Hall b Hb. apply list_elem_of_In, list_elem_of_lookup in Hb as [i Hi].
    destruct (decide (i < n)); [|by rewrite lookup_take_ge in Hi by lia].
    rewrite lookup_take_lt, Hr in Hi by lia. injection Hi as <-.
    apply bool_decide_eq_true_2. by apply Hall.
Qed.

Lemma add_fragment_dup q a i :
  assembling q a -> i < n -> i ∈ q -> add_fragment a (fragment_of i) = (FrIgnored, a).
Proof.
  intros [E1 E2 Hr Hb Ho] Hi Hin. destruct (hs_message_bounds t total n msg Hmsg) as (Hn & _ & Ht).
  unfold add_fragment, fragment_of. cbn [hf_hs_type hf_frag_total hf_frag_idx].
  rewrite Ho, E1, E2, !bool_decide_true by done. cbn [negb orb].
  rewrite index_byte, Nat2Z.id, (proj2 Hr) by (done || lia).
  rewrite bool_decide_true by done. change (default false (Some true)) with true.
  by rewrite orb_true_r.
Qed.

Lemma add_fragment_fresh q a i :
  assembling q a -> (forall j, j ∈ q -> j < n) -> i < n -> i ∉ q ->
  if S (size q) =? n
  then exists a', add_fragment a (fragment_of i) = (FrCompleted, a') /\ assembled_message a' = Some msg
  else exists a', add_fragment a (fragment_of i) = (FrAdvanced, a') /\ assembling ({[ i ]} ∪ q) a'.
Proof.
  intros [E1 E2 Hr Hb Ho] Hq Hi Hnin.
  destruct (hs_message_bounds t total n msg Hmsg) as (Hn & Hlen & Ht).
  destruct (chunk_of_range _ _ n HS_FRAG_BODY_MAX_pos Hlen i Hi) as [Hle _].
  pose proof (holds_chunks_write _ _ n HS_FRAG_BODY_MAX_pos Hlen q _ i Hi Hb) as Hb'.
  pose proof (flags_are_insert 5 q _ i ltac:(lia) Hr) as Hr'.
  assert (forall j, j ∈ ({[ i ]} ∪ q : gset nat) -> j < n) as Hq'.
  { intros j Hj. apply elem_of_add in Hj as [->|Hj]; [done|by apply Hq]. }
  unfold add_fragment, fragment_of. cbn [hf_hs_type hf_frag_total hf_frag_idx hf_body].
  rewrite Ho, E1, E2, !bool_decide_true by done. cbn [negb orb].
  rewrite index_byte, Nat2Z.id, (proj2 Hr), Ht, Nat2Z.id by (done || lia).
  rewrite bool_decide_false by done. change (default false (Some false)) with false.
  replace (n <=? i) with false by lia. cbn [orb].
  rewrite (proj1 Hb). replace (length msg <? i * HS_FRAG_BODY_MAX + length (chunk i)) with false by lia.
  pose proof (all_received _ _ Hr' ltac:(lia)) as Hall.
  destruct (Nat.eqb_spec (S (size q)) n) as [Hfull|Hpart].
  - assert (forall j, j < n -> j ∈ ({[ i ]} ∪ q : gset nat)) as Hin.
    { apply full_set; [done|]. rewrite size_add by done. lia. }
    rewrite (proj2 Hall Hin). eexists. split; [reflexivity|]. unfold assembled_message.
    cbn [fa_complete fa_buffer]. f_equal.
    by apply (holds_chunks_full _ _ n HS_FRAG_BODY_MAX_pos Hlen ({[ i ]} ∪ q)).
  - destruct (forallb id (take n _)) eqn:Ef.
    + assert (n <= size ({[ i ]} ∪ q : gset nat)) as Hs; [|rewrite size_add in Hs by done].
      { rewrite <- (size_set_seq (C := gset nat) 0 n) at 1. apply subseteq_size.
        intros j Hj%elem_of_set_seq. apply (proj1 Hall eq_refl). lia. }
      pose proof (size_below n q i Hq Hi Hnin). lia.
    + eexists. split; [reflexivity|]. by split.
Qed.

(** Feeding a sequence of fragments, given by their indices. *)
Fixpoint add_all (a : FragmentAssembler) (ixs : list nat) : list FragmentResult * FragmentAssembler :=
  match ixs with
  | [] => ([], a)
  | i :: ixs =>
      let (r, a) := add_fragment a (fragment_of i) in
      let (rs, a) := add_all a ixs in
      (r :: rs, a)
  end.

(** A fragment other than the missing [i0] is absorbed. *)
Lemma add_fragment_absorb q a i i0 :
  assembling q a -> (forall j, j ∈ q -> j < n) -> i < n -> i0 < n -> i0 ∉ q -> i <> i0 ->
  exists res a' q', add_fragment a (fragment_of i) = (res, a') /\ res <> FrCompleted /\
    assembling q' a' /\ (forall j, j ∈ q' <-> j = i \/ j ∈ q).
Proof.
  intros Ha Hq Hi Hi0 Hn0 Hne. destruct (decide (i ∈ q)) as [Hin|Hnin].
  - exists FrIgnored, a, q. rewrite (add_fragment_dup q a i Ha Hi Hin).
    split; [done|]. split; [done|]. split; [done|]. intros j. split; [by right|intros [->|?]; done].
  - pose proof (add_fragment_fresh q a i Ha Hq Hi Hnin) as Hf.
    assert (forall j, j ∈ ({[ i ]} ∪ q : gset nat) -> j < n) as Hq'.
    { intros j Hj. apply elem_of_add in Hj as [->|Hj]; [done|by apply Hq]. }
    assert (i0 ∉ ({[ i ]} ∪ q : gset nat)) as Hn' by (rewrite elem_of_add; intros [?|?]; [lia|done]).
    pose proof (size_below n _ i0 Hq' Hi0 Hn') as Hsz. rewrite size_add in Hsz by done.
    destruct (Nat.eqb_spec (S (size q)) n); [lia|]. destruct Hf as (a1 & E & Ha1).
    exists FrAdvanced, a1, ({[ i ]} ∪ q). split; [done|]. split; [done|]. split; [done|].
    intros j. apply elem_of_add.
Qed.

(** The missing fragment completes the message. *)
Lemma add_fragment_last q a i0 :
  assembling q a -> (forall j, j ∈ q -> j < n) -> i0 < n -> i0 ∉ q ->
  (forall j, j < n -> j = i0 \/ j ∈ q) ->
  exists a', add_fragment a (fragment_of i0) = (FrCompleted, a') /\ assembled_message a' = Some msg.
Proof.
  intros Ha Hq Hi0 Hn0 Hall. pose proof (add_fragment_fresh q a i0 Ha Hq Hi0 Hn0) as Hf.
  assert (S (size q) = n) as Hs.
  { pose proof (size_below n q i0 Hq Hi0 Hn0).
    assert (n <= size ({[ i0 ]} ∪ q : gset nat)) as Hs; [|rewrite size_add in Hs by done; lia].
    rewrite <- (size_set_seq (C := gset nat) 0 n) at 1. apply subseteq_size.
    intros j Hj%elem_of_set_seq. apply elem_of_add. apply Hall. lia. }
  by rewrite Hs, Nat.eqb_refl in Hf.
Qed.

Lemma add_all_assembling ixs a q i0 :
  i0 < n -> assembling q a -> (forall j, j ∈ q -> j < n) ->
  Forall (fun i => i < n) ixs -> i0 ∉ q -> i0 ∉ ixs ->
  exists q', assembling q' (add_all a ixs).2 /\ (forall j, j ∈ q' -> j < n) /\ (i0 ∉ q') /\
    (forall i, i ∈ ixs \/ i ∈ q -> i ∈ q') /\ FrCompleted ∉ (add_all a ixs).1.
Proof.
  intros Hi0. revert a q. induction ixs as [|i ixs IH]; intros a q Ha Hq His Hn0 Hn1.
  { exists q. repeat split; try apply Ha; try done; [intros i [Hi|?]; [by apply elem_of_nil in Hi|done]|].
    intros Hc. by apply elem_of_nil in Hc. }
  apply Forall_cons in His as [Hi His]. cbn [add_all].
  assert (i <> i0) as Hne by (intros ->; apply Hn1; by left).
  destruct (add_fragment_absorb q a i i0 Ha Hq Hi Hi0 Hn0 Hne) as (res & a1 & q1 & -> & Hres & Ha1 & Hq1).
  destruct (IH a1 q1 Ha1) as (q' & H1 & H2 & H3 & H4 & H5); [| done| | |].
  - intros j [->|Hj]%Hq1; [done|by apply Hq].
  - intros [->|?]%Hq1; done.
  - intros ?. apply Hn1. by right.
  - destruct (add_all a1 ixs) as [rs a']. exists q'. split; [done|]. split; [done|]. split; [done|].
    split; [|intros [<-|?]%elem_of_cons; done].
    intros j [[->|Hj]%elem_of_cons|Hj]; apply H4; rewrite ?Hq1; auto.
Qed.

Lemma assemble_any_order ixs i0 :
  i0 < n -> Forall (fun i => i < n) ixs -> i0 ∉ ixs ->
  (forall i, i < n -> i = i0 \/ i ∈ ixs) ->
  exists a, FragmentAssembler_new t = Some a /\
    (FrCompleted ∉ (add_all a ixs).1) /\
    (add_fragment (add_all a ixs).2 (fragment_of i0)).1 = FrCompleted /\
    assembled_message (add_fragment (add_all a ixs).2 (fragment_of i0)).2 = Some msg.
Proof.
  intros Hi0 His Hn0 Hall. destruct assembler_new as (a & Hnew & Ha).
  destruct (add_all_assembling ixs a ∅ i0 Hi0 Ha) as (q & H1 & H2 & H3 & H4 & H5);
    [intros j Hj; by apply elem_of_empty in Hj|done|apply not_elem_of_empty|done|].
  exists a. split; [done|]. split; [done|].
  destruct (add_fragment_last q _ i0 H1 H2 Hi0 H3) as (a' & -> & Hm); [|done].
  intros j Hj. destruct (Hall j Hj) as [->|Hj']; [by left|right; apply H4; by left].
Qed.

End Frag.

(** ** Fragmenting and reassembling a message *)

Fixpoint add_frags (a : FragmentAssembler) (l : list HandshakeFragment)
    : list FragmentResult * FragmentAssembler :=
  match l with
  | [] => ([], a)
  | f :: l =>
      let (r, a) := add_fragment a f in
      let (rs, a) := add_frags a l in
      (r :: rs, a)
  end.

Lemma add_all_frags t total msg sid ixs a :
  add_all t total msg sid a ixs = add_frags a (fragment_of t total msg sid <$> ixs).
Proof.
  revert a. induction ixs as [|i ixs IH]; intros a; [done|]. cbn [add_all fmap list_fmap add_frags].
  destruct (add_fragment a _) as [r a']. by rewrite IH.
Qed.

Lemma fragment_message_inv t v sid msg pkts :
  fragment_message t v sid msg = Ok pkts ->
  exists total n, hs_message t total n msg /\ pkts = fragment_datagram t v sid msg total <$> seq 0 n.
Proof.
  unfold fragment_message. intros H. apply bind_ok in H as (total & Ht & H).
  destruct (expected_frag_count t) as [tt|] eqn:Ec; [|done]. cbn [ok_or] in Ht. simplify_res.
  destruct (Nat.eqb_spec (length msg) (default 0 (message_body_len t))) as [El|]; [|done].
  cbn [negb] in H. simplify_res. exists total, (Z.to_nat (b2z total)). split; [|done].
  split; [done|]. split; [|done]. rewrite El. by destruct t; try discriminate Ec.
Qed.

(** The parsed form of the [i]-th datagram of a list. *)
Definition parsed (pkts : list WirePacket) (i : nat) : option HandshakeFragment :=
  pkts !! i ≫= fun p => match from_datagram p with Ok f => Some f | Err _ => None end.

Lemma parsed_fragment t total n msg sid i :
  hs_message t total n msg -> length sid = SESSION_ID_LEN -> i < n ->
  parsed (fragment_datagram t PROTOCOL_VERSION sid msg total <$> seq 0 n) i =
  Some (fragment_of t total msg sid i).
Proof.
  intros Hm Hs Hi. unfold parsed. rewrite list_lookup_fmap, lookup_seq_lt by done. simpl.
  by rewrite (from_datagram_fragment t total n) by done.
Qed.

Lemma omap_parsed t total n msg sid ixs :
  hs_message t total n msg -> length sid = SESSION_ID_LEN -> Forall (fun i => i < n) ixs ->
  omap (parsed (fragment_datagram t PROTOCOL_VERSION sid msg total <$> seq 0 n)) ixs =
  fragment_of t total msg sid <$> ixs.
Proof.
  intros Hm Hs. induction 1 as [|i ixs Hi _ IH]; [done|].
  rewrite (omap_cons_Some _ _ _ _ (parsed_fragment t total n msg sid i Hm Hs Hi)), IH. done.
Qed.

(** ** Dispatch between handshake fragments and data packets *)

Lemma data_packet_byte9 sid c ct :
  length sid = SESSION_ID_LEN ->
  byte_at 9 (PacketHeader_encode (PacketHeader_new sid c) ++ ct) = z2b (Z.shiftr c 56).
Proof.
  intros Hs. rewrite PacketHeader_encode_app by done. cbn [ph_version ph_session_id ph_packet_nonce PacketHeader_new].
  rewrite <- app_assoc, <- app_assoc, app_assoc, byte_at_app_r by hdims.
  by replace (_ - _) with 0 by hdims.
Qed.

Lemma low_byte_not_handshake b :
  (b2z b < 16)%Z -> match b with x10 | x20 | x30 => true | _ => false end = false.
Proof. intros Hb. destruct b; try done; exfalso; revert Hb; vm_compute; done. Qed.

Lemma data_packet_not_handshake sid c ct :
  length sid = SESSION_ID_LEN -> (0 <= c < 2 ^ 60)%Z ->
  is_handshake_fragment
    (mkWirePacket (PacketHeader_encode (PacketHeader_new sid c) ++ ct)) = false.
Proof.
  intros Hs Hc. unfold is_handshake_fragment. cbn [as_bytes].
  change (VERSION_LEN + SESSION_ID_LEN) with 9. rewrite data_packet_byte9 by done.
  apply low_byte_not_handshake. rewrite b2z_z2b, Z.shiftr_div_pow2 by lia.
  assert (0 <= c / 2 ^ 56 < 16)%Z as Hr.
  { split; [apply Z.div_pos; lia|apply Z.div_lt_upper_bound; lia]. }
  rewrite Z.mod_small; lia.
Qed.

(** ** Correctness of the framing *)

(** C16: Handshake framing round-trips: the datagrams [fragment_message] produces
    parse back, and feeding the parsed fragments to a fresh assembler in any
    order and with any duplicates completes exactly when the last missing
    fragment arrives, with exactly the original message. *)
Theorem handshake_fragments_roundtrip t sid msg pkts ixs i0 :
  fragment_message t PROTOCOL_VERSION sid msg = Ok pkts ->
  length sid = SESSION_ID_LEN ->
  i0 < length pkts -> Forall (fun i => i < length pkts) ixs -> i0 ∉ ixs ->
  (forall i, i < length pkts -> i = i0 \/ i ∈ ixs) ->
  exists a f, FragmentAssembler_new t = Some a /\ parsed pkts i0 = Some f /\
    let run := add_frags a (omap (parsed pkts) ixs) in
    (FrCompleted ∉ run.1) /\ (add_fragment run.2 f).1 = FrCompleted /\
    assembled_message (add_fragment run.2 f).2 = Some msg.
Proof.
  intros Hf Hs Hi0 His Hn0 Hall.
  apply fragment_message_inv in Hf as (total & n & Hm & ->).
  rewrite length_fmap, length_seq in *.
  destruct (assemble_any_order t total n msg sid Hm Hs ixs i0 Hi0 His Hn0 Hall)
    as (a & Hnew & H1 & H2 & H3).
  exists a, (fragment_of t total msg sid i0). split; [done|]. split; [by apply parsed_fragment|].
  rewrite (omap_parsed t total n) by done. rewrite add_all_frags in *. done.
Qed.

Lemma handshake_fragments_roundtrip_witness :
  exists a f, FragmentAssembler_new x10 = Some a /\
    let pkts := fragment_datagram x10 PROTOCOL_VERSION (zeros 8) (replicate M1_BODY_LEN x11) x04 <$> seq 0 4 in
    parsed pkts 2 = Some f /\
    (add_fragment (add_frags a (omap (parsed pkts) [3; 0; 0; 1])).2 f).1 = FrCompleted.
Proof.
  destruct (handshake_fragments_roundtrip x10 (zeros 8) (replicate M1_BODY_LEN x11)
    (fragment_datagram x10 PROTOCOL_VERSION (zeros 8) (replicate M1_BODY_LEN x11) x04 <$> seq 0 4)
    [3; 0; 0; 1] 2) as (a & f & H1 & H2 & _ & H3 & _).
  - vm_compute. reflexivity.
  - reflexivity.
  - rewrite length_fmap. cbn. lia.
  - rewrite length_fmap, length_seq. repeat constructor.
  - apply (bool_decide_unpack _). vm_compute. exact I.
  - rewrite length_fmap, length_seq. intros i Hi.
    destruct i as [|[|[|[|i]]]]; [right; apply (bool_decide_unpack _); vm_compute; exact I..
      |by left|right; apply (bool_decide_unpack _); vm_compute; exact I|lia].
  - exists a, f. split; [exact H1|]. split; [exact H2|exact H3].
Defined.

(** The three handshake messages round-trip through their codecs: a message with
    the current version and fields of the wire sizes decodes from its encoding to
    itself, keys, ciphertexts, signatures and MAC included. *)
Theorem handshake_messages_roundtrip {P : Primitives} {L : PrimitivesLaws P} m1 m2 m3 :
  (m1_version m1 = PROTOCOL_VERSION -> length (m1_sid m1) = SESSION_ID_LEN ->
   length (m1_x_c m1) = X25519_PUBLIC_KEY_BYTES -> ClientHello_decode (ClientHello_encode m1) = Ok m1) /\
  (m2_version m2 = PROTOCOL_VERSION -> length (m2_sid m2) = SESSION_ID_LEN ->
   length (m2_x_s m2) = X25519_PUBLIC_KEY_BYTES -> length (m2_ct2 m2) = ML_KEM_768_CIPHERTEXT_BYTES ->
   ServerHello_decode (ServerHello_encode m2) = Ok m2) /\
  (m3_version m3 = PROTOCOL_VERSION -> length (m3_sid m3) = SESSION_ID_LEN ->
   length (m3_ct3 m3) = ML_KEM_768_CIPHERTEXT_BYTES ->
   length (m3_client_finished m3) = FINISHED_MAC_LEN ->
   ClientConfirm_decode (ClientConfirm_encode m3) = Ok m3).
Proof.
  split; [apply ClientHello_roundtrip|]. split; [apply ServerHello_roundtrip|].
  apply ClientConfirm_roundtrip.
Qed.

Lemma handshake_messages_roundtrip_witness :
  let m1 := mkClientHello PROTOCOL_VERSION (zeros 8) x05 (zeros 32) (x01, x02) in
  ClientHello_decode (ClientHello_encode m1) = Ok m1.
Proof.
  intros m1.
  apply (handshake_messages_roundtrip m1
    (mkServerHello (P := Toy.toy_primitives) PROTOCOL_VERSION (zeros 8) x05 (zeros 32) (zeros 1088) (x01, x02))
    (mkClientConfirm PROTOCOL_VERSION (zeros 8) (zeros 1088) (zeros 16))); reflexivity.
Defined.

(** Dispatch: a data packet a session emits with a counter below 2^60 is never
    classified as a handshake fragment. *)
Theorem data_packet_dispatch {P : Primitives} {L : PrimitivesLaws P} s ty payload p s' :
  CipherSession_wf s -> (send_counter s < 2 ^ 60)%Z ->
  encrypt s ty payload = (Ok p, s') -> is_handshake_fragment p = false.
Proof.
  intros Hwf Hc He.
  assert (length payload = PAYLOAD_LEN) as Hp.
  { destruct (decide (length payload = PAYLOAD_LEN)) as [|Hn]; [done|].
    pose proof (encrypt_refused s ty payload (or_introl Hn)) as Hr. by rewrite He in Hr. }
  assert (send_counter s < MAX_PACKET_NONCE)%Z as Hm by (unfold MAX_PACKET_NONCE, umax; lia).
  destruct (encrypt_ok s ty payload Hwf Hp Hm) as (ct & E & _).
  rewrite He in E. assert (Ep := f_equal fst E). cbn [fst] in Ep.
  assert (forall x y : WirePacket, @Ok CodecError _ x = Ok y -> x = y) as Hinj by (intros x y; congruence).
  rewrite (Hinj _ _ Ep). destruct Hwf as (Hs & _ & _ & _ & _ & Hr).
  apply data_packet_not_handshake; [done|lia].
Qed.

Lemma data_packet_dispatch_witness : exists p,
  (encrypt (sample_end Client) Data (sample_payload x05)).1 = Ok p /\ is_handshake_fragment p = false.
Proof.
  eexists. split; [vm_compute; reflexivity|].
  eapply (data_packet_dispatch (sample_end Client) Data (sample_payload x05));
    [apply sample_end_wf|vm_compute; reflexivity|vm_compute; reflexivity].
Defined.

(** The dispatch rule has an alias: the header of a data packet whose counter
    is 0x1000040000000000 (below the rotation threshold) is a structurally valid
    fragment 0 of a ClientHello, whatever the session and the ciphertext. *)
Theorem data_packet_alias sid ct :
  length sid = SESSION_ID_LEN ->
  let c := 0x1000040000000000%Z in
  let p := mkWirePacket (PacketHeader_encode (PacketHeader_new sid c) ++ ct) in
  is_counter_exhausted c = false /\ is_handshake_fragment p = true /\
  exists f, from_datagram p = Ok f /\ hf_hs_type f = HS_TYPE_CLIENT_HELLO /\ hf_frag_idx f = x00.
Proof.
  intros Hs c p. split; [reflexivity|]. subst p.
  rewrite PacketHeader_encode_app by done.
  cbn [ph_version ph_session_id ph_packet_nonce PacketHeader_new].
  do 8 (destruct sid as [|? sid]; [discriminate|]). destruct sid; [|discriminate].
  split; [reflexivity|]. eexists. split; [reflexivity|]. by split.
Qed.

Lemma data_packet_alias_witness :
  is_handshake_fragment
    (mkWirePacket (PacketHeader_encode (PacketHeader_new (zeros 8) 0x1000040000000000) ++ zeros 1263)) = true.
Proof. apply (data_packet_alias (zeros 8) (zeros 1263) eq_refl). Defined.
