(* ===== verification/HandshakeClient.v ===== *)
(** * Client handshake machine

    [pq-tunnel-core/src/handshake_v2.rs], [ClientConfig] to
    [client_handshake_v2]. A method of the machine is a computation of the
    monad of [Exec] over [ClientHandshake]; random draws are arguments. The
    driver is run over the list of things its [select!] loop can observe. *)

From S2P Require Import Prelude Bytes Errors Codec Replay Crypto Envelope WireSession Exec Net HandshakeMsg.

Local Open Scope Z_scope.

Section Client.
Context {P : Primitives}.

Record ClientConfig := mkClientConfig {
  cc_version : byte;
  cc_server_addr : SocketAddr;
  cc_identity : MlDsaKeypair;
  cc_server_identity : VerifyingKey;
  cc_m1_retransmit_base : Duration;
  cc_m1_max_attempts : Z;
  cc_m3_max_attempts : Z }.

Definition ClientConfig_new (server_addr : SocketAddr) (identity : MlDsaKeypair)
    (server_identity : VerifyingKey) : ClientConfig :=
  {| cc_version := PROTOCOL_VERSION;
     cc_server_addr := server_addr;
     cc_identity := identity;
     cc_server_identity := server_identity;
     cc_m1_retransmit_base := from_millis 250;
     cc_m1_max_attempts := 8;
     cc_m3_max_attempts := 4 |}.

Inductive ClientEvent :=
| CE_Emit (packets : list WirePacket)
| CE_M3Sent (packets : list WirePacket) (outcome : HandshakeOutcome)
| CE_None.

Inductive ClientState :=
| AwaitM2 (assembler : FragmentAssembler) (attempts : Z) (next_delay : Duration)
| M3Sent (m3_frags : list WirePacket) (attempts : Z) (next_delay : Duration)
    (outcome : HandshakeOutcome).

Record ClientHandshake := mkClientHandshake {
  ch_cfg : ClientConfig;
  ch_sid : bytes;
  ch_kp_mlkem : MlKemKeypair;
  ch_kp_x : X25519Keypair;
  ch_m1 : ClientHello;
  ch_m1_frags : list WirePacket;
  ch_state : ClientState }.

Definition ch_set_state (st : ClientState) (h : ClientHandshake) : ClientHandshake :=
  mkClientHandshake (ch_cfg h) (ch_sid h) (ch_kp_mlkem h) (ch_kp_x h) (ch_m1 h) (ch_m1_frags h) st.

(** The constructor runs with no state of its own. *)
Definition ClientHandshake_new (cfg : ClientConfig) (sid : bytes)
    (rand_kem rand_x : bytes) (rand_jitter : Z) : M () HandshakeV2Error ClientHandshake :=
  try id (validate_version (cc_version cfg));;
  kp_mlkem ← try HS_Crypto (MlKemKeypair_generate rand_kem);
  let kp_x := X25519Keypair_generate rand_x in
  let x_c := x_public kp_x in
  let pre_sign := encode_m1 (cc_version cfg) sid (kem_public kp_mlkem) x_c None in
  th1_d ← expect "fixed-length M1" (th1_from_m1 pre_sign);
  client_sig ← try HS_Crypto (MlDsaKeypair_sign (cc_identity cfg) th1_d);
  let m1 := mkClientHello (cc_version cfg) sid (kem_public kp_mlkem) x_c client_sig in
  m1_frags ← try HS_Codec
    (fragment_message HS_TYPE_CLIENT_HELLO (cc_version cfg) sid (ClientHello_encode m1));
  assembler ← expect "known hs_type (M2 assembler)" (FragmentAssembler_new HS_TYPE_SERVER_HELLO);
  mret (mkClientHandshake cfg sid kp_mlkem kp_x m1 m1_frags
          (AwaitM2 assembler 0 (jittered (cc_m1_retransmit_base cfg) rand_jitter))).

Definition m3_frags_of (h : ClientHandshake) : list WirePacket :=
  match ch_state h with M3Sent m3_frags _ _ _ => m3_frags | AwaitM2 _ _ _ => [] end.

Definition client_outcome (h : ClientHandshake) : option HandshakeOutcome :=
  match ch_state h with M3Sent _ _ _ outcome => Some outcome | AwaitM2 _ _ _ => None end.

Definition client_next_delay (h : ClientHandshake) : Duration :=
  match ch_state h with M3Sent _ _ d _ => d | AwaitM2 _ _ d => d end.

Definition reset_m2_assembler : M ClientHandshake HandshakeV2Error () :=
  h ← get;
  match ch_state h with
  | AwaitM2 _ attempts next_delay =>
      assembler ← expect "known hs_type (M2 assembler)" (FragmentAssembler_new HS_TYPE_SERVER_HELLO);
      modify (ch_set_state (AwaitM2 assembler attempts next_delay))
  | M3Sent _ _ _ _ => mret ()
  end.

(** [rand_encap] and [rand_jitter] are the draws of [encapsulate] and [jittered]. *)
Definition on_complete_m2 (rand_encap : bytes) (rand_jitter : Z) (m2_bytes : bytes)
    : M ClientHandshake HandshakeV2Error ClientEvent :=
  h ← get;
  let cfg := ch_cfg h in
  match ServerHello_decode m2_bytes with
  | Err _ => reset_m2_assembler;; mret CE_None
  | Ok m2 =>
      if negb (bool_decide (m2_sid m2 = ch_sid h))
         || negb (bool_decide (m2_version m2 = cc_version cfg))
      then reset_m2_assembler;; mret CE_None
      else
        th2_d ← expect "fixed lengths" (th2_from_m1_m2 (ClientHello_encode (ch_m1 h)) m2_bytes);
        ok ← try HS_Crypto (dsa_verify_msg (cc_server_identity cfg) th2_d (m2_server_sig m2));
        if negb ok then reset_m2_assembler;; mret CE_None
        else
          ss_a ← try HS_Crypto (decapsulate (kem_secret (ch_kp_mlkem h)) (m2_ct2 m2));
          ss_b_ct3 ← try HS_Crypto (encapsulate (m2_eph_pk_s m2) rand_encap);
          let '(ss_b, ct3) := (ss_b_ct3 : bytes * bytes) in
          match diffie_hellman (ch_kp_x h) (m2_x_s m2) with
          | None => reset_m2_assembler;; mret CE_None
          | Some dh_cs =>
              let m3_z := encode_m3 (cc_version cfg) (ch_sid h) ct3 None in
              th3_d ← expect "fixed message lengths"
                (th3_from_m1_m2_m3 (ClientHello_encode (ch_m1 h)) m2_bytes m3_z);
              master ← try id
                (derive_master ss_a ss_b dh_cs (cc_version cfg) (ch_sid h) th3_d);
              finished_key ← try HS_Crypto
                (derive_finished_key master (cc_version cfg) (ch_sid h));
              let finished := compute_client_finished finished_key th3_d in
              let m3 := mkClientConfirm (cc_version cfg) (ch_sid h) ct3 finished in
              m3_frags ← try HS_Codec
                (fragment_message HS_TYPE_CLIENT_CONFIRM (cc_version cfg) (ch_sid h)
                   (ClientConfirm_encode m3));
              let outcome := mkHandshakeOutcome master (ch_sid h) (cc_server_identity cfg) 0 in
              modify (ch_set_state
                (M3Sent m3_frags 0 (jittered (cc_m1_retransmit_base cfg) rand_jitter) outcome));;
              mret (CE_M3Sent m3_frags outcome)
          end
  end.

Definition client_handle_datagram (rand_encap : bytes) (rand_jitter : Z) (pkt : WirePacket)
    : M ClientHandshake HandshakeV2Error ClientEvent :=
  h ← get;
  if negb (bool_decide (byte_at (VERSION_LEN + SESSION_ID_LEN) (as_bytes pkt)
                        = HS_TYPE_SERVER_HELLO))
  then mret CE_None
  else
    match from_datagram pkt with
    | Err _ => mret CE_None
    | Ok frag =>
        if negb (bool_decide (hf_sid frag = ch_sid h)) then mret CE_None
        else
          match ch_state h with
          | AwaitM2 assembler attempts next_delay =>
              let '(r, assembler') := add_fragment assembler frag in
              modify (ch_set_state (AwaitM2 assembler' attempts next_delay));;
              match r with
              | FrCompleted =>
                  m2_bytes ← expect "complete" (assembled_message assembler');
                  on_complete_m2 rand_encap rand_jitter m2_bytes
              | _ => mret CE_None
              end
          | M3Sent _ _ _ _ => mret CE_None
          end
    end.

Definition client_on_timer (rand_jitter : Z) : M ClientHandshake HandshakeV2Error ClientEvent :=
  h ← get;
  let cfg := ch_cfg h in
  match ch_state h with
  | AwaitM2 assembler attempts _ =>
      if cc_m1_max_attempts cfg <=? attempts then try id (Err HS_Timeout)
      else
        let attempts := attempts + 1 in
        let next_delay := backoff_delay (cc_m1_retransmit_base cfg) attempts rand_jitter in
        modify (ch_set_state (AwaitM2 assembler attempts next_delay));;
        mret (CE_Emit (ch_m1_frags h))
  | M3Sent m3_frags attempts _ outcome =>
      if cc_m3_max_attempts cfg <=? attempts then try id (Err HS_Timeout)
      else
        let attempts := attempts + 1 in
        let next_delay := backoff_delay (cc_m1_retransmit_base cfg) attempts rand_jitter in
        modify (ch_set_state (M3Sent m3_frags attempts next_delay outcome));;
        mret (CE_Emit m3_frags)
  end.

(** ** The driver

    One turn of the [select!] loop: the draws a handler may make, the elapsed
    time it would read, and which arm fired. [send] is the outcome of the
    [k]-th transmission. The run is the list of packets handed to the transport
    and the value returned, [None] while the loop is still waiting. *)

Inductive DriverInput :=
| DI_Recv (r : result HandshakeV2Error (WirePacket * SocketAddr))
| DI_Timer.

Record DriverTurn := mkDriverTurn {
  dt_input : DriverInput;
  dt_rand_encap : bytes;
  dt_rand_jitter : Z;
  dt_elapsed : Duration }.

Definition SendLog : Type := list (WirePacket * SocketAddr).

Fixpoint send_all (send : nat -> result HandshakeV2Error ()) (peer : SocketAddr)
    (frags : list WirePacket) (sent : SendLog) : result HandshakeV2Error () * SendLog :=
  match frags with
  | [] => (Ok (), sent)
  | f :: frags =>
      match send (length sent) with
      | Err e => (Err e, sent)
      | Ok _ => send_all send peer frags (sent ++ [(f, peer)])
      end
  end.

Definition with_duration (o : HandshakeOutcome) (d : Duration) : HandshakeOutcome :=
  mkHandshakeOutcome (ho_master o) (ho_session_id o) (ho_peer_identity o) d.

(** The [match] on a handler's event: [inl] ends the driver, [inr] goes on. *)
Definition client_dispatch (send : nat -> result HandshakeV2Error ()) (cfg : ClientConfig)
    (elapsed : Duration) (r : exec HandshakeV2Error ClientEvent) (sent : SendLog)
    : (exec HandshakeV2Error HandshakeOutcome + ()) * SendLog :=
  match r with
  | Fail e => (inl (Fail e), sent)
  | Panic p => (inl (Panic p), sent)
  | Ret CE_None => (inr (), sent)
  | Ret (CE_Emit frags) =>
      match send_all send (cc_server_addr cfg) frags sent with
      | (Ok _, sent) => (inr (), sent)
      | (Err e, sent) => (inl (Fail e), sent)
      end
  | Ret (CE_M3Sent packets outcome) =>
      match send_all send (cc_server_addr cfg) packets sent with
      | (Ok _, sent) => (inl (Ret (with_duration outcome elapsed)), sent)
      | (Err e, sent) => (inl (Fail e), sent)
      end
  end.

Fixpoint client_loop (send : nat -> result HandshakeV2Error ()) (cfg : ClientConfig)
    (turns : list DriverTurn) (h : ClientHandshake) (sent : SendLog)
    : option (exec HandshakeV2Error HandshakeOutcome) * SendLog :=
  match turns with
  | [] => (None, sent)
  | turn :: turns =>
      match dt_input turn with
      | DI_Recv (Err HS_DatagramRejected) => client_loop send cfg turns h sent
      | DI_Recv (Err e) => (Some (Fail e), sent)
      | DI_Recv (Ok (pkt, _)) =>
          let '(r, h) := client_handle_datagram (dt_rand_encap turn) (dt_rand_jitter turn) pkt h in
          match client_dispatch send cfg (dt_elapsed turn) r sent with
          | (inl res, sent) => (Some res, sent)
          | (inr _, sent) => client_loop send cfg turns h sent
          end
      | DI_Timer =>
          let '(r, h) := client_on_timer (dt_rand_jitter turn) h in
          match client_dispatch send cfg (dt_elapsed turn) r sent with
          | (inl res, sent) => (Some res, sent)
          | (inr _, sent) => client_loop send cfg turns h sent
          end
      end
  end.

Definition client_handshake_v2 (send : nat -> result HandshakeV2Error ()) (cfg : ClientConfig)
    (fill : result string bytes) (rand_kem rand_x : bytes) (rand_jitter : Z)
    (turns : list DriverTurn) : option (exec HandshakeV2Error HandshakeOutcome) * SendLog :=
  match validate_version (cc_version cfg) with
  | Err e => (Some (Fail e), [])
  | Ok _ =>
      match random_sid fill with
      | Err e => (Some (Fail e), [])
      | Ok sid =>
          match (ClientHandshake_new cfg sid rand_kem rand_x rand_jitter ()).1 with
          | Fail e => (Some (Fail e), [])
          | Panic p => (Some (Panic p), [])
          | Ret h =>
              match send_all send (cc_server_addr cfg) (ch_m1_frags h) [] with
              | (Err e, sent) => (Some (Fail e), sent)
              | (Ok _, sent) => client_loop send cfg turns h sent
              end
          end
      end
  end.

End Client.
