(* ===== verification/HandshakeServer.v ===== *)
(** * Server handshake machine

    [pq-tunnel-core/src/handshake_v2.rs], [ServerConfig] to
    [server_handshake_v2]: the table of pending handshakes, the per-source rate
    table, the two fragment handlers, roster replacement and the driver.

    A datagram handler reads the clock and draws randomness several times; the
    readings and draws of one call are the record [Draws]. *)

From S2P Require Import Prelude Bytes Errors Codec Replay Crypto Envelope WireSession Exec Net HandshakeMsg HandshakeClient.
From stdpp Require Import pretty.

Local Open Scope Z_scope.

Definition MAX_RATE_BUCKETS : Z := 4096.

Record RateBucket := mkRateBucket { rb_tokens : Z; rb_last_refill : Instant }.

Inductive PendingState := AwaitM1 | AwaitM3.

Global Instance PendingState_eq_dec : EqDecision PendingState.
Proof. solve_decision. Defined.

(** Clock readings of a call, in source order, and its random draws. *)
Record Draws := mkDraws {
  now_evict : Instant;
  now_rate : Instant;
  now_seen : Instant;
  now_done : Instant;
  draw_kem : bytes;
  draw_x : bytes;
  draw_encap : bytes }.

Section Server.
Context {P : Primitives}.

Record ServerConfig := mkServerConfig {
  sc_version : byte;
  sc_identity : MlDsaKeypair;
  sc_roster : list VerifyingKey;
  sc_max_roster_size : nat;
  sc_max_pending : nat;
  sc_pending_ttl : Duration;
  sc_rate_limit_burst : Z;
  sc_rate_limit_window : Duration }.

Definition sc_with_roster (c : ServerConfig) (roster : list VerifyingKey) : ServerConfig :=
  mkServerConfig (sc_version c) (sc_identity c) roster (sc_max_roster_size c) (sc_max_pending c)
    (sc_pending_ttl c) (sc_rate_limit_burst c) (sc_rate_limit_window c).

Definition DEFAULT_MAX_ROSTER_SIZE : nat := 64.

Definition with_roster_limit (identity : MlDsaKeypair) (roster : list VerifyingKey)
    (max_roster_size : nat) : ServerConfig :=
  let cfg := {| sc_version := PROTOCOL_VERSION;
                sc_identity := identity;
                sc_roster := [];
                sc_max_roster_size := max_roster_size;
                sc_max_pending := 64;
                sc_pending_ttl := from_secs 30;
                sc_rate_limit_burst := 16;
                sc_rate_limit_window := from_secs 10 |} in
  if (length roster <=? max_roster_size)%nat then sc_with_roster cfg roster else cfg.

Definition ServerConfig_new (identity : MlDsaKeypair) (roster : list VerifyingKey) : ServerConfig :=
  with_roster_limit identity roster DEFAULT_MAX_ROSTER_SIZE.

Definition roster_too_large (got max : nat) : HandshakeV2Error :=
  HS_InvalidConfig ("roster of " +:+ pretty got +:+ " keys exceeds the configured maximum of "
                    +:+ pretty max).

Definition roster_empty : HandshakeV2Error :=
  HS_InvalidConfig "roster must not be empty (fail closed)".

Definition ServerConfig_validate (c : ServerConfig) : result HandshakeV2Error () :=
  if negb (bool_decide (sc_version c = PROTOCOL_VERSION)) then
    Err (HS_InvalidConfig ("version " +:+ pretty (Byte.to_N (sc_version c)) +:+
                           " unsupported (expected " +:+ pretty (Byte.to_N PROTOCOL_VERSION)
                           +:+ ")"))
  else if bool_decide (sc_roster c = []) then Err roster_empty
  else if (sc_max_roster_size c <? length (sc_roster c))%nat then
    Err (roster_too_large (length (sc_roster c)) (sc_max_roster_size c))
  else Ok ().

Inductive ServerEvent :=
| SrvEmit (packets : list WirePacket) (peer : SocketAddr)
| SrvComplete (outcome : HandshakeOutcome)
| SrvNone.

Record PendingSession := mkPendingSession {
  ps_source : SocketAddr;
  ps_state : PendingState;
  ps_assembler : option FragmentAssembler;
  ps_m1_body : option bytes;
  ps_m2_cache : option bytes;
  ps_last_seen : Instant;
  ps_started : Instant;
  ps_ss_a : bytes;
  ps_dh_cs : bytes;
  ps_sk_s : option DecapsulationKey;
  ps_verified_client : option VerifyingKey }.

Definition PendingSession_new (source : SocketAddr) (now : Instant)
    (assembler : FragmentAssembler) : PendingSession :=
  {| ps_source := source; ps_state := AwaitM1; ps_assembler := Some assembler;
     ps_m1_body := None; ps_m2_cache := None; ps_last_seen := now; ps_started := now;
     ps_ss_a := zeros 32; ps_dh_cs := zeros 32; ps_sk_s := None; ps_verified_client := None |}.

Definition ps_with_assembler (a : FragmentAssembler) (e : PendingSession) : PendingSession :=
  mkPendingSession (ps_source e) (ps_state e) (Some a) (ps_m1_body e) (ps_m2_cache e)
    (ps_last_seen e) (ps_started e) (ps_ss_a e) (ps_dh_cs e) (ps_sk_s e) (ps_verified_client e).

Definition ps_with_last_seen (now : Instant) (e : PendingSession) : PendingSession :=
  mkPendingSession (ps_source e) (ps_state e) (ps_assembler e) (ps_m1_body e) (ps_m2_cache e)
    now (ps_started e) (ps_ss_a e) (ps_dh_cs e) (ps_sk_s e) (ps_verified_client e).

Record ServerHandshake := mkServerHandshake {
  sh_cfg : ServerConfig;
  sh_pending : gmap bytes PendingSession;
  sh_rate_buckets : gmap SocketAddr RateBucket;
  sh_rate_order : list SocketAddr;
  sh_last_rate_prune : Instant }.

Definition sh_with_cfg (cfg : ServerConfig) (h : ServerHandshake) : ServerHandshake :=
  mkServerHandshake cfg (sh_pending h) (sh_rate_buckets h) (sh_rate_order h)
    (sh_last_rate_prune h).

Definition sh_map_pending (f : gmap bytes PendingSession -> gmap bytes PendingSession)
    (h : ServerHandshake) : ServerHandshake :=
  mkServerHandshake (sh_cfg h) (f (sh_pending h)) (sh_rate_buckets h) (sh_rate_order h)
    (sh_last_rate_prune h).

Definition sh_with_rate (buckets : gmap SocketAddr RateBucket) (order : list SocketAddr)
    (prune : Instant) (h : ServerHandshake) : ServerHandshake :=
  mkServerHandshake (sh_cfg h) (sh_pending h) buckets order prune.

Definition ServerHandshake_new (cfg : ServerConfig) (now : Instant) : ServerHandshake :=
  let cfg := if (sc_max_roster_size cfg <? length (sc_roster cfg))%nat
             then sc_with_roster cfg [] else cfg in
  mkServerHandshake cfg ∅ ∅ [] now.

Definition pending_len (h : ServerHandshake) : nat := size (sh_pending h).
Definition roster_len (h : ServerHandshake) : nat := length (sc_roster (sh_cfg h)).

Definition set_roster (roster : list VerifyingKey) : M ServerHandshake HandshakeV2Error () :=
  h ← get;
  if bool_decide (roster = []) then try id (Err roster_empty)
  else if (sc_max_roster_size (sh_cfg h) <? length roster)%nat then
    try id (Err (roster_too_large (length roster) (sc_max_roster_size (sh_cfg h))))
  else modify (sh_with_cfg (sc_with_roster (sh_cfg h) roster)).

Definition roster_contains (h : ServerHandshake) (pk : VerifyingKey) : bool :=
  existsb (fun k => bool_decide (MlDsaPublicKey_encode k = MlDsaPublicKey_encode pk))
    (sc_roster (sh_cfg h)).

Definition evict_expired (now : Instant) (h : ServerHandshake) : ServerHandshake :=
  sh_map_pending
    (filter (fun kv => duration_since now (ps_last_seen kv.2) < sc_pending_ttl (sh_cfg h))) h.

(** The window prune of [rate_ok]. *)
Definition rate_prune (now : Instant) (h : ServerHandshake) : ServerHandshake :=
  let window := sc_rate_limit_window (sh_cfg h) in
  if (32 <? Z.of_nat (size (sh_rate_buckets h)))
     && ((window <=? duration_since now (sh_last_rate_prune h))
         || (duration_since now (sh_last_rate_prune h) <? 1))
  then
    let buckets :=
      filter (fun kv => duration_since now (rb_last_refill kv.2) < window) (sh_rate_buckets h) in
    sh_with_rate buckets (filter (fun k => is_Some (buckets !! k)) (sh_rate_order h)) now h
  else h.

Definition rate_ok (from : SocketAddr) (now : Instant) (h : ServerHandshake)
    : bool * ServerHandshake :=
  let h := rate_prune now h in
  let cfg := sh_cfg h in
  match sh_rate_buckets h !! from with
  | Some bucket =>
      let bucket :=
        if sc_rate_limit_window cfg <=? duration_since now (rb_last_refill bucket)
        then mkRateBucket (sc_rate_limit_burst cfg) now else bucket in
      if rb_tokens bucket =? 0 then
        (false, sh_with_rate (<[from := bucket]> (sh_rate_buckets h)) (sh_rate_order h)
                  (sh_last_rate_prune h) h)
      else
        (true, sh_with_rate
                 (<[from := mkRateBucket (rb_tokens bucket - 1) (rb_last_refill bucket)]>
                    (sh_rate_buckets h)) (sh_rate_order h) (sh_last_rate_prune h) h)
  | None =>
      let '(order, buckets) := evict_to MAX_RATE_BUCKETS (sh_rate_order h) (sh_rate_buckets h) in
      let tokens := sc_rate_limit_burst cfg in
      let allowed := 0 <? tokens in
      let tokens := if 0 <? tokens then tokens - 1 else tokens in
      (allowed, sh_with_rate (<[from := mkRateBucket tokens now]> buckets) (order ++ [from])
                  (sh_last_rate_prune h) h)
  end.

(** The roster loop: every key is tried, the last match is kept. *)
Fixpoint verify_roster (roster : list VerifyingKey) (th1_d : bytes) (sig : DsaSig)
    (authed : bool) (matched : option VerifyingKey)
    : result CryptoError (bool * option VerifyingKey) :=
  match roster with
  | [] => Ok (authed, matched)
  | pk :: roster =>
      ok ← dsa_verify_msg pk th1_d sig;
      verify_roster roster th1_d sig (authed || ok) (if (ok : bool) then Some pk else matched)
  end.

Definition remove_pending (sid : bytes) : M ServerHandshake HandshakeV2Error () :=
  modify (sh_map_pending (delete sid)).

Definition complete_m1 (d : Draws) (sid m1_bytes : bytes) (from : SocketAddr)
    : M ServerHandshake HandshakeV2Error ServerEvent :=
  h ← get;
  let cfg := sh_cfg h in
  match ClientHello_decode m1_bytes with
  | Err _ => remove_pending sid;; mret SrvNone
  | Ok m1 =>
      if negb (bool_decide (m1_version m1 = sc_version cfg))
         || negb (bool_decide (m1_sid m1 = sid))
      then remove_pending sid;; mret SrvNone
      else
        th1_d ← expect "fixed-length M1" (th1_from_m1 m1_bytes);
        am ← try HS_Crypto
          (verify_roster (sc_roster cfg) th1_d (m1_client_sig m1) false None);
        let '(authed, matched) := (am : bool * option VerifyingKey) in
        if negb authed then remove_pending sid;; mret SrvNone
        else
          ml_kp ← try HS_Crypto (MlKemKeypair_generate (draw_kem d));
          let x_kp := X25519Keypair_generate (draw_x d) in
          let x_s := x_public x_kp in
          ss_ct ← try HS_Crypto (encapsulate (m1_eph_pk_c m1) (draw_encap d));
          let '(ss_a, ct2) := (ss_ct : bytes * bytes) in
          match diffie_hellman x_kp (m1_x_c m1) with
          | None => remove_pending sid;; mret SrvNone
          | Some dh_cs =>
              let m2_z := encode_m2 (sc_version cfg) sid (kem_public ml_kp) x_s ct2 None in
              th2_d ← expect "fixed lengths" (th2_from_m1_m2 m1_bytes m2_z);
              server_sig ← try HS_Crypto (MlDsaKeypair_sign (sc_identity cfg) th2_d);
              let m2 := mkServerHello (sc_version cfg) sid (kem_public ml_kp) x_s ct2 server_sig in
              let m2_bytes := ServerHello_encode m2 in
              frags ← try HS_Codec
                (fragment_message HS_TYPE_SERVER_HELLO (sc_version cfg) sid m2_bytes);
              entry ← expect "entry exists" (sh_pending h !! sid);
              modify (sh_map_pending (<[sid :=
                {| ps_source := ps_source entry; ps_state := AwaitM3; ps_assembler := None;
                   ps_m1_body := Some m1_bytes; ps_m2_cache := Some m2_bytes;
                   ps_last_seen := now_seen d; ps_started := ps_started entry;
                   ps_ss_a := ss_a; ps_dh_cs := dh_cs; ps_sk_s := Some (kem_secret ml_kp);
                   ps_verified_client := matched |}]>));;
              mret (SrvEmit frags from)
          end
  end.

(** The three arms of [on_m1_fragment]: a fragment for an entry that assembles
    its M1, a duplicate M1 for an entry that sent its M2, and a new sid. *)
Definition m1_advance (d : Draws) (frag : HandshakeFragment) (entry : PendingSession)
    (from : SocketAddr) : M ServerHandshake HandshakeV2Error ServerEvent :=
  let sid := hf_sid frag in
  asm ← expect "AwaitM1 has assembler" (ps_assembler entry);
  let '(frag_result, asm) := add_fragment asm frag in
  modify (sh_map_pending (<[sid := ps_with_assembler asm entry]>));;
  match frag_result with
  | FrCompleted =>
      ok ← call (rate_ok from (now_rate d));
      if negb ok then mret SrvNone
      else
        m1_bytes ← expect "complete" (assembled_message asm);
        complete_m1 d sid m1_bytes from
  | FrAdvanced =>
      modify (sh_map_pending (alter (ps_with_last_seen (now_seen d)) sid));;
      mret SrvNone
  | FrIgnored => mret SrvNone
  end.

Definition m1_resend (d : Draws) (frag : HandshakeFragment) (entry : PendingSession)
    (from : SocketAddr) : M ServerHandshake HandshakeV2Error ServerEvent :=
  let sid := hf_sid frag in
  body ← expect "AwaitM3 has M2 cache" (ps_m2_cache entry);
  let src := ps_source entry in
  if negb (bool_decide (hf_frag_idx frag = x00)) then mret SrvNone
  else
    ok ← call (rate_ok from (now_rate d));
    if negb ok then mret SrvNone
    else
      modify (sh_map_pending (alter (ps_with_last_seen (now_seen d)) sid));;
      h ← get;
      frags ← try HS_Codec
        (fragment_message HS_TYPE_SERVER_HELLO (sc_version (sh_cfg h)) sid body);
      mret (SrvEmit frags src).

Definition m1_admit (d : Draws) (frag : HandshakeFragment) (from : SocketAddr)
    : M ServerHandshake HandshakeV2Error ServerEvent :=
  let sid := hf_sid frag in
  if negb (bool_decide (hf_frag_idx frag = x00)) then mret SrvNone
  else
    ok ← call (rate_ok from (now_rate d));
    if negb ok then mret SrvNone
    else
      h ← get;
      if (sc_max_pending (sh_cfg h) <=? size (sh_pending h))%nat then mret SrvNone
      else
        match FragmentAssembler_new HS_TYPE_CLIENT_HELLO with
        | None => mret SrvNone
        | Some asm =>
            let asm := (add_fragment asm frag).2 in
            modify (sh_map_pending (<[sid := PendingSession_new from (now_seen d) asm]>));;
            mret SrvNone
        end.

Definition on_m1_fragment (d : Draws) (pkt : WirePacket) (from : SocketAddr)
    : M ServerHandshake HandshakeV2Error ServerEvent :=
  match from_datagram pkt with
  | Err _ => mret SrvNone
  | Ok frag =>
      modify (evict_expired (now_evict d));;
      h ← get;
      match sh_pending h !! hf_sid frag with
      | Some entry =>
          if negb (bool_decide (ps_source entry = from)) then mret SrvNone
          else
            match ps_state entry with
            | AwaitM1 => m1_advance d frag entry from
            | AwaitM3 => m1_resend d frag entry from
            end
      | None => m1_admit d frag from
      end
  end.

Definition on_m3_fragment (d : Draws) (pkt : WirePacket) (from : SocketAddr)
    : M ServerHandshake HandshakeV2Error ServerEvent :=
  match from_datagram pkt with
  | Err _ => mret SrvNone
  | Ok frag =>
      modify (evict_expired (now_evict d));;
      h ← get;
      let sid := hf_sid frag in
      match sh_pending h !! sid with
      | None => mret SrvNone
      | Some entry =>
          if negb (bool_decide (ps_source entry = from))
             || negb (bool_decide (ps_state entry = AwaitM3))
          then mret SrvNone
          else
            ok ← call (rate_ok from (now_rate d));
            if negb ok then mret SrvNone
            else
              match ClientConfirm_decode (hf_body frag) with
              | Err _ => mret SrvNone
              | Ok m3 =>
                  if negb (bool_decide (m3_version m3 = sc_version (sh_cfg h)))
                     || negb (bool_decide (m3_sid m3 = sid))
                  then mret SrvNone
                  else
                    match ps_sk_s entry with
                    | None => mret SrvNone
                    | Some sk_s =>
                        ss_b ← try HS_Crypto (decapsulate sk_s (m3_ct3 m3));
                        m1_body ← expect "set in AwaitM3" (ps_m1_body entry);
                        m2_body ← expect "set in AwaitM3" (ps_m2_cache entry);
                        th3_d ← expect "fixed lengths"
                          (th3_from_m1_m2_m3 m1_body m2_body (hf_body frag));
                        master ← try id
                          (derive_master (ps_ss_a entry) ss_b (ps_dh_cs entry) (m3_version m3)
                             sid th3_d);
                        finished_key ← try HS_Crypto
                          (derive_finished_key master (m3_version m3) sid);
                        let expected := compute_client_finished finished_key th3_d in
                        if negb (bool_decide (expected = m3_client_finished m3)) then mret SrvNone
                        else
                          peer_identity ← expect "set at M2" (ps_verified_client entry);
                          let duration := duration_since (now_done d) (ps_started entry) in
                          if negb (roster_contains h peer_identity) then
                            remove_pending sid;; mret SrvNone
                          else
                            remove_pending sid;;
                            mret (SrvComplete
                              (mkHandshakeOutcome master sid peer_identity duration))
                    end
              end
      end
  end.

Definition server_handle_datagram (d : Draws) (pkt : WirePacket) (from : SocketAddr)
    : M ServerHandshake HandshakeV2Error ServerEvent :=
  match byte_at (VERSION_LEN + SESSION_ID_LEN) (as_bytes pkt) with
  | x10 => on_m1_fragment d pkt from
  | x30 => on_m3_fragment d pkt from
  | _ => mret SrvNone
  end.

(** ** The driver

    [recvs] is what successive [transport.recv()] calls return, each with the
    readings and draws of the handler call that follows. *)

Fixpoint server_loop (send : nat -> result HandshakeV2Error ())
    (recvs : list (result HandshakeV2Error (WirePacket * SocketAddr) * Draws))
    (srv : ServerHandshake) (sent : SendLog)
    : option (exec HandshakeV2Error HandshakeOutcome) * SendLog :=
  match recvs with
  | [] => (None, sent)
  | (Err HS_DatagramRejected, _) :: recvs => server_loop send recvs srv sent
  | (Err e, _) :: _ => (Some (Fail e), sent)
  | (Ok (pkt, from), d) :: recvs =>
      match server_handle_datagram d pkt from srv with
      | (Ret (SrvEmit frags peer), srv) =>
          match send_all send peer frags sent with
          | (Ok _, sent) => server_loop send recvs srv sent
          | (Err e, sent) => (Some (Fail e), sent)
          end
      | (Ret (SrvComplete out), _) => (Some (Ret out), sent)
      | (Ret SrvNone, srv) => server_loop send recvs srv sent
      | (Fail e, _) => (Some (Fail e), sent)
      | (Panic p, _) => (Some (Panic p), sent)
      end
  end.

Definition server_handshake_v2 (send : nat -> result HandshakeV2Error ()) (cfg : ServerConfig)
    (now : Instant)
    (recvs : list (result HandshakeV2Error (WirePacket * SocketAddr) * Draws))
    : option (exec HandshakeV2Error HandshakeOutcome) * SendLog :=
  match ServerConfig_validate cfg with
  | Err e => (Some (Fail e), [])
  | Ok _ => server_loop send recvs (ServerHandshake_new cfg now) []
  end.

End Server.
