(* ===== verification/HandshakeSafety.v ===== *)
(** * Safety of the server handshake machine

    The invariant of [ServerHandshake] (what a pending entry holds in each
    state, the bounds of both tables, the queue in lockstep with the rate
    table), its preservation by every operation on every datagram, absence of
    panics and errors, the meaning of a completed handshake, and the per-source
    budget. *)

From S2P Require Import Prelude Bytes Errors Codec Replay Crypto Envelope WireSession Exec Net HandshakeMsg HandshakeFrag HandshakeClient HandshakeServer.

Local Open Scope Z_scope.

(** ** Fragments *)

Lemma from_datagram_sid pkt f :
  WirePacket_wf pkt -> from_datagram pkt = Ok f -> length (hf_sid f) = SESSION_ID_LEN.
Proof.
  unfold WirePacket_wf, from_datagram. intros Hp H. case_match; [done|].
  apply bind_ok in H as (e & _ & H). do 2 (case_match; [done|]). simplify_res.
  cbn [hf_sid]. rewrite length_slice by dims. dims.
Qed.

Lemma add_fragment_length a f :
  length (fa_buffer (add_fragment a f).2) = length (fa_buffer a).
Proof.
  unfold add_fragment. repeat (case_match; [done|]). case_match; cbn [snd fa_buffer];
    apply length_write_at; lia.
Qed.

Lemma add_fragment_completed a f a' :
  add_fragment a f = (FrCompleted, a') -> assembled_message a' = Some (fa_buffer a').
Proof. unfold add_fragment. intros H. repeat (case_match; simplify_res; try done). Qed.

(** ** The rate table *)

Section Rate.
Context {P : Primitives}.

Definition bucket_wf (burst : Z) (b : RateBucket) : Prop := 0 <= rb_tokens b <= burst.

Record rate_wf (h : ServerHandshake) : Prop := {
  rw_lockstep : lockstep (sh_rate_order h) (sh_rate_buckets h);
  rw_cap : Z.of_nat (size (sh_rate_buckets h)) <= MAX_RATE_BUCKETS;
  rw_tokens : map_Forall (fun _ => bucket_wf (sc_rate_limit_burst (sh_cfg h))) (sh_rate_buckets h) }.

(** The part of the state the rate limiter never touches. *)
Definition same_core (h h' : ServerHandshake) : Prop :=
  sh_cfg h' = sh_cfg h /\ sh_pending h' = sh_pending h.

Lemma rate_prune_wf now h : rate_wf h -> rate_wf (rate_prune now h) /\ same_core h (rate_prune now h).
Proof.
  intros [Hl Hc Ht]. unfold rate_prune. case_match; [|by split].
  split; [|done]. split; cbn [sh_with_rate sh_rate_order sh_rate_buckets sh_cfg].
  - by apply lockstep_retain.
  - etrans; [|exact Hc]. apply inj_le, map_subseteq_size, map_filter_subseteq.
  - eapply map_Forall_sub; [|exact Ht]. apply map_filter_subseteq.
Qed.

Lemma rate_ok_wf from now h :
  0 <= sc_rate_limit_burst (sh_cfg h) -> rate_wf h ->
  rate_wf (rate_ok from now h).2 /\ same_core h (rate_ok from now h).2.
Proof.
  intros Hb0 Hwf. destruct (rate_prune_wf now h Hwf) as [Hp [Ec Ep]].
  unfold rate_ok. set (hp := rate_prune now h) in *. rewrite <- Ec in Hb0.
  destruct Hp as [Hl Hc Ht].
  destruct (sh_rate_buckets hp !! from) as [b|] eqn:Hlk.
  - pose proof (Ht _ _ Hlk) as Hb. unfold bucket_wf in Hb.
    assert (forall b', bucket_wf (sc_rate_limit_burst (sh_cfg hp)) b' ->
      rate_wf (sh_with_rate (<[from := b']> (sh_rate_buckets hp)) (sh_rate_order hp)
                 (sh_last_rate_prune hp) hp)) as Hins.
    { intros b' Hb'. split; cbn [sh_with_rate sh_rate_order sh_rate_buckets sh_cfg].
      - apply lockstep_update; [done|by rewrite Hlk].
      - rewrite map_size_insert_Some by done. done.
      - by apply map_Forall_insert_2. }
    split_matches; cbn [snd]; (split; [apply Hins|by split]);
      unfold bucket_wf in *; cbn [rb_tokens] in *; lia.
  - assert (0 < MAX_RATE_BUCKETS) as Hmax by (unfold MAX_RATE_BUCKETS; lia).
    pose proof (evict_to_spec MAX_RATE_BUCKETS _ _ Hmax Hl) as He.
    destruct (evict_to _ _ _) as [order tbl]. destruct He as (Hl' & Hs & Hsub & _).
    assert (tbl !! from = None) as Hnone.
    { destruct (tbl !! from) eqn:E; [|done]. by rewrite (lookup_weaken _ _ _ _ E Hsub) in Hlk. }
    split; [|by split]. split; cbn [snd sh_with_rate sh_rate_order sh_rate_buckets sh_cfg].
    + by apply lockstep_push.
    + rewrite map_size_insert_None by done. lia.
    + apply map_Forall_insert_2; [unfold bucket_wf; cbn [rb_tokens]; case_match; lia|].
      by eapply map_Forall_sub.
Qed.

End Rate.

(** ** The invariant *)

Section Invariant.
Context {P : Primitives} {L : PrimitivesLaws P}.

(** The ClientHello [m1] names [sid] and its signature verifies under [vk]. *)
Definition m1_authenticated (sid m1 : bytes) (vk : VerifyingKey) : Prop :=
  exists hello th1, ClientHello_decode m1 = Ok hello /\ m1_sid hello = sid /\
    th1_from_m1 m1 = Some th1 /\ dsa_verify vk th1 (m1_client_sig hello) = true.

Definition pending_wf (sid : bytes) (e : PendingSession) : Prop :=
  length sid = SESSION_ID_LEN /\
  match ps_state e with
  | AwaitM1 => exists a, ps_assembler e = Some a /\ length (fa_buffer a) = M1_BODY_LEN
  | AwaitM3 => exists m1 m2 sk vk,
      ps_m1_body e = Some m1 /\ ps_m2_cache e = Some m2 /\ ps_sk_s e = Some sk /\
      ps_verified_client e = Some vk /\ length m1 = M1_BODY_LEN /\ length m2 = M2_BODY_LEN /\
      m1_authenticated sid m1 vk
  end.

Record server_wf (h : ServerHandshake) : Prop := {
  sw_rate : rate_wf h;
  sw_burst : 0 <= sc_rate_limit_burst (sh_cfg h);
  sw_pending : map_Forall pending_wf (sh_pending h);
  sw_bound : (size (sh_pending h) <= sc_max_pending (sh_cfg h))%nat;
  sw_roster : (length (sc_roster (sh_cfg h)) <= sc_max_roster_size (sh_cfg h))%nat }.

(** What the M1 handler promises: it returns an event, keeps the invariant and
    the configuration, only answers the source it heard from, with the five
    fragments of an M2, and never completes a handshake. *)
Definition server_post (h : ServerHandshake) (from : SocketAddr)
    (r : exec HandshakeV2Error ServerEvent) (h' : ServerHandshake) : Prop :=
  (exists ev, r = Ret ev /\
     match ev with
     | SrvEmit pkts peer => peer = from /\ length pkts = 5%nat
     | SrvComplete _ => False
     | SrvNone => True
     end) /\
  server_wf h' /\ sh_cfg h' = sh_cfg h.

Lemma server_post_none h from h' :
  server_wf h' -> sh_cfg h' = sh_cfg h -> server_post h from (Ret SrvNone) h'.
Proof. intros ? ?. split; [|done]. by exists SrvNone. Qed.

(** Updates of the pending table that keep the invariant. *)
Lemma server_wf_pending h f :
  server_wf h -> map_Forall pending_wf (f (sh_pending h)) ->
  (size (f (sh_pending h)) <= sc_max_pending (sh_cfg h))%nat -> server_wf (sh_map_pending f h).
Proof. intros [[Hl Hc Ht] Hb Hp Hs Hr] Hf Hz. by split. Qed.

Lemma server_wf_delete h sid : server_wf h -> server_wf (sh_map_pending (delete sid) h).
Proof.
  intros Hwf. pose proof (sw_pending _ Hwf) as Hp. pose proof (sw_bound _ Hwf) as Hb.
  apply server_wf_pending; [done| |].
  - eapply map_Forall_sub; [apply delete_subseteq|done].
  - etrans; [|exact Hb]. apply map_subseteq_size, delete_subseteq.
Qed.

Lemma server_wf_insert h sid e :
  server_wf h -> pending_wf sid e ->
  is_Some (sh_pending h !! sid) \/ (size (sh_pending h) < sc_max_pending (sh_cfg h))%nat ->
  server_wf (sh_map_pending (<[sid := e]>) h).
Proof.
  intros Hwf He Hroom. pose proof (sw_pending _ Hwf) as Hp. pose proof (sw_bound _ Hwf) as Hb.
  apply server_wf_pending; [done|by apply map_Forall_insert_2|].
  rewrite map_size_insert. destruct (sh_pending h !! sid); [done|].
  destruct Hroom as [[? ?]|]; [done|lia].
Qed.

Lemma server_wf_alter h sid f :
  server_wf h -> (forall e, pending_wf sid e -> pending_wf sid (f e)) ->
  server_wf (sh_map_pending (alter f sid) h).
Proof.
  intros Hwf Hf. pose proof (sw_pending _ Hwf) as Hp. pose proof (sw_bound _ Hwf) as Hb.
  apply server_wf_pending; [done| |].
  2:{ rewrite <- (size_dom (D := gset bytes)), dom_alter_L, size_dom. exact Hb. }
  intros k e. rewrite lookup_alter_Some. intros [(<- & e0 & Hk & ->)|[? Hk]]; [|by apply Hp].
  apply Hf. by apply Hp.
Qed.

Lemma server_wf_evict now h : server_wf h -> server_wf (evict_expired now h).
Proof.
  intros Hwf. pose proof (sw_pending _ Hwf) as Hp. pose proof (sw_bound _ Hwf) as Hb.
  apply server_wf_pending; [done| |].
  - eapply map_Forall_sub; [apply map_filter_subseteq|done].
  - etrans; [|exact Hb]. apply map_subseteq_size, map_filter_subseteq.
Qed.

Lemma server_wf_rate from now h :
  server_wf h -> server_wf (rate_ok from now h).2 /\ same_core h (rate_ok from now h).2.
Proof.
  intros [Hr Hb Hp Hs Hro]. destruct (rate_ok_wf from now h Hb Hr) as [Hr' Hsame].
  split; [|done]. destruct Hsame as [Ec Ep]. split; rewrite ?Ec, ?Ep; done.
Qed.

(** The roster loop never fails and tries every key. *)
Lemma verify_roster_spec roster th1 sig a m :
  exists m', verify_roster roster th1 sig a m =
      Ok (a || existsb (fun pk => dsa_verify pk th1 sig) roster, m') /\
    ((existsb (fun pk => dsa_verify pk th1 sig) roster = false /\ m' = m) \/
     exists vk, m' = Some vk /\ vk ∈ roster /\ dsa_verify vk th1 sig = true).
Proof.
  revert a m. induction roster as [|pk roster IH]; intros a m; simpl.
  { exists m. rewrite orb_false_r. split; [done|by left]. }
  unfold dsa_verify_msg. destruct (dsa_verify pk th1 sig) eqn:Ev; unfold mbind, result_bind.
  - destruct (IH (a || true) (Some pk)) as (m' & E & Hm). exists m'. rewrite E.
    split; [by rewrite !orb_true_r, !orb_true_l|]. right.
    destruct Hm as [[_ ->]|(vk & -> & Hin & Hv)]; [exists pk|exists vk]; split; auto;
      split; auto; [by left|by right].
  - destruct (IH (a || false) m) as (m' & E & Hm). exists m'. rewrite E, orb_false_r.
    split; [done|]. destruct Hm as [?|(vk & -> & Hin & Hv)]; [by left|right].
    exists vk. split; [done|]. split; [by right|done].
Qed.

(** Transcript hashes of full-size messages exist. *)
Lemma th1_some m1 : length m1 = M1_BODY_LEN -> exists th, th1_from_m1 m1 = Some th.
Proof.
  intros H. unfold th1_from_m1. rewrite (zerofill_slot _ M1_BODY_LEN ML_DSA_65_SIGNATURE_BYTES) by done.
  eexists; reflexivity.
Qed.

Lemma th2_some m1 m2 :
  length m1 = M1_BODY_LEN -> length m2 = M2_BODY_LEN -> exists th, th2_from_m1_m2 m1 m2 = Some th.
Proof.
  intros H1 H2. unfold th2_from_m1_m2. rewrite H1, Nat.eqb_refl. cbn [negb].
  rewrite (zerofill_slot _ M2_BODY_LEN ML_DSA_65_SIGNATURE_BYTES) by done. eexists; reflexivity.
Qed.

Lemma th3_some m1 m2 m3 :
  length m1 = M1_BODY_LEN -> length m2 = M2_BODY_LEN -> length m3 = M3_BODY_LEN ->
  exists th, th3_from_m1_m2_m3 m1 m2 m3 = Some th.
Proof.
  intros H1 H2 H3. unfold th3_from_m1_m2_m3.
  rewrite (zerofill_slot HS_TYPE_CLIENT_HELLO M1_BODY_LEN ML_DSA_65_SIGNATURE_BYTES) by done.
  rewrite (zerofill_slot HS_TYPE_SERVER_HELLO M2_BODY_LEN ML_DSA_65_SIGNATURE_BYTES) by done.
  rewrite (zerofill_slot HS_TYPE_CLIENT_CONFIRM M3_BODY_LEN FINISHED_MAC_LEN) by done. eexists; reflexivity.
Qed.

(** Key derivation cannot fail. *)
Lemma derive_master_ok ss_a ss_b dh v sid th3 :
  exists ms, derive_master ss_a ss_b dh v sid th3 = Ok ms /\ length (ms_bytes ms) = 32%nat.
Proof.
  unfold derive_master, derive_master_secret_v2.
  destruct (kdf_derive_to_bytes_ok 32 (ss_a ++ ss_b ++ dh) (zeros 32)
    (b_str "pq-tunnel-master-v2" ++ [v] ++ sid ++ th3)) as (b & -> & Hb); [lia|].
  eexists. split; [reflexivity|done].
Qed.

Lemma derive_finished_key_ok ms v sid : exists k, derive_finished_key ms v sid = Ok k.
Proof.
  unfold derive_finished_key.
  destruct (kdf_derive_to_bytes_ok 32 (ms_bytes ms) (zeros 32)
    (b_str "pq-tunnel-finished-v1" ++ [v] ++ sid)) as (b & -> & Hb); [lia|].
  eexists. reflexivity.
Qed.

Lemma fragment_message_ok t total n v sid msg :
  hs_message t total n msg ->
  fragment_message t v sid msg = Ok (fragment_datagram t v sid msg total <$> seq 0 n).
Proof.
  intros (Ht & Hl & ->). unfold fragment_message. rewrite Ht, Hl. cbn [ok_or default].
  unfold mbind, result_bind. simpl default. rewrite Nat.eqb_refl. done.
Qed.

Lemma m2_message msg : length msg = M2_BODY_LEN -> hs_message HS_TYPE_SERVER_HELLO M2_FRAG_COUNT 5 msg.
Proof. intros H. split; [done|]. by rewrite H. Qed.

Lemma m2_fragments_ok v sid msg :
  length msg = M2_BODY_LEN ->
  exists pkts, fragment_message HS_TYPE_SERVER_HELLO v sid msg = Ok pkts /\ length pkts = 5%nat.
Proof.
  intros Hl. rewrite (fragment_message_ok _ _ _ _ _ _ (m2_message _ Hl)).
  eexists. split; [reflexivity|]. by rewrite length_fmap, length_seq.
Qed.

Lemma post_removed h from sid :
  server_wf h -> server_post h from (Ret SrvNone) (sh_map_pending (delete sid) h).
Proof. intros Hwf. apply server_post_none; [by apply server_wf_delete|done]. Qed.

Lemma complete_m1_wp d sid m1_bytes from h e :
  server_wf h -> sh_pending h !! sid = Some e -> length m1_bytes = M1_BODY_LEN ->
  wp (complete_m1 d sid m1_bytes from) h (server_post h from).
Proof.
  intros Hwf He Hl. destruct (sw_pending _ Hwf _ _ He) as [Hsid _].
  unfold complete_m1, remove_pending. wp_steps.
  destruct (ClientHello_decode m1_bytes) as [m1|] eqn:Em1; [|wp_steps; by apply post_removed].
  destruct (negb _ || negb _) eqn:Hid; [wp_steps; by apply post_removed|].
  apply orb_false_iff in Hid as [_ Hid%negb_false_iff%bool_decide_eq_true_1].
  wp_steps. destruct (th1_some m1_bytes Hl) as [th1 Hth1]. eapply wp_expect; [exact Hth1|].
  wp_steps. destruct (verify_roster_spec (sc_roster (sh_cfg h)) th1 (m1_client_sig m1) false None)
    as (matched & Hv & Hm).
  eapply wp_try_ok; [exact Hv|]. cbv beta iota. rewrite orb_false_l in *.
  destruct (existsb _ _) eqn:Hex; cbn [negb]; [|wp_steps; by apply post_removed].
  destruct Hm as [[? _]|(vk & -> & Hin & Hvk)]; [done|].
  unfold MlKemKeypair_generate, encapsulate, MlDsaKeypair_sign.
  destruct (kem_generate (draw_kem d)) as [dk ek].
  wp_steps. eapply wp_try_ok; [reflexivity|]. wp_steps.
  destruct (kem_encapsulate (m1_eph_pk_c m1) (draw_encap d)) as [ct ss] eqn:Hk.
  eapply wp_try_ok; [reflexivity|]. cbv beta iota.
  destruct (diffie_hellman _ _) as [dh|]; [|wp_steps; by apply post_removed].
  assert (length ct = ML_KEM_768_CIPHERTEXT_BYTES) as Hct.
  { pose proof (kem_lengths (m1_eph_pk_c m1) (draw_encap d)) as [Hc _]. by rewrite Hk in Hc. }
  cbn [kem_public kem_secret X25519Keypair_generate x_public x_secret].
  pose proof (x25519_public_length (x25519_secret (draw_x d))) as Hx.
  wp_steps. edestruct (th2_some m1_bytes) as [th2 Hth2];
    [exact Hl|apply (length_encode_m2 (sc_version (sh_cfg h)) sid ek _ ct None Hsid Hx Hct)|].
  eapply wp_expect; [exact Hth2|]. wp_steps. eapply wp_try_ok; [reflexivity|]. wp_steps.
  edestruct (m2_fragments_ok (sc_version (sh_cfg h)) sid) as (pkts & Hf & Hn);
    [|eapply wp_try_ok; [exact Hf|]].
  { by apply length_encode_m2. }
  wp_steps. eapply wp_expect; [exact He|]. wp_steps.
  split; [by exists (SrvEmit pkts from)|].
  split; [|done]. apply server_wf_insert; [done| |by left].
  split; [done|]. cbn [ps_state]. do 4 eexists. do 4 (split; [reflexivity|]).
  split; [done|]. split; [by apply length_encode_m2|]. by exists m1, th1.
Qed.

(** A later state with the same configuration can replace the reference. *)
Lemma server_post_cfg h h0 from r h' :
  sh_cfg h = sh_cfg h0 -> server_post h from r h' -> server_post h0 from r h'.
Proof. intros E (He & Hw & Hc). split; [done|]. split; [done|]. by rewrite Hc. Qed.

Lemma pending_wf_seen sid now e : pending_wf sid e -> pending_wf sid (ps_with_last_seen now e).
Proof. done. Qed.

Lemma m1_advance_wp d frag e from h :
  server_wf h -> sh_pending h !! hf_sid frag = Some e -> ps_state e = AwaitM1 ->
  wp (m1_advance d frag e from) h (server_post h from).
Proof.
  intros Hwf He Hs. destruct (sw_pending _ Hwf _ _ He) as [Hsid Hst]. rewrite Hs in Hst.
  destruct Hst as (a & Ha & Hlen). unfold m1_advance. wp_steps.
  eapply wp_expect; [exact Ha|]. cbv beta iota.
  destruct (add_fragment a frag) as [res a'] eqn:Hadd.
  assert (length (fa_buffer a') = M1_BODY_LEN) as Hlen'.
  { pose proof (add_fragment_length a frag) as E. by rewrite Hadd, Hlen in E. }
  assert (server_wf (sh_map_pending (<[hf_sid frag := ps_with_assembler a' e]>) h)) as Hwf1.
  { apply server_wf_insert; [done| |left; by rewrite He]. split; [done|].
    cbn [ps_with_assembler ps_state]. rewrite Hs. by exists a'. }
  wp_steps. destruct res; [wp_steps; by apply server_post_none| |].
  - wp_steps. apply server_post_none; [|done]. apply server_wf_alter; [done|].
    intros e'. apply pending_wf_seen.
  - wp_steps. set (h1 := sh_map_pending _ h) in *.
    destruct (server_wf_rate from (now_rate d) h1 Hwf1) as [Hwf2 [Ec Ep]].
    destruct (rate_ok from (now_rate d) h1) as [ok h2] eqn:Hr. cbn [fst snd] in *.
    destruct ok; cbn [negb]; wp_steps; [|by apply server_post_none].
    eapply wp_expect; [by eapply add_fragment_completed|]. cbv beta iota.
    eapply wp_mono; [eapply complete_m1_wp; [done| |done]|].
    + rewrite Ep. apply lookup_insert_eq.
    + intros r s'. by apply server_post_cfg.
Qed.

Lemma m1_resend_wp d frag e from h :
  server_wf h -> sh_pending h !! hf_sid frag = Some e -> ps_state e = AwaitM3 ->
  ps_source e = from -> wp (m1_resend d frag e from) h (server_post h from).
Proof.
  intros Hwf He Hs Hsrc. destruct (sw_pending _ Hwf _ _ He) as [Hsid Hst]. rewrite Hs in Hst.
  destruct Hst as (m1 & m2 & sk & vk & E1 & E2 & E3 & E4 & L1 & L2 & Hauth).
  unfold m1_resend. wp_steps. eapply wp_expect; [exact E2|]. cbv beta iota zeta.
  destruct (negb _); [wp_steps; by apply server_post_none|]. wp_steps.
  destruct (server_wf_rate from (now_rate d) h Hwf) as [Hwf2 [Ec Ep]].
  destruct (rate_ok from (now_rate d) h) as [ok h2] eqn:Hr. cbn [fst snd] in *.
  destruct ok; cbn [negb]; wp_steps; [|by apply server_post_none].
  edestruct (m2_fragments_ok (sc_version (sh_cfg h2)) (hf_sid frag) m2 L2) as (pkts & Hfr & Hn).
  eapply wp_try_ok; [exact Hfr|]. wp_steps.
  split; [by exists (SrvEmit pkts (ps_source e))|].
  split; [|done]. apply server_wf_alter; [done|]. intros e'. apply pending_wf_seen.
Qed.

Lemma m1_admit_wp d frag from h :
  server_wf h -> sh_pending h !! hf_sid frag = None -> length (hf_sid frag) = SESSION_ID_LEN ->
  wp (m1_admit d frag from) h (server_post h from).
Proof.
  intros Hwf He Hsid. unfold m1_admit.
  destruct (negb _); [wp_steps; by apply server_post_none|]. wp_steps.
  destruct (server_wf_rate from (now_rate d) h Hwf) as [Hwf2 [Ec Ep]].
  destruct (rate_ok from (now_rate d) h) as [ok h2] eqn:Hr. cbn [fst snd] in *.
  destruct ok; cbn [negb]; wp_steps; [|by apply server_post_none].
  destruct (Nat.leb_spec (sc_max_pending (sh_cfg h2)) (size (sh_pending h2))) as [|Hlt];
    [wp_steps; by apply server_post_none|].
  destruct (FragmentAssembler_new HS_TYPE_CLIENT_HELLO) as [a|] eqn:Ha; [|discriminate Ha].
  wp_steps. apply server_post_none; [|done].
  apply server_wf_insert; [done| |by right].
  split; [done|]. cbn [PendingSession_new ps_state ps_assembler].
  eexists. split; [reflexivity|]. rewrite add_fragment_length. injection Ha as <-.
  apply length_zeros.
Qed.

Lemma on_m1_fragment_wp d pkt from h :
  server_wf h -> WirePacket_wf pkt -> wp (on_m1_fragment d pkt from) h (server_post h from).
Proof.
  intros Hwf0 Hpkt. unfold on_m1_fragment.
  destruct (from_datagram pkt) as [frag|] eqn:Hf; [|wp_steps; by apply server_post_none].
  pose proof (from_datagram_sid _ _ Hpkt Hf) as Hsid. wp_steps.
  pose proof (server_wf_evict (now_evict d) h Hwf0) as Hwf.
  set (he := evict_expired (now_evict d) h) in *.
  apply (wp_mono _ _ (server_post he from)); [|intros r s'; by apply server_post_cfg].
  clearbody he. clear Hwf0.
  destruct (sh_pending he !! hf_sid frag) as [e|] eqn:He; [|by apply m1_admit_wp].
  destruct (negb (bool_decide (ps_source e = from))) eqn:Hsrc; [wp_steps; by apply server_post_none|].
  apply negb_false_iff, bool_decide_eq_true_1 in Hsrc.
  destruct (ps_state e) eqn:Hs; [by apply m1_advance_wp|by apply m1_resend_wp].
Qed.

(** What a completed handshake means, in the state [h] that received the M3. *)
Definition completes (h : ServerHandshake) (d : Draws) (pkt : WirePacket) (from : SocketAddr)
    (o : HandshakeOutcome) : Prop :=
  exists frag e m3 m1 m2 sk ss_b th3 key,
    from_datagram pkt = Ok frag /\ hf_sid frag = ho_session_id o /\
    sh_pending h !! ho_session_id o = Some e /\
    duration_since (now_evict d) (ps_last_seen e) < sc_pending_ttl (sh_cfg h) /\
    ps_state e = AwaitM3 /\ ps_source e = from /\
    ClientConfirm_decode (hf_body frag) = Ok m3 /\ m3_sid m3 = ho_session_id o /\
    m1_authenticated (ho_session_id o) m1 (ho_peer_identity o) /\
    roster_contains h (ho_peer_identity o) = true /\
    ps_m1_body e = Some m1 /\ ps_m2_cache e = Some m2 /\ ps_sk_s e = Some sk /\
    decapsulate sk (m3_ct3 m3) = Ok ss_b /\
    th3_from_m1_m2_m3 m1 m2 (hf_body frag) = Some th3 /\
    derive_master (ps_ss_a e) ss_b (ps_dh_cs e) (m3_version m3) (ho_session_id o) th3
      = Ok (ho_master o) /\
    derive_finished_key (ho_master o) (m3_version m3) (ho_session_id o) = Ok key /\
    m3_client_finished m3 = compute_client_finished key th3.

(** What the M3 handler promises: nothing, or one completed handshake whose
    entry is gone. *)
Definition m3_post (h : ServerHandshake) (d : Draws) (pkt : WirePacket) (from : SocketAddr)
    (r : exec HandshakeV2Error ServerEvent) (h' : ServerHandshake) : Prop :=
  (r = Ret SrvNone \/ exists o, r = Ret (SrvComplete o) /\ completes h d pkt from o /\
     sh_pending h' !! ho_session_id o = None) /\
  server_wf h' /\ sh_cfg h' = sh_cfg h.

Lemma m3_post_none h d pkt from h' :
  server_wf h' -> sh_cfg h' = sh_cfg h -> m3_post h d pkt from (Ret SrvNone) h'.
Proof. intros ? ?. split; [by left|done]. Qed.

Lemma ClientConfirm_decode_length b m : ClientConfirm_decode b = Ok m -> length b = M3_BODY_LEN.
Proof. unfold ClientConfirm_decode. destruct (Nat.eqb_spec (length b) M3_BODY_LEN); done. Qed.

Lemma on_m3_fragment_wp d pkt from h :
  server_wf h -> WirePacket_wf pkt ->
  wp (on_m3_fragment d pkt from) h (m3_post h d pkt from).
Proof.
  intros Hwf0 Hpkt. unfold on_m3_fragment, remove_pending.
  destruct (from_datagram pkt) as [frag|] eqn:Hf; [|wp_steps; by apply m3_post_none].
  pose proof (from_datagram_sid _ _ Hpkt Hf) as Hsid. wp_steps.
  pose proof (server_wf_evict (now_evict d) h Hwf0) as Hwf.
  set (he := evict_expired (now_evict d) h) in *.
  assert (forall h', server_wf h' -> sh_cfg h' = sh_cfg he -> m3_post h d pkt from (Ret SrvNone) h')
    as Hnone by (intros h' ? ?; by apply m3_post_none).
  destruct (sh_pending he !! hf_sid frag) as [e|] eqn:He; [|wp_steps; by apply Hnone].
  destruct (sw_pending _ Hwf _ _ He) as [_ Hst].
  destruct (negb _ || negb _) eqn:Hg; [wp_steps; by apply Hnone|].
  apply orb_false_iff in Hg as [Hsrc%negb_false_iff%bool_decide_eq_true_1
    Hs%negb_false_iff%bool_decide_eq_true_1].
  rewrite Hs in Hst. destruct Hst as (m1 & m2 & sk & vk & E1 & E2 & E3 & E4 & L1 & L2 & Hauth).
  wp_steps. destruct (server_wf_rate from (now_rate d) he Hwf) as [Hwf2 [Ec Ep]].
  destruct (rate_ok from (now_rate d) he) as [ok h2] eqn:Hr. cbn [fst snd] in *.
  destruct ok; cbn [negb]; [|wp_steps; by apply Hnone].
  destruct (ClientConfirm_decode (hf_body frag)) as [m3|] eqn:Hm3; [|wp_steps; by apply Hnone].
  pose proof (ClientConfirm_decode_length _ _ Hm3) as L3.
  destruct (negb _ || negb _) eqn:Hg; [wp_steps; by apply Hnone|].
  apply orb_false_iff in Hg as [_ Hs3%negb_false_iff%bool_decide_eq_true_1].
  rewrite E3. wp_steps. eapply wp_try_ok; [reflexivity|]. wp_steps.
  eapply wp_expect; [exact E1|]. wp_steps. eapply wp_expect; [exact E2|]. wp_steps.
  destruct (th3_some m1 m2 _ L1 L2 L3) as [th3 Hth3]. eapply wp_expect; [exact Hth3|]. wp_steps.
  edestruct derive_master_ok as (ms & Hms & _). eapply wp_try_ok; [exact Hms|]. wp_steps.
  destruct (derive_finished_key_ok ms (m3_version m3) (hf_sid frag)) as (key & Hkey).
  eapply wp_try_ok; [exact Hkey|]. cbv beta iota zeta.
  destruct (negb (bool_decide (compute_client_finished _ _ = _))) eqn:Hmac; [wp_steps; by apply Hnone|].
  apply negb_false_iff, bool_decide_eq_true_1 in Hmac.
  wp_steps. eapply wp_expect; [exact E4|]. cbv beta iota zeta.
  destruct (roster_contains he vk) eqn:Hro; cbn [negb]; wp_steps;
    [|apply Hnone; [by apply server_wf_delete|done]].
  split; [right; eexists; split; [reflexivity|]|split; [by apply server_wf_delete|done]].
  cbn [ho_session_id ho_peer_identity ho_master]. split; [|apply lookup_delete_eq].
  apply map_lookup_filter_Some in He as [He Hexp].
  exists frag, e, m3, m1, m2, sk, (kem_decapsulate sk (m3_ct3 m3)), th3, key. by rewrite <- Hmac.
Qed.

(** What either handler promises. *)
Definition handle_post (h : ServerHandshake) (d : Draws) (pkt : WirePacket) (from : SocketAddr)
    (r : exec HandshakeV2Error ServerEvent) (h' : ServerHandshake) : Prop :=
  (exists ev, r = Ret ev /\
     match ev with
     | SrvEmit pkts peer => peer = from /\ length pkts = 5%nat
     | SrvComplete o => completes h d pkt from o /\ sh_pending h' !! ho_session_id o = None
     | SrvNone => True
     end) /\
  server_wf h' /\ sh_cfg h' = sh_cfg h.

Lemma server_handle_wp d pkt from h :
  server_wf h -> WirePacket_wf pkt ->
  wp (server_handle_datagram d pkt from) h (handle_post h d pkt from).
Proof.
  intros Hwf Hp. unfold server_handle_datagram.
  destruct (byte_at _ _); try (apply wp_ret; split; [by exists SrvNone|done]).
  - eapply wp_mono; [by apply on_m1_fragment_wp|]. intros r s' [(ev & -> & Hev) Hrest].
    split; [|done]. exists ev. by destruct ev.
  - eapply wp_mono; [by apply on_m3_fragment_wp|]. intros r s' [Hr Hrest]. split; [|done].
    destruct Hr as [->|(o & -> & Ho)]; [by exists SrvNone|by exists (SrvComplete o)].
Qed.

Lemma server_new_wf cfg now :
  0 <= sc_rate_limit_burst cfg -> server_wf (ServerHandshake_new cfg now).
Proof.
  intros Hb. unfold ServerHandshake_new.
  set (cfg' := if (sc_max_roster_size cfg <? length (sc_roster cfg))%nat then sc_with_roster cfg [] else cfg).
  assert (0 <= sc_rate_limit_burst cfg' /\ (length (sc_roster cfg') <= sc_max_roster_size cfg')%nat)
    as [Hb' Hr'].
  { unfold cfg'. destruct (Nat.ltb_spec (sc_max_roster_size cfg) (length (sc_roster cfg)));
      cbn [sc_with_roster sc_rate_limit_burst sc_roster sc_max_roster_size length]; lia. }
  clearbody cfg'. split; cbn [sh_cfg sh_pending]; [|exact Hb'|apply map_Forall_empty| |exact Hr'].
  - split; cbn [sh_rate_order sh_rate_buckets];
      [apply lockstep_empty|rewrite map_size_empty; done|apply map_Forall_empty].
  - rewrite map_size_empty. lia.
Qed.

Lemma set_roster_wp roster h :
  server_wf h -> wp (set_roster roster) h (fun r h' =>
    server_wf h' /\
    match r with
    | Ret _ => sh_cfg h' = sc_with_roster (sh_cfg h) roster /\ sh_pending h' = sh_pending h
    | Fail _ => h' = h /\ (roster = [] \/ (sc_max_roster_size (sh_cfg h) < length roster)%nat)
    | Panic _ => False
    end).
Proof.
  intros Hwf. unfold set_roster. wp_steps. case_bool_decide as Hnil.
  { apply wp_try; intros ? Hx; [done|]. split; [done|]. split; [done|by left]. }
  destruct (Nat.ltb_spec (sc_max_roster_size (sh_cfg h)) (length roster)) as [|Hle].
  { apply wp_try; intros ? Hx; [done|]. split; [done|]. split; [done|by right]. }
  wp_steps. split; [|done]. destruct Hwf as [[Hl Hc Ht] Hb Hp Hs Hr].
  split; try done.
Qed.

(** ** Runs: any sequence of datagrams and roster changes *)

Inductive ServerOp :=
| OpDatagram (d : Draws) (pkt : WirePacket) (from : SocketAddr)
| OpSetRoster (roster : list VerifyingKey).

Definition server_apply (op : ServerOp) : M ServerHandshake HandshakeV2Error ServerEvent :=
  match op with
  | OpDatagram d pkt from => server_handle_datagram d pkt from
  | OpSetRoster roster => set_roster roster;; mret SrvNone
  end.

Definition op_wf (op : ServerOp) : Prop :=
  match op with OpDatagram _ pkt _ => WirePacket_wf pkt | OpSetRoster _ => True end.

Inductive server_reaches (cfg : ServerConfig) (now : Instant) : ServerHandshake -> Prop :=
| sr_new : server_reaches cfg now (ServerHandshake_new cfg now)
| sr_step h op : server_reaches cfg now h -> op_wf op ->
    server_reaches cfg now (server_apply op h).2.

Lemma server_reaches_wf cfg now h :
  0 <= sc_rate_limit_burst cfg -> server_reaches cfg now h ->
  server_wf h /\ sc_max_pending (sh_cfg h) = sc_max_pending cfg.
Proof.
  intros Hb Hr. induction Hr as [|h op Hr [IH Hm] Hop].
  { split; [by apply server_new_wf|]. unfold ServerHandshake_new. by case_match. }
  destruct op as [d pkt from|roster]; cbn [server_apply].
  - destruct (server_handle_wp d pkt from h IH Hop) as (_ & ? & ->). done.
  - pose proof (set_roster_wp roster h IH) as Hw. unfold wp in Hw.
    unfold mbind, M_bind. destruct (set_roster roster h) as [[?|?|?] h']; cbn [fst snd] in Hw.
    + destruct Hw as (? & Ec & _).
      change (server_wf h' /\ sc_max_pending (sh_cfg h') = sc_max_pending cfg). by rewrite Ec.
    + by destruct Hw as (? & -> & _).
    + by destruct Hw.
Qed.

(** An M3 naming no pending entry is ignored. *)
Lemma m3_unknown d pkt from h frag :
  byte_at (VERSION_LEN + SESSION_ID_LEN) (as_bytes pkt) = HS_TYPE_CLIENT_CONFIRM ->
  from_datagram pkt = Ok frag -> sh_pending h !! hf_sid frag = None ->
  (server_handle_datagram d pkt from h).1 = Ret SrvNone.
Proof.
  intros Hb Hf Hn. unfold server_handle_datagram. rewrite Hb. cbv iota.
  change (wp (on_m3_fragment d pkt from) h (fun r _ => r = Ret SrvNone)).
  unfold on_m3_fragment. rewrite Hf. wp_steps.
  destruct (sh_pending (evict_expired (now_evict d) h) !! hf_sid frag) as [e|] eqn:He.
  - apply map_lookup_filter_Some in He as [He _]. by rewrite He in Hn.
  - by wp_steps.
Qed.

End Invariant.

(** ** A concrete exchange for the witnesses *)

Module Sample.

Definition client_addr : SocketAddr := SocketAddrV4 LOCALHOST 40001.
Definition server_addr : SocketAddr := SocketAddrV4 LOCALHOST 40002.
Definition client_id : MlDsaKeypair := MlDsaKeypair_from_seed (replicate 32 x07).
Definition server_id : MlDsaKeypair := MlDsaKeypair_from_seed (replicate 32 x09).
Definition client_cfg : ClientConfig := ClientConfig_new server_addr client_id (dsa_public server_id).
Definition server_cfg : ServerConfig := ServerConfig_new server_id [dsa_public client_id].
Definition sid : bytes := be_bytes 8 0x1122334455667788.

(** All clock readings of a call at second [t]. *)
Definition draws (t : Z) : Draws :=
  mkDraws (from_secs t) (from_secs t) (from_secs t) (from_secs t)
    (replicate 32 x21) (replicate 32 x22) (replicate 32 x23).

Definition client : option ClientHandshake :=
  match (ClientHandshake_new client_cfg sid (replicate 32 x11) (replicate 32 x12) 5 ()).1 with
  | Ret h => Some h
  | _ => None
  end.

(** Deliver datagrams to the server from the client's address. *)
Fixpoint deliver (t : Z) (pkts : list WirePacket) (h : ServerHandshake)
    : list (exec HandshakeV2Error ServerEvent) * ServerHandshake :=
  match pkts with
  | [] => ([], h)
  | p :: pkts =>
      let '(r, h) := server_handle_datagram (draws t) p client_addr h in
      let '(rs, h) := deliver t pkts h in
      (r :: rs, h)
  end.

Definition server0 : ServerHandshake := ServerHandshake_new server_cfg 0.

(** The server after the four fragments of the client's M1. *)
Definition server1 : list (exec HandshakeV2Error ServerEvent) * ServerHandshake :=
  deliver 1 (default [] (ch_m1_frags <$> client)) server0.

Definition server_emitted {P : Primitives} (r : option (exec HandshakeV2Error ServerEvent))
    : list WirePacket :=
  match r with Some (Ret (SrvEmit pkts _)) => pkts | _ => [] end.

Definition client_emitted {P : Primitives} (r : option (exec HandshakeV2Error ClientEvent))
    : list WirePacket :=
  match r with Some (Ret (CE_M3Sent pkts _)) => pkts | _ => [] end.

Definition m2_frags : list WirePacket := server_emitted (last server1.1).

Fixpoint deliver_client (pkts : list WirePacket) (h : ClientHandshake)
    : list (exec HandshakeV2Error ClientEvent) * ClientHandshake :=
  match pkts with
  | [] => ([], h)
  | p :: pkts =>
      let '(r, h) := client_handle_datagram (replicate 32 x31) 3 p h in
      let '(rs, h) := deliver_client pkts h in
      (r :: rs, h)
  end.

Definition m3_frags : list WirePacket :=
  match client with
  | Some h => client_emitted (last (deliver_client m2_frags h).1)
  | None => []
  end.

Definition m3_packet : WirePacket := default (mkWirePacket []) (m3_frags !! 0%nat).

End Sample.

Lemma deliver_reaches t pkts h :
  Forall WirePacket_wf pkts -> server_reaches Sample.server_cfg 0 h ->
  server_reaches Sample.server_cfg 0 (Sample.deliver t pkts h).2.
Proof.
  revert h. induction pkts as [|p pkts IH]; intros h Hp Hr; [done|].
  apply Forall_cons in Hp as [Hp Hps]. cbn [Sample.deliver].
  pose proof (sr_step _ _ h (OpDatagram (Sample.draws t) p Sample.client_addr) Hr Hp) as Hr'.
  cbn [server_apply] in Hr'. destruct (server_handle_datagram _ _ _ _) as [r h'].
  specialize (IH h' Hps Hr'). by destruct (Sample.deliver t pkts h').
Qed.

Lemma all_wf pkts :
  forallb (fun p => (length (as_bytes p) =? PACKET_SIZE)%nat) pkts = true ->
  Forall WirePacket_wf pkts.
Proof.
  intros H. apply Forall_forall. intros p Hp. rewrite forallb_forall in H.
  by apply Nat.eqb_eq, H, list_elem_of_In.
Qed.

Lemma sample_wf : Forall WirePacket_wf (default [] (ch_m1_frags <$> Sample.client)) /\
  WirePacket_wf Sample.m3_packet.
Proof. split; [apply all_wf; vm_compute; reflexivity|apply Nat.eqb_eq; vm_compute; reflexivity]. Qed.

Lemma sample_reaches : server_reaches Sample.server_cfg 0 Sample.server1.2.
Proof. apply deliver_reaches; [apply sample_wf|apply sr_new]. Qed.

Definition is_complete {P : Primitives} (r : exec HandshakeV2Error ServerEvent) : bool :=
  match r with Ret (SrvComplete _) => true | _ => false end.

(** ** Properties *)

(** The server handshake machine is total on network input: in every state
    it can reach through datagrams and roster changes, whatever datagram arrives
    from whatever source, the handler returns an event (no panic at any of its
    [expect]s, no error), and it only ever answers the source it heard from,
    with exactly the five fragments of an M2. *)
Theorem server_handle_total {P : Primitives} {L : PrimitivesLaws P} cfg now h d pkt from :
  0 <= sc_rate_limit_burst cfg -> server_reaches cfg now h -> WirePacket_wf pkt ->
  exists ev, (server_handle_datagram d pkt from h).1 = Ret ev /\
    forall pkts peer, ev = SrvEmit pkts peer -> peer = from /\ length pkts = 5%nat.
Proof.
  intros Hb Hr Hp. destruct (server_reaches_wf _ _ _ Hb Hr) as [Hwf _].
  destruct (server_handle_wp d pkt from h Hwf Hp) as ((ev & -> & Hev) & _).
  exists ev. split; [done|]. by intros ? ? ->.
Qed.

Lemma server_handle_total_witness :
  exists ev, (server_handle_datagram (Sample.draws 2) Sample.m3_packet Sample.server_addr
                Sample.server1.2).1 = Ret ev /\
    forall pkts peer, ev = SrvEmit pkts peer -> peer = Sample.server_addr /\ length pkts = 5%nat.
Proof.
  apply (server_handle_total Sample.server_cfg 0);
    [vm_compute; discriminate|apply sample_reaches|apply sample_wf].
Defined.

(** The server tables stay bounded under any traffic: at most [max_pending]
    pending handshakes and 4096 rate buckets, the eviction queue holds exactly
    the tracked sources, and no bucket holds more than a burst of tokens. *)
Theorem server_tables_bounded {P : Primitives} {L : PrimitivesLaws P} cfg now h :
  0 <= sc_rate_limit_burst cfg -> server_reaches cfg now h ->
  (size (sh_pending h) <= sc_max_pending cfg)%nat /\
  Z.of_nat (size (sh_rate_buckets h)) <= MAX_RATE_BUCKETS /\
  length (sh_rate_order h) = size (sh_rate_buckets h) /\ NoDup (sh_rate_order h) /\
  map_Forall (fun _ b => 0 <= rb_tokens b <= sc_rate_limit_burst (sh_cfg h)) (sh_rate_buckets h).
Proof.
  intros Hb Hr. destruct (server_reaches_wf _ _ _ Hb Hr) as [[[Hl Hc Ht] _ _ Hs _] Em].
  rewrite <- Em. split; [done|]. split; [done|]. split; [by apply lockstep_length|].
  split; [apply Hl|done].
Qed.

Lemma server_tables_bounded_witness : (size (sh_pending Sample.server1.2) <= 64)%nat.
Proof.
  apply (server_tables_bounded Sample.server_cfg 0); [vm_compute; discriminate|apply sample_reaches].
Defined.

(** C8: A completed handshake is authentic and happens once: the server reports
    one only for an M3 from the source that sent the M1, on a live entry whose
    M1 carries a valid signature of the reported identity, that identity is on
    the roster in force at that moment (also after a roster change), and the
    Finished MAC verifies under the keys derived from the three messages; the
    entry is gone, so the same M3 from anyone yields nothing. *)
Theorem server_complete_authentic {P : Primitives} {L : PrimitivesLaws P} cfg now h d pkt from o h' :
  0 <= sc_rate_limit_burst cfg -> server_reaches cfg now h -> WirePacket_wf pkt ->
  server_handle_datagram d pkt from h = (Ret (SrvComplete o), h') ->
  completes h d pkt from o /\
  forall d' from', (server_handle_datagram d' pkt from' h').1 = Ret SrvNone.
Proof.
  intros Hb Hr Hp Hh. destruct (server_reaches_wf _ _ _ Hb Hr) as [Hwf _].
  destruct (wp_run _ _ _ _ _ (server_handle_wp d pkt from h Hwf Hp) Hh)
    as ((ev & [= <-] & Hc & Hgone) & _).
  split; [done|]. intros d' from'. destruct Hc as (frag & e & m3 & m1 & m2 & sk & ss & th & k & Hf & Hs & _).
  apply (m3_unknown _ _ _ _ frag); [|done|by rewrite Hs].
  unfold server_handle_datagram in Hh. destruct (byte_at _ _) eqn:Hbyte; try discriminate Hh; [|done].
  destruct (wp_run _ _ _ _ _ (on_m1_fragment_wp d pkt from h Hwf Hp) Hh) as ((ev & [= <-] & []) & _).
Qed.

Lemma server_complete_authentic_witness : exists o h',
  server_handle_datagram (Sample.draws 2) Sample.m3_packet Sample.client_addr Sample.server1.2
    = (Ret (SrvComplete o), h') /\
  completes Sample.server1.2 (Sample.draws 2) Sample.m3_packet Sample.client_addr o.
Proof.
  destruct (server_handle_datagram (Sample.draws 2) Sample.m3_packet Sample.client_addr Sample.server1.2)
    as [r h'] eqn:E.
  assert (is_complete (r, h').1 = true) as Hc by (rewrite <- E; vm_compute; reflexivity).
  destruct r as [[|o|]| |]; try discriminate Hc.
  exists o, h'. split; [reflexivity|].
  apply (server_complete_authentic Sample.server_cfg 0 _ _ _ _ _ h');
    [vm_compute; discriminate|apply sample_reaches|apply sample_wf|exact E].
Defined.

(** ** An M1 refused at its last fragment *)

Section Stuck.
Context {P : Primitives}.

(** A pending entry whose M1 is complete and was not processed. *)
Definition m1_stuck (sid : bytes) (e : PendingSession) (h : ServerHandshake) : Prop :=
  sh_pending h !! sid = Some e /\ ps_state e = AwaitM1 /\
  exists asm, ps_assembler e = Some asm /\ fa_complete asm = true.

Lemma add_fragment_after_complete a f : fa_complete a = true -> add_fragment a f = (FrIgnored, a).
Proof. intros H. unfold add_fragment. by rewrite H. Qed.

Lemma m1_stuck_evict now sid e h :
  m1_stuck sid e h -> duration_since now (ps_last_seen e) < sc_pending_ttl (sh_cfg h) ->
  m1_stuck sid e (evict_expired now h).
Proof.
  intros (He & Hs) Ht. split; [|done]. unfold evict_expired, sh_map_pending. cbn [sh_pending].
  apply map_lookup_filter_Some. split; [done|]. cbn [snd]. lia.
Qed.

(** A source over its budget when its M1 completes keeps a complete assembler in
    the table: the fragment is consumed and the message is not processed. *)
Lemma m1_refused_stuck d frag e asm asm' from h :
  ps_state e = AwaitM1 -> ps_assembler e = Some asm -> add_fragment asm frag = (FrCompleted, asm') ->
  (rate_ok from (now_rate d) (sh_map_pending (<[hf_sid frag := ps_with_assembler asm' e]>) h)).1 = false ->
  rate_wf h -> 0 <= sc_rate_limit_burst (sh_cfg h) ->
  let r := m1_advance d frag e from h in
  r.1 = Ret SrvNone /\ m1_stuck (hf_sid frag) (ps_with_assembler asm' e) r.2.
Proof.
  intros Hs Ha Hadd Hrate Hwf Hb r. subst r. unfold m1_advance, expect, mbind, M_bind, modify, call.
  rewrite Ha, Hadd. cbn beta iota. set (h1 := sh_map_pending _ h) in *.
  destruct (rate_ok_wf from (now_rate d) h1) as [_ [_ Ep]]; [done|by destruct Hwf; split|].
  rewrite Hrate. cbn. split; [done|]. unfold m1_stuck. rewrite Ep. cbn. rewrite lookup_insert_eq.
  split; [done|]. split; [done|]. exists asm'. split; [done|].
  apply add_fragment_completed in Hadd. unfold assembled_message in Hadd.
  by destruct (fa_complete asm').
Qed.

(** From then on, until the entry expires, no datagram for that identifier has
    any effect on it, retransmissions of the whole M1 by its own source
    included. *)
Theorem m1_stuck_until_expiry d pkt from frag e h :
  m1_stuck (hf_sid frag) e h -> from_datagram pkt = Ok frag ->
  duration_since (now_evict d) (ps_last_seen e) < sc_pending_ttl (sh_cfg h) ->
  let r := server_handle_datagram d pkt from h in
  r.1 = Ret SrvNone /\ m1_stuck (hf_sid frag) e r.2.
Proof.
  intros Hst Hf Ht r. subst r. unfold server_handle_datagram.
  pose proof (m1_stuck_evict _ _ _ _ Hst Ht) as Hse.
  pose proof Hse as (He & Hs & asm & Ha & Hc).
  destruct (byte_at _ _); try done.
  - unfold on_m1_fragment. rewrite Hf. unfold mbind, M_bind, modify, get. cbn beta iota. rewrite He.
    case_match; [done|]. rewrite Hs. unfold m1_advance, expect, mbind, M_bind. rewrite Ha.
    rewrite add_fragment_after_complete by done. split; [done|]. cbn.
    assert (ps_with_assembler asm e = e) as ->
      by (unfold ps_with_assembler; rewrite <- Ha; by destruct e).
    unfold sh_map_pending, m1_stuck. cbn [sh_pending]. rewrite lookup_insert_eq. eauto 6.
  - unfold on_m3_fragment. rewrite Hf. unfold mbind, M_bind, modify, get. cbn beta iota. rewrite He, Hs.
    rewrite orb_true_r. done.
Qed.

End Stuck.
