(* ===== verification/HandshakeClientOk.v ===== *)
(** * Safety of the client handshake machine

    The invariant of [ClientHandshake], its preservation by the datagram and
    timer handlers, absence of panics and errors on network input, the meaning
    of an emitted M3, and the bounded retransmission of the driver. *)

From S2P Require Import Prelude Bytes Errors Codec Replay Crypto Envelope WireSession Exec Net HandshakeMsg HandshakeFrag HandshakeClient HandshakeServer HandshakeSafety.

Local Open Scope Z_scope.

Section Client.
Context {P : Primitives} {L : PrimitivesLaws P}.

Record hs_wf (h : ClientHandshake) : Prop := {
  hw_sid : length (ch_sid h) = SESSION_ID_LEN;
  hw_m1 : length (ClientHello_encode (ch_m1 h)) = M1_BODY_LEN;
  hw_state : match ch_state h with
             | AwaitM2 a _ _ => length (fa_buffer a) = M2_BODY_LEN
             | M3Sent _ _ _ o => ho_session_id o = ch_sid h
             end }.

(** The machine's identity: configuration, identifier, keys and M1. *)
Definition same_machine (h h' : ClientHandshake) : Prop :=
  ch_cfg h' = ch_cfg h /\ ch_sid h' = ch_sid h /\ ch_kp_mlkem h' = ch_kp_mlkem h /\
  ch_kp_x h' = ch_kp_x h /\ ch_m1 h' = ch_m1 h /\ ch_m1_frags h' = ch_m1_frags h.

(** The datagram [pkt] is the fragment of the machine's session that completes the
    M2 being assembled, whose bytes are then [m2_bytes]. *)
Definition completes_m2 (h : ClientHandshake) (pkt : WirePacket) (m2_bytes : bytes) : Prop :=
  exists a attempts delay frag a', ch_state h = AwaitM2 a attempts delay /\
    from_datagram pkt = Ok frag /\ hf_sid frag = ch_sid h /\
    add_fragment a frag = (FrCompleted, a') /\ assembled_message a' = Some m2_bytes.

(** The M2 is of the machine's session and version and signed by the pinned server
    key over the transcript of the machine's own M1 and that M2, the X25519
    exchange is contributory, and the outcome's master secret is derived from the
    two encapsulated secrets, the exchanged one and the transcript of the three
    messages. *)
Definition signed_m2 (h : ClientHandshake) (rand_encap m2_bytes : bytes) (o : HandshakeOutcome) : Prop :=
  let version := cc_version (ch_cfg h) in
  exists m2 th2 ss_a ss_b ct3 dh th3, length m2_bytes = M2_BODY_LEN /\ ServerHello_decode m2_bytes = Ok m2 /\
    m2_sid m2 = ch_sid h /\ m2_version m2 = version /\
    th2_from_m1_m2 (ClientHello_encode (ch_m1 h)) m2_bytes = Some th2 /\
    dsa_verify (cc_server_identity (ch_cfg h)) th2 (m2_server_sig m2) = true /\
    decapsulate (kem_secret (ch_kp_mlkem h)) (m2_ct2 m2) = Ok ss_a /\
    encapsulate (m2_eph_pk_s m2) rand_encap = Ok (ss_b, ct3) /\
    diffie_hellman (ch_kp_x h) (m2_x_s m2) = Some dh /\
    th3_from_m1_m2_m3 (ClientHello_encode (ch_m1 h)) m2_bytes (encode_m3 version (ch_sid h) ct3 None) = Some th3 /\
    derive_master ss_a ss_b dh version (ch_sid h) th3 = Ok (ho_master o) /\
    ho_session_id o = ch_sid h /\ ho_peer_identity o = cc_server_identity (ch_cfg h).

(** What an emitted M3 means. *)
Definition authentic_m2 (h : ClientHandshake) (rand_encap : bytes) (pkt : WirePacket) (o : HandshakeOutcome) : Prop :=
  exists m2_bytes, completes_m2 h pkt m2_bytes /\ signed_m2 h rand_encap m2_bytes o.

Lemma authentic_m2_sid h re pkt o : authentic_m2 h re pkt o -> ho_session_id o = ch_sid h.
Proof. intros (m2_bytes & _ & m2 & th2 & ss_a & ss_b & ct3 & dh & th3 & Hs). apply Hs. Qed.

(** [ok] is what an outcome is to satisfy. *)
Definition client_post (ok : HandshakeOutcome -> Prop) (h : ClientHandshake) (r : exec HandshakeV2Error ClientEvent)
    (h' : ClientHandshake) : Prop :=
  hs_wf h' /\ same_machine h h' /\
  (r = Ret CE_None \/
   exists pkts o, r = Ret (CE_M3Sent pkts o) /\ length pkts = 1%nat /\ ok o /\
     client_outcome h' = Some o).

Lemma client_post_none ok h h' : hs_wf h' -> same_machine h h' -> client_post ok h (Ret CE_None) h'.
Proof. intros ? ?. split; [done|]. split; [done|by left]. Qed.

Lemma client_post_same (ok ok' : HandshakeOutcome -> Prop) h0 h r h' :
  same_machine h0 h -> (forall o, ok' o -> ok o) -> client_post ok' h r h' -> client_post ok h0 r h'.
Proof.
  intros (E1 & E2 & E3 & E4 & E5 & E6) Hok (Hw & (F1 & F2 & F3 & F4 & F5 & F6) & Hr).
  split; [done|]. split; [unfold same_machine; by rewrite F1, F2, F3, F4, F5, F6|].
  destruct Hr as [Hr|(pkts & o & Hr & Hl & Ho & Hc)]; [by left|right]. exists pkts, o. auto.
Qed.

Lemma reset_m2_wp ok h :
  hs_wf h -> wp (reset_m2_assembler;; mret CE_None) h (client_post ok h).
Proof.
  intros Hwf. unfold reset_m2_assembler. wp_steps. destruct (ch_state h) as [a att dl|] eqn:Hst.
  - wp_steps. destruct (FragmentAssembler_new HS_TYPE_SERVER_HELLO) as [a'|] eqn:Ha; [|discriminate Ha].
    eapply wp_expect; [reflexivity|]. wp_steps. apply client_post_none; [|done].
    destruct Hwf as [H1 H2 _]. split; [done|done|]. cbn [ch_set_state ch_state]. injection Ha as <-.
    apply length_zeros.
  - wp_steps. by apply client_post_none.
Qed.

Lemma ServerHello_decode_ct2 b m : ServerHello_decode b = Ok m ->
  length b = M2_BODY_LEN.
Proof. unfold ServerHello_decode. destruct (Nat.eqb_spec (length b) M2_BODY_LEN); done. Qed.

Lemma on_complete_m2_wp h rencap rj m2_bytes :
  hs_wf h -> length m2_bytes = M2_BODY_LEN ->
  wp (on_complete_m2 rencap rj m2_bytes) h (client_post (signed_m2 h rencap m2_bytes) h).
Proof.
  intros Hwf Hl. pose proof (hw_sid _ Hwf) as Hsid. unfold on_complete_m2. wp_steps.
  destruct (ServerHello_decode m2_bytes) as [m2|] eqn:Em2; [|by apply reset_m2_wp].
  destruct (negb _ || negb _) eqn:Hid; [by apply reset_m2_wp|].
  apply orb_false_iff in Hid as [H1%negb_false_iff%bool_decide_eq_true_1
    H2%negb_false_iff%bool_decide_eq_true_1].
  destruct (th2_some _ m2_bytes (hw_m1 _ Hwf) Hl) as [th2 Hth2].
  apply wp_bind. eapply wp_expect; [exact Hth2|]. cbv beta iota. unfold dsa_verify_msg.
  destruct (dsa_verify (cc_server_identity (ch_cfg h)) th2 (m2_server_sig m2)) eqn:Hv;
    (apply wp_bind; eapply wp_try_ok; [reflexivity|]; cbv beta iota; cbn [negb]); [|by apply reset_m2_wp].
  apply wp_bind. eapply wp_try_ok; [reflexivity|]. cbv beta iota. unfold encapsulate.
  pose proof (kem_lengths (m2_eph_pk_s m2) rencap) as [Hct _].
  destruct (kem_encapsulate (m2_eph_pk_s m2) rencap) as [ct3 ss_b] eqn:Hkem. cbn [fst] in Hct.
  apply wp_bind. eapply wp_try_ok; [reflexivity|]. cbv beta iota.
  destruct (diffie_hellman (ch_kp_x h) (m2_x_s m2)) as [dh|] eqn:Hdh; [|by apply reset_m2_wp].
  pose proof (length_encode_m3 (cc_version (ch_cfg h)) (ch_sid h) ct3 None Hsid Hct ltac:(done)) as Hl3.
  destruct (th3_some _ _ _ (hw_m1 _ Hwf) Hl Hl3) as [th3 Hth3].
  wp_steps. eapply wp_expect; [exact Hth3|]. wp_steps.
  edestruct derive_master_ok as (ms & Hms & _). eapply wp_try_ok; [exact Hms|]. wp_steps.
  destruct (derive_finished_key_ok ms (cc_version (ch_cfg h)) (ch_sid h)) as (key & Hkey).
  eapply wp_try_ok; [exact Hkey|]. wp_steps.
  eapply wp_try_ok.
  { apply (fragment_message_ok _ M3_FRAG_COUNT 1). split; [done|].
    unfold ClientConfirm_encode. rewrite length_encode_m3; [done|done|done|].
    intros mac [= <-]. unfold compute_client_finished. cbn [m3_client_finished].
    rewrite length_take, hmac_length. done. }
  wp_steps. split; [split; [done|apply Hwf|done]|]. split; [done|]. right.
  do 2 eexists. split; [reflexivity|]. split; [done|]. split; [|done].
  exists m2, th2. do 3 eexists. exists dh, th3. unfold encapsulate. by rewrite Hkem.
Qed.

Lemma client_handle_wp h rencap rj pkt :
  hs_wf h -> wp (client_handle_datagram rencap rj pkt) h (client_post (authentic_m2 h rencap pkt) h).
Proof.
  intros Hwf. unfold client_handle_datagram. wp_steps.
  destruct (negb _); [wp_steps; by apply client_post_none|].
  destruct (from_datagram pkt) as [frag|] eqn:Hfrag; [|wp_steps; by apply client_post_none].
  destruct (negb _) eqn:Hid; [wp_steps; by apply client_post_none|].
  apply negb_false_iff, bool_decide_eq_true_1 in Hid.
  destruct (ch_state h) as [a att dl|] eqn:Hst; [|wp_steps; by apply client_post_none].
  pose proof (hw_state _ Hwf) as Hlen. rewrite Hst in Hlen.
  destruct (add_fragment a frag) as [res a'] eqn:Hadd.
  assert (length (fa_buffer a') = M2_BODY_LEN) as Hlen'.
  { pose proof (add_fragment_length a frag) as E. by rewrite Hadd, Hlen in E. }
  assert (hs_wf (ch_set_state (AwaitM2 a' att dl) h)) as Hwf1 by (split; [apply Hwf|apply Hwf|done]).
  wp_steps. destruct res; [wp_steps; by apply client_post_none|wp_steps; by apply client_post_none|].
  wp_steps. eapply wp_expect; [by eapply add_fragment_completed|]. cbv beta iota.
  eapply wp_mono; [by apply on_complete_m2_wp|]. intros r s'. apply client_post_same; [done|].
  intros o Ho. eexists. split; [|exact Ho]. exists a, att, dl, frag, a'. do 4 (split; [done|]).
  by eapply add_fragment_completed.
Qed.

Lemma client_timer_wp h rj :
  hs_wf h -> wp (client_on_timer rj) h (fun r h' => hs_wf h' /\ same_machine h h' /\
    (r = Fail HS_Timeout \/ (exists pkts, r = Ret (CE_Emit pkts)))).
Proof.
  intros Hwf. unfold client_on_timer. wp_steps. pose proof (hw_state _ Hwf) as Hst.
  destruct (ch_state h) as [a att dl|frags att dl o] eqn:Es; (case_match;
    [apply wp_try; [done|]; intros e [= <-]; by split; [|split; [|left]]|]);
    wp_steps; (split; [split; [apply Hwf|apply Hwf|done]|]); (split; [done|]); right; by eexists.
Qed.

Lemma client_new_wp cfg sid rkem rx rj :
  length sid = SESSION_ID_LEN ->
  wp (ClientHandshake_new cfg sid rkem rx rj) () (fun r _ =>
    (exists h, r = Ret h /\ hs_wf h /\ ch_sid h = sid /\ ch_cfg h = cfg /\ length (ch_m1_frags h) = 4%nat /\
       exists a dl, ch_state h = AwaitM2 a 0 dl) \/
    (cc_version cfg <> PROTOCOL_VERSION /\ exists msg, r = Fail (HS_InvalidConfig msg))).
Proof.
  intros Hsid. unfold ClientHandshake_new, validate_version. wp_steps. case_bool_decide as Hv.
  2:{ apply wp_try; [done|]. intros e [= <-]. right. split; [done|]. by eexists. }
  eapply wp_try_ok; [reflexivity|]. wp_steps. unfold MlKemKeypair_generate, MlDsaKeypair_sign.
  destruct (kem_generate rkem) as [dk ek]. eapply wp_try_ok; [reflexivity|].
  pose proof (x25519_public_length (x25519_secret rx)) as Hx.
  wp_steps. cbn [kem_public X25519Keypair_generate x_public].
  destruct (th1_some (encode_m1 (cc_version cfg) sid ek (x25519_public (x25519_secret rx)) None))
    as [th1 Hth1]; [by apply length_encode_m1|].
  eapply wp_expect; [exact Hth1|]. wp_steps. eapply wp_try_ok; [reflexivity|]. wp_steps.
  assert (length (ClientHello_encode (mkClientHello (cc_version cfg) sid ek
    (x25519_public (x25519_secret rx)) (dsa_sign (dsa_secret (cc_identity cfg)) th1))) = M1_BODY_LEN) as Hl1
    by (by apply length_encode_m1).
  eapply wp_try_ok; [apply (fragment_message_ok _ M1_FRAG_COUNT 4); split; [done|by rewrite Hl1]|].
  wp_steps. destruct (FragmentAssembler_new HS_TYPE_SERVER_HELLO) as [a|] eqn:Ha; [|discriminate Ha].
  eapply wp_expect; [reflexivity|]. wp_steps. left. eexists. split; [reflexivity|].
  split; [|split; [done|]; split; [done|]; split; [done|by eexists _, _]].
  split; [done|exact Hl1|]. cbn [ch_state]. injection Ha as <-. apply length_zeros.
Qed.

(** The fragments of a new machine are those of its M1. *)
Lemma client_new_frags cfg sid rkem rx rj h :
  (ClientHandshake_new cfg sid rkem rx rj ()).1 = Ret h ->
  fragment_message HS_TYPE_CLIENT_HELLO (cc_version cfg) sid (ClientHello_encode (ch_m1 h)) = Ok (ch_m1_frags h).
Proof.
  assert (wp (ClientHandshake_new cfg sid rkem rx rj) () (fun r _ => forall h, r = Ret h ->
    fragment_message HS_TYPE_CLIENT_HELLO (cc_version cfg) sid (ClientHello_encode (ch_m1 h)) = Ok (ch_m1_frags h))) as Hw;
    [|apply Hw].
  unfold ClientHandshake_new. wp_steps. apply wp_try; [|done]. intros ? _. wp_steps.
  apply wp_try; [|done]. intros kp _. wp_steps. destruct (th1_from_m1 _) as [th1|]; [|done].
  eapply wp_expect; [reflexivity|]. wp_steps. apply wp_try; [|done]. intros sig _. wp_steps.
  apply wp_try; [|done]. intros frags Hf. wp_steps. destruct (FragmentAssembler_new _) as [fa|]; [|done].
  eapply wp_expect; [reflexivity|]. wp_steps. by intros h' [= <-].
Qed.

(** ** Runs of the machine *)

Inductive client_reaches (cfg : ClientConfig) (sid : bytes) : ClientHandshake -> Prop :=
| cr_new rkem rx rj h : (ClientHandshake_new cfg sid rkem rx rj ()).1 = Ret h -> client_reaches cfg sid h
| cr_datagram re rj pkt h : client_reaches cfg sid h ->
    client_reaches cfg sid (client_handle_datagram re rj pkt h).2
| cr_timer rj h : client_reaches cfg sid h -> client_reaches cfg sid (client_on_timer rj h).2.

Lemma client_reaches_wf cfg sid h :
  length sid = SESSION_ID_LEN -> client_reaches cfg sid h ->
  hs_wf h /\ ch_sid h = sid /\ ch_cfg h = cfg.
Proof.
  intros Hs Hr. induction Hr as [rkem rx rj h Hnew|re rj pkt h Hr (IH & E1 & E2)|rj h Hr (IH & E1 & E2)].
  - pose proof (client_new_wp cfg sid rkem rx rj Hs) as Hw. unfold wp in Hw. rewrite Hnew in Hw.
    destruct Hw as [(h' & [= <-] & ? & ? & ? & _)|[_ [msg ?]]]; done.
  - destruct (client_handle_wp h re rj pkt IH) as (Hw & (F1 & F2 & _) & _). by rewrite F1, F2.
  - destruct (client_timer_wp h rj IH) as (Hw & (F1 & F2 & _) & _). by rewrite F1, F2.
Qed.

(** A machine that emitted its M3 ignores every datagram. *)
Lemma m3_sent_ignores re rj pkt h o :
  client_outcome h = Some o -> (client_handle_datagram re rj pkt h).1 = Ret CE_None.
Proof.
  intros Ho. change (wp (client_handle_datagram re rj pkt) h (fun r _ => r = Ret CE_None)).
  unfold client_handle_datagram. wp_steps. destruct (negb _); [by wp_steps|].
  destruct (from_datagram pkt); [|by wp_steps]. destruct (negb _); [by wp_steps|].
  unfold client_outcome in Ho. destruct (ch_state h); [done|by wp_steps].
Qed.

(** ** The driver without an answer *)

Definition timer_turn (j : Z) : DriverTurn := mkDriverTurn DI_Timer [] j 0.

Lemma send_all_ok peer frags sent :
  send_all (fun _ => Ok ()) peer frags sent = (Ok (), sent ++ ((fun f => (f, peer)) <$> frags)).
Proof.
  revert sent. induction frags as [|f frags IH]; intros sent; cbn [send_all]; [by rewrite app_nil_r|].
  rewrite IH. by rewrite <- app_assoc.
Qed.

Lemma client_loop_timers cfg js n h sent a att dl :
  ch_state h = AwaitM2 a att dl -> ch_cfg h = cfg -> att + Z.of_nat n = cc_m1_max_attempts cfg ->
  length js = S n ->
  client_loop (fun _ => Ok ()) cfg (timer_turn <$> js) h sent =
  (Some (Fail HS_Timeout),
   sent ++ mjoin (replicate n ((fun f => (f, cc_server_addr cfg)) <$> ch_m1_frags h))).
Proof.
  revert js h sent att dl. induction n as [|n IH]; intros js h sent att dl Hst Hcfg Hatt Hjs.
  - destruct js as [|j js]; [done|]. cbn [fmap list_fmap client_loop timer_turn dt_input dt_rand_jitter].
    unfold client_on_timer, mbind, M_bind, get. rewrite Hst, Hcfg.
    replace (cc_m1_max_attempts cfg <=? att) with true by lia.
    cbn [try]. cbn [client_dispatch replicate mjoin list_join]. by rewrite app_nil_r.
  - destruct js as [|j js]; [done|]. cbn [fmap list_fmap client_loop timer_turn dt_input dt_rand_jitter].
    unfold client_on_timer at 1, mbind, M_bind, get. rewrite Hst, Hcfg.
    replace (cc_m1_max_attempts cfg <=? att) with false by lia.
    unfold modify, mret, M_ret. cbn [client_dispatch dt_elapsed]. rewrite send_all_ok.
    fold (fmap timer_turn js).
    rewrite (IH js _ _ (att + 1) (backoff_delay (cc_m1_retransmit_base cfg) (att + 1) j));
      [|reflexivity|done|lia|by injection Hjs].
    cbn [ch_set_state ch_m1_frags replicate mjoin list_join]. by rewrite <- app_assoc.
Qed.

End Client.

(** ** Properties *)

(** C2: The client only proceeds on an authentic answer, and once: whatever
    datagrams and timer ticks it saw, its datagram handler returns an event (no
    panic, no error), and it emits an M3 and reports a session only when the
    datagram is the fragment of its session that completes the M2 it was
    assembling, and that M2 names its session and version and carries the pinned
    server's valid signature over the transcript of its own M1 and that M2, with a
    contributory X25519 exchange; the reported session has the identifier, the
    pinned peer and the master secret derived from the two encapsulated secrets,
    the exchanged one and the transcript of the three messages; afterwards it
    ignores every datagram. *)
Theorem client_m3_authentic {P : Primitives} {L : PrimitivesLaws P} cfg sid h re rj pkt :
  length sid = SESSION_ID_LEN -> client_reaches cfg sid h ->
  let run := client_handle_datagram re rj pkt h in
  run.1 = Ret CE_None \/
  exists pkts o, run.1 = Ret (CE_M3Sent pkts o) /\ authentic_m2 h re pkt o /\
    forall re' rj' pkt', (client_handle_datagram re' rj' pkt' run.2).1 = Ret CE_None.
Proof.
  intros Hs Hr run. destruct (client_reaches_wf _ _ _ Hs Hr) as (Hwf & _).
  destruct (client_handle_wp h re rj pkt Hwf) as (_ & _ & [E|(pkts & o & E & _ & Ha & Ho)]); [by left|right].
  exists pkts, o. split; [done|]. split; [done|]. intros re' rj' pkt'. by apply (m3_sent_ignores _ _ _ _ o).
Qed.

Lemma sample_client_reaches h :
  Sample.client = Some h -> client_reaches Sample.client_cfg Sample.sid h.
Proof.
  unfold Sample.client. intros H.
  apply (cr_new _ _ (replicate 32 x11) (replicate 32 x12) 5).
  destruct (ClientHandshake_new Sample.client_cfg Sample.sid (replicate 32 x11) (replicate 32 x12) 5 ()).1;
    congruence.
Qed.

Lemma client_m3_authentic_witness : exists h,
  Sample.client = Some h /\
  let run := client_handle_datagram (replicate 32 x31) 3 Sample.m3_packet h in
  (run.1 = Ret CE_None \/ exists pkts o, run.1 = Ret (CE_M3Sent pkts o) /\
     authentic_m2 h (replicate 32 x31) Sample.m3_packet o).
Proof.
  assert (match Sample.client with Some _ => true | None => false end = true) as Hc by (vm_compute; reflexivity).
  destruct Sample.client as [h|] eqn:E; [|discriminate Hc].
  exists h. split; [reflexivity|].
  destruct (client_m3_authentic Sample.client_cfg Sample.sid h (replicate 32 x31) 3 Sample.m3_packet
    eq_refl (sample_client_reaches h E)) as [H|(pkts & o & H & Ha & _)];
    [left; exact H|right; exists pkts, o; split; [exact H|exact Ha]].
Defined.

(** C37: The client driver gives up: with a working transport and no answer, it
    transmits the four fragments of its M1 to the server once plus once per timer tick, byte-identically,
    and returns [Timeout] at tick [m1_max_attempts + 1]. *)
Theorem client_driver_gives_up {P : Primitives} {L : PrimitivesLaws P} cfg sid rkem rx rj js :
  cc_version cfg = PROTOCOL_VERSION -> length sid = SESSION_ID_LEN -> 0 <= cc_m1_max_attempts cfg ->
  length js = S (Z.to_nat (cc_m1_max_attempts cfg)) ->
  exists h frags, (ClientHandshake_new cfg sid rkem rx rj ()).1 = Ret h /\
    fragment_message HS_TYPE_CLIENT_HELLO PROTOCOL_VERSION sid (ClientHello_encode (ch_m1 h)) = Ok frags /\
    length frags = 4%nat /\
    client_handshake_v2 (fun _ => Ok ()) cfg (Ok sid) rkem rx rj (timer_turn <$> js) =
    (Some (Fail HS_Timeout),
     mjoin (replicate (S (Z.to_nat (cc_m1_max_attempts cfg)))
              ((fun f => (f, cc_server_addr cfg)) <$> frags))).
Proof.
  intros Hv Hs Hm Hj. pose proof (client_new_wp cfg sid rkem rx rj Hs) as Hw. unfold wp in Hw.
  unfold client_handshake_v2, validate_version. rewrite bool_decide_true by done. cbn [random_sid map_err].
  pose proof (client_new_frags cfg sid rkem rx rj) as Hfr.
  destruct (ClientHandshake_new cfg sid rkem rx rj ()).1 as [h| |];
    destruct Hw as [(h' & [= <-] & Hwf & E1 & E2 & Hl & a & dl & Hh)|[? _]]; try done.
  exists h, (ch_m1_frags h). split; [done|]. split; [rewrite <- Hv; by apply Hfr|]. split; [done|].
  rewrite send_all_ok. cbn [app].
  rewrite (client_loop_timers cfg js (Z.to_nat (cc_m1_max_attempts cfg)) h _ a 0 dl); [done|done|done|lia|done].
Qed.

Lemma client_driver_gives_up_witness : exists h frags,
  (ClientHandshake_new Sample.client_cfg Sample.sid (replicate 32 x11) (replicate 32 x12) 5 ()).1 = Ret h /\
  fragment_message HS_TYPE_CLIENT_HELLO PROTOCOL_VERSION Sample.sid (ClientHello_encode (ch_m1 h)) = Ok frags /\
  length frags = 4%nat /\
  client_handshake_v2 (fun _ => Ok ()) Sample.client_cfg (Ok Sample.sid) (replicate 32 x11)
    (replicate 32 x12) 5 (timer_turn <$> replicate 9 7) =
  (Some (Fail HS_Timeout),
   mjoin (replicate 9 ((fun f => (f, cc_server_addr Sample.client_cfg)) <$> frags))).
Proof.
  exact (client_driver_gives_up Sample.client_cfg Sample.sid (replicate 32 x11) (replicate 32 x12) 5
    (replicate 9 7) eq_refl eq_refl ltac:(vm_compute; discriminate) eq_refl).
Defined.
