(* ===== verification/HandshakeRun.v ===== *)
(** * The honest handshake

    A client and a server with matching configurations run the protocol over a
    network that reorders and duplicates fragments: the server answers the last
    missing M1 fragment with its M2, the client answers the last missing M2
    fragment with its M3, the server completes, and both ends hold the same
    master secret, so the sessions they create are paired. *)

From S2P Require Import Prelude Bytes Chunks Errors Codec Replay Crypto Envelope WireSession Exec Net HandshakeMsg HandshakeFrag HandshakeClient HandshakeServer HandshakeSafety.

Local Open Scope Z_scope.

Section Honest.
Context {P : Primitives} {L : PrimitivesLaws P}.

(** ** Deliveries *)

Fixpoint feed_server (from : SocketAddr) (h : ServerHandshake) (l : list (Draws * WirePacket))
    : list (exec HandshakeV2Error ServerEvent) * ServerHandshake :=
  match l with
  | [] => ([], h)
  | (d, p) :: l =>
      let '(r, h) := server_handle_datagram d p from h in
      let '(rs, h) := feed_server from h l in
      (r :: rs, h)
  end.

Fixpoint feed_client (rand_encap : bytes) (rand_jitter : Z) (h : ClientHandshake)
    (l : list WirePacket) : list (exec HandshakeV2Error ClientEvent) * ClientHandshake :=
  match l with
  | [] => ([], h)
  | p :: l =>
      let '(r, h) := client_handle_datagram rand_encap rand_jitter p h in
      let '(rs, h) := feed_client rand_encap rand_jitter h l in
      (r :: rs, h)
  end.

Lemma feed_server_app from h l1 l2 :
  feed_server from h (l1 ++ l2) =
  let '(r1, h1) := feed_server from h l1 in
  let '(r2, h2) := feed_server from h1 l2 in (r1 ++ r2, h2).
Proof.
  revert h. induction l1 as [|[d p] l1 IH]; intros h; simpl; [by destruct (feed_server _ _ _)|].
  destruct (server_handle_datagram d p from h) as [r h']. rewrite IH.
  destruct (feed_server from h' l1) as [r1 h1]. by destruct (feed_server from h1 l2).
Qed.

Lemma feed_client_app re rj h l1 l2 :
  feed_client re rj h (l1 ++ l2) =
  let '(r1, h1) := feed_client re rj h l1 in
  let '(r2, h2) := feed_client re rj h1 l2 in (r1 ++ r2, h2).
Proof.
  revert h. induction l1 as [|p l1 IH]; intros h; simpl; [by destruct (feed_client _ _ _ _)|].
  destruct (client_handle_datagram re rj p h) as [r h']. rewrite IH.
  destruct (feed_client re rj h' l1) as [r1 h1]. by destruct (feed_client re rj h1 l2).
Qed.

(** ** The messages of the honest run *)

Variables (cfgc : ClientConfig) (cfgs : ServerConfig) (sid : bytes) (from : SocketAddr).
Variables (rkem_c rx_c rencap_c rkem_s rx_s rencap_s : bytes).
Hypothesis Hsid : length sid = SESSION_ID_LEN.

Definition dk_c := (kem_generate rkem_c).1.
Definition ek_c := (kem_generate rkem_c).2.
Definition dk_s := (kem_generate rkem_s).1.
Definition ek_s := (kem_generate rkem_s).2.
Definition x_c := x25519_secret rx_c.
Definition x_s := x25519_secret rx_s.
Definition ct2 := (kem_encapsulate ek_c rencap_s).1.
Definition ss_a := (kem_encapsulate ek_c rencap_s).2.
Definition ct3 := (kem_encapsulate ek_s rencap_c).1.
Definition ss_b := (kem_encapsulate ek_s rencap_c).2.
Definition m1_z := encode_m1 PROTOCOL_VERSION sid ek_c (x25519_public x_c) None.
Definition m2_z := encode_m2 PROTOCOL_VERSION sid ek_s (x25519_public x_s) ct2 None.
Definition m3_z := encode_m3 PROTOCOL_VERSION sid ct3 None.
Definition th1 := hash_with_domain [m1_z].
Definition m1 := mkClientHello PROTOCOL_VERSION sid ek_c (x25519_public x_c)
  (dsa_sign (dsa_secret (cc_identity cfgc)) th1).
Definition m1_bytes := ClientHello_encode m1.
Definition th2 := hash_with_domain [m1_bytes; m2_z].
Definition m2 := mkServerHello PROTOCOL_VERSION sid ek_s (x25519_public x_s) ct2
  (dsa_sign (dsa_secret (sc_identity cfgs)) th2).
Definition m2_bytes := ServerHello_encode m2.
Definition th3 := hash_with_domain [m1_z; m2_z; m3_z].
Definition dh := x25519_dh x_c (x25519_public x_s).

Lemma x_c_length : length (x25519_public x_c) = X25519_PUBLIC_KEY_BYTES.
Proof. apply x25519_public_length. Qed.

Lemma x_s_length : length (x25519_public x_s) = X25519_PUBLIC_KEY_BYTES.
Proof. apply x25519_public_length. Qed.

Lemma ct2_length : length ct2 = ML_KEM_768_CIPHERTEXT_BYTES.
Proof. apply kem_lengths. Qed.

Lemma ct3_length : length ct3 = ML_KEM_768_CIPHERTEXT_BYTES.
Proof. apply kem_lengths. Qed.

Lemma m1_length : length m1_bytes = M1_BODY_LEN.
Proof. by apply length_encode_m1; [|apply x_c_length]. Qed.

Lemma m2_length : length m2_bytes = M2_BODY_LEN.
Proof. by apply length_encode_m2; [|apply x_s_length|apply ct2_length]. Qed.

Lemma m1_decodes : ClientHello_decode m1_bytes = Ok m1.
Proof. by apply ClientHello_roundtrip; [| |apply x_c_length]. Qed.

Lemma m2_decodes : ServerHello_decode m2_bytes = Ok m2.
Proof. by apply ServerHello_roundtrip; [| |apply x_s_length|apply ct2_length]. Qed.

Lemma th1_honest sig : th1_from_m1 (encode_m1 PROTOCOL_VERSION sid ek_c (x25519_public x_c) sig) = Some th1.
Proof. unfold th1_from_m1. rewrite zerofill_m1 by (done || apply x_c_length). done. Qed.

Lemma th2_honest sig :
  th2_from_m1_m2 m1_bytes (encode_m2 PROTOCOL_VERSION sid ek_s (x25519_public x_s) ct2 sig) = Some th2.
Proof.
  unfold th2_from_m1_m2. rewrite m1_length, Nat.eqb_refl. cbn [negb].
  rewrite zerofill_m2 by (done || apply x_s_length || apply ct2_length). done.
Qed.

Lemma th3_honest fin :
  (forall m, fin = Some m -> length m = FINISHED_MAC_LEN) ->
  th3_from_m1_m2_m3 m1_bytes m2_bytes (encode_m3 PROTOCOL_VERSION sid ct3 fin) = Some th3.
Proof.
  intros Hf. unfold th3_from_m1_m2_m3, m1_bytes, m2_bytes, ClientHello_encode, ServerHello_encode.
  cbn [m1 m2 m1_version m1_sid m1_eph_pk_c m1_x_c m2_version m2_sid m2_eph_pk_s m2_x_s m2_ct2].
  rewrite zerofill_m1 by (done || apply x_c_length).
  rewrite zerofill_m2 by (done || apply x_s_length || apply ct2_length).
  rewrite zerofill_m3 by (done || apply ct3_length). done.
Qed.

Lemma kem_a : kem_decapsulate dk_c ct2 = ss_a.
Proof.
  pose proof (kem_correct rkem_c rencap_s) as H. unfold dk_c, ct2, ss_a, ek_c.
  destruct (kem_generate rkem_c) as [dk ek]. cbn [fst snd]. by destruct (kem_encapsulate ek rencap_s).
Qed.

Lemma kem_b : kem_decapsulate dk_s ct3 = ss_b.
Proof.
  pose proof (kem_correct rkem_s rencap_c) as H. unfold dk_s, ct3, ss_b, ek_s.
  destruct (kem_generate rkem_s) as [dk ek]. cbn [fst snd]. by destruct (kem_encapsulate ek rencap_c).
Qed.

Lemma m1_message : hs_message HS_TYPE_CLIENT_HELLO M1_FRAG_COUNT 4 m1_bytes.
Proof. split; [done|]. by rewrite m1_length. Qed.

Lemma m2_message' : hs_message HS_TYPE_SERVER_HELLO M2_FRAG_COUNT 5 m2_bytes.
Proof. apply m2_message, m2_length. Qed.

(** ** The client *)

Hypothesis Hvc : cc_version cfgc = PROTOCOL_VERSION.
Hypothesis Hvs : sc_version cfgs = PROTOCOL_VERSION.
Hypothesis Hpin : cc_server_identity cfgc = verifying_key (dsa_secret (sc_identity cfgs)).
Hypothesis Hdh : was_contributory dh = true.

Definition m1_frags : list WirePacket :=
  fragment_datagram HS_TYPE_CLIENT_HELLO PROTOCOL_VERSION sid m1_bytes M1_FRAG_COUNT <$> seq 0 4.

Definition m2_frags : list WirePacket :=
  fragment_datagram HS_TYPE_SERVER_HELLO PROTOCOL_VERSION sid m2_bytes M2_FRAG_COUNT <$> seq 0 5.

Definition client_in (st : ClientState) : ClientHandshake :=
  mkClientHandshake cfgc sid (mkMlKemKeypair ek_c dk_c) (mkX25519Keypair (x25519_public x_c) x_c)
    m1 m1_frags st.

(** The client has the fragments [q] of its M2. *)
Definition client_waits (q : gset nat) (h : ClientHandshake) : Prop :=
  exists a att dl, assembling HS_TYPE_SERVER_HELLO M2_FRAG_COUNT m2_bytes q a /\
    h = client_in (AwaitM2 a att dl).

Lemma client_new_honest rj :
  exists h, (ClientHandshake_new cfgc sid rkem_c rx_c rj ()).1 = Ret h /\ client_waits ∅ h.
Proof.
  change (wp (ClientHandshake_new cfgc sid rkem_c rx_c rj) () (fun r _ =>
    exists h, r = Ret h /\ client_waits ∅ h)).
  destruct (assembler_new HS_TYPE_SERVER_HELLO M2_FRAG_COUNT 5 m2_bytes m2_message') as (a & Ha & Has).
  unfold ClientHandshake_new, MlKemKeypair_generate, MlDsaKeypair_sign, validate_version. rewrite Hvc.
  rewrite bool_decide_true by done. wp_steps. eapply wp_try_ok; [reflexivity|].
  destruct (kem_generate rkem_c) as [dk ek] eqn:Hk.
  assert (ek = ek_c) as -> by (unfold ek_c; by rewrite Hk).
  assert (dk = dk_c) as -> by (unfold dk_c; by rewrite Hk).
  wp_steps. eapply wp_try_ok; [reflexivity|]. wp_steps.
  eapply wp_expect; [apply th1_honest|]. wp_steps. eapply wp_try_ok; [reflexivity|]. wp_steps.
  eapply wp_try_ok; [apply (fragment_message_ok _ M1_FRAG_COUNT 4); apply m1_message|]. wp_steps.
  eapply wp_expect; [exact Ha|]. wp_steps. eexists. split; [reflexivity|].
  exists a. do 2 eexists. split; [exact Has|]. reflexivity.
Qed.

(** Key material both ends derive. *)
Definition session_master : MasterSecret :=
  match derive_master ss_a ss_b dh PROTOCOL_VERSION sid th3 with
  | Ok ms => ms
  | Err _ => mkMasterSecret []
  end.

Definition session_finished : bytes :=
  match derive_finished_key session_master PROTOCOL_VERSION sid with
  | Ok k => compute_client_finished k th3
  | Err _ => []
  end.

Lemma session_master_ok :
  derive_master ss_a ss_b dh PROTOCOL_VERSION sid th3 = Ok session_master.
Proof.
  unfold session_master. by destruct (derive_master_ok ss_a ss_b dh PROTOCOL_VERSION sid th3) as (? & -> & _).
Qed.

Lemma session_finished_ok :
  exists k, derive_finished_key session_master PROTOCOL_VERSION sid = Ok k /\
    compute_client_finished k th3 = session_finished.
Proof.
  unfold session_finished.
  destruct (derive_finished_key_ok session_master PROTOCOL_VERSION sid) as (k & E). rewrite E. eauto.
Qed.

Lemma session_finished_length : length session_finished = FINISHED_MAC_LEN.
Proof.
  destruct session_finished_ok as (k & _ & <-). unfold compute_client_finished.
  rewrite length_take, hmac_length. done.
Qed.

Lemma finished_slot m : Some session_finished = Some m -> length m = FINISHED_MAC_LEN.
Proof. intros [= <-]. apply session_finished_length. Qed.

Definition m3 := mkClientConfirm PROTOCOL_VERSION sid ct3 session_finished.
Definition m3_bytes := ClientConfirm_encode m3.

Lemma m3_length : length m3_bytes = M3_BODY_LEN.
Proof. apply length_encode_m3; [done|apply ct3_length|apply finished_slot]. Qed.

Lemma m3_decodes : ClientConfirm_decode m3_bytes = Ok m3.
Proof. apply ClientConfirm_roundtrip; [done|done|apply ct3_length|apply session_finished_length]. Qed.

Lemma m3_message : hs_message HS_TYPE_CLIENT_CONFIRM M3_FRAG_COUNT 1 m3_bytes.
Proof. split; [done|]. by rewrite m3_length. Qed.

Definition m3_packet : WirePacket :=
  fragment_datagram HS_TYPE_CLIENT_CONFIRM PROTOCOL_VERSION sid m3_bytes M3_FRAG_COUNT 0.

Definition client_result : HandshakeOutcome :=
  mkHandshakeOutcome session_master sid (cc_server_identity cfgc) 0.

Lemma on_complete_m2_honest rj a att dl :
  wp (on_complete_m2 rencap_c rj m2_bytes) (client_in (AwaitM2 a att dl))
     (fun r _ => r = Ret (CE_M3Sent [m3_packet] client_result)).
Proof.
  unfold on_complete_m2. wp_steps. rewrite m2_decodes.
  cbn [client_in ch_cfg ch_sid m2_sid m2_version m2 ch_m1 ch_kp_mlkem ch_kp_x kem_secret
    m2_server_sig m2_ct2 m2_eph_pk_s m2_x_s].
  rewrite Hvc, !bool_decide_true by done. cbn [negb orb].
  wp_steps. eapply wp_expect; [apply th2_honest|]. wp_steps.
  unfold dsa_verify_msg. rewrite Hpin, dsa_correct. eapply wp_try_ok; [reflexivity|]. cbn [negb].
  wp_steps. eapply wp_try_ok; [reflexivity|]. rewrite kem_a. wp_steps. unfold encapsulate.
  destruct (kem_encapsulate ek_s rencap_c) as [c s] eqn:Hks.
  assert (c = ct3) as -> by (unfold ct3; by rewrite Hks).
  assert (s = ss_b) as -> by (unfold ss_b; by rewrite Hks).
  eapply wp_try_ok; [reflexivity|]. cbv beta iota.
  unfold diffie_hellman. cbn [x_secret]. fold dh. rewrite Hdh. cbn [negb].
  wp_steps. eapply wp_expect; [by apply th3_honest|]. wp_steps.
  eapply wp_try_ok; [apply session_master_ok|]. wp_steps.
  destruct session_finished_ok as (k & Hk & Hfin). eapply wp_try_ok; [exact Hk|]. wp_steps.
  rewrite Hfin. fold m3. eapply wp_try_ok; [apply (fragment_message_ok _ M3_FRAG_COUNT 1); apply m3_message|].
  wp_steps. unfold client_result. by rewrite Hpin.
Qed.

(** ** Deliveries of fragments to the client *)

Definition m1_frag (i : nat) : WirePacket :=
  fragment_datagram HS_TYPE_CLIENT_HELLO PROTOCOL_VERSION sid m1_bytes M1_FRAG_COUNT i.

Definition m2_frag (i : nat) : WirePacket :=
  fragment_datagram HS_TYPE_SERVER_HELLO PROTOCOL_VERSION sid m2_bytes M2_FRAG_COUNT i.

Lemma datagram_type t total msg i :
  byte_at (VERSION_LEN + SESSION_ID_LEN)
    (as_bytes (fragment_datagram t PROTOCOL_VERSION sid msg total i)) = t.
Proof.
  rewrite datagram_bytes by done. rewrite app_assoc, byte_at_app_r by hdims.
  by replace (_ - _)%nat with 0%nat by hdims.
Qed.

(** The effect of one M2 fragment on a waiting client is that of its assembler. *)
Lemma client_fragment rj a att dl i res a' :
  (i < 5)%nat ->
  add_fragment a (fragment_of HS_TYPE_SERVER_HELLO M2_FRAG_COUNT m2_bytes sid i) = (res, a') ->
  (res = FrCompleted -> assembled_message a' = Some m2_bytes) ->
  wp (client_handle_datagram rencap_c rj (m2_frag i)) (client_in (AwaitM2 a att dl)) (fun r h =>
    if decide (res = FrCompleted) then r = Ret (CE_M3Sent [m3_packet] client_result)
    else r = Ret CE_None /\ h = client_in (AwaitM2 a' att dl)).
Proof.
  intros Hi Hadd Hdone. unfold client_handle_datagram, m2_frag. wp_steps.
  rewrite datagram_type, bool_decide_true by done. cbn [negb].
  rewrite (from_datagram_fragment _ _ 5 _ sid m2_message' Hsid i Hi).
  cbn [client_in ch_sid ch_state]. change (hf_sid _) with sid.
  rewrite bool_decide_true by done. cbn [negb]. rewrite Hadd. wp_steps.
  destruct res; [by wp_steps|by wp_steps|]. wp_steps.
  eapply wp_expect; [by apply Hdone|]. cbv beta iota.
  eapply wp_mono; [apply (on_complete_m2_honest rj a' att dl)|]. by intros r s ->.
Qed.

(** Any sequence that leaves fragment [i0] missing is absorbed silently. *)
Lemma client_absorbs rj ixs i0 q h :
  (i0 < 5)%nat -> client_waits q h -> (forall j, j ∈ q -> (j < 5)%nat) ->
  Forall (fun i => (i < 5)%nat) ixs -> i0 ∉ q -> i0 ∉ ixs ->
  let run := feed_client rencap_c rj h (m2_frag <$> ixs) in
  exists q', run.1 = (fun _ => Ret CE_None) <$> ixs /\ client_waits q' run.2 /\
    (forall j, j ∈ q' -> (j < 5)%nat) /\ (i0 ∉ q') /\ (forall i, i ∈ ixs \/ i ∈ q -> i ∈ q').
Proof.
  intros Hi0. revert q h. induction ixs as [|i ixs IH]; intros q h Hw Hq His Hn0 Hn1.
  { exists q. split; [done|]. split; [done|]. split; [done|]. split; [done|].
    intros i [Hi|?]; [by apply elem_of_nil in Hi|done]. }
  apply Forall_cons in His as [Hi His]. destruct Hw as (a & att & dl & Ha & ->).
  assert (i <> i0) as Hne by (intros ->; apply Hn1; by left).
  destruct (add_fragment_absorb _ _ 5 _ sid m2_message' Hsid q a i i0 Ha Hq Hi Hi0 Hn0 Hne)
    as (res & a1 & q1 & Hadd & Hres & Ha1 & Hq1).
  pose proof (client_fragment rj a att dl i res a1 Hi Hadd ltac:(done)) as Hw.
  unfold wp in Hw. rewrite decide_False in Hw by done.
  cbn [fmap list_fmap feed_client].
  destruct (client_handle_datagram rencap_c rj (m2_frag i) _) as [r h1]. destruct Hw as [Er Eh].
  cbn [fst snd] in Er, Eh. subst r h1.
  destruct (IH q1 (client_in (AwaitM2 a1 att dl))) as (q' & H1 & H2 & H3 & H4 & H5).
  - by exists a1, att, dl.
  - intros j [->|Hj]%Hq1; [done|by apply Hq].
  - done.
  - intros [->|?]%Hq1; done.
  - intros ?. apply Hn1. by right.
  - fold (fmap m2_frag ixs) in *. destruct (feed_client rencap_c rj _ _) as [rs h']. cbn [fst snd] in *.
    exists q'. rewrite H1. split; [done|]. split; [done|]. split; [done|]. split; [done|].
    intros j [[->|Hj]%elem_of_cons|Hj]; apply H5; rewrite ?Hq1; auto.
Qed.

Lemma client_completes rj ixs i0 h :
  client_waits ∅ h -> (i0 < 5)%nat -> Forall (fun i => (i < 5)%nat) ixs -> i0 ∉ ixs ->
  (forall i, (i < 5)%nat -> i = i0 \/ i ∈ ixs) ->
  (feed_client rencap_c rj h (m2_frag <$> (ixs ++ [i0]))).1 =
  ((fun _ => Ret CE_None) <$> ixs) ++ [Ret (CE_M3Sent [m3_packet] client_result)].
Proof.
  intros Hw Hi0 His Hn0 Hall. rewrite fmap_app, feed_client_app.
  destruct (client_absorbs rj ixs i0 ∅ h Hi0 Hw) as (q & H1 & H2 & H3 & H4 & H5);
    [intros j Hj; by apply elem_of_empty in Hj|done|apply not_elem_of_empty|done|].
  destruct (feed_client rencap_c rj h (m2_frag <$> ixs)) as [r1 h1]. cbn [fst snd] in *. subst r1.
  destruct H2 as (a & att & dl & Ha & ->).
  destruct (add_fragment_last _ _ 5 _ sid m2_message' Hsid q a i0 Ha H3 Hi0 H4) as (a' & Hadd & Hm).
  { intros j Hj. destruct (Hall j Hj) as [->|?]; [by left|right; apply H5; by left]. }
  pose proof (client_fragment rj a att dl i0 FrCompleted a' Hi0 Hadd (fun _ => Hm)) as Hw'.
  unfold wp in Hw'. rewrite decide_True in Hw' by done. cbn [fmap list_fmap feed_client].
  destruct (client_handle_datagram rencap_c rj (m2_frag i0) _) as [r h1]. cbn [fst] in *. by rewrite Hw'.
Qed.

(** ** The server *)

Variable T : Instant.
Hypothesis Hburst : 3 <= sc_rate_limit_burst cfgs.
Hypothesis Hpending : (0 < sc_max_pending cfgs)%nat.
Hypothesis Hroster_size : (length (sc_roster cfgs) <= sc_max_roster_size cfgs)%nat.
Hypothesis Hroster : verifying_key (dsa_secret (cc_identity cfgc)) ∈ sc_roster cfgs.

(** The clock readings of a call fall inside the entry and rate windows. *)
Definition in_time (d : Draws) : Prop :=
  T <= now_evict d < T + sc_pending_ttl cfgs /\
  T <= now_rate d < T + sc_rate_limit_window cfgs /\ T <= now_seen d.

Definition has_tokens (k : Z) (h : ServerHandshake) : Prop :=
  exists b, sh_rate_buckets h = {[ from := b ]} /\ k <= rb_tokens b /\ T <= rb_last_refill b.

(** The server holds one pending entry for the client and [k] tokens. *)
Definition server_has (e : PendingSession) (k : Z) (h : ServerHandshake) : Prop :=
  sh_cfg h = cfgs /\ sh_pending h = {[ sid := e ]} /\ has_tokens k h /\
  T <= ps_last_seen e /\ ps_source e = from.

Lemma rate_ok_tokens k now h :
  sh_cfg h = cfgs -> has_tokens k h -> 1 <= k ->
  T <= now < T + sc_rate_limit_window cfgs ->
  (rate_ok from now h).1 = true /\ has_tokens (k - 1) (rate_ok from now h).2 /\
  same_core h (rate_ok from now h).2.
Proof.
  intros Ec (b & Eb & Hk & Hr) Hk1 Hnow. unfold rate_ok.
  assert (rate_prune now h = h) as -> by (unfold rate_prune; by rewrite Eb, map_size_singleton).
  rewrite Eb, lookup_singleton_eq, Ec.
  replace (_ <=? duration_since now _) with false by (unfold duration_since; lia).
  replace (rb_tokens b =? 0) with false by lia. cbn [fst snd]. split; [done|]. split; [|done].
  exists (mkRateBucket (rb_tokens b - 1) (rb_last_refill b)).
  cbn [sh_with_rate sh_rate_buckets rb_tokens rb_last_refill]. split; [|lia].
  apply insert_singleton_eq.
Qed.

Lemma evict_id e k h d : server_has e k h -> in_time d -> evict_expired (now_evict d) h = h.
Proof.
  intros (Ec & Ep & _ & Hseen & _) (Ht & _). unfold evict_expired, sh_map_pending.
  rewrite Ep, map_filter_singleton_True by (rewrite Ec; unfold duration_since; cbn [snd]; lia).
  destruct h. cbn in *. by rewrite Ep.
Qed.

(** An entry that has received the fragments [q] of the M1. *)
Definition entry_waits (q : gset nat) (e : PendingSession) : Prop :=
  ps_state e = AwaitM1 /\
  exists a, ps_assembler e = Some a /\ assembling HS_TYPE_CLIENT_HELLO M1_FRAG_COUNT m1_bytes q a.

Lemma handle_m1 d i :
  server_handle_datagram d (m1_frag i) from = on_m1_fragment d (m1_frag i) from.
Proof. unfold server_handle_datagram, m1_frag. by rewrite datagram_type. Qed.

Lemma evict_fresh now t : evict_expired now (mkServerHandshake cfgs ∅ ∅ [] t) = mkServerHandshake cfgs ∅ ∅ [] t.
Proof. unfold evict_expired, sh_map_pending. cbn [sh_pending sh_cfg]. by rewrite map_filter_empty. Qed.

Lemma rate_ok_fresh now t :
  rate_ok from now (mkServerHandshake cfgs ∅ ∅ [] t) =
  (true, mkServerHandshake cfgs ∅ {[ from := mkRateBucket (sc_rate_limit_burst cfgs - 1) now ]}
           [from] t).
Proof.
  unfold rate_ok. change (rate_prune now _) with (mkServerHandshake cfgs ∅ ∅ [] t).
  cbn [sh_rate_buckets sh_cfg sh_rate_order]. rewrite lookup_empty.
  change (evict_to MAX_RATE_BUCKETS [] ∅) with ([] : list SocketAddr, ∅ : gmap SocketAddr RateBucket).
  cbv beta iota. by replace (0 <? sc_rate_limit_burst cfgs) with true by lia.
Qed.

(** Fragment 0 opens an entry on a fresh server. *)
Lemma server_first d now0 :
  in_time d ->
  wp (server_handle_datagram d (m1_frag 0) from) (ServerHandshake_new cfgs now0)
    (fun r h => r = Ret SrvNone /\ exists e, server_has e 2 h /\ entry_waits {[ 0%nat ]} e).
Proof.
  intros (_ & Hrate & Hseen). rewrite handle_m1.
  assert (ServerHandshake_new cfgs now0 = mkServerHandshake cfgs ∅ ∅ [] now0) as ->.
  { unfold ServerHandshake_new. by replace (_ <? _)%nat with false by lia. }
  unfold on_m1_fragment, m1_frag.
  rewrite (from_datagram_fragment _ _ 4 _ sid m1_message Hsid 0) by lia.
  wp_steps. rewrite evict_fresh. change (hf_sid _) with sid. cbn [sh_pending]. rewrite lookup_empty.
  unfold m1_admit. rewrite bool_decide_true by done. cbn [negb]. wp_steps.
  rewrite rate_ok_fresh. cbn [fst snd negb]. wp_steps. cbn [sh_cfg sh_pending]. rewrite map_size_empty.
  replace (sc_max_pending cfgs <=? 0)%nat with false by lia.
  destruct (assembler_new HS_TYPE_CLIENT_HELLO M1_FRAG_COUNT 4 m1_bytes m1_message) as (a & -> & Ha).
  destruct (add_fragment_absorb _ _ 4 _ sid m1_message Hsid ∅ a 0 1 Ha) as (res & a1 & q1 & Hadd & _ & Ha1 & Hq1);
    [intros j Hj; by apply elem_of_empty in Hj|lia|lia|apply not_elem_of_empty|lia|].
  rewrite Hadd. wp_steps. split; [done|]. eexists. split.
  - split; [done|]. split; [done|]. split; [|done]. eexists. split; [reflexivity|].
    cbn [rb_tokens rb_last_refill]. lia.
  - split; [done|]. exists a1. split; [done|].
    replace ({[ 0%nat ]} : gset nat) with q1; [done|]. apply set_eq. intros j. rewrite Hq1, elem_of_singleton, elem_of_empty. tauto.
Qed.

(** A further fragment while another one is missing. *)
Lemma server_absorb d i i0 q e h :
  in_time d -> server_has e 2 h -> entry_waits q e -> (forall j, j ∈ q -> (j < 4)%nat) ->
  (i < 4)%nat -> (i0 < 4)%nat -> i0 ∉ q -> i <> i0 ->
  wp (server_handle_datagram d (m1_frag i) from) h (fun r h' =>
    r = Ret SrvNone /\ exists e' q', server_has e' 2 h' /\ entry_waits q' e' /\
      forall j, j ∈ q' <-> j = i \/ j ∈ q).
Proof.
  intros Hd Hh (Hst & a & Hasm & Ha) Hq Hi Hi0 Hn0 Hne. rewrite handle_m1.
  destruct (add_fragment_absorb _ _ 4 _ sid m1_message Hsid q a i i0 Ha Hq Hi Hi0 Hn0 Hne)
    as (res & a1 & q1 & Hadd & Hres & Ha1 & Hq1).
  unfold on_m1_fragment, m1_frag. rewrite (from_datagram_fragment _ _ 4 _ sid m1_message Hsid i Hi).
  wp_steps. rewrite (evict_id e 2 h d Hh Hd). change (hf_sid _) with sid.
  destruct Hh as (Ec & Ep & Htok & Hseen & Hsrc). rewrite Ep, lookup_singleton_eq.
  rewrite bool_decide_true by done. cbn [negb]. rewrite Hst.
  unfold m1_advance. change (hf_sid _) with sid. wp_steps.
  eapply wp_expect; [exact Hasm|]. cbv beta iota. rewrite Hadd. wp_steps.
  assert (entry_waits q1 (ps_with_assembler a1 e)) as Hw by (split; [done|by exists a1]).
  destruct res; [| |done]; wp_steps; (split; [done|]).
  - exists (ps_with_assembler a1 e), q1. split; [|done]. split; [done|].
    cbn [sh_map_pending sh_pending]. rewrite Ep. split; [apply insert_singleton_eq|done].
  - exists (ps_with_last_seen (now_seen d) (ps_with_assembler a1 e)), q1. split; [|done].
    split; [done|]. cbn [sh_map_pending sh_pending]. rewrite Ep, insert_singleton_eq.
    split; [apply alter_singleton_eq|]. split; [done|]. split; [apply Hd|done].
Qed.

(** The entry that has answered with the honest M2. *)
Definition entry_ready (e : PendingSession) : Prop :=
  ps_state e = AwaitM3 /\ ps_m1_body e = Some m1_bytes /\ ps_m2_cache e = Some m2_bytes /\
  ps_ss_a e = ss_a /\ ps_dh_cs e = dh /\ ps_sk_s e = Some dk_s /\
  exists vk, ps_verified_client e = Some vk /\ vk ∈ sc_roster cfgs.

(** The draws of the call that completes the M1. *)
Definition draws_s (d : Draws) : Prop :=
  draw_kem d = rkem_s /\ draw_x d = rx_s /\ draw_encap d = rencap_s.

Lemma complete_m1_honest d e k h :
  in_time d -> draws_s d -> server_has e k h ->
  wp (complete_m1 d sid m1_bytes from) h (fun r h' =>
    r = Ret (SrvEmit m2_frags from) /\ exists e', server_has e' k h' /\ entry_ready e').
Proof.
  intros Hd (Ek & Ex & Ee) (Ec & Ep & Htok & Hseen & Hsrc). unfold complete_m1. wp_steps.
  rewrite m1_decodes, Ec, Ek, Ex, Ee.
  cbn [m1 m1_version m1_sid m1_client_sig m1_eph_pk_c m1_x_c].
  rewrite Hvs, !bool_decide_true by done. cbn [negb orb]. wp_steps.
  eapply wp_expect; [apply th1_honest|]. wp_steps.
  destruct (verify_roster_spec (sc_roster cfgs) th1 (dsa_sign (dsa_secret (cc_identity cfgc)) th1) false None)
    as (matched & Hv & Hm).
  eapply wp_try_ok; [exact Hv|]. cbv beta iota. rewrite orb_false_l in *.
  assert (existsb (fun pk => dsa_verify pk th1 (dsa_sign (dsa_secret (cc_identity cfgc)) th1))
    (sc_roster cfgs) = true) as Hex.
  { apply existsb_exists. eexists. split; [by apply list_elem_of_In|]. apply dsa_correct. }
  rewrite Hex in *. destruct Hm as [[? _]|(vk & -> & Hin & Hvk)]; [done|]. cbn [negb].
  unfold MlKemKeypair_generate, encapsulate, MlDsaKeypair_sign.
  destruct (kem_generate rkem_s) as [dk ek] eqn:Hkg.
  assert (ek = ek_s) as -> by (unfold ek_s; by rewrite Hkg).
  assert (dk = dk_s) as -> by (unfold dk_s; by rewrite Hkg).
  wp_steps. eapply wp_try_ok; [reflexivity|]. wp_steps.
  destruct (kem_encapsulate ek_c rencap_s) as [c s] eqn:Hke.
  assert (c = ct2) as -> by (unfold ct2; by rewrite Hke).
  assert (s = ss_a) as -> by (unfold ss_a; by rewrite Hke).
  eapply wp_try_ok; [reflexivity|]. cbv beta iota.
  unfold diffie_hellman, X25519Keypair_generate. cbn [x_secret x_public kem_public kem_secret].
  fold x_s. rewrite x25519_comm. fold dh. rewrite Hdh. cbn [negb].
  wp_steps. eapply wp_expect; [apply th2_honest|]. wp_steps. eapply wp_try_ok; [reflexivity|]. wp_steps.
  eapply wp_try_ok; [apply (fragment_message_ok _ M2_FRAG_COUNT 5); apply m2_message'|]. wp_steps.
  rewrite Ep. eapply wp_expect; [apply lookup_singleton_eq|]. wp_steps. split; [done|].
  eexists. split.
  - split; [done|]. cbn [sh_map_pending sh_pending]. rewrite Ep. split; [apply insert_singleton_eq|].
    split; [done|]. split; [apply Hd|done].
  - split; [done|]. do 5 (split; [done|]). by exists vk.
Qed.

Lemma server_last d i0 q e h :
  in_time d -> draws_s d -> server_has e 2 h -> entry_waits q e ->
  (forall j, j ∈ q -> (j < 4)%nat) -> (i0 < 4)%nat -> i0 ∉ q ->
  (forall j, (j < 4)%nat -> j = i0 \/ j ∈ q) ->
  wp (server_handle_datagram d (m1_frag i0) from) h (fun r h' =>
    r = Ret (SrvEmit m2_frags from) /\ exists e', server_has e' 1 h' /\ entry_ready e').
Proof.
  intros Hd Hds Hh (Hst & a & Hasm & Ha) Hq Hi0 Hn0 Hall. rewrite handle_m1.
  destruct (add_fragment_last _ _ 4 _ sid m1_message Hsid q a i0 Ha Hq Hi0 Hn0 Hall) as (a1 & Hadd & Hm).
  unfold on_m1_fragment, m1_frag. rewrite (from_datagram_fragment _ _ 4 _ sid m1_message Hsid i0 Hi0).
  wp_steps. rewrite (evict_id e 2 h d Hh Hd). change (hf_sid _) with sid.
  destruct Hh as (Ec & Ep & Htok & Hseen & Hsrc). rewrite Ep, lookup_singleton_eq.
  rewrite bool_decide_true by done. cbn [negb]. rewrite Hst.
  unfold m1_advance. change (hf_sid _) with sid. wp_steps.
  eapply wp_expect; [exact Hasm|]. cbv beta iota. rewrite Hadd. wp_steps.
  set (h1 := sh_map_pending _ h).
  assert (sh_pending h1 = {[ sid := ps_with_assembler a1 e ]}) as Ep1.
  { unfold h1. cbn [sh_map_pending sh_pending]. rewrite Ep. apply insert_singleton_eq. }
  destruct (rate_ok_tokens 2 (now_rate d) h1 Ec Htok ltac:(lia)) as (-> & Htok' & Ec' & Ep');
    [apply Hd|]. cbn [negb]. wp_steps. eapply wp_expect; [exact Hm|]. cbv beta iota.
  apply (complete_m1_honest d (ps_with_assembler a1 e)); [done|done|].
  split; [by rewrite Ec'|]. split; [by rewrite Ep'|]. done.
Qed.

(** The M3 completes the handshake. *)
Lemma server_confirms d e h :
  in_time d -> server_has e 1 h -> entry_ready e ->
  wp (server_handle_datagram d m3_packet from) h (fun r _ =>
    exists o, r = Ret (SrvComplete o) /\ ho_master o = session_master /\ ho_session_id o = sid /\
      ho_peer_identity o ∈ sc_roster cfgs).
Proof.
  intros Hd Hh (Hst & E1 & E2 & E3 & E4 & E5 & vk & E6 & Hvk).
  unfold server_handle_datagram, m3_packet. rewrite datagram_type.
  unfold HS_TYPE_CLIENT_CONFIRM at 1. cbv iota. unfold on_m3_fragment. rewrite (from_datagram_fragment _ _ 1 _ sid m3_message Hsid 0) by lia.
  wp_steps. rewrite (evict_id e 1 h d Hh Hd). change (hf_sid _) with sid.
  destruct Hh as (Ec & Ep & Htok & Hseen & Hsrc). rewrite Ep, lookup_singleton_eq.
  rewrite !bool_decide_true by done. cbn [negb orb]. wp_steps.
  destruct (rate_ok_tokens 1 (now_rate d) h Ec Htok ltac:(lia)) as (-> & _ & Ec' & Ep'); [apply Hd|].
  cbn [negb]. change (hf_body _) with (chunk_of HS_FRAG_BODY_MAX m3_bytes 0).
  assert (chunk_of HS_FRAG_BODY_MAX m3_bytes 0 = m3_bytes) as ->.
  { unfold chunk_of. rewrite m3_length, HS_FRAG_BODY_MAX_value. cbn [Nat.mul Nat.add].
    rewrite Nat.min_r by hdims. rewrite <- m3_length. apply slice_all. }
  rewrite m3_decodes. cbn [m3 m3_version m3_sid m3_ct3 m3_client_finished].
  rewrite Ec, Hvs, !bool_decide_true by done. cbn [negb orb]. rewrite E5. wp_steps.
  eapply wp_try_ok; [reflexivity|]. rewrite kem_b. wp_steps.
  eapply wp_expect; [exact E1|]. wp_steps. eapply wp_expect; [exact E2|]. wp_steps.
  eapply wp_expect; [apply th3_honest, finished_slot|]. wp_steps. rewrite E3, E4.
  eapply wp_try_ok; [apply session_master_ok|]. wp_steps.
  destruct session_finished_ok as (k & Hk & Hfin). eapply wp_try_ok; [exact Hk|].
  cbv beta iota zeta. rewrite Hfin, bool_decide_true by done. cbn [negb]. wp_steps.
  eapply wp_expect; [exact E6|]. cbv beta iota zeta.
  replace (roster_contains h vk) with true.
  - cbn [negb]. wp_steps. eexists. split; [reflexivity|]. done.
  - symmetry. unfold roster_contains. rewrite Ec. apply existsb_exists. exists vk.
    split; [by apply list_elem_of_In|]. by apply bool_decide_eq_true_2.
Qed.

Lemma server_absorbs l i0 q e h :
  Forall (fun x => in_time x.1 /\ (x.2 < 4)%nat) l -> server_has e 2 h -> entry_waits q e ->
  (forall j, j ∈ q -> (j < 4)%nat) -> (i0 < 4)%nat -> i0 ∉ q -> i0 ∉ l.*2 ->
  let run := feed_server from h ((fun x => (x.1, m1_frag x.2)) <$> l) in
  run.1 = (fun _ => Ret SrvNone) <$> l /\
  exists e' q', server_has e' 2 run.2 /\ entry_waits q' e' /\ (forall j, j ∈ q' -> (j < 4)%nat) /\
    (i0 ∉ q') /\ forall j, j ∈ q \/ j ∈ l.*2 -> j ∈ q'.
Proof.
  intros Hl. revert q e h. induction l as [|[d i] l IH]; intros q e h Hh Hw Hq Hi0 Hn0 Hn1.
  { split; [done|]. exists e, q. do 4 (split; [done|]). intros j [?|Hj]; [done|by apply elem_of_nil in Hj]. }
  apply Forall_cons in Hl as [[Hd Hi] Hl]. cbn [fmap list_fmap fst snd] in *.
  assert (i <> i0) as Hne by (intros ->; apply Hn1; by left).
  pose proof (server_absorb d i i0 q e h Hd Hh Hw Hq Hi Hi0 Hn0 Hne) as Hs. unfold wp in Hs.
  cbn [feed_server]. destruct (server_handle_datagram d (m1_frag i) from h) as [r h1].
  cbn [fst snd] in Hs. destruct Hs as (-> & e1 & q1 & Hh1 & Hw1 & Hq1).
  destruct (IH Hl q1 e1 h1 Hh1 Hw1) as (Hr & e' & q' & H1 & H2 & H3 & H4 & H5).
  - intros j [->|Hj]%Hq1; [done|by apply Hq].
  - done.
  - intros [->|?]%Hq1; done.
  - intros ?. apply Hn1. by right.
  - fold (fmap (fun x => (x.1, m1_frag x.2)) l) in *.
    destruct (feed_server from h1 _) as [rs h']. cbn [fst snd] in *. rewrite Hr. split; [done|].
    exists e', q'. do 4 (split; [done|]). intros j [Hj|[->|Hj]%elem_of_cons]; apply H5; rewrite ?Hq1; auto.
Qed.

(** The server's whole first flight. *)
Lemma server_answers now0 d0 l d1 i0 :
  in_time d0 -> in_time d1 -> draws_s d1 ->
  Forall (fun x => in_time x.1 /\ (x.2 < 4)%nat) l -> (i0 < 4)%nat -> i0 <> 0%nat -> i0 ∉ l.*2 ->
  (forall j, (j < 4)%nat -> j = i0 \/ j = 0%nat \/ j ∈ l.*2) ->
  let run := feed_server from (ServerHandshake_new cfgs now0)
    ((fun x => (x.1, m1_frag x.2)) <$> ((d0, 0%nat) :: l ++ [(d1, i0)])) in
  run.1 = ((fun _ => Ret SrvNone) <$> ((d0, 0%nat) :: l)) ++ [Ret (SrvEmit m2_frags from)] /\
  exists e, server_has e 1 run.2 /\ entry_ready e.
Proof.
  intros Hd0 Hd1 Hds Hl Hi0 Hne Hn1 Hall run. subst run.
  rewrite (fmap_cons _ (d0, 0%nat)), fmap_app. cbn [fst snd feed_server].
  pose proof (server_first d0 now0 Hd0) as Hf. unfold wp in Hf.
  destruct (server_handle_datagram d0 (m1_frag 0) from (ServerHandshake_new cfgs now0)) as [r h1].
  cbn [fst snd] in Hf. destruct Hf as (-> & e & Hh & Hw).
  rewrite feed_server_app.
  destruct (server_absorbs l i0 {[ 0%nat ]} e h1 Hl Hh Hw) as (Hr & e1 & q1 & Hh1 & Hw1 & Hq1 & Hn & Hcov);
    [intros j ->%elem_of_singleton; lia|done|by intros ?%elem_of_singleton|done|].
  destruct (feed_server from h1 _) as [rs h2]. cbn [fst snd] in *. subst rs.
  rewrite list_fmap_singleton. cbn [feed_server fst snd].
  pose proof (server_last d1 i0 q1 e1 h2 Hd1 Hds Hh1 Hw1 Hq1 Hi0 Hn) as Hlast. unfold wp in Hlast.
  destruct (server_handle_datagram d1 (m1_frag i0) from h2) as [r2 h3]. cbn [fst snd] in *.
  destruct Hlast as (-> & Hready); [|done].
  intros j Hj. destruct (Hall j Hj) as [->|[->|Hj']]; [by left|right|right]; apply Hcov;
    [left; by apply elem_of_singleton|by right].
Qed.

End Honest.

(** ** Paired sessions *)

Section Paired.
Context {P : Primitives} {L : PrimitivesLaws P}.

Lemma CipherSession_paired master sid :
  length sid = SESSION_ID_LEN ->
  exists c s, CipherSession_new Client master sid = Ok c /\ CipherSession_new Server master sid = Ok s /\
    CipherSession_wf c /\ CipherSession_wf s /\ paired c s.
Proof.
  intros Hs. destruct (CipherSession_new_ok Client master sid Hs) as (c & Ec & Hc & _).
  destruct (CipherSession_new_ok Server master sid Hs) as (s & Es & Hs' & _).
  exists c, s. split; [done|]. split; [done|]. split; [done|]. split; [done|].
  unfold CipherSession_new in Ec, Es.
  destruct (derive_session_keys_ok master sid) as (kc & ks & pc & ps & E1 & E2 & E3 & E4 & _).
  rewrite E1, E2, E3, E4 in *. injection Ec as <-. injection Es as <-. done.
Qed.

End Paired.

(** ** Properties *)

(** Matching configurations: the client pins the server's key, the server's
    roster (within its limit) lists the client's, and the server's budgets allow
    one handshake. *)
Record honest_configs {P : Primitives} (cfgc : ClientConfig) (cfgs : ServerConfig) : Prop := {
  hc_client_version : cc_version cfgc = PROTOCOL_VERSION;
  hc_server_version : sc_version cfgs = PROTOCOL_VERSION;
  hc_pin : cc_server_identity cfgc = verifying_key (dsa_secret (sc_identity cfgs));
  hc_roster : verifying_key (dsa_secret (cc_identity cfgc)) ∈ sc_roster cfgs;
  hc_roster_size : (length (sc_roster cfgs) <= sc_max_roster_size cfgs)%nat;
  hc_burst : 3 <= sc_rate_limit_burst cfgs;
  hc_pending : (0 < sc_max_pending cfgs)%nat }.

(** [l] delivers every index below [n] except [i0], with repetitions. *)
Definition all_but (n : nat) (l : list nat) (i0 : nat) : Prop :=
  (i0 < n)%nat /\ Forall (fun i => (i < n)%nat) l /\ (i0 ∉ l) /\
  forall i, (i < n)%nat -> i = i0 \/ i ∈ l.

Definition pick (pkts : list WirePacket) (i : nat) : WirePacket := nth i pkts (mkWirePacket []).

Lemma pick_fmap (f : nat -> WirePacket) n i : (i < n)%nat -> pick (f <$> seq 0 n) i = f i.
Proof.
  intros Hi. unfold pick. rewrite (nth_lookup_Some _ _ _ (f i)); [done|].
  by rewrite list_lookup_fmap, lookup_seq_lt.
Qed.

Lemma pick_all (f : nat -> WirePacket) n l :
  Forall (fun i => (i < n)%nat) l -> pick (f <$> seq 0 n) <$> l = f <$> l.
Proof.
  intros Hl. apply Forall_fmap_ext_1. eapply Forall_impl; [exact Hl|]. intros i Hi. by apply pick_fmap.
Qed.

Lemma pick_flight {D} (f : nat -> WirePacket) n (l : list (D * nat)) :
  Forall (fun i => (i < n)%nat) l.*2 ->
  (fun x => (x.1, pick (f <$> seq 0 n) x.2)) <$> l = (fun x => (x.1, f x.2)) <$> l.
Proof.
  intros Hl. apply Forall_fmap_ext_1. rewrite Forall_fmap in Hl. eapply Forall_impl; [exact Hl|].
  intros [d i] Hi. cbn [fst snd]. by rewrite pick_fmap.
Qed.

(** C1: The handshake works end to end. A client and a server with matching
    configurations, over a network that delivers the first M1 fragment first and
    then everything in any order with any duplicates, within the server's
    windows: the server answers exactly the last missing M1 fragment, with the
    M2; the client answers exactly the last missing M2 fragment, with the M3;
    the server completes on it; both report the same master secret and session
    id, the client the pinned key and the server a key of its roster, and the
    sessions created from the two outcomes are paired. *)
Theorem honest_handshake {P : Primitives} {L : PrimitivesLaws P} cfgc cfgs sid from T now0
    rkem rx rencap rj rj' d0 l1 d1 i1 l2 i2 d3 hc :
  honest_configs cfgc cfgs -> length sid = SESSION_ID_LEN ->
  (ClientHandshake_new cfgc sid rkem rx rj ()).1 = Ret hc ->
  was_contributory (x25519_dh (x25519_secret rx) (x25519_public (x25519_secret (draw_x d1)))) = true ->
  Forall (in_time cfgs T) (d0 :: l1.*1 ++ [d1; d3]) ->
  all_but 4 (0%nat :: l1.*2) i1 -> all_but 5 l2 i2 ->
  let first := (d0, 0%nat) :: l1 in
  let flight1 := (fun x => (x.1, pick (ch_m1_frags hc) x.2)) <$> (first ++ [(d1, i1)]) in
  exists m2_frags hs m3 oc os wc ws,
    feed_server from (ServerHandshake_new cfgs now0) flight1 =
      (((fun _ => Ret SrvNone) <$> first) ++ [Ret (SrvEmit m2_frags from)], hs) /\
    (feed_client rencap rj' hc (pick m2_frags <$> (l2 ++ [i2]))).1 =
      ((fun _ => Ret CE_None) <$> l2) ++ [Ret (CE_M3Sent [m3] oc)] /\
    (server_handle_datagram d3 m3 from hs).1 = Ret (SrvComplete os) /\
    ho_master os = ho_master oc /\ ho_session_id os = sid /\ ho_session_id oc = sid /\
    ho_peer_identity oc = verifying_key (dsa_secret (sc_identity cfgs)) /\
    ho_peer_identity os ∈ sc_roster cfgs /\
    WireSession_established Client oc now0 = Ok wc /\
    WireSession_established Server os now0 = Ok ws /\
    paired (ws_cipher wc) (ws_cipher ws).
Proof.
  intros [Hvc Hvs Hpin Hro Hrs Hb Hpd] Hsid Hnew Hdh Htime (Hi1 & Hl1 & Hn1 & Hc1) (Hi2 & Hl2 & Hn2 & Hc2).
  apply Forall_cons in Htime as [Hd0 Htime]. apply Forall_app in Htime as [Ht1 Htime].
  apply Forall_cons in Htime as [Hd1 Htime]. apply Forall_cons in Htime as [Hd3 _].
  apply Forall_cons in Hl1 as [_ Hl1].
  destruct (client_new_honest cfgc cfgs sid rkem rx (draw_kem d1) (draw_x d1) (draw_encap d1) Hsid Hvc rj)
    as (h & Enew & Hw). rewrite Hnew in Enew. injection Enew as <-.
  intros first flight1.
  set (rs := draw_kem d1) in *. set (xs := draw_x d1) in *. set (es := draw_encap d1) in *.
  assert (ch_m1_frags hc = m1_frags cfgc sid rkem rx) as Em1 by (by destruct Hw as (? & ? & ? & _ & ->)).
  assert (flight1 = (fun x => (x.1, m1_frag cfgc sid rkem rx x.2)) <$> (first ++ [(d1, i1)])) as ->.
  { unfold flight1. rewrite Em1. apply (pick_flight (m1_frag cfgc sid rkem rx) 4).
    rewrite fmap_app. apply Forall_app. split; (constructor; [cbn [fst snd]; lia|done || constructor]). }
  destruct (server_answers cfgc cfgs sid from rkem rx rs xs es Hsid Hvs Hdh T Hb Hpd Hrs Hro now0 d0 l1 d1 i1
    Hd0 Hd1) as (Hrun & e & Hhas & Hready); [done| |done|intros ->; apply Hn1; by left| | |].
  { apply Forall_forall. intros x Hx. rewrite Forall_forall in Ht1. rewrite Forall_forall in Hl1.
    split; [apply Ht1|apply Hl1]; by apply list_elem_of_fmap_2. }
  { intros ?. apply Hn1. by right. }
  { intros j Hj. destruct (Hc1 j Hj) as [->|[->|?]%elem_of_cons]; auto. }
  cbn [app] in *. destruct (feed_server from _ _) as [rs1 hs] eqn:Ef. cbn [fst snd] in Hrun, Hhas. subst rs1.
  pose proof (server_confirms cfgc cfgs sid from rkem rx rencap rs xs es Hsid Hvs Hdh T Hpd Hrs d3 e hs Hd3 Hhas Hready)
    as Hcomp. unfold wp in Hcomp.
  destruct Hcomp as (os & Eos & Hms & Hso & Hpo).
  destruct (CipherSession_paired (ho_master os) sid Hsid) as (c & s & Ec & Es & _ & _ & Hpair).
  do 7 eexists. split; [reflexivity|]. split.
  { unfold m2_frags. rewrite (pick_all (m2_frag cfgc cfgs sid rkem rx rs xs es) 5).
    - by apply client_completes.
    - apply Forall_app. split; [done|constructor; [done|constructor]]. }
  split; [exact Eos|]. split; [exact Hms|]. split; [exact Hso|]. split; [done|]. split; [exact Hpin|].
  split; [exact Hpo|]. unfold WireSession_established. rewrite Hso.
  cbn [client_result ho_master ho_session_id]. rewrite <- Hms, Ec, Es.
  split; [reflexivity|]. split; [reflexivity|]. exact Hpair.
Qed.

Lemma sample_configs : honest_configs Sample.client_cfg Sample.server_cfg.
Proof. split; try reflexivity; [by left|vm_compute; lia|vm_compute; discriminate|vm_compute; lia]. Qed.

Lemma all_but_check n l i0 :
  bool_decide ((i0 < n)%nat) && bool_decide (Forall (fun i => (i < n)%nat) l) && bool_decide (i0 ∉ l)
    && bool_decide (Forall (fun i => i = i0 \/ i ∈ l) (seq 0 n)) = true -> all_but n l i0.
Proof.
  intros [[[H1 H2]%andb_true_iff H3]%andb_true_iff H4]%andb_true_iff.
  apply bool_decide_eq_true_1 in H1, H2, H3, H4. do 3 (split; [done|]).
  intros i Hi. rewrite Forall_forall in H4. apply H4, elem_of_seq. lia.
Qed.

Lemma honest_handshake_witness : exists hc m2_frags hs m3 oc os,
  (ClientHandshake_new Sample.client_cfg Sample.sid (replicate 32 x11) (replicate 32 x12) 5 ()).1 = Ret hc /\
  (feed_client (replicate 32 x31) 3 hc (pick m2_frags <$> [3; 0; 0; 4; 2; 1]%nat)).1 =
    [Ret CE_None; Ret CE_None; Ret CE_None; Ret CE_None; Ret CE_None; Ret (CE_M3Sent [m3] oc)] /\
  (server_handle_datagram (Sample.draws 2) m3 Sample.client_addr hs).1 = Ret (SrvComplete os) /\
  ho_master os = ho_master oc.
Proof.
  assert (match (ClientHandshake_new Sample.client_cfg Sample.sid (replicate 32 x11) (replicate 32 x12) 5 ()).1
    with Ret _ => true | _ => false end = true) as Hok by (vm_compute; reflexivity).
  destruct (ClientHandshake_new Sample.client_cfg Sample.sid (replicate 32 x11) (replicate 32 x12) 5 ()).1
    as [hc| |] eqn:Enew; [|discriminate Hok|discriminate Hok].
  destruct (honest_handshake Sample.client_cfg Sample.server_cfg Sample.sid Sample.client_addr (from_secs 1) 0
    (replicate 32 x11) (replicate 32 x12) (replicate 32 x31) 5 3 (Sample.draws 1)
    [(Sample.draws 1, 3%nat); (Sample.draws 1, 0%nat); (Sample.draws 2, 1%nat)] (Sample.draws 2) 2%nat
    [3; 0; 0; 4; 2]%nat 1%nat (Sample.draws 2) hc)
    as (m2 & hs & m3 & oc & os & wc & ws & _ & Hc & Hs & Hm & _).
  - apply sample_configs.
  - reflexivity.
  - exact Enew.
  - vm_compute. reflexivity.
  - repeat (constructor; [vm_compute; intuition discriminate|]); constructor.
  - apply all_but_check. vm_compute. reflexivity.
  - apply all_but_check. vm_compute. reflexivity.
  - exists hc, m2, hs, m3, oc, os. split; [reflexivity|]. split; [exact Hc|]. split; [exact Hs|exact Hm].
Defined.
