(* ===== verification/SessionCommon.v ===== *)
(** * Session management: limits, events and the failure gate

    [pq-tunnel-core/src/session_manager.rs], the parts both managers share:
    [SessionLimits] with its validation, events and errors, the per-source
    failure gate of the data path, and the retransmission of [Close] packets. *)

From S2P Require Import Prelude Bytes Errors Codec Replay Crypto Envelope WireSession Exec Net HandshakeMsg HandshakeClient HandshakeServer.
From stdpp Require Import pretty.

Local Open Scope Z_scope.

(** ** [Debug] for [Duration] (the [{:?}] of error messages) *)

(** Decimal digits of [x / div] after the point, without trailing zeros. *)
Fixpoint frac_digits (fuel : nat) (x div : Z) : string :=
  match fuel with
  | O => ""
  | S fuel => if x =? 0 then "" else pretty (x / div) +:+ frac_digits fuel (x mod div) (div / 10)
  end.

Definition fmt_decimal (int frac div : Z) (suffix : string) : string :=
  pretty int +:+ (if frac =? 0 then "" else "." +:+ frac_digits 10 frac div) +:+ suffix.

Definition debug_duration (d : Duration) : string :=
  let secs := d / 1000000000 in
  let nanos := d mod 1000000000 in
  if 0 <? secs then fmt_decimal secs nanos 100000000 "s"
  else if 1000000 <=? nanos then fmt_decimal (nanos / 1000000) (nanos mod 1000000) 100000 "ms"
  else if 1000 <=? nanos then fmt_decimal (nanos / 1000) (nanos mod 1000) 100 "µs"
  else fmt_decimal nanos 0 1 "ns".

(** ** Limits *)

Record SessionLimits := mkSessionLimits {
  sl_max_sessions : nat;
  sl_idle_timeout : option Duration;
  sl_lifetime_cap : option Duration;
  sl_confirm_timeout : option Duration;
  sl_liveness_probe_interval : Duration;
  sl_liveness_rounds : Z;
  sl_handshake_timeout : option Duration;
  sl_fail_burst : Z;
  sl_fail_window : Duration;
  sl_max_fail_buckets : Z;
  sl_slot_interval : Duration }.

Definition SessionLimits_default : SessionLimits := {|
  sl_max_sessions := 64;
  sl_idle_timeout := Some (from_secs (5 * 60));
  sl_lifetime_cap := None;
  sl_confirm_timeout := Some (from_secs 30);
  sl_liveness_probe_interval := from_secs 5;
  sl_liveness_rounds := 3;
  sl_handshake_timeout := Some (from_secs 30);
  sl_fail_burst := 64;
  sl_fail_window := from_secs 10;
  sl_max_fail_buckets := 4096;
  sl_slot_interval := from_millis 5 |}.

(** ** Events and errors *)

Inductive CloseReason :=
| IdleTimeout | LifetimeCap | ReasonNonceExhausted | NotConfirmed | PeerUnresponsive
| HandshakeTimeout | Capacity | PeerClosed | UserClosed.

Global Instance CloseReason_eq_dec : EqDecision CloseReason.
Proof. solve_decision. Defined.

Inductive ManagerEvent :=
| EvSend (packets : list WirePacket) (peer : SocketAddr)
| EvSendPacket (packet : WirePacket) (peer : SocketAddr)
| EvEstablished (sid : bytes) (peer : SocketAddr)
| EvAppData (sid : bytes) (inner : InnerPlaintext)
| EvClosed (sid : bytes) (reason : CloseReason)
| EvOutboundDropped (dropped : Z)
| EvNone.

Inductive ManagerError :=
| ME_Handshake (e : HandshakeV2Error)
| ME_Session (e : SessionError)
| ME_NoSession
| ME_InvalidState (msg : string)
| ME_InvalidConfig (msg : string)
| ME_AppClosed.

Definition SessionLimits_validate (l : SessionLimits) : result ManagerError () :=
  match sl_idle_timeout l with
  | Some idle =>
      if idle <=? sl_liveness_probe_interval l then
        Err (ME_InvalidConfig ("idle_timeout (" +:+ debug_duration idle +:+
          ") must be strictly greater than liveness_probe_interval (" +:+
          debug_duration (sl_liveness_probe_interval l) +:+ ")"))
      else Ok ()
  | None => Ok ()
  end ≫= fun _ =>
  if sl_liveness_rounds l =? 0 then Err (ME_InvalidConfig "liveness_rounds must be at least 1")
  else if sl_slot_interval l =? 0 then Err (ME_InvalidConfig "slot_interval must be non-zero")
  else Ok ().

(** ** The failure gate *)

(** [session_manager::RateBucket]. *)
Record FailBucket := mkFailBucket { fb_tokens : Z; fb_last_refill : Instant }.

Record FailGate := mkFailGate {
  fg_buckets : gmap SocketAddr FailBucket;
  fg_order : list SocketAddr;
  fg_last_sweep : Instant }.

Definition FailGate_new (now : Instant) : FailGate := mkFailGate ∅ [] now.

Definition fg_len (g : FailGate) : nat := size (fg_buckets g).

Definition peek (g : FailGate) (from : SocketAddr) (now : Instant) (limits : SessionLimits) : bool :=
  if sl_max_fail_buckets limits =? 0 then false
  else
    match fg_buckets g !! from with
    | None => true
    | Some b =>
        if sl_fail_window limits <=? duration_since now (fb_last_refill b) then true
        else 0 <? fb_tokens b
    end.

Definition consume (from : SocketAddr) (now : Instant) (limits : SessionLimits) (g : FailGate)
    : FailGate :=
  if sl_max_fail_buckets limits =? 0 then g
  else
    match fg_buckets g !! from with
    | Some bucket =>
        let bucket :=
          if sl_fail_window limits <=? duration_since now (fb_last_refill bucket)
          then mkFailBucket (sl_fail_burst limits) now else bucket in
        let bucket := mkFailBucket (saturating_sub (fb_tokens bucket) 1) (fb_last_refill bucket) in
        mkFailGate (<[from := bucket]> (fg_buckets g)) (fg_order g) (fg_last_sweep g)
    | None =>
        let '(order, buckets) := evict_to (sl_max_fail_buckets limits) (fg_order g) (fg_buckets g) in
        let bucket := mkFailBucket (saturating_sub (sl_fail_burst limits) 1) now in
        mkFailGate (<[from := bucket]> buckets) (order ++ [from]) (fg_last_sweep g)
    end.

Definition sweep (now : Instant) (limits : SessionLimits) (g : FailGate) : FailGate :=
  if bool_decide (fg_buckets g = ∅) then g
  else if duration_since now (fg_last_sweep g) <? sl_fail_window limits then g
  else
    let buckets :=
      filter (fun kv => duration_since now (fb_last_refill kv.2) < sl_fail_window limits)
        (fg_buckets g) in
    mkFailGate buckets (filter (fun k => is_Some (buckets !! k)) (fg_order g)) now.

(** ** Data-path outcomes, control messages, [Close] retransmission *)

Inductive DataResult :=
| DrPayload (inner : InnerPlaintext)
| DrControl (inner : InnerPlaintext)
| DrPeerClose
| DrSessionDead (reason : CloseReason)
| DrFailed
| DrRejected.

Definition PROBE : byte := x01.
Definition ACK : byte := x02.

Definition CLOSE_RETRANSMIT_TOTAL : Z := 3.
Definition CLOSE_RETRANSMIT_BASE : Duration := from_secs 1.

(** [let mut payload = [0u8; PAYLOAD_LEN]; payload[0] = b]. *)
Definition control_payload (b : byte) : bytes := write_at 0 [b] (zeros PAYLOAD_LEN).

(** [padded[..payload.len()].copy_from_slice(payload)]. *)
Definition pad_payload (payload : bytes) : bytes := write_at 0 payload (zeros PAYLOAD_LEN).

Definition payload_too_long (payload : bytes) : ManagerError :=
  ME_Session (SE_Codec (WrongLength "payload" PAYLOAD_LEN (length payload))).

Record PendingClose := mkPendingClose {
  pc_session : WireSession;
  pc_peer : SocketAddr;
  pc_attempts_left : Z;
  pc_next_at : Instant }.

Section Closes.
Context {P : Primitives}.

(** The body of the retransmission loop for one entry. *)
Definition retransmit_one (now : Instant) (pc : PendingClose) : list ManagerEvent * PendingClose :=
  if (pc_attempts_left pc =? 0) || (now <? pc_next_at pc) then ([], pc)
  else
    let left := pc_attempts_left pc - 1 in
    let next_at := now + CLOSE_RETRANSMIT_BASE * 2 in
    match WireSession_encrypt (pc_session pc) Close (zeros PAYLOAD_LEN) with
    | (Ok packet, s) => ([EvSendPacket packet (pc_peer pc)], mkPendingClose s (pc_peer pc) left next_at)
    | (Err _, s) => ([], mkPendingClose s (pc_peer pc) 0 next_at)
    end.

Definition retransmit_closes (now : Instant) (pcs : list PendingClose)
    : list ManagerEvent * list PendingClose :=
  let rs := retransmit_one now <$> pcs in
  (concat rs.*1,
   filter (fun pc => 0 < pc_attempts_left pc /\ now < pc_next_at pc) rs.*2).

(** Map the outcome of [session.decrypt] to a data-path outcome; [None] is the
    early return of an error. The two managers differ in the success arm. *)
Definition classify_error (e : SessionError) : option DataResult :=
  match e with
  | SE_RekeyRequired => Some (DrSessionDead ReasonNonceExhausted)
  | SE_Codec Rejected => Some DrRejected
  | SE_Codec DecryptionFailed => Some DrFailed
  | SE_Codec (NonceExhausted _) => Some (DrSessionDead ReasonNonceExhausted)
  | SE_Codec _ => Some DrFailed
  | _ => None
  end.

End Closes.
