(* ===== verification/ServerManager.v ===== *)
(** * Server session manager

    [pq-tunnel-core/src/session_manager.rs], [ServerSessionManager]: one
    handshake machine, the table of established sessions, the failure gate and
    the pending [Close] retransmissions. [HashMap] iteration order is that of
    [map_to_list]; no theorem depends on it. *)

From S2P Require Import Prelude Bytes Errors Codec Replay Crypto Envelope WireSession Exec Net HandshakeMsg HandshakeClient HandshakeServer SessionCommon.

Local Open Scope Z_scope.

Section Manager.
Context {P : Primitives}.

Record SessionEntry := mkSessionEntry {
  se_session : WireSession;
  se_peer : SocketAddr;
  se_last_activity : Instant;
  se_established_at : Instant }.

Record ServerSessionManager := mkServerSessionManager {
  sm_limits : SessionLimits;
  sm_hs : ServerHandshake;
  sm_sessions : gmap bytes SessionEntry;
  sm_fail_gate : FailGate;
  sm_pending_closed : list ManagerEvent;
  sm_pending_closes : list PendingClose }.

Definition sm_set_hs (hs : ServerHandshake) (m : ServerSessionManager) :=
  mkServerSessionManager (sm_limits m) hs (sm_sessions m) (sm_fail_gate m) (sm_pending_closed m)
    (sm_pending_closes m).
Definition sm_map_sessions (f : gmap bytes SessionEntry -> gmap bytes SessionEntry)
    (m : ServerSessionManager) :=
  mkServerSessionManager (sm_limits m) (sm_hs m) (f (sm_sessions m)) (sm_fail_gate m)
    (sm_pending_closed m) (sm_pending_closes m).
Definition sm_map_gate (f : FailGate -> FailGate) (m : ServerSessionManager) :=
  mkServerSessionManager (sm_limits m) (sm_hs m) (sm_sessions m) (f (sm_fail_gate m))
    (sm_pending_closed m) (sm_pending_closes m).
Definition sm_map_closed (f : list ManagerEvent -> list ManagerEvent) (m : ServerSessionManager) :=
  mkServerSessionManager (sm_limits m) (sm_hs m) (sm_sessions m) (sm_fail_gate m)
    (f (sm_pending_closed m)) (sm_pending_closes m).
Definition sm_map_closes (f : list PendingClose -> list PendingClose) (m : ServerSessionManager) :=
  mkServerSessionManager (sm_limits m) (sm_hs m) (sm_sessions m) (sm_fail_gate m)
    (sm_pending_closed m) (f (sm_pending_closes m)).

Definition entry_set_session (s : WireSession) (e : SessionEntry) : SessionEntry :=
  mkSessionEntry s (se_peer e) (se_last_activity e) (se_established_at e).

Definition ServerSessionManager_new (cfg : ServerConfig) (limits : SessionLimits) (now : Instant)
    : result ManagerError ServerSessionManager :=
  _ ← map_err (fun e => match e with
        | HS_InvalidConfig msg => ME_InvalidConfig msg
        | other => ME_Handshake other
        end) (ServerConfig_validate cfg);
  _ ← SessionLimits_validate limits;
  Ok (mkServerSessionManager limits (ServerHandshake_new cfg now) ∅ (FailGate_new now) [] []).

Abbreviation SM := (M ServerSessionManager ManagerError).

Definition sm_set_roster (roster : list VerifyingKey) : SM () :=
  map_fail ME_Handshake (zoom sm_hs sm_set_hs (set_roster roster)).

(** [iter().min_by_key(last_activity)]: the first entry with the least key. *)
Definition stalest (sessions : gmap bytes SessionEntry) : option bytes :=
  fst <$> foldl (fun acc kv =>
    match acc with
    | None => Some (kv.1, se_last_activity kv.2)
    | Some (_, t) => if se_last_activity kv.2 <? t then Some (kv.1, se_last_activity kv.2) else acc
    end) None (map_to_list sessions).

Definition on_handshake_complete (outcome : HandshakeOutcome) (from : SocketAddr) (now : Instant)
    : SM ManagerEvent :=
  m ← get;
  let sid := ho_session_id outcome in
  if bool_decide (is_Some (sm_sessions m !! sid)) then mret EvNone
  else
    (if (sl_max_sessions (sm_limits m) <=? size (sm_sessions m))%nat then
       match stalest (sm_sessions m) with
       | Some stale =>
           modify (sm_map_sessions (delete stale));;
           modify (sm_map_closed (fun q => q ++ [EvClosed stale Capacity]))
       | None => mret ()
       end
     else mret ());;
    session ← try ME_Session (WireSession_established Server outcome now);
    modify (sm_map_sessions (<[sid := mkSessionEntry session from now now]>));;
    mret (EvEstablished sid from).

(** Encrypt on the session [sid] and store it back. *)
Definition with_session {A} (sid : bytes) (f : WireSession -> result SessionError A * WireSession)
    (e : SessionEntry) : M ServerSessionManager ManagerError (result SessionError A) :=
  let '(r, s) := f (se_session e) in
  modify (sm_map_sessions (<[sid := entry_set_session s e]>));; mret r.

(** Turn an encryption outcome on [sid] into an event. *)
Definition send_result (sid : bytes) (peer : SocketAddr) (r : result SessionError WirePacket)
    : SM ManagerEvent :=
  match r with
  | Ok packet => mret (EvSendPacket packet peer)
  | Err SE_RekeyRequired =>
      modify (sm_map_sessions (delete sid));; mret (EvClosed sid ReasonNonceExhausted)
  | Err e => try ME_Session (Err e)
  end.

Definition on_control_message (sid : bytes) (inner : InnerPlaintext) : SM ManagerEvent :=
  m ← get;
  if bool_decide (byte_at 0 (ip_payload inner) = PROBE) then
    match sm_sessions m !! sid with
    | None => mret EvNone
    | Some entry =>
        r ← with_session sid (fun s => WireSession_encrypt s Handshake (control_payload ACK)) entry;
        send_result sid (se_peer entry) r
    end
  else mret EvNone.

Definition server_on_data_packet (pkt : WirePacket) (from : SocketAddr) (now : Instant)
    : SM ManagerEvent :=
  m ← get;
  let sid := slice 1 (1 + SESSION_ID_LEN) (as_bytes pkt) in
  match sm_sessions m !! sid with
  | None => mret EvNone
  | Some entry =>
      if negb (peek (sm_fail_gate m) from now (sm_limits m)) then mret EvNone
      else
        let '(r, session) := WireSession_decrypt (se_session entry) pkt in
        match r with
        | Ok inner =>
            modify (sm_map_sessions
              (<[sid := mkSessionEntry session from now (se_established_at entry)]>));;
            match ip_msg_type inner with
            | Data | TunData => mret (EvAppData sid inner)
            | Cover => mret EvNone
            | Close => modify (sm_map_sessions (delete sid));; mret (EvClosed sid PeerClosed)
            | Handshake => on_control_message sid inner
            end
        | Err e =>
            modify (sm_map_sessions (<[sid := entry_set_session session entry]>));;
            match classify_error e with
            | Some (DrSessionDead reason) =>
                modify (sm_map_sessions (delete sid));; mret (EvClosed sid reason)
            | Some DrFailed =>
                modify (sm_map_gate (consume from now (sm_limits m)));; mret EvNone
            | Some _ => mret EvNone
            | None => try ME_Session (Err e)
            end
        end
  end.

Definition server_manager_handle (d : Draws) (now : Instant) (pkt : WirePacket) (from : SocketAddr)
    : SM ManagerEvent :=
  if is_handshake_fragment pkt then
    ev ← map_fail ME_Handshake (zoom sm_hs sm_set_hs (server_handle_datagram d pkt from));
    match ev with
    | SrvEmit packets peer => mret (EvSend packets peer)
    | SrvComplete outcome => on_handshake_complete outcome from now
    | SrvNone => mret EvNone
    end
  else server_on_data_packet pkt from now.

Definition server_send_encrypted (sid : bytes) (msg_type : MessageType) (payload : bytes)
    : SM ManagerEvent :=
  m ← get;
  entry ← try id (ok_or (sm_sessions m !! sid) ME_NoSession);
  r ← with_session sid (fun s => WireSession_encrypt s msg_type payload) entry;
  send_result sid (se_peer entry) r.

Definition server_app_outbound (sid payload : bytes) : SM ManagerEvent :=
  if (PAYLOAD_LEN <? length payload)%nat then try id (Err (payload_too_long payload))
  else server_send_encrypted sid Data (pad_payload payload).

Definition server_tun_outbound (sid payload : bytes) : SM ManagerEvent :=
  if negb (length payload =? PAYLOAD_LEN)%nat then try id (Err (payload_too_long payload))
  else server_send_encrypted sid TunData payload.

Definition server_cover_packet (sid : bytes) (fill : result string bytes) : SM ManagerEvent :=
  m ← get;
  entry ← try id (ok_or (sm_sessions m !! sid) ME_NoSession);
  r ← with_session sid (fun s => WireSession_cover s fill) entry;
  send_result sid (se_peer entry) r.

(** [sids.sort_unstable()]: identifiers as big-endian numbers. *)
Fixpoint insert_sid (sid : bytes) (l : list bytes) : list bytes :=
  match l with
  | [] => [sid]
  | s :: l' => if be_val sid <=? be_val s then sid :: l else s :: insert_sid sid l'
  end.

Definition sort_sids (l : list bytes) : list bytes := foldr insert_sid [] l.

Fixpoint cover_each (sids : list bytes) (fill : bytes -> result string bytes)
    : SM (list ManagerEvent) :=
  match sids with
  | [] => mret []
  | sid :: sids =>
      ev ← server_cover_packet sid (fill sid);
      out ← cover_each sids fill;
      mret (match ev with EvNone => out | ev => ev :: out end)
  end.

Definition cover_packet_all (fill : bytes -> result string bytes) : SM (list ManagerEvent) :=
  m ← get;
  cover_each (sort_sids (map_to_list (sm_sessions m)).*1) fill.

(** Encrypt the first [Close] of a removed session and schedule the others. *)
Definition begin_close (entry : SessionEntry) (now : Instant) (m : ServerSessionManager)
    : ManagerEvent * ServerSessionManager :=
  match WireSession_encrypt (se_session entry) Close (zeros PAYLOAD_LEN) with
  | (Ok packet, session) =>
      (EvSendPacket packet (se_peer entry),
       sm_map_closes (fun l => l ++ [mkPendingClose session (se_peer entry)
         (CLOSE_RETRANSMIT_TOTAL - 1) (now + CLOSE_RETRANSMIT_BASE)]) m)
  | (Err _, _) => (EvNone, m)
  end.

Definition close_session (sid : bytes) (now : Instant) : SM ManagerEvent :=
  m ← get;
  entry ← try id (ok_or (sm_sessions m !! sid) ME_NoSession);
  modify (sm_map_sessions (delete sid));;
  modify (sm_map_closed (fun q => q ++ [EvClosed sid UserClosed]));;
  call (begin_close entry now).

(** The reason to evict an entry at [now], if any. *)
Definition expiry (limits : SessionLimits) (now : Instant) (e : SessionEntry) : option CloseReason :=
  let idle_ok := match sl_idle_timeout limits with
                 | None => true | Some t => duration_since now (se_last_activity e) <? t end in
  let life_ok := match sl_lifetime_cap limits with
                 | None => true | Some t => duration_since now (se_established_at e) <? t end in
  if idle_ok && life_ok then None
  else if negb life_ok then Some LifetimeCap else Some IdleTimeout.

Definition expire_session (now : Instant) (sr : bytes * CloseReason)
    (st : list ManagerEvent * ServerSessionManager) : list ManagerEvent * ServerSessionManager :=
  let '(out, m) := st in
  let '(sid, reason) := sr in
  match sm_sessions m !! sid with
  | Some entry =>
      let '(close, m) := begin_close entry now (sm_map_sessions (delete sid) m) in
      (out ++ (match close with EvNone => [] | ev => [ev] end) ++ [EvClosed sid reason], m)
  | None => (out ++ [EvClosed sid reason], m)
  end.

Definition server_tick (now : Instant) (m : ServerSessionManager)
    : list ManagerEvent * ServerSessionManager :=
  let expired := omap (fun kv => r ← expiry (sm_limits m) now kv.2; Some (kv.1, r))
                   (map_to_list (sm_sessions m)) in
  let '(out, m) := foldl (fun st sr => expire_session now sr st) ([], m) expired in
  let out := out ++ sm_pending_closed m in
  let m := sm_map_closed (fun _ => []) m in
  let '(closes, pcs) := retransmit_closes now (sm_pending_closes m) in
  let m := sm_map_closes (fun _ => pcs) m in
  (out ++ closes, sm_map_gate (sweep now (sm_limits m)) m).

End Manager.
