(* ===== verification/ClientManager.v ===== *)
(** * Client session manager

    [pq-tunnel-core/src/session_manager.rs], [ClientSessionManager]: one
    handshake or one session at a time, the confirmation gate, M3
    retransmission, liveness probes, the outbound queue and the history of
    session identifiers. The clock readings and random draws a call makes itself
    are the record [ClientDraws]. *)

From S2P Require Import Prelude Bytes Errors Codec Replay Crypto Envelope WireSession Exec Net HandshakeMsg HandshakeClient HandshakeServer SessionCommon.
From stdpp Require Import pretty.

Local Open Scope Z_scope.

Inductive ClientManagerState := CmIdle | CmHandshaking | CmUnconfirmed | CmEstablished.

Record QueuedPayload := mkQueuedPayload { qp_payload : bytes; qp_queued_at : Instant }.

Global Instance QueuedPayload_eq_dec : EqDecision QueuedPayload.
Proof. solve_decision. Defined.

Definition OUTBOUND_QUEUE_CAP : nat := 64.
Definition OUTBOUND_QUEUE_TTL : Duration := from_secs 2.
Definition SID_HISTORY_CAP : nat := 64.
Definition RETIRED_SID_CAP : nat := 1024.

(** [clock] is [Instant::now()] inside the call; [fill i] is the [i]-th draw of
    a session identifier. *)
Record ClientDraws := mkClientDraws {
  clock : Instant;
  cd_fill : nat -> result string bytes;
  cd_kem : bytes;
  cd_x : bytes;
  cd_encap : bytes;
  cd_jitter : Z }.

Section Manager.
Context {P : Primitives}.

Record ClientSessionManager := mkClientSessionManager {
  cm_cfg : ClientConfig;
  cm_limits : SessionLimits;
  cm_hs : option ClientHandshake;
  cm_session : option WireSession;
  cm_ready : bool;
  cm_peer : SocketAddr;
  cm_hs_started : option Instant;
  cm_prepared_at : option Instant;
  cm_m3_frags : list WirePacket;
  cm_m3_attempts : Z;
  cm_m3_exhausted : bool;
  cm_next_probe_at : option Instant;
  cm_rounds_unanswered : Z;
  cm_last_slot_at : option Instant;
  cm_out_queue : list QueuedPayload;
  cm_dropped_outbound : Z;
  cm_last_drop_log : option Instant;
  cm_used_sids : gset bytes;
  cm_used_order : list bytes;
  cm_retired_sids : gset bytes;
  cm_retired_order : list bytes;
  cm_rearm_requested : bool;
  cm_pending_closed : list ManagerEvent;
  cm_pending_closes : list PendingClose }.

(** Field assignments, [self.field = x]. *)

Definition cm_set_hs (x : option ClientHandshake) (m : ClientSessionManager) : ClientSessionManager :=
  mkClientSessionManager (cm_cfg m) (cm_limits m) x (cm_session m) (cm_ready m) (cm_peer m)
    (cm_hs_started m) (cm_prepared_at m) (cm_m3_frags m) (cm_m3_attempts m) (cm_m3_exhausted m)
    (cm_next_probe_at m) (cm_rounds_unanswered m) (cm_last_slot_at m) (cm_out_queue m)
    (cm_dropped_outbound m) (cm_last_drop_log m) (cm_used_sids m) (cm_used_order m)
    (cm_retired_sids m) (cm_retired_order m) (cm_rearm_requested m) (cm_pending_closed m)
    (cm_pending_closes m).

Definition cm_set_session (x : option WireSession) (m : ClientSessionManager) : ClientSessionManager :=
  mkClientSessionManager (cm_cfg m) (cm_limits m) (cm_hs m) x (cm_ready m) (cm_peer m)
    (cm_hs_started m) (cm_prepared_at m) (cm_m3_frags m) (cm_m3_attempts m) (cm_m3_exhausted m)
    (cm_next_probe_at m) (cm_rounds_unanswered m) (cm_last_slot_at m) (cm_out_queue m)
    (cm_dropped_outbound m) (cm_last_drop_log m) (cm_used_sids m) (cm_used_order m)
    (cm_retired_sids m) (cm_retired_order m) (cm_rearm_requested m) (cm_pending_closed m)
    (cm_pending_closes m).

Definition cm_set_m3_attempts (x : Z) (m : ClientSessionManager) : ClientSessionManager :=
  mkClientSessionManager (cm_cfg m) (cm_limits m) (cm_hs m) (cm_session m) (cm_ready m)
    (cm_peer m) (cm_hs_started m) (cm_prepared_at m) (cm_m3_frags m) x (cm_m3_exhausted m)
    (cm_next_probe_at m) (cm_rounds_unanswered m) (cm_last_slot_at m) (cm_out_queue m)
    (cm_dropped_outbound m) (cm_last_drop_log m) (cm_used_sids m) (cm_used_order m)
    (cm_retired_sids m) (cm_retired_order m) (cm_rearm_requested m) (cm_pending_closed m)
    (cm_pending_closes m).

Definition cm_set_m3_exhausted (x : bool) (m : ClientSessionManager) : ClientSessionManager :=
  mkClientSessionManager (cm_cfg m) (cm_limits m) (cm_hs m) (cm_session m) (cm_ready m)
    (cm_peer m) (cm_hs_started m) (cm_prepared_at m) (cm_m3_frags m) (cm_m3_attempts m) x
    (cm_next_probe_at m) (cm_rounds_unanswered m) (cm_last_slot_at m) (cm_out_queue m)
    (cm_dropped_outbound m) (cm_last_drop_log m) (cm_used_sids m) (cm_used_order m)
    (cm_retired_sids m) (cm_retired_order m) (cm_rearm_requested m) (cm_pending_closed m)
    (cm_pending_closes m).

Definition cm_set_next_probe_at (x : option Instant) (m : ClientSessionManager) : ClientSessionManager :=
  mkClientSessionManager (cm_cfg m) (cm_limits m) (cm_hs m) (cm_session m) (cm_ready m)
    (cm_peer m) (cm_hs_started m) (cm_prepared_at m) (cm_m3_frags m) (cm_m3_attempts m)
    (cm_m3_exhausted m) x (cm_rounds_unanswered m) (cm_last_slot_at m) (cm_out_queue m)
    (cm_dropped_outbound m) (cm_last_drop_log m) (cm_used_sids m) (cm_used_order m)
    (cm_retired_sids m) (cm_retired_order m) (cm_rearm_requested m) (cm_pending_closed m)
    (cm_pending_closes m).

Definition cm_set_rounds_unanswered (x : Z) (m : ClientSessionManager) : ClientSessionManager :=
  mkClientSessionManager (cm_cfg m) (cm_limits m) (cm_hs m) (cm_session m) (cm_ready m)
    (cm_peer m) (cm_hs_started m) (cm_prepared_at m) (cm_m3_frags m) (cm_m3_attempts m)
    (cm_m3_exhausted m) (cm_next_probe_at m) x (cm_last_slot_at m) (cm_out_queue m)
    (cm_dropped_outbound m) (cm_last_drop_log m) (cm_used_sids m) (cm_used_order m)
    (cm_retired_sids m) (cm_retired_order m) (cm_rearm_requested m) (cm_pending_closed m)
    (cm_pending_closes m).

Definition cm_set_last_slot_at (x : option Instant) (m : ClientSessionManager) : ClientSessionManager :=
  mkClientSessionManager (cm_cfg m) (cm_limits m) (cm_hs m) (cm_session m) (cm_ready m)
    (cm_peer m) (cm_hs_started m) (cm_prepared_at m) (cm_m3_frags m) (cm_m3_attempts m)
    (cm_m3_exhausted m) (cm_next_probe_at m) (cm_rounds_unanswered m) x (cm_out_queue m)
    (cm_dropped_outbound m) (cm_last_drop_log m) (cm_used_sids m) (cm_used_order m)
    (cm_retired_sids m) (cm_retired_order m) (cm_rearm_requested m) (cm_pending_closed m)
    (cm_pending_closes m).

Definition cm_set_out_queue (x : list QueuedPayload) (m : ClientSessionManager) : ClientSessionManager :=
  mkClientSessionManager (cm_cfg m) (cm_limits m) (cm_hs m) (cm_session m) (cm_ready m)
    (cm_peer m) (cm_hs_started m) (cm_prepared_at m) (cm_m3_frags m) (cm_m3_attempts m)
    (cm_m3_exhausted m) (cm_next_probe_at m) (cm_rounds_unanswered m) (cm_last_slot_at m) x
    (cm_dropped_outbound m) (cm_last_drop_log m) (cm_used_sids m) (cm_used_order m)
    (cm_retired_sids m) (cm_retired_order m) (cm_rearm_requested m) (cm_pending_closed m)
    (cm_pending_closes m).

Definition cm_set_dropped_outbound (x : Z) (m : ClientSessionManager) : ClientSessionManager :=
  mkClientSessionManager (cm_cfg m) (cm_limits m) (cm_hs m) (cm_session m) (cm_ready m)
    (cm_peer m) (cm_hs_started m) (cm_prepared_at m) (cm_m3_frags m) (cm_m3_attempts m)
    (cm_m3_exhausted m) (cm_next_probe_at m) (cm_rounds_unanswered m) (cm_last_slot_at m)
    (cm_out_queue m) x (cm_last_drop_log m) (cm_used_sids m) (cm_used_order m) (cm_retired_sids m)
    (cm_retired_order m) (cm_rearm_requested m) (cm_pending_closed m) (cm_pending_closes m).

Definition cm_set_last_drop_log (x : option Instant) (m : ClientSessionManager) : ClientSessionManager :=
  mkClientSessionManager (cm_cfg m) (cm_limits m) (cm_hs m) (cm_session m) (cm_ready m)
    (cm_peer m) (cm_hs_started m) (cm_prepared_at m) (cm_m3_frags m) (cm_m3_attempts m)
    (cm_m3_exhausted m) (cm_next_probe_at m) (cm_rounds_unanswered m) (cm_last_slot_at m)
    (cm_out_queue m) (cm_dropped_outbound m) x (cm_used_sids m) (cm_used_order m)
    (cm_retired_sids m) (cm_retired_order m) (cm_rearm_requested m) (cm_pending_closed m)
    (cm_pending_closes m).

Definition cm_set_used (order : list bytes) (s : gset bytes) (m : ClientSessionManager) : ClientSessionManager :=
  mkClientSessionManager (cm_cfg m) (cm_limits m) (cm_hs m) (cm_session m) (cm_ready m)
    (cm_peer m) (cm_hs_started m) (cm_prepared_at m) (cm_m3_frags m) (cm_m3_attempts m)
    (cm_m3_exhausted m) (cm_next_probe_at m) (cm_rounds_unanswered m) (cm_last_slot_at m)
    (cm_out_queue m) (cm_dropped_outbound m) (cm_last_drop_log m) s order (cm_retired_sids m)
    (cm_retired_order m) (cm_rearm_requested m) (cm_pending_closed m) (cm_pending_closes m).

Definition cm_set_retired (order : list bytes) (s : gset bytes) (m : ClientSessionManager) : ClientSessionManager :=
  mkClientSessionManager (cm_cfg m) (cm_limits m) (cm_hs m) (cm_session m) (cm_ready m)
    (cm_peer m) (cm_hs_started m) (cm_prepared_at m) (cm_m3_frags m) (cm_m3_attempts m)
    (cm_m3_exhausted m) (cm_next_probe_at m) (cm_rounds_unanswered m) (cm_last_slot_at m)
    (cm_out_queue m) (cm_dropped_outbound m) (cm_last_drop_log m) (cm_used_sids m)
    (cm_used_order m) s order (cm_rearm_requested m) (cm_pending_closed m) (cm_pending_closes m).

Definition cm_set_pending_closed (x : list ManagerEvent) (m : ClientSessionManager) : ClientSessionManager :=
  mkClientSessionManager (cm_cfg m) (cm_limits m) (cm_hs m) (cm_session m) (cm_ready m)
    (cm_peer m) (cm_hs_started m) (cm_prepared_at m) (cm_m3_frags m) (cm_m3_attempts m)
    (cm_m3_exhausted m) (cm_next_probe_at m) (cm_rounds_unanswered m) (cm_last_slot_at m)
    (cm_out_queue m) (cm_dropped_outbound m) (cm_last_drop_log m) (cm_used_sids m)
    (cm_used_order m) (cm_retired_sids m) (cm_retired_order m) (cm_rearm_requested m) x
    (cm_pending_closes m).

Definition cm_set_pending_closes (x : list PendingClose) (m : ClientSessionManager) : ClientSessionManager :=
  mkClientSessionManager (cm_cfg m) (cm_limits m) (cm_hs m) (cm_session m) (cm_ready m)
    (cm_peer m) (cm_hs_started m) (cm_prepared_at m) (cm_m3_frags m) (cm_m3_attempts m)
    (cm_m3_exhausted m) (cm_next_probe_at m) (cm_rounds_unanswered m) (cm_last_slot_at m)
    (cm_out_queue m) (cm_dropped_outbound m) (cm_last_drop_log m) (cm_used_sids m)
    (cm_used_order m) (cm_retired_sids m) (cm_retired_order m) (cm_rearm_requested m)
    (cm_pending_closed m) x.

(** The assignments of [begin_handshake]. *)
Definition cm_install_hs (hs : ClientHandshake) (now : Instant) (m : ClientSessionManager) : ClientSessionManager :=
  mkClientSessionManager (cm_cfg m) (cm_limits m) (Some hs) (cm_session m) false
    (cc_server_addr (cm_cfg m)) (Some now) (cm_prepared_at m) (cm_m3_frags m) (cm_m3_attempts m)
    (cm_m3_exhausted m) (cm_next_probe_at m) (cm_rounds_unanswered m) (cm_last_slot_at m)
    (cm_out_queue m) (cm_dropped_outbound m) (cm_last_drop_log m) (cm_used_sids m)
    (cm_used_order m) (cm_retired_sids m) (cm_retired_order m) false (cm_pending_closed m)
    (cm_pending_closes m).

(** The handshake attempt is over: [hs], [hs_started], [rearm_requested]. *)
Definition cm_clear_hs (m : ClientSessionManager) : ClientSessionManager :=
  mkClientSessionManager (cm_cfg m) (cm_limits m) None (cm_session m) (cm_ready m) (cm_peer m)
    None (cm_prepared_at m) (cm_m3_frags m) (cm_m3_attempts m) (cm_m3_exhausted m)
    (cm_next_probe_at m) (cm_rounds_unanswered m) (cm_last_slot_at m) (cm_out_queue m)
    (cm_dropped_outbound m) (cm_last_drop_log m) (cm_used_sids m) (cm_used_order m)
    (cm_retired_sids m) (cm_retired_order m) true (cm_pending_closed m) (cm_pending_closes m).

(** The assignments of [on_m3_sent]. *)
Definition cm_install_session (session : WireSession) (now : Instant) (packets : list WirePacket)
    (m : ClientSessionManager) : ClientSessionManager :=
  mkClientSessionManager (cm_cfg m) (cm_limits m) None (Some session) false (cm_peer m) None
    (Some now) packets 0 false (Some (now + sl_liveness_probe_interval (cm_limits m))) 0
    (cm_last_slot_at m) (cm_out_queue m) (cm_dropped_outbound m) (cm_last_drop_log m)
    (cm_used_sids m) (cm_used_order m) (cm_retired_sids m) (cm_retired_order m)
    (cm_rearm_requested m) (cm_pending_closed m) (cm_pending_closes m).

(** The assignments on an authenticated packet. *)
Definition cm_confirm (from : SocketAddr) (m : ClientSessionManager) : ClientSessionManager :=
  mkClientSessionManager (cm_cfg m) (cm_limits m) (cm_hs m) (cm_session m) true from
    (cm_hs_started m) (cm_prepared_at m) (cm_m3_frags m) (cm_m3_attempts m) (cm_m3_exhausted m)
    (cm_next_probe_at m) 0 (cm_last_slot_at m) (cm_out_queue m) (cm_dropped_outbound m)
    (cm_last_drop_log m) (cm_used_sids m) (cm_used_order m) (cm_retired_sids m)
    (cm_retired_order m) (cm_rearm_requested m) (cm_pending_closed m) (cm_pending_closes m).

(** The assignments of [teardown]. *)
Definition cm_drop_session (m : ClientSessionManager) : ClientSessionManager :=
  mkClientSessionManager (cm_cfg m) (cm_limits m) (cm_hs m) None false (cm_peer m)
    (cm_hs_started m) None [] 0 true None 0 (cm_last_slot_at m) (cm_out_queue m)
    (cm_dropped_outbound m) (cm_last_drop_log m) (cm_used_sids m) (cm_used_order m)
    (cm_retired_sids m) (cm_retired_order m) true (cm_pending_closed m) (cm_pending_closes m).

Abbreviation CM := (M ClientSessionManager ManagerError).

Definition ClientSessionManager_new (cfg : ClientConfig) (limits : SessionLimits)
    : result ManagerError ClientSessionManager :=
  if negb (bool_decide (cc_version cfg = PROTOCOL_VERSION)) then
    Err (ME_InvalidConfig ("version " +:+ pretty (Byte.to_N (cc_version cfg)) +:+
                           " unsupported (expected " +:+ pretty (Byte.to_N PROTOCOL_VERSION)
                           +:+ ")"))
  else
    _ ← SessionLimits_validate limits;
    Ok {| cm_cfg := cfg; cm_limits := limits; cm_hs := None; cm_session := None; cm_ready := false;
          cm_peer := cc_server_addr cfg; cm_hs_started := None; cm_prepared_at := None;
          cm_m3_frags := []; cm_m3_attempts := 0; cm_m3_exhausted := false; cm_next_probe_at := None;
          cm_rounds_unanswered := 0; cm_last_slot_at := None; cm_out_queue := [];
          cm_dropped_outbound := 0; cm_last_drop_log := None; cm_used_sids := ∅; cm_used_order := [];
          cm_retired_sids := ∅; cm_retired_order := []; cm_rearm_requested := false;
          cm_pending_closed := []; cm_pending_closes := [] |}.

Definition cm_state (m : ClientSessionManager) : ClientManagerState :=
  match cm_session m with
  | Some _ => if cm_ready m then CmEstablished else CmUnconfirmed
  | None => match cm_hs m with Some _ => CmHandshaking | None => CmIdle end
  end.

Definition cm_session_id (m : ClientSessionManager) : option bytes := ws_session_id <$> cm_session m.
Definition cm_handshake_sid (m : ClientSessionManager) : option bytes := ch_sid <$> cm_hs m.

Definition needs_rearm (m : ClientSessionManager) : bool :=
  cm_rearm_requested m && bool_decide (cm_hs m = None) && bool_decide (cm_session m = None).

(** [while order.len() > cap { remove the oldest }], for both histories. *)
Fixpoint trim_history (cap : nat) (order : list bytes) (s : gset bytes) : list bytes * gset bytes :=
  if (length order <=? cap)%nat then (order, s)
  else match order with
       | [] => ([], s)
       | old :: rest => trim_history cap rest (s ∖ {[ old ]})
       end.

Definition remember_sid (sid : bytes) (m : ClientSessionManager) : ClientSessionManager :=
  let '(order, s) := trim_history SID_HISTORY_CAP (cm_used_order m ++ [sid])
                       ({[ sid ]} ∪ cm_used_sids m) in
  cm_set_used order s m.

(** The loop of [fresh_sid]: [n] tries left, next draw [i]. *)
Fixpoint fresh_sid_from (fill : nat -> result string bytes) (i n : nat) : CM bytes :=
  match n with
  | O => try id (Err (ME_InvalidState "could not draw a fresh session identifier"))
  | S n =>
      sid ← try ME_Handshake (random_sid (fill i));
      m ← get;
      if bool_decide (sid ∈ cm_used_sids m) then fresh_sid_from fill (S i) n
      else modify (remember_sid sid);; mret sid
  end.

Definition fresh_sid (d : ClientDraws) : CM bytes := fresh_sid_from (cd_fill d) 0 8.

(** A constructor called inside a manager method. *)
Definition lift_new {A} (f : M () HandshakeV2Error A) : CM A := fun m =>
  match (f ()).1 with
  | Ret a => (Ret a, m)
  | Fail e => (Fail (ME_Handshake e), m)
  | Panic p => (Panic p, m)
  end.

Definition cm_begin_handshake (d : ClientDraws) : CM ManagerEvent :=
  m ← get;
  if negb (bool_decide (cm_hs m = None)) || negb (bool_decide (cm_session m = None)) then
    try id (Err (ME_InvalidState "handshake already running or session established"))
  else
    sid ← fresh_sid d;
    hs ← lift_new (ClientHandshake_new (cm_cfg m) sid (cd_kem d) (cd_x d) (cd_jitter d));
    let packets := ch_m1_frags hs in
    modify (cm_install_hs hs (clock d));;
    mret (EvSend packets (cc_server_addr (cm_cfg m))).

(** A call on the running handshake machine whose [Result] is inspected. *)
Definition with_hs {A} (f : M ClientHandshake HandshakeV2Error A) (hs : ClientHandshake)
    : CM (result HandshakeV2Error A) := fun m =>
  match f hs with
  | (Ret a, hs) => (Ret (Ok a), cm_set_hs (Some hs) m)
  | (Fail e, hs) => (Ret (Err e), cm_set_hs (Some hs) m)
  | (Panic p, hs) => (Panic p, cm_set_hs (Some hs) m)
  end.

Definition build_probe (m : ClientSessionManager) : option WirePacket * ClientSessionManager :=
  match cm_session m with
  | None => (None, m)
  | Some session =>
      match WireSession_encrypt session Handshake (control_payload PROBE) with
      | (Ok p, s) => (Some p, cm_set_session (Some s) m)
      | (Err _, s) => (None, cm_set_session (Some s) m)
      end
  end.

Definition on_m3_sent (d : ClientDraws) (packets : list WirePacket) (outcome : HandshakeOutcome)
    : CM ManagerEvent :=
  m ← get;
  if negb (bool_decide (cm_session m = None)) then
    modify cm_clear_hs;;
    mret EvNone
  else if bool_decide (ho_session_id outcome ∈ cm_retired_sids m) then mret EvNone
  else
    let now := clock d in
    session ← try ME_Session (WireSession_established Client outcome now);
    modify (cm_install_session session now packets);;
    probe ← call build_probe;
    mret (EvSend (packets ++ option_list probe) (cc_server_addr (cm_cfg m))).

Definition retire_sid (sid : bytes) (m : ClientSessionManager) : ClientSessionManager :=
  if bool_decide (sid ∈ cm_retired_sids m) then m
  else
    let '(order, s) := trim_history RETIRED_SID_CAP (cm_retired_order m ++ [sid])
                         ({[ sid ]} ∪ cm_retired_sids m) in
    cm_set_retired order s m.

Definition teardown (now : Instant) (send_close : bool) (m : ClientSessionManager)
    : option ManagerEvent * ClientSessionManager :=
  match cm_session m with
  | None => (None, m)
  | Some session =>
      let m := cm_drop_session m in
      let m := retire_sid (ws_session_id session) m in
      if negb send_close then (None, m)
      else
        match WireSession_encrypt session Close (zeros PAYLOAD_LEN) with
        | (Err _, _) => (None, m)
        | (Ok packet, session) =>
            let m := cm_set_pending_closes (cm_pending_closes m ++
              [mkPendingClose session (cm_peer m) (CLOSE_RETRANSMIT_TOTAL - 1)
                 (now + CLOSE_RETRANSMIT_BASE)]) m in
            (Some (EvSendPacket packet (cm_peer m)), m)
        end
  end.

Definition client_on_data_packet (d : ClientDraws) (pkt : WirePacket) (from : SocketAddr)
    : CM ManagerEvent :=
  m ← get;
  match cm_session m with
  | None => mret EvNone
  | Some session =>
      let sid := slice 1 (1 + SESSION_ID_LEN) (as_bytes pkt) in
      if negb (bool_decide (sid = ws_session_id session)) then mret EvNone
      else
        let '(r, session) := WireSession_decrypt session pkt in
        modify (cm_set_session (Some session));;
        match r with
        | Ok inner =>
            modify (cm_confirm from);;
            match ip_msg_type inner with
            | Data | TunData => mret (EvAppData sid inner)
            | Close => call (teardown (clock d) false);; mret (EvClosed sid PeerClosed)
            | Handshake | Cover => mret EvNone
            end
        | Err e =>
            match classify_error e with
            | Some (DrSessionDead reason) =>
                call (teardown (clock d) true);; mret (EvClosed sid reason)
            | Some _ => mret EvNone
            | None => try ME_Session (Err e)
            end
        end
  end.

Definition client_manager_handle (d : ClientDraws) (pkt : WirePacket) (from : SocketAddr)
    : CM ManagerEvent :=
  m ← get;
  if is_handshake_fragment pkt then
    let peer := cc_server_addr (cm_cfg m) in
    match cm_hs m with
    | None => mret EvNone
    | Some hs =>
        r ← with_hs (client_handle_datagram (cd_encap d) (cd_jitter d) pkt) hs;
        ev ← try ME_Handshake r;
        match ev with
        | CE_Emit packets => mret (EvSend packets peer)
        | CE_M3Sent packets outcome => on_m3_sent d packets outcome
        | CE_None => mret EvNone
        end
    end
  else client_on_data_packet d pkt from.

Definition cm_on_timer (d : ClientDraws) : CM ManagerEvent :=
  m ← get;
  match cm_hs m with
  | Some hs =>
      let peer := cc_server_addr (cm_cfg m) in
      let sid := ch_sid hs in
      event ← with_hs (client_on_timer (cd_jitter d)) hs;
      match event with
      | Ok (CE_Emit packets) => mret (EvSend packets peer)
      | Ok (CE_M3Sent packets outcome) => on_m3_sent d packets outcome
      | Ok CE_None => mret EvNone
      | Err HS_Timeout =>
          modify cm_clear_hs;;
          mret (EvClosed sid HandshakeTimeout)
      | Err e => try ME_Handshake (Err e)
      end
  | None =>
      if bool_decide (cm_session m = None) || cm_ready m || cm_m3_exhausted m then mret EvNone
      else if cc_m3_max_attempts (cm_cfg m) <=? cm_m3_attempts m then
        modify (cm_set_m3_exhausted true);; mret EvNone
      else
        modify (cm_set_m3_attempts (cm_m3_attempts m + 1));;
        probe ← call build_probe;
        mret (EvSend (cm_m3_frags m ++ option_list probe) (cc_server_addr (cm_cfg m)))
  end.

Definition m3_delay (m : ClientSessionManager) (rand : Z) : Duration :=
  backoff_delay (cc_m1_retransmit_base (cm_cfg m)) (cm_m3_attempts m) rand.

Definition cm_next_delay (m : ClientSessionManager) (rand : Z) : option Duration :=
  match cm_hs m with
  | Some hs => Some (client_next_delay hs)
  | None =>
      if negb (bool_decide (cm_session m = None)) && negb (cm_ready m) && negb (cm_m3_exhausted m)
      then Some (m3_delay m rand) else None
  end.

Definition next_slot_delay (now : Instant) (m : ClientSessionManager) : option Duration :=
  _ ← cm_session m;
  let pace := match cm_last_slot_at m with
              | Some l => l + sl_slot_interval (cm_limits m) | None => now end in
  let next := if bool_decide (cm_out_queue m = []) then None else Some pace in
  let next := match cm_next_probe_at m with
              | Some probe =>
                  let due := Z.max probe pace in
                  Some (match next with Some n => Z.min n due | None => due end)
              | None => next
              end in
  n ← next; Some (duration_since n now).

(** [log_drop]: the clock reading is [at]. *)
Definition log_drop (at_ : Instant) (m : ClientSessionManager) : ClientSessionManager :=
  match cm_last_drop_log m with
  | Some last => if duration_since at_ last <? from_secs 1 then m else cm_set_last_drop_log (Some at_) m
  | None => cm_set_last_drop_log (Some at_) m
  end.

Definition expire_queued (now at_ : Instant) (m : ClientSessionManager) : Z * ClientSessionManager :=
  let before := length (cm_out_queue m) in
  let queue := filter (fun q => duration_since now (qp_queued_at q) < OUTBOUND_QUEUE_TTL)
                 (cm_out_queue m) in
  let m := cm_set_out_queue queue m in
  let dropped := Z.of_nat (before - length queue) in
  if 0 <? dropped then
    (dropped, log_drop at_ (cm_set_dropped_outbound
                              (saturating_add 64 (cm_dropped_outbound m) dropped) m))
  else (dropped, m).

Definition client_send_encrypted (d : ClientDraws) (msg_type : MessageType) (payload : bytes)
    : CM ManagerEvent :=
  m ← get;
  match cm_session m with
  | None => try id (Err ME_NoSession)
  | Some session =>
      let sid := ws_session_id session in
      let peer := cm_peer m in
      let '(r, session) := WireSession_encrypt session msg_type payload in
      modify (cm_set_session (Some session));;
      match r with
      | Ok packet => mret (EvSendPacket packet peer)
      | Err SE_RekeyRequired =>
          call (teardown (clock d) true);; mret (EvClosed sid ReasonNonceExhausted)
      | Err e => try ME_Session (Err e)
      end
  end.

Definition take_queued_payload (now : Instant) (d : ClientDraws) (m : ClientSessionManager)
    : option ManagerEvent * ClientSessionManager :=
  let m := (expire_queued now (clock d) m).2 in
  match cm_out_queue m with
  | [] => (None, m)
  | queued :: rest =>
      let m := cm_set_out_queue rest m in
      let padded := write_at 0 (take PAYLOAD_LEN (qp_payload queued)) (zeros PAYLOAD_LEN) in
      match client_send_encrypted d Data padded m with
      | (Ret ev, m) => (Some ev, m)
      | (_, m) => (Some EvNone, m)
      end
  end.

Definition take_probe (now : Instant) (m : ClientSessionManager)
    : option ManagerEvent * ClientSessionManager :=
  match cm_next_probe_at m with
  | None => (None, m)
  | Some due =>
      if now <? due then (None, m)
      else
        let m := cm_set_next_probe_at (Some (now + sl_liveness_probe_interval (cm_limits m))) m in
        match build_probe m with
        | (None, m) => (None, m)
        | (Some packet, m) =>
            let m := if cm_ready m
                     then cm_set_rounds_unanswered (saturating_add 32 (cm_rounds_unanswered m) 1) m
                     else m in
            (Some (EvSendPacket packet (cm_peer m)), m)
        end
  end.

Definition take_slot (now : Instant) (d : ClientDraws) (m : ClientSessionManager)
    : option ManagerEvent * ClientSessionManager :=
  match cm_session m with
  | None => (None, m)
  | Some _ =>
      let paced := match cm_last_slot_at m with
                   | Some last => duration_since now last <? sl_slot_interval (cm_limits m)
                   | None => false end in
      if paced then (None, m)
      else
        match take_queued_payload now d m with
        | (Some ev, m) => (Some ev, cm_set_last_slot_at (Some now) m)
        | (None, m) =>
            match take_probe now m with
            | (Some ev, m) => (Some ev, cm_set_last_slot_at (Some now) m)
            | (None, m) => (None, m)
            end
        end
  end.

Definition confirm_deadline_passed (m : ClientSessionManager) (now : Instant) : bool :=
  if cm_ready m then false
  else
    match cm_prepared_at m with
    | Some prepared_at =>
        match sl_confirm_timeout (cm_limits m) with
        | Some t => t <=? duration_since now prepared_at
        | None => false
        end
    | None => false
    end.

Definition close_now (reason : CloseReason) (now : Instant) (m : ClientSessionManager)
    : list ManagerEvent * ClientSessionManager :=
  match cm_session_id m with
  | None => ([], m)
  | Some sid =>
      let '(ev, m) := teardown now true m in
      (option_list ev ++ [EvClosed sid reason], m)
  end.

(** The five steps of [tick], in order. *)
Definition tick_handshake (now : Instant) (m : ClientSessionManager)
    : list ManagerEvent * ClientSessionManager :=
  match cm_hs m with
  | None => ([], m)
  | Some hs =>
      let past_deadline :=
        match sl_handshake_timeout (cm_limits m), cm_hs_started m with
        | Some t, Some s => t <=? duration_since now s
        | _, _ => false
        end in
      if past_deadline then
        ([EvClosed (ch_sid hs) HandshakeTimeout],
         cm_clear_hs m)
      else ([], m)
  end.

Definition tick_lifetime (now : Instant) (m : ClientSessionManager)
    : list ManagerEvent * ClientSessionManager :=
  match cm_prepared_at m, sl_lifetime_cap (cm_limits m) with
  | Some prepared_at, Some t =>
      if t <=? duration_since now prepared_at then close_now LifetimeCap now m else ([], m)
  | _, _ => ([], m)
  end.

Definition tick_confirm (now : Instant) (m : ClientSessionManager)
    : list ManagerEvent * ClientSessionManager :=
  if confirm_deadline_passed m now then close_now NotConfirmed now m else ([], m).

Definition tick_liveness (now : Instant) (m : ClientSessionManager)
    : list ManagerEvent * ClientSessionManager :=
  if cm_ready m && (sl_liveness_rounds (cm_limits m) <=? cm_rounds_unanswered m)
  then close_now PeerUnresponsive now m else ([], m).

Definition tick_queue (now at_ : Instant) (m : ClientSessionManager)
    : list ManagerEvent * ClientSessionManager :=
  let '(dropped, m) := expire_queued now at_ m in
  if 0 <? dropped then ([EvOutboundDropped (cm_dropped_outbound m)], m) else ([], m).

Definition client_tick (now : Instant) (d : ClientDraws) (m : ClientSessionManager)
    : list ManagerEvent * ClientSessionManager :=
  let '(o1, m) := tick_handshake now m in
  let '(o2, m) := tick_lifetime now m in
  let '(o3, m) := tick_confirm now m in
  let '(o4, m) := tick_liveness now m in
  let '(o5, m) := tick_queue now (clock d) m in
  let o6 := cm_pending_closed m in
  let m := cm_set_pending_closed [] m in
  let '(o7, pcs) := retransmit_closes now (cm_pending_closes m) in
  (o1 ++ o2 ++ o3 ++ o4 ++ o5 ++ o6 ++ o7, cm_set_pending_closes pcs m).

Definition enqueue (d : ClientDraws) (payload : bytes) (m : ClientSessionManager)
    : ManagerEvent * ClientSessionManager :=
  if (OUTBOUND_QUEUE_CAP <=? length (cm_out_queue m))%nat then
    let m := cm_set_dropped_outbound (saturating_add 64 (cm_dropped_outbound m) 1) m in
    let m := log_drop (clock d) m in
    (EvOutboundDropped (cm_dropped_outbound m), m)
  else
    (EvNone, cm_set_out_queue (cm_out_queue m ++ [mkQueuedPayload payload (clock d)]) m).

Definition client_app_outbound (d : ClientDraws) (payload : bytes) : CM ManagerEvent :=
  m ← get;
  if (PAYLOAD_LEN <? length payload)%nat then try id (Err (payload_too_long payload))
  else if bool_decide (cm_session m = None) then call (enqueue d (pad_payload payload))
  else client_send_encrypted d Data (pad_payload payload).

Definition client_tun_outbound (d : ClientDraws) (payload : bytes) : CM ManagerEvent :=
  m ← get;
  if negb (length payload =? PAYLOAD_LEN)%nat then try id (Err (payload_too_long payload))
  else if bool_decide (cm_session m = None) then mret EvNone
  else client_send_encrypted d TunData payload.

Definition client_cover_packet (d : ClientDraws) (fill : result string bytes) : CM ManagerEvent :=
  m ← get;
  match cm_session m with
  | None => try id (Err ME_NoSession)
  | Some session =>
      let sid := ws_session_id session in
      let peer := cm_peer m in
      let '(r, session) := WireSession_cover session fill in
      modify (cm_set_session (Some session));;
      match r with
      | Ok packet => mret (EvSendPacket packet peer)
      | Err SE_RekeyRequired =>
          call (teardown (clock d) true);; mret (EvClosed sid ReasonNonceExhausted)
      | Err e => try ME_Session (Err e)
      end
  end.

Definition client_close (d : ClientDraws) (m : ClientSessionManager)
    : ManagerEvent * ClientSessionManager :=
  match cm_session_id m with
  | None => (EvNone, m)
  | Some sid =>
      let '(close, m) := teardown (clock d) true m in
      (default EvNone close,
       cm_set_pending_closed (cm_pending_closed m ++ [EvClosed sid UserClosed]) m)
  end.

End Manager.
