(* ===== verification/Drivers.v ===== *)
(** * The session-manager drivers

    [pq-tunnel-core/src/session_manager.rs], [run_server_manager] and
    [run_client_manager]: the [select!] loops around the two managers. A turn of
    a loop is the arm that fired with what it received; the transport and the
    application channel are functions that say whether a send succeeds, and the
    packets sent and notifications delivered are kept in a log. A timer arm is
    the delay or deadline it was last set to, [None] for [Duration::MAX]. *)

From S2P Require Import Prelude Bytes Errors Codec Replay Crypto Envelope WireSession Scheduler Exec Net HandshakeMsg HandshakeClient HandshakeServer SessionCommon ServerManager ClientManager.

Local Open Scope Z_scope.

Definition TICK_INTERVAL : Duration := from_secs 1.

Inductive ManagerNotification :=
| NEstablished (sid : bytes) (peer : SocketAddr)
| NReady (sid : bytes)
| NData (sid : bytes) (inner : InnerPlaintext)
| NClosed (sid : bytes) (reason : CloseReason)
| NOutboundDropped (dropped : Z).

Record ServerAppCommand := mkServerAppCommand { sac_sid : bytes; sac_payload : bytes }.

(** ** Input and output *)

Inductive effect :=
| Sent (packet : WirePacket) (peer : SocketAddr)
| Notified (n : ManagerNotification).

(** The outcome of a send on the transport, and whether the application still
    holds its end of the channel. *)
Record DriverIO := mkDriverIO {
  io_send : WirePacket -> SocketAddr -> result HandshakeV2Error ();
  io_notify : ManagerNotification -> bool }.

(** A driver state with a log of its effects. *)
Class HasLog (S : Type) := log_effect : effect -> S -> S.

Section IO.
Context {S : Type} `{HasLog S}.

Definition send_to (io : DriverIO) (packet : WirePacket) (peer : SocketAddr) : M S ManagerError () :=
  try ME_Handshake (io_send io packet peer);; modify (log_effect (Sent packet peer)).

Fixpoint send_packets (io : DriverIO) (packets : list WirePacket) (peer : SocketAddr)
    : M S ManagerError () :=
  match packets with
  | [] => mret ()
  | p :: packets => send_to io p peer;; send_packets io packets peer
  end.

Definition notify (io : DriverIO) (n : ManagerNotification) : M S ManagerError () :=
  if io_notify io n then modify (log_effect (Notified n)) else try id (Err ME_AppClosed).

End IO.

(** [for ev in events { .. }], with the position of each event. *)
Fixpoint for_events {S} (f : nat -> ManagerEvent -> M S ManagerError ()) (i : nat)
    (evs : list ManagerEvent) : M S ManagerError () :=
  match evs with
  | [] => mret ()
  | ev :: evs => f i ev;; for_events f (Datatypes.S i) evs
  end.

Definition cover_sleep (s : CoverScheduler) : option Instant := next_deadline s.

Section Server.
Context {P : Primitives}.

(** ** The server driver *)

Record ServerDriver := mkServerDriver {
  sd_manager : ServerSessionManager;
  sd_cover_sched : CoverScheduler;
  sd_cover_arm : option Instant;
  sd_reset_noticed : bool;
  sd_log : list effect }.

Definition sd_set_manager (m : ServerSessionManager) (s : ServerDriver) : ServerDriver :=
  mkServerDriver m (sd_cover_sched s) (sd_cover_arm s) (sd_reset_noticed s) (sd_log s).
Definition sd_set_sched (c : CoverScheduler) (s : ServerDriver) : ServerDriver :=
  mkServerDriver (sd_manager s) c (sd_cover_arm s) (sd_reset_noticed s) (sd_log s).
Definition sd_set_reset_noticed (b : bool) (s : ServerDriver) : ServerDriver :=
  mkServerDriver (sd_manager s) (sd_cover_sched s) (sd_cover_arm s) b (sd_log s).

(** [cover_arm.set(cover_sleep(&cover_sched))]. *)
Definition sd_arm_cover (s : ServerDriver) : ServerDriver :=
  mkServerDriver (sd_manager s) (sd_cover_sched s) (cover_sleep (sd_cover_sched s))
    (sd_reset_noticed s) (sd_log s).

Global Instance ServerDriver_log : HasLog ServerDriver := fun e s =>
  mkServerDriver (sd_manager s) (sd_cover_sched s) (sd_cover_arm s) (sd_reset_noticed s) (sd_log s ++ [e]).

(** The arm of [select!] that fired. *)
Inductive server_input :=
| SIRecv (r : result HandshakeV2Error (WirePacket * SocketAddr))
| SICmd (cmd : option ServerAppCommand)
| SITick
| SICover.

(** What a turn reads: the clock of the driver, the draws of the manager's call,
    the random fill of each cover packet, and the outside world. *)
Record ServerTurn := mkServerTurn {
  st_now : Instant;
  st_draws : Draws;
  st_fill : bytes -> result string bytes;
  st_io : DriverIO }.

Abbreviation SD := (M ServerDriver ManagerError).

Definition on_manager {A} (f : M ServerSessionManager ManagerError A) : SD A :=
  zoom sd_manager sd_set_manager f.

Definition server_on_event (t : ServerTurn) (ev : ManagerEvent) : SD () :=
  match ev with
  | EvSend packets peer => send_packets (st_io t) packets peer
  | EvSendPacket packet peer => send_to (st_io t) packet peer
  | EvEstablished sid peer =>
      modify (fun s => sd_set_sched (CoverScheduler_start (sd_cover_sched s) (st_now t)) s);;
      modify sd_arm_cover;;
      notify (st_io t) (NEstablished sid peer)
  | EvAppData sid inner => notify (st_io t) (NData sid inner)
  | EvClosed sid reason => notify (st_io t) (NClosed sid reason)
  | EvNone | EvOutboundDropped _ => mret ()
  end.

(** The event match of the tick and cover arms. *)
Definition server_on_timed_event (t : ServerTurn) (i : nat) (ev : ManagerEvent) : SD () :=
  match ev with
  | EvSendPacket packet peer => send_to (st_io t) packet peer
  | EvClosed sid reason => notify (st_io t) (NClosed sid reason)
  | _ => mret ()
  end.

Definition server_recv_arm (t : ServerTurn) (r : result HandshakeV2Error (WirePacket * SocketAddr)) : SD bool :=
  match r with
  | Err HS_DatagramRejected => mret true
  | Err HS_TransportReset => modify (sd_set_reset_noticed true);; mret true
  | Err e => try ME_Handshake (Err e)
  | Ok (pkt, from) =>
      modify (sd_set_reset_noticed false);;
      ev ← on_manager (server_manager_handle (st_draws t) (st_now t) pkt from);
      server_on_event t ev;; mret true
  end.

Definition server_cmd_arm (t : ServerTurn) (cmd : option ServerAppCommand) : SD bool :=
  match cmd with
  | None => mret false
  | Some cmd => fun s =>
      match server_app_outbound (sac_sid cmd) (sac_payload cmd) (sd_manager s) with
      | (Ret (EvSendPacket packet peer), m) =>
          (send_to (st_io t) packet peer;; mret true) (sd_set_manager m s)
      | (Ret (EvClosed sid reason), m) =>
          (notify (st_io t) (NClosed sid reason);; mret true) (sd_set_manager m s)
      | (Ret _, m) => (Ret true, sd_set_manager m s)
      | (Fail ME_NoSession, m) => (Ret true, sd_set_manager m s)
      | (Fail (ME_Session (SE_Codec (WrongLength _ _ _))), m) => (Ret true, sd_set_manager m s)
      | (Fail e, m) => (Fail e, sd_set_manager m s)
      | (Panic p, m) => (Panic p, sd_set_manager m s)
      end
  end.

Definition server_tick_arm (t : ServerTurn) : SD bool :=
  evs ← on_manager (call (server_tick (st_now t)));
  for_events (server_on_timed_event t) 0 evs;; mret true.

Definition server_cover_arm (t : ServerTurn) : SD bool :=
  s ← get;
  let '(due, sched) := on_deadline (sd_cover_sched s) (st_now t) in
  modify (sd_set_sched sched);;
  (if due then
     evs ← on_manager (cover_packet_all (st_fill t));
     for_events (server_on_timed_event t) 0 evs;;
     modify (fun s => if (size (sm_sessions (sd_manager s)) =? 0)%nat
                      then sd_set_sched (CoverScheduler_stop (sd_cover_sched s)) s else s)
   else mret ());;
  modify sd_arm_cover;; mret true.

Definition server_turn (t : ServerTurn) (i : server_input) : SD bool :=
  match i with
  | SIRecv r => server_recv_arm t r
  | SICmd cmd => server_cmd_arm t cmd
  | SITick => server_tick_arm t
  | SICover => server_cover_arm t
  end.

Definition server_driver_init (m : ServerSessionManager) (cover : CoverPolicy) : ServerDriver :=
  let sched := CoverScheduler_new cover in mkServerDriver m sched (cover_sleep sched) false [].

(** The loop over a given sequence of turns; [Ret false] is the return of
    [Ok(())], [Ret true] means the loop is still running. *)
Fixpoint server_driver_loop (turns : list (ServerTurn * server_input)) : SD bool :=
  match turns with
  | [] => mret true
  | (t, i) :: turns => go ← server_turn t i; if go : bool then server_driver_loop turns else mret false
  end.

Definition run_server_manager (m : ServerSessionManager) (cover : CoverPolicy)
    (turns : list (ServerTurn * server_input)) : exec ManagerError bool * ServerDriver :=
  server_driver_loop turns (server_driver_init m cover).

End Server.

Section Client.
Context {P : Primitives}.

(** ** The client driver *)

Record ClientDriver := mkClientDriver {
  cv_manager : ClientSessionManager;
  cv_was_ready : bool;
  cv_cover_sched : CoverScheduler;
  cv_cover_arm : option Instant;
  cv_slot_arm : option Duration;
  cv_retransmit : option Duration;
  cv_reset_noticed : bool;
  cv_log : list effect }.

Definition cv_set_manager (m : ClientSessionManager) (s : ClientDriver) : ClientDriver :=
  mkClientDriver m (cv_was_ready s) (cv_cover_sched s) (cv_cover_arm s) (cv_slot_arm s)
    (cv_retransmit s) (cv_reset_noticed s) (cv_log s).
Definition cv_set_was_ready (b : bool) (s : ClientDriver) : ClientDriver :=
  mkClientDriver (cv_manager s) b (cv_cover_sched s) (cv_cover_arm s) (cv_slot_arm s)
    (cv_retransmit s) (cv_reset_noticed s) (cv_log s).
Definition cv_set_sched (c : CoverScheduler) (s : ClientDriver) : ClientDriver :=
  mkClientDriver (cv_manager s) (cv_was_ready s) c (cv_cover_arm s) (cv_slot_arm s)
    (cv_retransmit s) (cv_reset_noticed s) (cv_log s).
Definition cv_arm_cover (s : ClientDriver) : ClientDriver :=
  mkClientDriver (cv_manager s) (cv_was_ready s) (cv_cover_sched s) (cover_sleep (cv_cover_sched s))
    (cv_slot_arm s) (cv_retransmit s) (cv_reset_noticed s) (cv_log s).
Definition cv_set_slot_arm (x : option Duration) (s : ClientDriver) : ClientDriver :=
  mkClientDriver (cv_manager s) (cv_was_ready s) (cv_cover_sched s) (cv_cover_arm s) x
    (cv_retransmit s) (cv_reset_noticed s) (cv_log s).
Definition cv_set_retransmit (x : option Duration) (s : ClientDriver) : ClientDriver :=
  mkClientDriver (cv_manager s) (cv_was_ready s) (cv_cover_sched s) (cv_cover_arm s) (cv_slot_arm s)
    x (cv_reset_noticed s) (cv_log s).
Definition cv_set_reset_noticed (b : bool) (s : ClientDriver) : ClientDriver :=
  mkClientDriver (cv_manager s) (cv_was_ready s) (cv_cover_sched s) (cv_cover_arm s) (cv_slot_arm s)
    (cv_retransmit s) b (cv_log s).

Global Instance ClientDriver_log : HasLog ClientDriver := fun e s =>
  mkClientDriver (cv_manager s) (cv_was_ready s) (cv_cover_sched s) (cv_cover_arm s) (cv_slot_arm s)
    (cv_retransmit s) (cv_reset_noticed s) (cv_log s ++ [e]).

Inductive client_input :=
| CIRecv (r : result HandshakeV2Error (WirePacket * SocketAddr))
| CICmd (payload : option bytes)
| CIRetransmit
| CITick
| CISlot
| CICover.

(** What a turn reads: the driver's clock, the clock at [take_slot] in the cover
    arm, the draws of the manager's call and of each re-arm, the jitter of the
    retransmission timer, the fill of a cover packet, and the outside world. *)
Record ClientTurn := mkClientTurn {
  ct_now : Instant;
  ct_slot_now : Instant;
  ct_draws : ClientDraws;
  ct_rearm : nat -> ClientDraws;
  ct_jitter : Z;
  ct_fill : result string bytes;
  ct_io : DriverIO }.

Abbreviation CD := (M ClientDriver ManagerError).

Definition on_client {A} (f : M ClientSessionManager ManagerError A) : CD A :=
  zoom cv_manager cv_set_manager f.

Definition client_slot_timer (m : ClientSessionManager) (cover_owns_slot : bool) (now : Instant)
    : option Duration :=
  if cover_owns_slot then None else next_slot_delay now m.

Definition client_retransmit_timer (m : ClientSessionManager) (rand : Z) : option Duration :=
  cm_next_delay m rand.

(** [slot_arm.set(client_slot_timer(manager, owns))] and
    [retransmit.set(client_retransmit_timer(manager))]. *)
Definition arm_slot (t : ClientTurn) (owns : ClientDriver -> bool) : CD () :=
  modify (fun s => cv_set_slot_arm (client_slot_timer (cv_manager s) (owns s) (ct_now t)) s).
Definition arm_retransmit (t : ClientTurn) : CD () :=
  modify (fun s => cv_set_retransmit (client_retransmit_timer (cv_manager s) (ct_jitter t)) s).

Definition cover_owns (s : ClientDriver) : bool :=
  negb (bool_decide (next_deadline (cv_cover_sched s) = None)).

(** A manager call whose [Result] is inspected by the driver. *)
Definition try_client {A} (f : M ClientSessionManager ManagerError A) : CD (result ManagerError A) :=
  fun s => match f (cv_manager s) with
           | (Ret a, m) => (Ret (Ok a), cv_set_manager m s)
           | (Fail e, m) => (Ret (Err e), cv_set_manager m s)
           | (Panic p, m) => (Panic p, cv_set_manager m s)
           end.

Definition rearm_client (t : ClientTurn) (i : nat) : CD () :=
  r ← try_client (cm_begin_handshake (ct_rearm t i));
  match r with
  | Ok (EvSend packets peer) => send_packets (ct_io t) packets peer
  | Ok _ => mret ()
  | Err _ => mret ()
  end.

(** The block every arm runs on a [Closed] event. *)
Definition on_closed (t : ClientTurn) (i : nat) (sid : bytes) (reason : CloseReason) : CD () :=
  modify (cv_set_was_ready false);;
  modify (fun s => cv_set_sched (CoverScheduler_stop (cv_cover_sched s)) s);;
  modify cv_arm_cover;;
  arm_slot t (fun _ => false);;
  notify (ct_io t) (NClosed sid reason);;
  rearm_client t i;;
  arm_retransmit t.

(** The head of the loop: the confirmation signal. *)
Definition client_signal_ready (t : ClientTurn) : CD () :=
  s ← get;
  if cm_ready (cv_manager s) && negb (cv_was_ready s) then
    modify (cv_set_was_ready true);;
    modify (fun s => cv_set_sched (CoverScheduler_start (cv_cover_sched s) (ct_now t)) s);;
    modify cv_arm_cover;;
    arm_slot t cover_owns;;
    match cm_session_id (cv_manager s) with
    | Some sid => notify (ct_io t) (NReady sid)
    | None => mret ()
    end
  else mret ().

Definition client_on_datagram_event (t : ClientTurn) (ev : ManagerEvent) : CD () :=
  match ev with
  | EvSend packets peer => send_packets (ct_io t) packets peer
  | EvSendPacket packet peer => send_to (ct_io t) packet peer
  | EvAppData sid inner => notify (ct_io t) (NData sid inner)
  | EvClosed sid reason => on_closed t 0 sid reason
  | EvEstablished _ _ | EvNone | EvOutboundDropped _ => mret ()
  end.

Definition is_unconfirmed (m : ClientSessionManager) : bool :=
  match cm_state m with CmUnconfirmed => true | _ => false end.

Definition client_recv_arm (t : ClientTurn) (r : result HandshakeV2Error (WirePacket * SocketAddr)) : CD bool :=
  match r with
  | Err HS_DatagramRejected => mret true
  | Err HS_TransportReset => modify (cv_set_reset_noticed true);; mret true
  | Err e => try ME_Handshake (Err e)
  | Ok (pkt, from) =>
      modify (cv_set_reset_noticed false);;
      s ← get;
      let was_unconfirmed := is_unconfirmed (cv_manager s) in
      ev ← on_client (client_manager_handle (ct_draws t) pkt from);
      client_on_datagram_event t ev;;
      s ← get;
      (if negb was_unconfirmed && is_unconfirmed (cv_manager s) then arm_retransmit t else mret ());;
      arm_slot t cover_owns;;
      mret true
  end.

Definition client_cmd_arm (t : ClientTurn) (cmd : option bytes) : CD bool :=
  match cmd with
  | None => mret false
  | Some payload =>
      r ← try_client (client_app_outbound (ct_draws t) payload);
      match r with
      | Ok (EvSendPacket packet peer) => send_to (ct_io t) packet peer;; mret true
      | Ok (EvClosed sid reason) => on_closed t 0 sid reason;; mret true
      | Ok (EvOutboundDropped n) => notify (ct_io t) (NOutboundDropped n);; mret true
      | Ok _ => arm_slot t cover_owns;; mret true
      | Err ME_NoSession => mret true
      | Err (ME_Session (SE_Codec (WrongLength _ _ _))) => mret true
      | Err e => try id (Err e)
      end
  end.

Definition client_retransmit_arm (t : ClientTurn) : CD bool :=
  ev ← on_client (cm_on_timer (ct_draws t));
  match ev with
  | EvSend packets peer => send_packets (ct_io t) packets peer;; arm_retransmit t
  | EvClosed sid reason => on_closed t 0 sid reason
  | _ => arm_retransmit t
  end;;
  mret true.

Definition client_on_tick_event (t : ClientTurn) (i : nat) (ev : ManagerEvent) : CD () :=
  match ev with
  | EvSendPacket packet peer => send_to (ct_io t) packet peer
  | EvClosed sid reason => on_closed t i sid reason
  | EvOutboundDropped n => notify (ct_io t) (NOutboundDropped n)
  | _ => mret ()
  end.

Definition client_tick_arm (t : ClientTurn) : CD bool :=
  evs ← on_client (call (client_tick (ct_now t) (ct_draws t)));
  for_events (client_on_tick_event t) 0 evs;;
  s ← get;
  (if needs_rearm (cv_manager s) then rearm_client t (length evs);; arm_retransmit t else mret ());;
  mret true.

(** The event match of the slot and cover arms. *)
Definition client_on_slot_event (t : ClientTurn) (ev : option ManagerEvent) : CD () :=
  match ev with
  | Some (EvSendPacket packet peer) => send_to (ct_io t) packet peer
  | Some (EvClosed sid reason) => on_closed t 0 sid reason
  | _ => mret ()
  end.

Definition client_slot_arm (t : ClientTurn) : CD bool :=
  ev ← on_client (call (take_slot (ct_now t) (ct_draws t)));
  client_on_slot_event t ev;;
  arm_slot t cover_owns;;
  mret true.

(** [manager.take_slot(now)] or else [manager.cover_packet()]. *)
Definition slot_or_cover (t : ClientTurn) : CD (option ManagerEvent) :=
  ev ← on_client (call (take_slot (ct_slot_now t) (ct_draws t)));
  match ev with
  | Some ev => mret (Some ev)
  | None =>
      r ← try_client (client_cover_packet (ct_draws t) (ct_fill t));
      match r with
      | Ok ev => mret (Some ev)
      | Err ME_NoSession => mret None
      | Err e => try id (Err e)
      end
  end.

Definition client_cover_arm (t : ClientTurn) : CD bool :=
  s ← get;
  let '(due, sched) := on_deadline (cv_cover_sched s) (ct_now t) in
  modify (cv_set_sched sched);;
  (if due then ev ← slot_or_cover t; client_on_slot_event t ev else mret ());;
  modify cv_arm_cover;;
  mret true.

Definition client_turn (t : ClientTurn) (i : client_input) : CD bool :=
  client_signal_ready t;;
  match i with
  | CIRecv r => client_recv_arm t r
  | CICmd cmd => client_cmd_arm t cmd
  | CIRetransmit => client_retransmit_arm t
  | CITick => client_tick_arm t
  | CISlot => client_slot_arm t
  | CICover => client_cover_arm t
  end.

Fixpoint client_driver_loop (turns : list (ClientTurn * client_input)) : CD bool :=
  match turns with
  | [] => mret true
  | (t, i) :: turns => go ← client_turn t i; if go : bool then client_driver_loop turns else mret false
  end.

Definition client_driver_init (t : ClientTurn) (m : ClientSessionManager) (cover : CoverPolicy) : ClientDriver :=
  let sched := CoverScheduler_new cover in
  mkClientDriver m false sched (cover_sleep sched) (client_slot_timer m false (ct_now t))
    (client_retransmit_timer m (ct_jitter t)) false [].

(** Auto-connect, then the loop; [t] is what the part before the loop reads. *)
Definition client_connect (t : ClientTurn) : CD () :=
  ev ← on_client (cm_begin_handshake (ct_draws t));
  match ev with EvSend packets peer => send_packets (ct_io t) packets peer | _ => mret () end;;
  arm_slot t (fun _ => false);;
  arm_retransmit t.

Definition run_client_manager (t : ClientTurn) (m : ClientSessionManager) (cover : CoverPolicy)
    (turns : list (ClientTurn * client_input)) : exec ManagerError bool * ClientDriver :=
  (client_connect t;; client_driver_loop turns) (client_driver_init t m cover).

End Client.
