(* ===== verification/Relay.v ===== *)
(** * The relay framing and the client's UDP relay

    [pq-tunnel-bin/src/relay.rs]: the framing of relayed datagrams inside a
    payload slot, the [destination -> app endpoint] table, and the two loops
    that share it as steps on the table and a trace of effects. The order in
    which the table is iterated is the argument of [Oldest]. *)

From S2P Require Import Prelude Bytes Net IpAddr Oldest Errors Codec Envelope WireSession Drivers.

Local Open Scope Z_scope.

(** ** Framing *)

Definition FAMILY_IPV4 : byte := x04.
Definition FAMILY_IPV6 : byte := x06.
Definition HDR_LEN_V4 : nat := 9.
Definition HDR_LEN_V6 : nat := 21.
Definition MAX_DATAGRAM_V4 : nat := PAYLOAD_LEN - HDR_LEN_V4.
Definition MAX_DATAGRAM_V6 : nat := PAYLOAD_LEN - HDR_LEN_V6.

Inductive RelayError :=
| RelayTruncated (n : nat)
| BadFamily (b : byte)
| RelayTooLarge (max got : nat).

(** The header of a frame: family, address octets and the family's capacity. *)
Definition relay_family (dest : SocketAddr) : byte * bytes * nat :=
  match dest with
  | SocketAddrV4 ip _ => (FAMILY_IPV4, be_bytes 4 ip, MAX_DATAGRAM_V4)
  | SocketAddrV6 ip _ _ _ => (FAMILY_IPV6, be_bytes 16 ip, MAX_DATAGRAM_V6)
  end.

(** The conversion of the length to [u16] cannot fail below the capacity. *)
Definition encode_relay (dest : SocketAddr) (payload : bytes) : result RelayError bytes :=
  let '(family, addr_bytes, max) := relay_family dest in
  if (max <? length payload)%nat then Err (RelayTooLarge max (length payload))
  else
    Ok ([family] ++ addr_bytes ++ be_bytes 2 (addr_port dest)
        ++ be_bytes 2 (Z.of_nat (length payload)) ++ payload).

Definition decode_relay (msg : bytes) : result RelayError (SocketAddr * bytes) :=
  match msg with
  | [] => Err (RelayTruncated 0)
  | family :: _ =>
      hdr ←
        (if bool_decide (family = FAMILY_IPV4) then
           if (length msg <? HDR_LEN_V4)%nat then Err (RelayTruncated (length msg))
           else
             let octets := [byte_at 1 msg; byte_at 2 msg; byte_at 3 msg; byte_at 4 msg] in
             let port := be_val [byte_at 5 msg; byte_at 6 msg] in
             Ok (SocketAddrV4 (be_val octets) port, HDR_LEN_V4, MAX_DATAGRAM_V4)
         else if bool_decide (family = FAMILY_IPV6) then
           if (length msg <? HDR_LEN_V6)%nat then Err (RelayTruncated (length msg))
           else
             let octets := slice 1 17 msg in
             let port := be_val [byte_at 17 msg; byte_at 18 msg] in
             Ok (SocketAddrV6 (be_val octets) port 0 0, HDR_LEN_V6, MAX_DATAGRAM_V6)
         else Err (BadFamily family));
      let '(addr, hdr_len, max) := (hdr : SocketAddr * nat * nat) in
      let len := Z.to_nat (be_val [byte_at (hdr_len - 2) msg; byte_at (hdr_len - 1) msg]) in
      if (max <? len)%nat then Err (RelayTooLarge max len)
      else if (length msg <? hdr_len + len)%nat then Err (RelayTruncated (length msg))
      else Ok (addr, slice hdr_len (hdr_len + len) msg)
  end.

(** ** The binding table *)

Definition MAP_TTL : Duration := from_secs 60.
Definition MAP_MAX : nat := 256.

(** [destination -> (app endpoint, last use)]. *)
Abbreviation Bindings := (gmap SocketAddr (SocketAddr * Instant)).

Section Relay.
Context {Ord : IterOrder SocketAddr (SocketAddr * Instant)}.

Definition prune_bindings (now : Instant) (b : Bindings) : Bindings :=
  let b := filter (fun kv => ~ MAP_TTL < duration_since now kv.2.2) b in
  if (size b <=? MAP_MAX)%nat then b
  else evict_over snd (size b) (fun _ => true) MAP_MAX b.

(** ** The two loops

    What [recv_from] on the app socket returns: a datagram (longer ones are cut
    to the buffer) or an error, recoverable or not. *)

Inductive RecvError := ConnectionReset | ConnectionRefused | OtherError.

Definition is_recoverable_reset (e : RecvError) : bool :=
  match e with ConnectionReset | ConnectionRefused => true | OtherError => false end.

Inductive RelayEffect :=
| ToTunnel (msg : bytes)
| ToApp (frame : bytes) (dst : SocketAddr).

(** The state the tasks share, and whether each task still runs. *)
Record RelayState := mkRelayState {
  rs_bindings : Bindings;
  rs_resets_since_data : bool;
  rs_app_task : bool;
  rs_tunnel_task : bool }.

Definition RelayState_new : RelayState :=
  {| rs_bindings := ∅; rs_resets_since_data := false; rs_app_task := true; rs_tunnel_task := true |}.

(** One iteration of [app_to_tunnel_loop]; [tx_open] is whether the manager
    still receives. *)
Definition app_to_tunnel (r : result RecvError (bytes * SocketAddr)) (now : Instant) (tx_open : bool)
    (s : RelayState) : list RelayEffect * RelayState :=
  match r with
  | Ok (dgram, src) =>
      let msg := take PAYLOAD_LEN dgram in
      match decode_relay msg with
      | Ok (dest, _) =>
          let b := prune_bindings now (<[dest := (src, now)]> (rs_bindings s)) in
          if tx_open then ([ToTunnel msg], mkRelayState b false true (rs_tunnel_task s))
          else ([], mkRelayState b false false (rs_tunnel_task s))
      | Err _ => ([], mkRelayState (rs_bindings s) false true (rs_tunnel_task s))
      end
  | Err e =>
      if is_recoverable_reset e
      then ([], mkRelayState (rs_bindings s) true true (rs_tunnel_task s))
      else ([], mkRelayState (rs_bindings s) (rs_resets_since_data s) false (rs_tunnel_task s))
  end.

(** One iteration of [tunnel_to_app_loop]; the outcome of the send only affects
    the log. *)
Definition tunnel_to_app (n : option ManagerNotification) (now : Instant) (s : RelayState)
    : list RelayEffect * RelayState :=
  let keep := fun b => mkRelayState b (rs_resets_since_data s) (rs_app_task s) true in
  match n with
  | None => ([], mkRelayState (rs_bindings s) (rs_resets_since_data s) (rs_app_task s) false)
  | Some (NData _ inner) =>
      match decode_relay (ip_payload inner) with
      | Ok (dest, datagram) =>
          let b := prune_bindings now (rs_bindings s) in
          let src := fst <$> b !! dest in
          match encode_relay dest datagram with
          | Ok frame =>
              match src with
              | Some src => ([ToApp frame src], keep b)
              | None => ([], keep b)
              end
          | Err _ => ([], keep b)
          end
      | Err _ => ([], keep (rs_bindings s))
      end
  | Some _ => ([], keep (rs_bindings s))
  end.

(** An interleaving of iterations; a task that has ended takes no more steps. *)
Inductive RelayStep :=
| AppRecv (r : result RecvError (bytes * SocketAddr)) (now : Instant) (tx_open : bool)
| TunnelRecv (n : option ManagerNotification) (now : Instant).

Definition relay_step (st : RelayStep) (s : RelayState) : list RelayEffect * RelayState :=
  match st with
  | AppRecv r now tx => if rs_app_task s then app_to_tunnel r now tx s else ([], s)
  | TunnelRecv n now => if rs_tunnel_task s then tunnel_to_app n now s else ([], s)
  end.

Fixpoint relay_run (steps : list RelayStep) (s : RelayState) : list RelayEffect * RelayState :=
  match steps with
  | [] => ([], s)
  | st :: steps =>
      let '(e1, s) := relay_step st s in
      let '(e2, s) := relay_run steps s in (e1 ++ e2, s)
  end.

End Relay.

(** ** The codec *)

(** A destination the framing can carry: IPv6 flow and scope are not encoded. *)
Definition relayable (dest : SocketAddr) : Prop :=
  match dest with
  | SocketAddrV4 ip port => in_range 32 ip /\ in_range 16 port
  | SocketAddrV6 ip port flowinfo scope_id =>
      in_range 128 ip /\ in_range 16 port /\ flowinfo = 0 /\ scope_id = 0
  end.

Definition relay_max (dest : SocketAddr) : nat := (relay_family dest).2.

(** What a frame body decodes to, given its declared length and what follows. *)
Definition relay_body (dest : SocketAddr) (l1 l2 : byte) (total : nat) (rest : bytes)
    : result RelayError (SocketAddr * bytes) :=
  let len := Z.to_nat (be_val [l1; l2]) in
  if (relay_max dest <? len)%nat then Err (RelayTooLarge (relay_max dest) len)
  else if (length rest <? len)%nat then Err (RelayTruncated total)
  else Ok (dest, take len rest).

Ltac explode l n :=
  lazymatch n with
  | O => destruct l; [|discriminate]
  | S ?m => destruct l as [|? l]; [discriminate|]; explode l m
  end.

Lemma decode_v4_layout addr p1 p2 l1 l2 rest :
  length addr = 4%nat ->
  decode_relay (FAMILY_IPV4 :: addr ++ p1 :: p2 :: l1 :: l2 :: rest) =
  relay_body (SocketAddrV4 (be_val addr) (be_val [p1; p2])) l1 l2 (9 + length rest) rest.
Proof.
  intros Ha. explode addr 4%nat. cbn [app]. unfold decode_relay, relay_body.
  rewrite bool_decide_true by done. cbn [length].
  match goal with |- context [(?n <? HDR_LEN_V4)%nat] =>
    destruct (Nat.ltb_spec n HDR_LEN_V4) as [Hl|_]; [unfold HDR_LEN_V4 in Hl; lia|] end.
  cbn [mbind result_bind]. change (relay_max _) with MAX_DATAGRAM_V4.
  change (byte_at (HDR_LEN_V4 - 2) _) with l1. change (byte_at (HDR_LEN_V4 - 1) _) with l2.
  set (len := Z.to_nat (be_val [l1; l2])). case_match; [done|].
  replace (_ <? HDR_LEN_V4 + len)%nat with (length rest <? len)%nat
    by (unfold HDR_LEN_V4; apply eq_true_iff_eq; rewrite !Nat.ltb_lt; lia).
  case_match; [done|]. unfold slice. replace (HDR_LEN_V4 + len - HDR_LEN_V4)%nat with len by lia. done.
Qed.

Lemma decode_v6_layout addr p1 p2 l1 l2 rest :
  length addr = 16%nat ->
  decode_relay (FAMILY_IPV6 :: addr ++ p1 :: p2 :: l1 :: l2 :: rest) =
  relay_body (SocketAddrV6 (be_val addr) (be_val [p1; p2]) 0 0) l1 l2 (21 + length rest) rest.
Proof.
  intros Ha. explode addr 16%nat. cbn [app]. unfold decode_relay, relay_body.
  rewrite bool_decide_false, bool_decide_true by done. cbn [length].
  match goal with |- context [(?n <? HDR_LEN_V6)%nat] =>
    destruct (Nat.ltb_spec n HDR_LEN_V6) as [Hl|_]; [unfold HDR_LEN_V6 in Hl; lia|] end.
  cbn [mbind result_bind]. change (relay_max _) with MAX_DATAGRAM_V6.
  change (byte_at (HDR_LEN_V6 - 2) _) with l1. change (byte_at (HDR_LEN_V6 - 1) _) with l2.
  set (len := Z.to_nat (be_val [l1; l2])). case_match; [done|].
  replace (_ <? HDR_LEN_V6 + len)%nat with (length rest <? len)%nat
    by (unfold HDR_LEN_V6; apply eq_true_iff_eq; rewrite !Nat.ltb_lt; lia).
  case_match; [done|]. unfold slice. replace (HDR_LEN_V6 + len - HDR_LEN_V6)%nat with len by lia. done.
Qed.

(** A long enough message has the layout of a frame. *)
Lemma relay_layout n (msg : bytes) :
  (n + 5 <= length msg)%nat -> exists fam addr p1 p2 l1 l2 rest,
    length addr = n /\ msg = fam :: addr ++ p1 :: p2 :: l1 :: l2 :: rest.
Proof.
  intros Hl. destruct msg as [|fam msg]; simpl in Hl; [lia|].
  destruct (drop n msg) as [|p1 [|p2 [|l1 [|l2 rest]]]] eqn:E;
    try (apply (f_equal length) in E; rewrite length_drop in E; simpl in E; lia).
  exists fam, (take n msg), p1, p2, l1, l2, rest. rewrite <- E, take_drop. split; [|done].
  rewrite length_take. lia.
Qed.

Lemma be_bytes_val_2 a b : be_bytes 2 (be_val [a; b]) = [a; b].
Proof. exact (be_bytes_be_val [a; b]). Qed.

Lemma relay_max_bound dest : Z.of_nat (relay_max dest) <= 65535.
Proof. destruct dest; apply Z.leb_le; reflexivity. Qed.

(** The body of a frame: decoding succeeds exactly on what encoding writes. *)
Lemma relay_body_exact dest l1 l2 total rest d p :
  relay_body dest l1 l2 total rest = Ok (d, p) <->
  d = dest /\ (length p <= relay_max dest)%nat /\ [l1; l2] = be_bytes 2 (Z.of_nat (length p)) /\
  exists pad, rest = p ++ pad.
Proof.
  unfold relay_body. pose proof (be_val_range [l1; l2]) as Hr. simpl length in Hr.
  pose proof (relay_max_bound dest) as Hmax.
  split.
  - intros H. case_match eqn:E1; [done|]. case_match eqn:E2; [done|]. simplify_res.
    rewrite length_take, Nat.min_l by lia. split; [done|]. split; [lia|].
    rewrite Z2Nat.id, be_bytes_val_2 by lia. split; [done|].
    eexists. symmetry. apply take_drop.
  - intros (-> & Hp & -> & pad & ->). rewrite be_val_be_bytes_small, Nat2Z.id.
    + rewrite length_app. case_match; [lia|]. case_match; [lia|]. by rewrite take_app_length.
    + simpl (Z.of_nat 2). lia.
Qed.

Lemma Ok_inj {E A} (x y : A) : (Ok x : result E A) = Ok y -> x = y.
Proof. by intros [=]. Qed.

Lemma encode_relay_ok dest p :
  (length p <= relay_max dest)%nat ->
  encode_relay dest p =
    Ok (match dest with
        | SocketAddrV4 ip _ => [FAMILY_IPV4] ++ be_bytes 4 ip ++ be_bytes 2 (addr_port dest)
                                  ++ be_bytes 2 (Z.of_nat (length p)) ++ p
        | SocketAddrV6 ip _ _ _ => [FAMILY_IPV6] ++ be_bytes 16 ip ++ be_bytes 2 (addr_port dest)
                                  ++ be_bytes 2 (Z.of_nat (length p)) ++ p
        end).
Proof.
  unfold encode_relay, relay_max. intros H. destruct (relay_family dest) as [[f a] m] eqn:E.
  simpl in H. rewrite (proj2 (Nat.ltb_ge m (length p)) H).
  by destruct dest; injection E as <- <- <-.
Qed.

Lemma encode_relay_fits dest p frame :
  encode_relay dest p = Ok frame -> (length p <= relay_max dest)%nat.
Proof.
  unfold encode_relay, relay_max. destruct (relay_family dest) as [[f a] m]. simpl.
  destruct (Nat.ltb_spec m (length p)); [done|lia].
Qed.

Lemma decode_relay_layout msg x :
  decode_relay msg = Ok x ->
  exists fam addr p1 p2 l1 l2 rest, msg = fam :: addr ++ p1 :: p2 :: l1 :: l2 :: rest /\
    ((fam = FAMILY_IPV4 /\ length addr = 4%nat) \/ (fam = FAMILY_IPV6 /\ length addr = 16%nat)).
Proof.
  unfold decode_relay. intros H. destruct msg as [|f msg]; [done|].
  apply bind_ok in H as (hdr & H & _). case_bool_decide as E4; [|case_bool_decide as E6; [|done]].
  - destruct (Nat.ltb_spec (length (f :: msg)) HDR_LEN_V4) as [|Hl]; [done|].
    destruct (relay_layout 4 _ Hl) as (fam & addr & p1 & p2 & l1 & l2 & rest & Ha & Em).
    exists fam, addr, p1, p2, l1, l2, rest. split; [done|]. left. injection Em as <- _. done.
  - destruct (Nat.ltb_spec (length (f :: msg)) HDR_LEN_V6) as [|Hl]; [done|].
    destruct (relay_layout 16 _ Hl) as (fam & addr & p1 & p2 & l1 & l2 & rest & Ha & Em).
    exists fam, addr, p1, p2, l1, l2, rest. split; [done|]. right. injection Em as <- _. done.
Qed.

Lemma decode_relay_frame msg dest datagram :
  decode_relay msg = Ok (dest, datagram) ->
  relayable dest /\ exists frame pad, encode_relay dest datagram = Ok frame /\ msg = frame ++ pad.
Proof.
  intros H. destruct (decode_relay_layout _ _ H) as (fam & addr & p1 & p2 & l1 & l2 & rest & -> & Hf).
  pose proof (be_val_range addr) as Ha. pose proof (be_val_range [p1; p2]) as Hp. simpl length in Hp.
  destruct Hf as [[-> Hl] | [-> Hl]]; rewrite Hl in Ha; simpl Z.of_nat in *.
  - rewrite decode_v4_layout in H by done. apply relay_body_exact in H as (-> & Hm & El & pad & ->).
    split; [split; unfold in_range; lia|]. exists ([FAMILY_IPV4] ++ addr ++ [p1; p2] ++ [l1; l2] ++ datagram), pad.
    split; [|cbn [app]; by rewrite <- app_assoc].
    rewrite encode_relay_ok by done. cbn [addr_port]. by rewrite <- Hl, be_bytes_be_val, be_bytes_val_2, <- El.
  - rewrite decode_v6_layout in H by done. apply relay_body_exact in H as (-> & Hm & El & pad & ->).
    split; [split_and!; unfold in_range; lia|]. exists ([FAMILY_IPV6] ++ addr ++ [p1; p2] ++ [l1; l2] ++ datagram), pad.
    split; [|cbn [app]; by rewrite <- app_assoc].
    rewrite encode_relay_ok by done. cbn [addr_port]. by rewrite <- Hl, be_bytes_be_val, be_bytes_val_2, <- El.
Qed.

Lemma encode_relay_decodes dest datagram frame pad :
  relayable dest -> encode_relay dest datagram = Ok frame -> decode_relay (frame ++ pad) = Ok (dest, datagram).
Proof.
  intros Hd He.
  assert (length datagram <= relay_max dest)%nat as Hm by (by eapply encode_relay_fits).
  destruct (be_bytes 2 (Z.of_nat (length datagram))) as [|l1 [|l2 []]] eqn:El; try done.
  destruct (be_bytes 2 (addr_port dest)) as [|p1 [|p2 []]] eqn:Ep; try done.
  assert (be_val [p1; p2] = addr_port dest) as Hp.
  { rewrite <- Ep. apply be_val_be_bytes_small. destruct dest; unfold relayable, in_range in Hd; simpl; lia. }
  destruct dest as [ip port|ip port fl sc].
  - rewrite encode_relay_ok, El, Ep in He by done. apply Ok_inj in He as <-. cbn [app]. rewrite <- app_assoc. cbn [app].
    rewrite decode_v4_layout by apply length_be_bytes. apply relay_body_exact.
    destruct Hd as [Hip _]. rewrite Hp, be_val_be_bytes_small by done. eauto.
  - rewrite encode_relay_ok, El, Ep in He by done. apply Ok_inj in He as <-. cbn [app]. rewrite <- app_assoc. cbn [app].
    rewrite decode_v6_layout by apply length_be_bytes. apply relay_body_exact.
    destruct Hd as (Hip & _ & -> & ->). rewrite Hp, be_val_be_bytes_small by done. eauto.
Qed.

Lemma encode_relay_unpadded dest datagram frame :
  relayable dest -> encode_relay dest datagram = Ok frame -> decode_relay frame = Ok (dest, datagram).
Proof. intros Hd He. rewrite <- (app_nil_r frame). by apply encode_relay_decodes. Qed.

(** Padding is not looked at. *)
Lemma decode_relay_pad msg pad x : decode_relay msg = Ok x -> decode_relay (msg ++ pad) = Ok x.
Proof.
  destruct x as [dest datagram]. intros (Hd & frame & pad' & He & ->)%decode_relay_frame.
  rewrite <- app_assoc. by apply encode_relay_decodes.
Qed.

(** C31: The framing is exact: a message decodes to a destination and a datagram
    precisely when it starts with the frame that encoding them produces. Frames
    round-trip whatever padding follows, and everything that decodes can be
    framed again for the reply. *)
Theorem relay_codec_exact msg dest datagram :
  decode_relay msg = Ok (dest, datagram) <->
  relayable dest /\ exists frame pad, encode_relay dest datagram = Ok frame /\ msg = frame ++ pad.
Proof.
  split; [apply decode_relay_frame|]. intros (Hd & frame & pad & He & ->). by apply encode_relay_decodes.
Qed.

(** ** Routing: the bounded table refines an unbounded one

    The specification remembers the last app endpoint of every destination for
    ever and answers a reply while that record is at most [MAP_TTL] old. *)

Record RelaySpec := mkRelaySpec {
  sp_table : Bindings;
  sp_app_task : bool;
  sp_tunnel_task : bool }.

Definition RelaySpec_new : RelaySpec := mkRelaySpec ∅ true true.

Definition fresh (now : Instant) (t : Bindings) (dest : SocketAddr) : option SocketAddr :=
  match t !! dest with
  | Some (src, last) => if duration_since now last <=? MAP_TTL then Some src else None
  | None => None
  end.

Definition spec_step (st : RelayStep) (a : RelaySpec) : list RelayEffect * RelaySpec :=
  match st with
  | AppRecv r now tx =>
      if sp_app_task a then
        match r with
        | Ok (dgram, src) =>
            match decode_relay (take PAYLOAD_LEN dgram) with
            | Ok (dest, _) =>
                (if tx then [ToTunnel (take PAYLOAD_LEN dgram)] else [],
                 mkRelaySpec (<[dest := (src, now)]> (sp_table a)) tx (sp_tunnel_task a))
            | Err _ => ([], a)
            end
        | Err e => ([], mkRelaySpec (sp_table a) (is_recoverable_reset e) (sp_tunnel_task a))
        end
      else ([], a)
  | TunnelRecv n now =>
      if sp_tunnel_task a then
        match n with
        | None => ([], mkRelaySpec (sp_table a) (sp_app_task a) false)
        | Some (NData _ inner) =>
            match decode_relay (ip_payload inner) with
            | Ok (dest, datagram) =>
                match encode_relay dest datagram, fresh now (sp_table a) dest with
                | Ok frame, Some src => ([ToApp frame src], a)
                | _, _ => ([], a)
                end
            | Err _ => ([], a)
            end
        | Some _ => ([], a)
        end
      else ([], a)
  end.

Fixpoint spec_run (steps : list RelayStep) (a : RelaySpec) : list RelayEffect * RelaySpec :=
  match steps with
  | [] => ([], a)
  | st :: steps =>
      let '(e1, a) := spec_step st a in
      let '(e2, a) := spec_run steps a in (e1 ++ e2, a)
  end.

Definition step_time (st : RelayStep) : Instant :=
  match st with AppRecv _ now _ | TunnelRecv _ now => now end.

(** The table is locked at non-decreasing times, from [t] on. *)
Fixpoint relay_clocked (t : Instant) (steps : list RelayStep) : Prop :=
  match steps with
  | [] => True
  | st :: steps => t <= step_time st /\ relay_clocked (step_time st) steps
  end.

Section Routing.
Context {Ord : IterOrder SocketAddr (SocketAddr * Instant)}.

(** What the concrete table has lost of the abstract one at [now]: expired
    records, or anything once more than [MAP_MAX] destinations were seen. *)
Definition lost_only (now : Instant) (b t : Bindings) : Prop :=
  forall d src last, t !! d = Some (src, last) -> b !! d = None ->
    MAP_TTL < duration_since now last \/ (MAP_MAX < size t)%nat.

Lemma prune_bindings_spec now b :
  prune_bindings now b ⊆ b /\ (size (prune_bindings now b) <= MAP_MAX)%nat /\
  (forall d src last, prune_bindings now b !! d = Some (src, last) ->
     duration_since now last <= MAP_TTL) /\
  (forall d src last, b !! d = Some (src, last) -> prune_bindings now b !! d = None ->
     MAP_TTL < duration_since now last \/ (MAP_MAX < size b)%nat).
Proof.
  unfold prune_bindings. set (f := fun kv : SocketAddr * (SocketAddr * Instant) => _).
  assert (filter f b ⊆ b) as Hsub by apply map_filter_subseteq.
  assert (forall d src last, filter f b !! d = Some (src, last) -> duration_since now last <= MAP_TTL) as Hf.
  { intros d src last [_ Hx]%map_lookup_filter_Some. unfold f in Hx. cbn [fst snd] in Hx. lia. }
  assert (forall d src last, b !! d = Some (src, last) -> filter f b !! d = None ->
    MAP_TTL < duration_since now last) as Hn.
  { intros d src last Hb Hx. apply map_lookup_filter_None in Hx as [Hx|Hx]; [congruence|].
    specialize (Hx _ Hb). unfold f in Hx. cbn [fst snd] in Hx. lia. }
  destruct (Nat.leb_spec (size (filter f b)) MAP_MAX) as [Hle|Hgt].
  { split_and!; [done|done|done|]. intros d src last Hb Hx. left. by apply (Hn d src). }
  destruct (evict_over_spec (Ord := Ord) snd (fun _ => true) MAP_MAX (size (filter f b)) (filter f b))
    as (Hs & Hc & _ & _ & _); [rewrite count_all; lia|].
  rewrite count_all in Hc. split_and!; [by etrans|done| |].
  - intros d src last Hx. apply (Hf d src). by eapply lookup_weaken.
  - intros d src last Hb Hx. right. pose proof (map_subseteq_size _ _ Hsub). lia.
Qed.

(** The two runs side by side. *)
Definition tracks (now : Instant) (s : RelayState) (a : RelaySpec) : Prop :=
  rs_app_task s = sp_app_task a /\ rs_tunnel_task s = sp_tunnel_task a /\
  rs_bindings s ⊆ sp_table a /\ (size (rs_bindings s) <= MAP_MAX)%nat /\
  lost_only now (rs_bindings s) (sp_table a).

Lemma tracks_weaken now now' s a : now <= now' -> tracks now s a -> tracks now' s a.
Proof.
  intros Hn (H1 & H2 & H3 & H4 & H5). split_and!; try done. intros d src last Ht Hb.
  destruct (H5 d src last Ht Hb); [left|by right].
  pose proof (duration_since_mono now now' last Hn). lia.
Qed.

(** Pruning the concrete table, with or without an insertion into both. *)
Lemma lost_only_prune now b t :
  b ⊆ t -> lost_only now b t -> lost_only now (prune_bindings now b) t.
Proof.
  intros Hs Hl d src last Ht Hx. destruct (prune_bindings_spec now b) as (_ & _ & _ & Hp).
  destruct (b !! d) as [[src' last']|] eqn:Eb; [|by apply (Hl d src)].
  pose proof (lookup_weaken _ _ _ _ Eb Hs) as Et. rewrite Ht in Et. injection Et as <- <-.
  destruct (Hp d src last Eb Hx) as [?|Hb]; [by left|]. right.
  pose proof (map_subseteq_size _ _ Hs). lia.
Qed.

Lemma lost_only_insert now b t d v :
  lost_only now b t -> lost_only now (<[d := v]> b) (<[d := v]> t).
Proof.
  intros Hl d' src last Ht Hb. destruct (decide (d = d')) as [->|Hne].
  - by rewrite lookup_insert_eq in Hb.
  - rewrite lookup_insert_ne in Ht, Hb by done. destruct (Hl d' src last Ht Hb) as [?|Hs]; [by left|].
    right. rewrite map_size_insert. case_match; simpl; lia.
Qed.

(** One step: the concrete effects are the abstract ones or a dropped reply, and
    nothing is dropped while at most [MAP_MAX] destinations were seen. *)
Lemma relay_step_tracks now st s a :
  tracks now s a -> now <= step_time st ->
  tracks (step_time st) (relay_step st s).2 (spec_step st a).2 /\
  (relay_step st s).1 `sublist_of` (spec_step st a).1 /\
  ((size (sp_table (spec_step st a).2) <= MAP_MAX)%nat -> (relay_step st s).1 = (spec_step st a).1).
Proof.
  intros Hw Hn. apply (tracks_weaken _ _ _ _ Hn) in Hw. clear Hn now.
  pose proof Hw as (H1 & H2 & H3 & H4 & H5).
  destruct st as [r now tx|n now]; simpl step_time in *; unfold relay_step, spec_step.
  - rewrite H1. destruct (sp_app_task a) eqn:Ea; [|done].
    destruct r as [[dgram src]|e]; unfold app_to_tunnel.
    + destruct (decode_relay (take PAYLOAD_LEN dgram)) as [[dest dg]|e'];
        [|split; [split_and!; simpl; (done || congruence)|done]].
      destruct (prune_bindings_spec now (<[dest := (src, now)]> (rs_bindings s))) as (Hp1 & Hp2 & _).
      destruct tx; (split; [|done]); split_and!; simpl; try done.
      all: try (etrans; [exact Hp1|]; by apply insert_mono).
      all: apply lost_only_prune; [by apply insert_mono|by apply lost_only_insert].
    + destruct (is_recoverable_reset e); (split; [split_and!|]; done).
  - rewrite H2. destruct (sp_tunnel_task a) eqn:Ea; [|done].
    unfold tunnel_to_app. destruct n as [[| |sid inner| |]|]; try (split; [split_and!; simpl; (done || congruence)|done]).
    destruct (decode_relay (ip_payload inner)) as [[dest dg]|e']; [|split; [split_and!; simpl; (done || congruence)|done]].
    destruct (prune_bindings_spec now (rs_bindings s)) as (Hp1 & Hp2 & Hp3 & _).
    pose proof (lost_only_prune now _ _ H3 H5) as Hlost.
    set (b := prune_bindings now (rs_bindings s)) in *.
    assert (b ⊆ sp_table a) as Hsub by (by etrans).
    assert (tracks now (mkRelayState b (rs_resets_since_data s) (rs_app_task s) true) a) as Hw'.
    { split_and!; simpl; (done || congruence). }
    destruct (encode_relay dest dg) as [frame|e'']; [|done].
    unfold fresh. destruct (b !! dest) as [[src last]|] eqn:Eb; simpl.
    + rewrite (lookup_weaken _ _ _ _ Eb Hsub).
      rewrite (proj2 (Z.leb_le _ _) (Hp3 _ _ _ Eb)). done.
    + destruct (sp_table a !! dest) as [[src last]|] eqn:Et; [|done].
      destruct (Hlost _ _ _ Et Eb) as [Hx|Hx].
      * destruct (Z.leb_spec (duration_since now last) MAP_TTL); [lia|done].
      * destruct (_ <=? _); simpl; split_and!; try done; [apply sublist_nil_l|lia].
Qed.

Lemma relay_run_tracks steps : forall now s a,
  tracks now s a -> relay_clocked now steps ->
  (size (rs_bindings (relay_run steps s).2) <= MAP_MAX)%nat /\
  (relay_run steps s).1 `sublist_of` (spec_run steps a).1 /\
  (size (sp_table a) <= size (sp_table (spec_run steps a).2))%nat /\
  ((size (sp_table (spec_run steps a).2) <= MAP_MAX)%nat -> (relay_run steps s).1 = (spec_run steps a).1).
Proof.
  induction steps as [|st steps IH]; intros now s a Hw Hc; simpl.
  - destruct Hw as (_ & _ & _ & Hs & _). done.
  - destruct Hc as [Hn Hc]. destruct (relay_step_tracks now st s a Hw Hn) as (Hw' & Hsub & Heq).
    assert (size (sp_table a) <= size (sp_table (spec_step st a).2))%nat as Hgrow.
    { clear. unfold spec_step. repeat case_match; simpl; rewrite ?map_size_insert;
      repeat case_match; simpl; lia. }
    destruct (relay_step st s) as [e1 s1], (spec_step st a) as [e1' a1]. simpl in *.
    destruct (IH _ _ _ Hw' Hc) as (Hb & Hsub2 & Hg2 & Heq2).
    destruct (relay_run steps s1) as [e2 s2], (spec_run steps a1) as [e2' a2]. simpl in *.
    split_and!; [done|by apply sublist_app|lia|]. intros Hle. rewrite Heq, Heq2 by lia. done.
Qed.

End Routing.

(** C32: Under every interleaving of the two loops the table holds at most
    [MAP_MAX] bindings, every datagram goes where the unbounded table would have
    sent it (the effects are a sublist of the specification's), and while at
    most [MAP_MAX] destinations were used no reply is lost. *)
Theorem relay_routing_refines {Ord : IterOrder SocketAddr (SocketAddr * Instant)} t0 steps :
  relay_clocked t0 steps ->
  (size (rs_bindings (relay_run steps RelayState_new).2) <= MAP_MAX)%nat /\
  (relay_run steps RelayState_new).1 `sublist_of` (spec_run steps RelaySpec_new).1 /\
  ((size (sp_table (spec_run steps RelaySpec_new).2) <= MAP_MAX)%nat ->
     (relay_run steps RelayState_new).1 = (spec_run steps RelaySpec_new).1).
Proof.
  intros Hc. assert (tracks t0 RelayState_new RelaySpec_new) as Hw.
  { split_and!; simpl; try done. rewrite map_size_empty. unfold MAP_MAX. lia. }
  destruct (relay_run_tracks steps _ _ _ Hw Hc) as (H1 & H2 & _ & H3). done.
Qed.

(** A relayed query and its reply. *)
Module RelaySample.

Definition dest : SocketAddr := SocketAddrV4 (Ipv4Addr_new 192 0 2 7) 5353.
Definition app : SocketAddr := SocketAddrV4 LOCALHOST 40000.

Definition query : bytes :=
  match encode_relay dest [x01; x02; x00] with Ok f => f | Err _ => [] end.

Definition reply : InnerPlaintext :=
  mkInnerPlaintext Data ServerToClient (query ++ zeros (PAYLOAD_LEN - length query)).

Definition steps : list RelayStep :=
  [AppRecv (Ok (query, app)) 0 true;
   AppRecv (Err ConnectionReset) (from_secs 1) true;
   TunnelRecv (Some (NData [] reply)) (from_secs 59);
   TunnelRecv (Some (NData [] reply)) (from_secs 61)].

End RelaySample.

Lemma relay_routing_refines_witness :
  (relay_run (Ord := map_order) RelaySample.steps RelayState_new).1 =
  [ToTunnel RelaySample.query; ToApp RelaySample.query RelaySample.app].
Proof.
  destruct (relay_routing_refines (Ord := map_order) 0 RelaySample.steps) as (_ & _ & H).
  - unfold RelaySample.steps, relay_clocked, step_time, from_secs. lia.
  - rewrite H; [vm_compute; reflexivity|]. apply Nat.leb_le. vm_compute. reflexivity.
Defined.

(** A frame fits the payload slot. *)
Lemma encode_relay_length dest p frame :
  encode_relay dest p = Ok frame -> (length frame <= PAYLOAD_LEN)%nat.
Proof.
  intros H. pose proof (encode_relay_fits _ _ _ H) as Hf. rewrite encode_relay_ok in H by done.
  apply Ok_inj in H as <-. destruct dest; unfold relay_max, relay_family, snd in Hf.
  - unfold MAX_DATAGRAM_V4 in Hf. rewrite !length_app, !length_be_bytes.
    assert (HDR_LEN_V4 <= PAYLOAD_LEN)%nat by (apply Nat.leb_le; reflexivity).
    unfold HDR_LEN_V4 in *. cbn [length]. lia.
  - unfold MAX_DATAGRAM_V6 in Hf. rewrite !length_app, !length_be_bytes.
    assert (HDR_LEN_V6 <= PAYLOAD_LEN)%nat by (apply Nat.leb_le; reflexivity).
    unfold HDR_LEN_V6 in *. cbn [length]. lia.
Qed.
