(* ===== verification/TunDriver.v ===== *)
(** * The system-wide TUN drivers

    [pq-tunnel-bin/src/tun/server.rs] and [tun/client.rs]: the two [select!]
    loops that move raw IP packets between a TUN device and a session manager.
    A turn is the arm that fired with what it received. Datagrams handed to the
    UDP socket and packets written to the device are kept in a log; the drivers
    ignore the outcome of both, so a failed one is logged all the same. The
    [else] arm of the loops cannot fire, since the tick arm matches every
    value: the loops end only by a panic. *)

From S2P Require Import Prelude Bytes Errors Codec Replay Crypto Envelope WireSession Exec Net IpAddr Dataplane PacketPolicy HandshakeMsg HandshakeClient HandshakeServer SessionCommon ServerManager ClientManager.

Local Open Scope Z_scope.

Inductive TunEffect :=
| TunSent (packet : WirePacket) (peer : SocketAddr)
| TunWrote (pkt : bytes).

(** The arm that fired: a datagram or a receive error, a packet read from the
    device, or the 250 ms tick. *)
Inductive tun_input :=
| TIRecv (r : result HandshakeV2Error (WirePacket * SocketAddr))
| TIPacket (pkt : bytes)
| TITick.

(** [CTR.fetch_add(1, ..)]: the new value of the counter. *)
Definition fetch_add_one (ctr : Z) : Z := wrap 64 (ctr + 1).

Section Server.
Context {P : Primitives}.

(** ** The server *)

Record TunServer := mkTunServer {
  ts_manager : ServerSessionManager;
  ts_reasms : gmap bytes Reassembler;
  ts_current_sid : option bytes;
  ts_ctr : Z;
  ts_log : list TunEffect }.

Definition ts_set_manager (m : ServerSessionManager) (s : TunServer) : TunServer :=
  mkTunServer m (ts_reasms s) (ts_current_sid s) (ts_ctr s) (ts_log s).
Definition ts_map_reasms (f : gmap bytes Reassembler -> gmap bytes Reassembler) (s : TunServer) : TunServer :=
  mkTunServer (ts_manager s) (f (ts_reasms s)) (ts_current_sid s) (ts_ctr s) (ts_log s).
Definition ts_set_current (o : option bytes) (s : TunServer) : TunServer :=
  mkTunServer (ts_manager s) (ts_reasms s) o (ts_ctr s) (ts_log s).
Definition ts_next_id (s : TunServer) : TunServer :=
  mkTunServer (ts_manager s) (ts_reasms s) (ts_current_sid s) (fetch_add_one (ts_ctr s)) (ts_log s).
Definition ts_emit (e : TunEffect) (s : TunServer) : TunServer :=
  mkTunServer (ts_manager s) (ts_reasms s) (ts_current_sid s) (ts_ctr s) (ts_log s ++ [e]).

(** What a turn reads: the draws and the clock of the manager's call, the clock
    of the reassembler, the random fill of each cover packet. *)
Record TunServerTurn := mkTunServerTurn {
  tst_draws : Draws;
  tst_now : Instant;
  tst_feed_now : Instant;
  tst_fill : bytes -> result string bytes }.

Abbreviation TS := (M TunServer ManagerError).

Definition ts_call {A} (f : M ServerSessionManager ManagerError A) : TS (result ManagerError A) :=
  attempt (zoom ts_manager ts_set_manager f).

Definition ts_send (peer : SocketAddr) (packet : WirePacket) : TS () :=
  modify (ts_emit (TunSent packet peer)).

(** [reasms.entry(sid).or_insert_with(..)]. *)
Definition reasm_or_new (sid : bytes) (rs : gmap bytes Reassembler) : Reassembler :=
  default (Reassembler_new REASSEMBLY_DEADLINE) (rs !! sid).

Definition on_tun_established (sid : bytes) : TS () :=
  modify (ts_map_reasms (fun rs => <[sid := reasm_or_new sid rs]> rs));;
  modify (ts_set_current (Some sid)).

Definition on_tun_closed (sid : bytes) : TS () :=
  modify (ts_map_reasms (alter Reassembler_clear sid));;
  modify (ts_map_reasms (delete sid));;
  modify (ts_set_current None).

Definition on_tun_data (t : TunServerTurn) (sid : bytes) (inner : InnerPlaintext) : TS () :=
  modify (ts_set_current (Some sid));;
  if bool_decide (ip_msg_type inner = TunData) then
    s ← get;
    let '(out, r) := feed (reasm_or_new sid (ts_reasms s)) (ip_payload inner) (tst_feed_now t) in
    modify (ts_map_reasms (<[sid := r]>));;
    match out with
    | Complete ipkt =>
        if bool_decide (validate_inner_packet ipkt ClientAssignment_default = Allow)
        then modify (ts_emit (TunWrote ipkt))
        else mret ()
    | _ => mret ()
    end
  else mret ().

Definition tun_server_recv (t : TunServerTurn) (r : result HandshakeV2Error (WirePacket * SocketAddr)) : TS () :=
  match r with
  | Err _ => mret ()
  | Ok (pkt, peer) =>
      ev ← ts_call (server_manager_handle (tst_draws t) (tst_now t) pkt peer);
      match ev with
      | Ok (EvSend packets p) => for_each (ts_send p) packets
      | Ok (EvSendPacket packet p) => ts_send p packet
      | Ok (EvAppData sid inner) => on_tun_data t sid inner
      | Ok (EvEstablished sid _) => on_tun_established sid
      | Ok (EvClosed sid _) => on_tun_closed sid
      | _ => mret ()
      end
  end.

Definition tun_server_slot (sid slot : bytes) : TS () :=
  r ← ts_call (server_tun_outbound sid slot);
  match r with
  | Ok (EvSendPacket packet p) => ts_send p packet
  | _ => mret ()
  end.

Definition tun_server_packet (pkt : bytes) : TS () :=
  if is_boundary_dropped pkt then mret ()
  else if negb (validate_inner pkt) then mret ()
  else
    s ← get;
    match ts_current_sid s with
    | Some sid =>
        let id := ts_ctr s in
        modify ts_next_id;;
        match fragment_ip_packet pkt id with
        | Ok slots => for_each (tun_server_slot sid) slots
        | Err _ => mret ()
        end
    | None => mret ()
    end.

Definition tun_server_on_tick_event (ev : ManagerEvent) : TS () :=
  match ev with
  | EvSend packets peer => for_each (ts_send peer) packets
  | EvSendPacket packet peer => ts_send peer packet
  | EvClosed sid _ => on_tun_closed sid
  | EvEstablished sid _ => on_tun_established sid
  | _ => mret ()
  end.

Definition tun_server_on_cover_event (ev : ManagerEvent) : TS () :=
  match ev with EvSendPacket packet peer => ts_send peer packet | _ => mret () end.

Definition tun_server_tick (t : TunServerTurn) : TS () :=
  evs ← zoom ts_manager ts_set_manager (call (server_tick (tst_now t)));
  for_each tun_server_on_tick_event evs;;
  r ← ts_call (cover_packet_all (tst_fill t));
  match r with
  | Ok evs => for_each tun_server_on_cover_event evs
  | Err _ => mret ()
  end.

Definition tun_server_turn (t : TunServerTurn) (i : tun_input) : TS () :=
  match i with
  | TIRecv r => tun_server_recv t r
  | TIPacket pkt => tun_server_packet pkt
  | TITick => tun_server_tick t
  end.

Definition tun_server_init (m : ServerSessionManager) : TunServer := mkTunServer m ∅ None 1 [].

Definition tun_server_loop (turns : list (TunServerTurn * tun_input)) : TS () :=
  for_each (fun ti => tun_server_turn ti.1 ti.2) turns.

End Server.

Section Client.
Context {P : Primitives}.

(** ** The client *)

Record TunClient := mkTunClient {
  tc_manager : ClientSessionManager;
  tc_reasm : Reassembler;
  tc_ctr : Z;
  tc_log : list TunEffect }.

Definition tc_set_manager (m : ClientSessionManager) (s : TunClient) : TunClient :=
  mkTunClient m (tc_reasm s) (tc_ctr s) (tc_log s).
Definition tc_set_reasm (r : Reassembler) (s : TunClient) : TunClient :=
  mkTunClient (tc_manager s) r (tc_ctr s) (tc_log s).
Definition tc_next_id (s : TunClient) : TunClient :=
  mkTunClient (tc_manager s) (tc_reasm s) (fetch_add_one (tc_ctr s)) (tc_log s).
Definition tc_emit (e : TunEffect) (s : TunClient) : TunClient :=
  mkTunClient (tc_manager s) (tc_reasm s) (tc_ctr s) (tc_log s ++ [e]).

(** What a turn reads: the draws and the clock of the manager's calls (a turn
    tears down at most one session, so one reading serves all slots), the clock
    of the tick and of the reassembler, the fill of a cover packet. *)
Record TunClientTurn := mkTunClientTurn {
  tct_draws : ClientDraws;
  tct_now : Instant;
  tct_feed_now : Instant;
  tct_fill : result string bytes }.

Abbreviation TC := (M TunClient ManagerError).

Definition tc_call {A} (f : M ClientSessionManager ManagerError A) : TC (result ManagerError A) :=
  attempt (zoom tc_manager tc_set_manager f).

Definition tc_send (peer : SocketAddr) (packet : WirePacket) : TC () :=
  modify (tc_emit (TunSent packet peer)).

Definition tc_clear : TC () := modify (fun s => tc_set_reasm (Reassembler_clear (tc_reasm s)) s).

Definition on_client_tun_data (t : TunClientTurn) (inner : InnerPlaintext) : TC () :=
  if bool_decide (ip_msg_type inner = TunData) then
    s ← get;
    let '(out, r) := feed (tc_reasm s) (ip_payload inner) (tct_feed_now t) in
    modify (tc_set_reasm r);;
    match out with
    | Complete pkt =>
        if negb (is_boundary_dropped pkt) && validate_inner pkt
        then modify (tc_emit (TunWrote pkt))
        else mret ()
    | _ => mret ()
    end
  else mret ().

Definition tun_client_recv (t : TunClientTurn) (r : result HandshakeV2Error (WirePacket * SocketAddr)) : TC () :=
  match r with
  | Err _ => mret ()
  | Ok (pkt, from) =>
      ev ← tc_call (client_manager_handle (tct_draws t) pkt from);
      match ev with
      | Ok (EvSend packets peer) => for_each (tc_send peer) packets
      | Ok (EvSendPacket packet peer) => tc_send peer packet
      | Ok (EvAppData _ inner) => on_client_tun_data t inner
      | Ok (EvClosed _ _) => tc_clear
      | _ => mret ()
      end
  end.

Definition tun_client_slot (t : TunClientTurn) (slot : bytes) : TC () :=
  r ← tc_call (client_tun_outbound (tct_draws t) slot);
  match r with
  | Ok (EvSendPacket packet peer) => tc_send peer packet
  | _ => mret ()
  end.

Definition tun_client_packet (t : TunClientTurn) (pkt : bytes) : TC () :=
  if is_boundary_dropped pkt then mret ()
  else if negb (validate_inner pkt) then mret ()
  else
    s ← get;
    let id := tc_ctr s in
    modify tc_next_id;;
    match fragment_ip_packet pkt id with
    | Ok slots => for_each (tun_client_slot t) slots
    | Err _ => mret ()
    end.

Definition tun_client_on_tick_event (ev : ManagerEvent) : TC () :=
  match ev with
  | EvSend packets peer => for_each (tc_send peer) packets
  | EvSendPacket packet peer => tc_send peer packet
  | EvClosed _ _ => tc_clear
  | _ => mret ()
  end.

Definition tun_client_tick (t : TunClientTurn) : TC () :=
  evs ← zoom tc_manager tc_set_manager (call (client_tick (tct_now t) (tct_draws t)));
  for_each tun_client_on_tick_event evs;;
  r ← tc_call (client_cover_packet (tct_draws t) (tct_fill t));
  match r with
  | Ok (EvSendPacket packet peer) => tc_send peer packet
  | _ => mret ()
  end.

Definition tun_client_turn (t : TunClientTurn) (i : tun_input) : TC () :=
  match i with
  | TIRecv r => tun_client_recv t r
  | TIPacket pkt => tun_client_packet t pkt
  | TITick => tun_client_tick t
  end.

Definition tun_client_init (m : ClientSessionManager) : TunClient :=
  mkTunClient m (Reassembler_new REASSEMBLY_DEADLINE) 1 [].

(** The handshake before the loop; here, unlike in the loop, a failed send ends
    the driver. [send] is the outcome of each send. *)
Definition tun_client_connect (send : WirePacket -> SocketAddr -> result HandshakeV2Error ())
    (d : ClientDraws) : TC () :=
  ev ← zoom tc_manager tc_set_manager (cm_begin_handshake d);
  match ev with
  | EvSend packets peer =>
      for_each (fun p => try ME_Handshake (send p peer);; tc_send peer p) packets
  | _ => mret ()
  end.

Definition tun_client_loop (turns : list (TunClientTurn * tun_input)) : TC () :=
  for_each (fun ti => tun_client_turn ti.1 ti.2) turns.

Definition tun_client_run (send : WirePacket -> SocketAddr -> result HandshakeV2Error ()) (d : ClientDraws)
    (m : ClientSessionManager) (turns : list (TunClientTurn * tun_input)) : exec ManagerError () * TunClient :=
  (tun_client_connect send d;; tun_client_loop turns) (tun_client_init m).

End Client.
