(* ===== verification/Forward.v ===== *)
(** * The server's forwarding backend

    [pq-tunnel-bin/src/forward.rs]: the egress guard (Module [Egress]) and the
    pool of per-[(session, destination)] sockets. A pooled entry records when it
    was used and whether its reply reader still runs; binds, connects, sends and
    reads are the arguments of each operation, and what the backend does is
    written to a log. *)

From S2P Require Import Prelude Bytes Net IpAddr Oldest Errors Codec PacketPolicy Drivers Relay.

Local Open Scope Z_scope.

(** ** The egress policy *)

Module Egress.

Inductive EgressPolicy := DenyUnsafe | AllowLoopback.

Global Instance EgressPolicy_eq_dec : EqDecision EgressPolicy.
Proof. solve_decision. Defined.

Inductive DenyRule :=
| PortZero | V4Loopback | V6Loopback | V4Unspecified | V6Unspecified | V4Multicast | V6Multicast
| V4Broadcast | MetadataImdsV4 | MetadataAlibabaV4 | MetadataAwsV6 | MetadataGcpV6.

Definition COUNT : nat := 12.

Definition index (r : DenyRule) : nat :=
  match r with
  | PortZero => 0
  | V4Loopback => 1
  | V6Loopback => 2
  | V4Unspecified => 3
  | V6Unspecified => 4
  | V4Multicast => 5
  | V6Multicast => 6
  | V4Broadcast => 7
  | MetadataImdsV4 => 8
  | MetadataAlibabaV4 => 9
  | MetadataAwsV6 => 10
  | MetadataGcpV6 => 11
  end.

Definition deny_ipv4 (v4 : Z) (policy : EgressPolicy) : option DenyRule :=
  if v4 =? Ipv4Addr_new 169 254 169 254 then Some MetadataImdsV4
  else if v4 =? Ipv4Addr_new 100 100 100 200 then Some MetadataAlibabaV4
  else if v4_is_loopback v4 && bool_decide (policy = DenyUnsafe) then Some V4Loopback
  else if octet4 0 v4 =? 0 then Some V4Unspecified
  else if v4_is_multicast v4 then Some V4Multicast
  else if v4_is_broadcast v4 then Some V4Broadcast
  else None.

Definition embedded_ipv4 (v6 : Z) : option Z :=
  match to_ipv4_mapped v6 with
  | Some v4 => Some v4
  | None =>
      if (segment6 0 v6 =? 0) && (segment6 1 v6 =? 0) && (segment6 2 v6 =? 0) &&
         (segment6 3 v6 =? 0) && (segment6 4 v6 =? 0) && (segment6 5 v6 =? 0) then
        let hi := segment6 6 v6 in
        let lo := segment6 7 v6 in
        Some (Ipv4Addr_new (Z.shiftr hi 8) (hi mod 256) (Z.shiftr lo 8) (lo mod 256))
      else None
  end.

Definition deny_ipv6 (v6 : Z) (policy : EgressPolicy) : option DenyRule :=
  if v6 =? Ipv6Addr_new 0xfd00 0x0ec2 0 0 0 0 0 0x0254 then Some MetadataAwsV6
  else if v6 =? Ipv6Addr_new 0xfd20 0x00ce 0 0 0 0 0 0x0254 then Some MetadataGcpV6
  else if v6_is_loopback v6 then
    if bool_decide (policy = DenyUnsafe) then Some V6Loopback else None
  else if v6_is_unspecified v6 then Some V6Unspecified
  else if v6_is_multicast v6 then Some V6Multicast
  else
    match embedded_ipv4 v6 with
    | Some v4 => deny_ipv4 v4 policy
    | None => None
    end.

Definition deny_reason (dest : SocketAddr) (policy : EgressPolicy) : option DenyRule :=
  if addr_port dest =? 0 then Some PortZero
  else
    match addr_ip dest with
    | IpV4 v4 => deny_ipv4 v4 policy
    | IpV6 v6 => deny_ipv6 v6 policy
    end.

(** The counters: one per rule and one for failures, saturating. The
    compare-and-swap loop of [bump] adds one atomically. *)
Record EgressGuard := mkEgressGuard { eg_denials : list Z; eg_failures : Z }.

Definition EgressGuard_default : EgressGuard := mkEgressGuard (replicate COUNT 0) 0.

Definition bump (counter : Z) : Z := saturating_add 64 counter 1.

Definition record_denial (rule : DenyRule) (g : EgressGuard) : Z * EgressGuard :=
  let c := bump (eg_denials g !!! index rule) in
  (c, mkEgressGuard (<[index rule := c]> (eg_denials g)) (eg_failures g)).

Definition record_failure (g : EgressGuard) : Z * EgressGuard :=
  let c := bump (eg_failures g) in (c, mkEgressGuard (eg_denials g) c).

(** [count.is_power_of_two()]. *)
Definition should_log (count : Z) : bool := (0 <? count) && (Z.land count (count - 1) =? 0).

End Egress.

(** ** The socket pool *)

Definition IDLE_TTL : Duration := from_secs 60.
Definition PER_SESSION_CAP : nat := 128.
Definition GLOBAL_CAP : nat := 512.

Abbreviation PoolKey := (bytes * SocketAddr)%type.

Record ForwardEntry := mkForwardEntry {
  fe_reader_runs : bool;
  fe_last_use : Instant }.

Inductive FwdEffect :=
| FwdCommand (c : ServerAppCommand)
| FwdOpened (key : PoolKey)
| FwdSent (key : PoolKey) (datagram : bytes)
| FwdAborted (key : PoolKey)
| FwdLogged (count : Z).

Record Forwarder := mkForwarder {
  fw_echo : bool;
  fw_sockets : gmap PoolKey ForwardEntry;
  fw_guard : Egress.EgressGuard;
  fw_policy : Egress.EgressPolicy;
  fw_log : list FwdEffect }.

Definition Forwarder_new_with_policy (echo : bool) (policy : Egress.EgressPolicy) : Forwarder :=
  mkForwarder echo ∅ Egress.EgressGuard_default policy [].

Definition Forwarder_new (echo : bool) : Forwarder :=
  Forwarder_new_with_policy echo Egress.DenyUnsafe.

Definition fw_set_sockets (s : gmap PoolKey ForwardEntry) (f : Forwarder) : Forwarder :=
  mkForwarder (fw_echo f) s (fw_guard f) (fw_policy f) (fw_log f).
Definition fw_set_guard (g : Egress.EgressGuard) (f : Forwarder) : Forwarder :=
  mkForwarder (fw_echo f) (fw_sockets f) g (fw_policy f) (fw_log f).
Definition fw_emit (e : FwdEffect) (f : Forwarder) : Forwarder :=
  mkForwarder (fw_echo f) (fw_sockets f) (fw_guard f) (fw_policy f) (fw_log f ++ [e]).

(** [if should_log(count) { warn!(..) }]. *)
Definition log_count (count : Z) (f : Forwarder) : Forwarder :=
  if Egress.should_log count then fw_emit (FwdLogged count) f else f.

(** The readings of the clock and the outcomes of the I/O calls of one
    [handle]. *)
Record FwdIO := mkFwdIO {
  fi_now_handle : Instant;
  fi_now_prune : Instant;
  fi_now_insert : Instant;
  fi_now_use : Instant;
  fi_bind : bool;
  fi_connect : bool;
  fi_send : bool;
  fi_commands_open : bool }.

Section Forwarder.
Context {Ord : IterOrder PoolKey ForwardEntry}.

Definition fw_record_failure (f : Forwarder) : Forwarder :=
  let '(count, g) := Egress.record_failure (fw_guard f) in
  log_count count (fw_set_guard g f).

Definition drop_entry (key : PoolKey) (f : Forwarder) : Forwarder :=
  match fw_sockets f !! key with
  | Some _ => fw_emit (FwdAborted key) (fw_set_sockets (delete key (fw_sockets f)) f)
  | None => f
  end.

Definition drop_entries (keys : list PoolKey) (f : Forwarder) : Forwarder :=
  fold_left (fun f key => drop_entry key f) keys f.

Definition prune_idle (now : Instant) (f : Forwarder) : Forwarder :=
  let stale := fst <$> filter (fun kv => IDLE_TTL < duration_since now (fe_last_use kv.2))
                         (iteration (fw_sockets f)) in
  drop_entries stale f.

Definition of_session (sid : bytes) (key : PoolKey) : bool := bool_decide (key.1 = sid).

(** The loop on the per-session cap. *)
Fixpoint evict_session (fuel : nat) (sid : bytes) (f : Forwarder) : Forwarder :=
  match fuel with
  | O => f
  | S fuel =>
      let sid_entries := candidates (of_session sid) (fw_sockets f) in
      if (PER_SESSION_CAP <=? length sid_entries)%nat then
        match oldest_of fe_last_use sid_entries with
        | Some k => evict_session fuel sid (drop_entry k f)
        | None => f
        end
      else f
  end.

(** [fuel] for the loop is the size of the pool: every round drops an entry. *)
Definition prune_and_insert (io : FwdIO) (key : PoolKey) (f : Forwarder) : Forwarder :=
  let f := prune_idle (fi_now_prune io) f in
  let f :=
    if (GLOBAL_CAP <=? size (fw_sockets f))%nat then
      match oldest_of fe_last_use (iteration (fw_sockets f)) with
      | Some older => drop_entry older f
      | None => f
      end
    else f in
  let f := evict_session (size (fw_sockets f)) key.1 f in
  if negb (fi_bind io) then fw_record_failure f
  else if negb (fi_connect io) then fw_record_failure f
  else
    fw_emit (FwdOpened key)
      (fw_set_sockets (<[key := mkForwardEntry true (fi_now_insert io)]> (fw_sockets f)) f).

Definition fw_handle (io : FwdIO) (sid slot : bytes) (f : Forwarder) : Forwarder :=
  let f := prune_idle (fi_now_handle io) f in
  match decode_relay slot with
  | Err _ => f
  | Ok (dest, datagram) =>
      match Egress.deny_reason dest (fw_policy f) with
      | Some rule =>
          let '(count, g) := Egress.record_denial rule (fw_guard f) in
          log_count count (fw_set_guard g f)
      | None =>
          if fw_echo f then
            match encode_relay dest datagram with
            | Ok reply =>
                if fi_commands_open io
                then fw_emit (FwdCommand (mkServerAppCommand sid reply)) f else f
            | Err _ => f
            end
          else
            let key := (sid, dest) in
            let f := match fw_sockets f !! key with
                     | Some _ => f
                     | None => prune_and_insert io key f
                     end in
            match fw_sockets f !! key with
            | None => f
            | Some e =>
                let e := mkForwardEntry (fe_reader_runs e) (fi_now_use io) in
                let f := fw_set_sockets (<[key := e]> (fw_sockets f)) f in
                if fi_send io then fw_emit (FwdSent key datagram) f else fw_record_failure f
            end
      end
  end.

Definition on_session_closed (sid : bytes) (f : Forwarder) : Forwarder :=
  let sids := fst <$> candidates (of_session sid) (fw_sockets f) in
  drop_entries sids f.

Definition shutdown (f : Forwarder) : Forwarder :=
  drop_entries (fst <$> iteration (fw_sockets f)) f.

(** One turn of [reply_reader] for the entry [key]: a datagram read into a
    buffer of [MAX_DATAGRAM_V6] bytes, or a socket error, which ends it. *)
Definition reply_reader (key : PoolKey) (recv : option bytes) (commands_open : bool) (f : Forwarder)
    : Forwarder :=
  match fw_sockets f !! key with
  | Some e =>
      if fe_reader_runs e then
        let stop :=
          fw_set_sockets (<[key := mkForwardEntry false (fe_last_use e)]> (fw_sockets f)) f in
        match recv with
        | None => stop
        | Some dgram =>
            match encode_relay key.2 (take MAX_DATAGRAM_V6 dgram) with
            | Err _ => f
            | Ok payload =>
                if commands_open then fw_emit (FwdCommand (mkServerAppCommand key.1 payload)) f
                else stop
            end
        end
      else f
  | None => f
  end.

(** ** Runs of the backend *)

Inductive FwdStep :=
| StepHandle (io : FwdIO) (sid slot : bytes)
| StepClosed (sid : bytes)
| StepReader (key : PoolKey) (recv : option bytes) (commands_open : bool)
| StepShutdown.

Definition fwd_step (st : FwdStep) (f : Forwarder) : Forwarder :=
  match st with
  | StepHandle io sid slot => fw_handle io sid slot f
  | StepClosed sid => on_session_closed sid f
  | StepReader key recv open => reply_reader key recv open f
  | StepShutdown => shutdown f
  end.

Definition fwd_run (steps : list FwdStep) (f : Forwarder) : Forwarder :=
  fold_left (fun f st => fwd_step st f) steps f.

End Forwarder.
