(* ===== verification/FailGateOk.v ===== *)
(** * Live sessions and the failure gate

    Facts the two managers share: what encryption and decryption do on a session
    in the table, and the correctness of the failure gate (bounded, its queue in
    lockstep, and transparent: neither the sweep nor the physical presence of an
    expired bucket changes a verdict). *)

From S2P Require Import Prelude Bytes Errors Codec Replay Crypto Envelope WireSession Exec Net HandshakeMsg HandshakeClient HandshakeServer SessionCommon.

Local Open Scope Z_scope.

(** ** Packets and payloads *)

Definition packet_sid (pkt : WirePacket) : bytes := slice 1 (1 + SESSION_ID_LEN) (as_bytes pkt).

Lemma length_packet_sid pkt : WirePacket_wf pkt -> length (packet_sid pkt) = SESSION_ID_LEN.
Proof. unfold WirePacket_wf, packet_sid. intros Hp. rewrite length_slice by dims. dims. Qed.

Lemma length_control_payload b : length (control_payload b) = PAYLOAD_LEN.
Proof. unfold control_payload. rewrite length_write_at; rewrite length_zeros; [done|]. dims. Qed.

Lemma length_pad_payload payload :
  (length payload <= PAYLOAD_LEN)%nat -> length (pad_payload payload) = PAYLOAD_LEN.
Proof. intros H. unfold pad_payload. rewrite length_write_at; rewrite length_zeros; [done|lia]. Qed.

(** ** Live sessions *)

Section Live.
Context {P : Primitives} {L : PrimitivesLaws P}.

(** An established session for [sid] with a well-formed cipher. *)
Definition ws_live (sid : bytes) (w : WireSession) : Prop :=
  ws_state w = Established /\ ws_session_id w = sid /\ cs_session_id (ws_cipher w) = sid /\
  CipherSession_wf (ws_cipher w).

Lemma require_established_live sid w : ws_live sid w -> require_established w = Ok ().
Proof. intros (H & _). unfold require_established. by rewrite bool_decide_true. Qed.

(** Encrypting a full payload gives a packet, or the rekey request. *)
Lemma ws_encrypt_live sid w ty payload :
  ws_live sid w -> length payload = PAYLOAD_LEN ->
  match WireSession_encrypt w ty payload with
  | (Ok p, w') => ws_live sid w' /\ WirePacket_wf p /\
      send_counter (ws_cipher w') = send_counter (ws_cipher w) + 1
  | (Err e, _) => e = SE_RekeyRequired /\ send_counter (ws_cipher w) = MAX_PACKET_NONCE
  end.
Proof.
  intros Hl Hp. unfold WireSession_encrypt. rewrite (require_established_live sid w Hl).
  destruct Hl as (Hst & Hs & Hc & Hwf).
  assert (0 <= send_counter (ws_cipher w) <= MAX_PACKET_NONCE) as Hr by apply Hwf.
  destruct (Z.lt_ge_cases (send_counter (ws_cipher w)) MAX_PACKET_NONCE) as [Hlt|Hge].
  - destruct (encrypt_ok (ws_cipher w) ty payload Hwf Hp Hlt) as (ct & -> & Hct & _). cbv iota beta.
    split; [|split; [|done]].
    + split; [done|]. split; [done|]. split; [done|]. by apply set_send_counter_wf.
    + unfold WirePacket_wf. cbn [as_bytes]. rewrite length_app, length_PacketHeader_encode, Hct by apply Hwf.
      dims.
  - unfold encrypt, encrypt_traced. rewrite Hp, Nat.eqb_refl. cbn [negb]. unfold is_counter_exhausted.
    replace (_ <=? send_counter _) with true by lia. split; [done|lia].
Qed.

(** Decrypting: a message, a failed tag, a rejection, or the rekey request. *)
Lemma ws_decrypt_live sid w p :
  ws_live sid w ->
  match WireSession_decrypt w p with
  | (Ok _, w') => ws_live sid w'
  | (Err e, w') => e = SE_RekeyRequired \/
      (ws_live sid w' /\ (e = SE_Codec DecryptionFailed \/ e = SE_Codec Rejected))
  end.
Proof.
  intros Hl. unfold WireSession_decrypt. rewrite (require_established_live sid w Hl).
  destruct Hl as (Hst & Hs & Hc & Hwf).
  pose proof (decrypt_classified (ws_cipher w) p) as Hd. unfold decrypt_outcome in Hd.
  assert (forall c, c = ws_cipher w \/ (exists r, c = set_replay (ws_cipher w) r) ->
    cs_session_id c = sid /\ CipherSession_wf c) as Hkeep.
  { intros c [->|[r ->]]; [done|]. split; [done|exact Hwf]. }
  destruct (decrypt (ws_cipher w) p) as [[inner|e] c]; cbv iota beta.
  - destruct Hd as (h & pt & _ & _ & _ & _ & _ & _ & ->).
    split; [done|]. split; [done|]. apply Hkeep. right. by eexists.
  - destruct e; try done; cbv iota.
    + by left.
    + destruct Hd as (h & _ & _ & ->). right. split; [|by left]. by split.
    + right. split; [|by right]. split; [done|]. split; [done|]. apply Hkeep.
      destruct Hd as [[_ ->]|(h & _ & _ & ->)]; [by left|right; by eexists].
Qed.

(** A packet whose tag does not verify leaves the session as it was. *)
Lemma ws_decrypt_failed w p w' :
  WireSession_decrypt w p = (Err (SE_Codec DecryptionFailed), w') -> w' = w.
Proof.
  unfold WireSession_decrypt. intros H. destruct (require_established w) as [[]|e] eqn:Er.
  - pose proof (decrypt_classified (ws_cipher w) p) as Hd. unfold decrypt_outcome in Hd.
    destruct (decrypt (ws_cipher w) p) as [[inner|e] c]; [done|].
    destruct e; try done. injection H as <-. destruct Hd as (h & _ & _ & ->). by destruct w.
  - injection H as H1 <-. done.
Qed.

Lemma ws_established_live role o now :
  length (ho_session_id o) = SESSION_ID_LEN ->
  exists w, WireSession_established role o now = Ok w /\ ws_live (ho_session_id o) w.
Proof.
  intros Hs. destruct (CipherSession_new_ok role (ho_master o) _ Hs) as (c & E & Hwf & _ & Hsid & _).
  unfold WireSession_established. rewrite E. eexists. split; [reflexivity|].
  split; [done|]. split; [done|]. by split.
Qed.

End Live.

(** ** The failure gate *)

Section Gate.
Variable limits : SessionLimits.

Record gate_wf (g : FailGate) : Prop := {
  gw_lockstep : lockstep (fg_order g) (fg_buckets g);
  gw_cap : Z.of_nat (size (fg_buckets g)) <= sl_max_fail_buckets limits }.

Lemma gate_new_wf now : 0 <= sl_max_fail_buckets limits -> gate_wf (FailGate_new now).
Proof. intros H. split; [apply lockstep_empty|]. cbn [FailGate_new fg_buckets]. by rewrite map_size_empty. Qed.

Lemma consume_wf from now g :
  0 <= sl_max_fail_buckets limits -> gate_wf g -> gate_wf (consume from now limits g).
Proof.
  intros H0 [Hl Hc]. unfold consume. destruct (Z.eqb_spec (sl_max_fail_buckets limits) 0); [done|].
  destruct (fg_buckets g !! from) as [b|] eqn:Hb.
  - split; cbn [fg_order fg_buckets]; [apply lockstep_update; [done|by rewrite Hb]|].
    by rewrite map_size_insert, Hb.
  - pose proof (evict_to_spec (sl_max_fail_buckets limits) _ _ ltac:(lia) Hl) as He.
    destruct (evict_to _ _ _) as [order tbl]. destruct He as (Hl' & Hs & Hsub & _).
    assert (tbl !! from = None) as Hnone.
    { destruct (tbl !! from) eqn:E; [|done]. by rewrite (lookup_weaken _ _ _ _ E Hsub) in Hb. }
    split; cbn [fg_order fg_buckets]; [by apply lockstep_push|].
    rewrite map_size_insert, Hnone. lia.
Qed.

Lemma sweep_wf now g : gate_wf g -> gate_wf (sweep now limits g).
Proof.
  intros [Hl Hc]. unfold sweep. do 2 (case_match; [done|]).
  split; cbn [fg_order fg_buckets]; [by apply lockstep_retain|].
  etrans; [|exact Hc]. apply inj_le, map_subseteq_size, map_filter_subseteq.
Qed.

(** *** The abstract gate

    A bucket per source that was ever charged, never evicted and never swept. *)

Definition expired (now : Instant) (b : FailBucket) : bool :=
  sl_fail_window limits <=? duration_since now (fb_last_refill b).

Definition charge (now : Instant) (o : option FailBucket) : FailBucket :=
  let b := match o with
           | Some b => if expired now b then mkFailBucket (sl_fail_burst limits) now else b
           | None => mkFailBucket (sl_fail_burst limits) now
           end in
  mkFailBucket (saturating_sub (fb_tokens b) 1) (fb_last_refill b).

Definition ideal_peek (t : gmap SocketAddr FailBucket) (from : SocketAddr) (now : Instant) : bool :=
  match t !! from with
  | Some b => expired now b || (0 <? fb_tokens b)
  | None => true
  end.

Definition ideal_consume (from : SocketAddr) (now : Instant) (t : gmap SocketAddr FailBucket) :=
  <[from := charge now (t !! from)]> t.

(** The table holds every bucket of the abstract gate that is not expired. *)
Definition gate_sim (now : Instant) (g : FailGate) (t : gmap SocketAddr FailBucket) : Prop :=
  fg_buckets g ⊆ t /\
  forall k b, t !! k = Some b -> fg_buckets g !! k = None -> expired now b = true.

Lemma expired_mono now now' b : now <= now' -> expired now b = true -> expired now' b = true.
Proof. unfold expired, duration_since. lia. Qed.

Lemma gate_sim_later now now' g t : now <= now' -> gate_sim now g t -> gate_sim now' g t.
Proof. intros Hn [Hs He]. split; [done|]. intros k b Hb Hk. eapply expired_mono; [done|by eapply He]. Qed.

Lemma gate_sim_peek now g t from :
  sl_max_fail_buckets limits <> 0 -> gate_sim now g t -> peek g from now limits = ideal_peek t from now.
Proof.
  intros H0 [Hs He]. unfold peek, ideal_peek. rewrite (proj2 (Z.eqb_neq _ _) H0).
  destruct (fg_buckets g !! from) as [b|] eqn:Hb.
  - rewrite (lookup_weaken _ _ _ _ Hb Hs). unfold expired. by case_match.
  - destruct (t !! from) as [b|] eqn:Ht; [|done]. by rewrite (He _ _ Ht Hb).
Qed.

Lemma gate_sim_sweep now g t : gate_sim now g t -> gate_sim now (sweep now limits g) t.
Proof.
  intros [Hs He]. unfold sweep. do 2 (case_match; [done|]). split; cbn [fg_buckets].
  - etrans; [apply map_filter_subseteq|done].
  - intros k b Hb Hk. apply map_lookup_filter_None in Hk as [Hk|Hk]; [by eapply He|].
    destruct (fg_buckets g !! k) as [b'|] eqn:Hg; [|by eapply He].
    rewrite (lookup_weaken _ _ _ _ Hg Hs) in Hb. injection Hb as <-.
    specialize (Hk _ eq_refl). cbn [snd] in Hk. unfold expired. lia.
Qed.

Lemma gate_sim_consume now g t from :
  gate_sim now g t -> gate_wf g ->
  is_Some (fg_buckets g !! from) \/ Z.of_nat (size (fg_buckets g)) < sl_max_fail_buckets limits ->
  sl_max_fail_buckets limits <> 0 ->
  gate_sim now (consume from now limits g) (ideal_consume from now t).
Proof.
  intros [Hs He] Hwf Hroom H0. unfold consume, ideal_consume. rewrite (proj2 (Z.eqb_neq _ _) H0).
  assert (forall b g', charge now (t !! from) = b -> fg_buckets g' = <[from := b]> (fg_buckets g) ->
    gate_sim now g' (<[from := charge now (t !! from)]> t)) as Hins.
  { intros b g' Hb Eg. split; rewrite Eg.
    - rewrite Hb. by apply insert_mono.
    - intros k b'. rewrite !lookup_insert. case_decide; [done|]. by apply He. }
  destruct (fg_buckets g !! from) as [b|] eqn:Hb.
  - eapply Hins; [|reflexivity]. rewrite (lookup_weaken _ _ _ _ Hb Hs).
    unfold charge, expired. by case_match.
  - destruct Hroom as [[? ?]|Hroom]; [done|].
    assert (evict_to (sl_max_fail_buckets limits) (fg_order g) (fg_buckets g) = (fg_order g, fg_buckets g))
      as ->.
    { destruct (fg_order g); cbn [evict_to]; by replace (_ <? _) with true by lia. }
    eapply Hins; [|reflexivity]. unfold charge.
    destruct (t !! from) as [b|] eqn:Ht; [|done]. by rewrite (He _ _ Ht Hb).
Qed.

(** ** Sequences of gate operations *)

Inductive GateOp := GPeek (from : SocketAddr) | GConsume (from : SocketAddr) | GSweep.

(** The verdicts of the [GPeek]s of a timed sequence. *)
Fixpoint gate_run (ops : list (Instant * GateOp)) (g : FailGate) : list bool :=
  match ops with
  | [] => []
  | (now, GPeek from) :: ops => peek g from now limits :: gate_run ops g
  | (now, GConsume from) :: ops => gate_run ops (consume from now limits g)
  | (now, GSweep) :: ops => gate_run ops (sweep now limits g)
  end.

Fixpoint ideal_run (ops : list (Instant * GateOp)) (t : gmap SocketAddr FailBucket) : list bool :=
  match ops with
  | [] => []
  | (now, GPeek from) :: ops => ideal_peek t from now :: ideal_run ops t
  | (now, GConsume from) :: ops => ideal_run ops (ideal_consume from now t)
  | (_, GSweep) :: ops => ideal_run ops t
  end.

Definition charged (ops : list (Instant * GateOp)) : gset SocketAddr :=
  list_to_set (omap (fun x => match x.2 with GConsume from => Some from | _ => None end) ops).

Fixpoint times_from (t : Instant) (ops : list (Instant * GateOp)) : Prop :=
  match ops with [] => True | (now, _) :: ops => t <= now /\ times_from now ops end.

Lemma gate_run_refines S ops now g t :
  Z.of_nat (size S) <= sl_max_fail_buckets limits -> 0 < sl_max_fail_buckets limits ->
  gate_wf g -> gate_sim now g t -> dom (fg_buckets g) ⊆ S -> charged ops ⊆ S ->
  times_from now ops -> gate_run ops g = ideal_run ops t.
Proof.
  intros HS H0. revert now g t. induction ops as [|[now' op] ops IH]; intros now g t Hwf Hsim Hdom Hch Htm; [done|].
  destruct Htm as [Hle Htm]. apply (gate_sim_later now now' g t Hle) in Hsim.
  destruct op as [from|from|]; cbn [gate_run ideal_run].
  - f_equal; [apply gate_sim_peek; [lia|done]|]. eapply IH; try done.
  - assert (from ∈ S) as HfS by (apply Hch; apply elem_of_list_to_set; cbn; by left).
    assert (charged ops ⊆ S) as Hch'.
    { intros x Hx. apply Hch. apply elem_of_list_to_set. cbn. right. by apply elem_of_list_to_set in Hx. }
    eapply (IH now'); [apply consume_wf; [lia|done]| | |done|done].
    + apply gate_sim_consume; [done|done| |lia].
      destruct (fg_buckets g !! from) as [b|] eqn:Hb; [left; by eexists|right].
      assert (from ∉ dom (fg_buckets g)) as Hn by by apply not_elem_of_dom.
      rewrite <- (size_dom (D := gset SocketAddr)).
      assert (size ({[ from ]} ∪ dom (fg_buckets g)) <= size S)%nat as Hsz.
      { apply subseteq_size. intros x [->%elem_of_singleton|Hx]%elem_of_union; [done|by apply Hdom]. }
      rewrite size_union, size_singleton in Hsz by set_solver. lia.
    + intros x Hx. unfold consume in Hx. rewrite (proj2 (Z.eqb_neq _ _)) in Hx by lia.
      destruct (fg_buckets g !! from) as [b|].
      * cbn [fg_buckets] in Hx. rewrite dom_insert in Hx. apply elem_of_union in Hx as [->%elem_of_singleton|Hx];
          [done|by apply Hdom].
      * pose proof (evict_to_spec _ _ _ H0 (gw_lockstep _ Hwf)) as He.
        destruct (evict_to _ _ _) as [o' t']. destruct He as (_ & _ & Hsub & _).
        cbn [fg_buckets] in Hx. rewrite dom_insert in Hx. apply elem_of_union in Hx as [->%elem_of_singleton|Hx];
          [done|]. apply Hdom. by apply (subseteq_dom _ _ Hsub).
  - eapply (IH now'); [by apply sweep_wf|by apply gate_sim_sweep| |done|done].
    etrans; [|exact Hdom]. unfold sweep. do 2 (case_match; [done|]). cbn [fg_buckets].
    apply subseteq_dom, map_filter_subseteq.
Qed.

End Gate.

(** ** Properties *)

(** C38: The failure gate is transparent: on any time-ordered sequence of checks,
    charges and sweeps that charges at most [max_fail_buckets] sources, every
    verdict is the one of the abstract gate that keeps a bucket per charged
    source forever; the sweep, the expiry of buckets and the table layout never
    change an accept or reject decision. *)
Theorem fail_gate_refines limits ops start :
  0 < sl_max_fail_buckets limits ->
  Z.of_nat (size (charged ops)) <= sl_max_fail_buckets limits -> times_from start ops ->
  gate_run limits ops (FailGate_new start) = ideal_run limits ops ∅.
Proof.
  intros H0 Hch Htm. apply (gate_run_refines limits (charged ops) ops start); try done.
  apply gate_new_wf. lia.
Qed.

Lemma fail_gate_refines_witness :
  let a := SocketAddrV4 LOCALHOST 1 in
  let limits := mkSessionLimits 1 None None None 1 1 None 2 100 1 1 in
  let ops := [(1, GPeek a); (2, GConsume a); (3, GConsume a); (4, GPeek a); (50, GSweep);
              (90, GPeek a); (150, GSweep); (151, GPeek a)] in
  gate_run limits ops (FailGate_new 0) = ideal_run limits ops ∅ /\
  ideal_run limits ops ∅ = [true; false; false; true].
Proof.
  split; [|vm_compute; reflexivity].
  apply (fail_gate_refines (mkSessionLimits 1 None None None 1 1 None 2 100 1 1)
    [(1, GPeek (SocketAddrV4 LOCALHOST 1)); (2, GConsume (SocketAddrV4 LOCALHOST 1));
     (3, GConsume (SocketAddrV4 LOCALHOST 1)); (4, GPeek (SocketAddrV4 LOCALHOST 1)); (50, GSweep);
     (90, GPeek (SocketAddrV4 LOCALHOST 1)); (150, GSweep); (151, GPeek (SocketAddrV4 LOCALHOST 1))] 0);
    [vm_compute; reflexivity|vm_compute; discriminate|cbn; lia].
Defined.

(** The failure gate stays bounded: any charge or sweep keeps the table
    within [max_fail_buckets] entries and the queue exactly its keys; a charge
    evicts at most one source (the oldest inserted), and only for a source that
    is not tracked yet. *)
Theorem fail_gate_bounded limits from now g :
  0 <= sl_max_fail_buckets limits -> gate_wf limits g ->
  gate_wf limits (consume from now limits g) /\ gate_wf limits (sweep now limits g) /\
  (is_Some (fg_buckets g !! from) -> fg_order (consume from now limits g) = fg_order g) /\
  Z.of_nat (size (fg_buckets g)) <= Z.of_nat (size (fg_buckets (consume from now limits g))).
Proof.
  intros H0 Hwf. split; [by apply consume_wf|]. split; [by apply sweep_wf|].
  destruct Hwf as [Hl Hc]. unfold consume. destruct (Z.eqb_spec (sl_max_fail_buckets limits) 0); [split; done|].
  destruct (fg_buckets g !! from) as [b|] eqn:Hb.
  - split; [done|]. cbn [fg_buckets]. by rewrite map_size_insert, Hb.
  - split; [by intros [? ?]|].
    pose proof (evict_to_spec (sl_max_fail_buckets limits) _ _ ltac:(lia) Hl) as He.
    destruct (evict_to _ _ _) as [order tbl]. destruct He as (Hl' & Hs & Hsub & Hone).
    assert (tbl !! from = None) as Hnone.
    { destruct (tbl !! from) eqn:E; [|done]. by rewrite (lookup_weaken _ _ _ _ E Hsub) in Hb. }
    cbn [fg_buckets]. rewrite map_size_insert, Hnone. lia.
Qed.

Lemma fail_gate_bounded_witness :
  gate_wf SessionLimits_default
    (consume (SocketAddrV4 LOCALHOST 1) 5 SessionLimits_default (FailGate_new 0)).
Proof.
  apply (fail_gate_bounded SessionLimits_default (SocketAddrV4 LOCALHOST 1) 5 (FailGate_new 0));
    [vm_compute; discriminate|apply gate_new_wf; vm_compute; discriminate].
Defined.
