(* ===== verification/ServerManagerOk.v ===== *)
(** * Correctness of the server session manager

    The invariant of the manager (live sessions keyed by their identifier, the
    bounds of every table), its preservation by every operation, totality on
    network input, authenticity of the data path, and the exact effect of a
    tick. *)

From S2P Require Import Prelude Bytes Errors Codec Replay Crypto Envelope WireSession Exec Net HandshakeMsg HandshakeFrag HandshakeClient HandshakeServer HandshakeSafety SessionCommon ServerManager FailGateOk.

Local Open Scope Z_scope.

Section Manager.
Context {P : Primitives} {L : PrimitivesLaws P}.

Definition entry_wf (sid : bytes) (e : SessionEntry) : Prop :=
  length sid = SESSION_ID_LEN /\ ws_live sid (se_session e).

(** The session table holds at most [max_sessions] entries, and at least one can
    always be held. *)
Definition table_cap (m : ServerSessionManager) : nat := Nat.max 1 (sl_max_sessions (sm_limits m)).

Record manager_wf (m : ServerSessionManager) : Prop := {
  mw_hs : server_wf (sm_hs m);
  mw_gate_cap : 0 <= sl_max_fail_buckets (sm_limits m);
  mw_gate : gate_wf (sm_limits m) (sm_fail_gate m);
  mw_sessions : map_Forall entry_wf (sm_sessions m);
  mw_bound : (size (sm_sessions m) <= table_cap m)%nat }.

(** What an operation promises of the state it leaves. *)
Definition keeps (m m' : ServerSessionManager) : Prop :=
  manager_wf m' /\ sm_limits m' = sm_limits m.

Lemma keeps_refl m : manager_wf m -> keeps m m.
Proof. done. Qed.

Lemma keeps_trans m1 m2 m3 : keeps m1 m2 -> keeps m2 m3 -> keeps m1 m3.
Proof. intros [_ E1] [W E2]. split; [done|]. by rewrite E2. Qed.

Lemma keeps_sessions m f :
  manager_wf m -> map_Forall entry_wf (f (sm_sessions m)) ->
  (size (f (sm_sessions m)) <= table_cap m)%nat -> keeps m (sm_map_sessions f m).
Proof. intros [? ? ? ? ?] Hf Hs. split; [by split|done]. Qed.

Lemma keeps_delete m sid : manager_wf m -> keeps m (sm_map_sessions (delete sid) m).
Proof.
  intros Hwf. pose proof (mw_sessions _ Hwf). pose proof (mw_bound _ Hwf) as Hb.
  apply keeps_sessions; [done|eapply map_Forall_sub; [apply delete_subseteq|done]|].
  etrans; [|exact Hb]. apply map_subseteq_size, delete_subseteq.
Qed.

Lemma keeps_insert m sid e :
  manager_wf m -> entry_wf sid e ->
  is_Some (sm_sessions m !! sid) \/ (size (sm_sessions m) < table_cap m)%nat ->
  keeps m (sm_map_sessions (<[sid := e]>) m).
Proof.
  intros Hwf He Hroom. pose proof (mw_sessions _ Hwf). pose proof (mw_bound _ Hwf) as Hb.
  apply keeps_sessions; [done|by apply map_Forall_insert_2|].
  rewrite map_size_insert. destruct (sm_sessions m !! sid); [done|].
  destruct Hroom as [[? ?]|]; [done|lia].
Qed.

Lemma keeps_hs m hs : manager_wf m -> server_wf hs -> keeps m (sm_set_hs hs m).
Proof. intros [? ? ? ? ?] Hh. split; [by split|done]. Qed.

Lemma keeps_closed m f : manager_wf m -> keeps m (sm_map_closed f m).
Proof. intros [? ? ? ? ?]. split; [by split|done]. Qed.

Lemma keeps_closes m f : manager_wf m -> keeps m (sm_map_closes f m).
Proof. intros [? ? ? ? ?]. split; [by split|done]. Qed.

Lemma keeps_consume m from now :
  manager_wf m -> keeps m (sm_map_gate (consume from now (sm_limits m)) m).
Proof. intros [? ? ? ? ?]. split; [split; try done; by apply consume_wf|done]. Qed.

Lemma keeps_sweep m now : manager_wf m -> keeps m (sm_map_gate (sweep now (sm_limits m)) m).
Proof. intros [? ? ? ? ?]. split; [split; try done; by apply sweep_wf|done]. Qed.

(** ** Sending on a session *)

Lemma encrypt_event_wp m sid e ty payload :
  manager_wf m -> sm_sessions m !! sid = Some e -> length payload = PAYLOAD_LEN ->
  wp (r ← with_session sid (fun s => WireSession_encrypt s ty payload) e;
      send_result sid (se_peer e) r) m
    (fun r m' => keeps m m' /\
       (exists p, r = Ret (EvSendPacket p (se_peer e))) \/
       keeps m m' /\ r = Ret (EvClosed sid ReasonNonceExhausted) /\ sm_sessions m' !! sid = None).
Proof.
  intros Hwf He Hp. destruct (mw_sessions _ Hwf _ _ He) as [Hs Hlive].
  pose proof (ws_encrypt_live sid (se_session e) ty payload Hlive Hp) as Hc.
  wp_steps. unfold with_session, send_result.
  destruct (WireSession_encrypt (se_session e) ty payload) as [[p|err] w].
  - destruct Hc as (Hl & _ & _). wp_steps. left. split; [|by eexists].
    apply keeps_insert; [done|by split|left; by rewrite He].
  - destruct Hc as [-> _]. wp_steps. right.
    assert (sm_map_sessions (delete sid) (sm_map_sessions (<[sid := entry_set_session w e]>) m)
      = sm_map_sessions (delete sid) m) as Eq.
    { unfold sm_map_sessions. cbn. by rewrite delete_insert_eq. }
    rewrite Eq. split; [by apply keeps_delete|]. split; [done|]. apply lookup_delete_eq.
Qed.

(** ** Establishing a session *)

Lemma stalest_spec (s : gmap bytes SessionEntry) :
  match stalest s with
  | Some k => exists e, s !! k = Some e /\
      forall k' e', s !! k' = Some e' -> se_last_activity e <= se_last_activity e'
  | None => s = ∅
  end.
Proof.
  unfold stalest. set (f := fun (acc : option (bytes * Instant)) (kv : bytes * SessionEntry) => _).
  assert (forall l, match foldl f None l with
    | Some (k, t) => exists e, (k, e) ∈ l /\ se_last_activity e = t /\
        forall k' e', (k', e') ∈ l -> t <= se_last_activity e'
    | None => l = [] end) as Hfold.
  { intros l. induction l as [|[k e] l IH] using rev_ind; [done|]. rewrite foldl_snoc. unfold f at 1.
    destruct (foldl f None l) as [[k0 t0]|]; cbn [fst snd].
    - destruct IH as (e0 & Hin & Ht & Hmin). destruct (Z.ltb_spec (se_last_activity e) t0).
      + exists e. split; [set_solver|]. split; [done|].
        intros k' e' [Hl|[= -> ->]%list_elem_of_singleton]%elem_of_app; [specialize (Hmin _ _ Hl)|]; lia.
      + exists e0. split; [set_solver|]. split; [done|].
        intros k' e' [Hl|[= -> ->]%list_elem_of_singleton]%elem_of_app; [by apply (Hmin k')|lia].
    - subst l. exists e. split; [set_solver|]. split; [done|].
      intros k' e' [= -> ->]%list_elem_of_singleton. lia. }
  specialize (Hfold (map_to_list s)). destruct (foldl f None (map_to_list s)) as [[k t]|]; cbn.
  - destruct Hfold as (e & Hin & <- & Hmin). exists e. split; [by apply elem_of_map_to_list|].
    intros k' e' Hk. apply (Hmin k'). by apply elem_of_map_to_list.
  - by apply map_to_list_empty_iff.
Qed.

(** A completed handshake never touches an existing session of its identifier;
    otherwise it adds one, evicting at most the least recently active one. *)
Definition established (m : ServerSessionManager) (o : HandshakeOutcome) (from : SocketAddr)
    (now : Instant) (r : exec ManagerError ManagerEvent) (m' : ServerSessionManager) : Prop :=
  (is_Some (sm_sessions m !! ho_session_id o) /\ r = Ret EvNone /\ m' = m) \/
  (sm_sessions m !! ho_session_id o = None /\ r = Ret (EvEstablished (ho_session_id o) from) /\
   exists w rest, WireSession_established Server o now = Ok w /\
     sm_sessions m' = <[ho_session_id o := mkSessionEntry w from now now]> rest /\
     (rest = sm_sessions m \/
      (sl_max_sessions (sm_limits m) <= size (sm_sessions m))%nat /\
      exists stale e, sm_sessions m !! stale = Some e /\ rest = delete stale (sm_sessions m) /\
        forall k' e', sm_sessions m !! k' = Some e' -> se_last_activity e <= se_last_activity e')).

Lemma on_handshake_complete_wp m o from now :
  manager_wf m -> length (ho_session_id o) = SESSION_ID_LEN ->
  wp (on_handshake_complete o from now) m (fun r m' => keeps m m' /\ established m o from now r m').
Proof.
  intros Hwf Hs. unfold on_handshake_complete. wp_steps. case_bool_decide as Hex.
  { wp_steps. split; [by apply keeps_refl|by left]. }
  apply eq_None_not_Some in Hex.
  destruct (ws_established_live Server o now Hs) as (w & Ew & Hlive). wp_steps.
  pose proof (stalest_spec (sm_sessions m)) as Hst. pose proof (mw_bound _ Hwf) as Hb.
  destruct (Nat.leb_spec (sl_max_sessions (sm_limits m)) (size (sm_sessions m))) as [Hfull|Hroom].
  - destruct (stalest (sm_sessions m)) as [k|].
    + destruct Hst as (e & He & Hmin). wp_steps. eapply wp_try_ok; [exact Ew|]. wp_steps.
      destruct (keeps_delete m k Hwf) as [Hwf1 _].
      destruct (keeps_closed _ (fun q => q ++ [EvClosed k Capacity]) Hwf1) as [Hwf2 _].
      split.
      * eapply keeps_trans; [split; [exact Hwf2|done]|]. apply keeps_insert; [done|by split|right].
        pose proof (map_size_delete k (sm_sessions m)) as Hd. rewrite He in Hd.
        assert (size (sm_sessions m) <> 0)%nat.
        { intros H0%map_size_empty_inv. by rewrite H0, lookup_empty in He. }
        cbn [sm_map_closed sm_map_sessions sm_sessions]. unfold table_cap in *.
        cbn [sm_map_closed sm_map_sessions sm_limits]. lia.
      * right. split; [done|]. split; [done|]. exists w, (delete k (sm_sessions m)).
        split; [done|]. split; [done|]. right. split; [done|]. by exists k, e.
    + wp_steps. eapply wp_try_ok; [exact Ew|]. wp_steps. split.
      * apply keeps_insert; [done|by split|right]. rewrite Hst, map_size_empty. unfold table_cap. lia.
      * right. split; [done|]. split; [done|]. exists w, (sm_sessions m). split; [done|].
        split; [done|]. by left.
  - wp_steps. eapply wp_try_ok; [exact Ew|]. wp_steps. split.
    + apply keeps_insert; [done|by split|right]. unfold table_cap. lia.
    + right. split; [done|]. split; [done|]. exists w, (sm_sessions m). split; [done|].
      split; [done|]. by left.
Qed.

(** ** The data path *)

Definition entry_as (e e' : SessionEntry) : Prop :=
  se_peer e' = se_peer e /\ se_last_activity e' = se_last_activity e /\
  se_established_at e' = se_established_at e.

(** The effect of a data packet that names the session entry [e] and passed the
    gate, by the outcome of its decryption. *)
Definition decrypted (m : ServerSessionManager) (e : SessionEntry) (pkt : WirePacket)
    (from : SocketAddr) (now : Instant) (ev : ManagerEvent) (m' : ServerSessionManager) : Prop :=
  let after := sm_sessions m' !! packet_sid pkt in
  match (WireSession_decrypt (se_session e) pkt).1 with
  | Ok inner =>
      sm_fail_gate m' = sm_fail_gate m /\
      (forall e', after = Some e' -> se_peer e' = from /\ se_last_activity e' = now /\
         se_established_at e' = se_established_at e) /\
      match ip_msg_type inner with
      | Data | TunData => ev = EvAppData (packet_sid pkt) inner /\ is_Some after
      | Cover => ev = EvNone /\ is_Some after
      | Close => ev = EvClosed (packet_sid pkt) PeerClosed /\ after = None
      | Handshake =>
          (ev = EvNone /\ is_Some after) \/ (exists p, ev = EvSendPacket p from /\ is_Some after) \/
          (ev = EvClosed (packet_sid pkt) ReasonNonceExhausted /\ after = None)
      end
  | Err (SE_Codec DecryptionFailed) =>
      ev = EvNone /\ m' = sm_map_gate (consume from now (sm_limits m)) m
  | Err (SE_Codec Rejected) =>
      ev = EvNone /\ sm_fail_gate m' = sm_fail_gate m /\ exists e', after = Some e' /\ entry_as e e'
  | Err _ =>
      ev = EvClosed (packet_sid pkt) ReasonNonceExhausted /\ after = None /\
      sm_fail_gate m' = sm_fail_gate m
  end.

Definition data_post (m : ServerSessionManager) (pkt : WirePacket) (from : SocketAddr)
    (now : Instant) (r : exec ManagerError ManagerEvent) (m' : ServerSessionManager) : Prop :=
  keeps m m' /\ exists ev, r = Ret ev /\ sm_hs m' = sm_hs m /\
  (forall k, k <> packet_sid pkt -> sm_sessions m' !! k = sm_sessions m !! k) /\
  match sm_sessions m !! packet_sid pkt with
  | None => ev = EvNone /\ m' = m
  | Some e =>
      (peek (sm_fail_gate m) from now (sm_limits m) = false /\ ev = EvNone /\ m' = m) \/
      (peek (sm_fail_gate m) from now (sm_limits m) = true /\ decrypted m e pkt from now ev m')
  end.

(** The probe arm: the entry [e] was just refreshed. *)
Lemma on_control_message_wp m sid inner e :
  manager_wf m -> sm_sessions m !! sid = Some e ->
  wp (on_control_message sid inner) m (fun r m' => keeps m m' /\ sm_hs m' = sm_hs m /\
    sm_fail_gate m' = sm_fail_gate m /\ (forall k, k <> sid -> sm_sessions m' !! k = sm_sessions m !! k) /\
    ((r = Ret EvNone /\ m' = m) \/
     (exists p e', r = Ret (EvSendPacket p (se_peer e)) /\ sm_sessions m' !! sid = Some e' /\ entry_as e e') \/
     (r = Ret (EvClosed sid ReasonNonceExhausted) /\ sm_sessions m' !! sid = None))).
Proof.
  intros Hwf He. unfold on_control_message. wp_steps. case_bool_decide.
  2:{ wp_steps. split; [by apply keeps_refl|]. do 3 (split; [done|]). by left. }
  rewrite He. destruct (mw_sessions _ Hwf _ _ He) as [Hs Hlive].
  pose proof (ws_encrypt_live sid (se_session e) Handshake _ Hlive (length_control_payload ACK)) as Hc.
  wp_steps. unfold with_session, send_result.
  destruct (WireSession_encrypt (se_session e) Handshake (control_payload ACK)) as [[p|err] w].
  - destruct Hc as (Hl & _ & _). wp_steps. split; [apply keeps_insert; [done|by split|left; by rewrite He]|].
    split; [done|]. split; [done|]. cbn [sm_map_sessions sm_sessions].
    split; [intros k Hk; by rewrite lookup_insert_ne|]. right. left.
    exists p, (entry_set_session w e). split; [done|]. split; [apply lookup_insert_eq|done].
  - destruct Hc as [-> _]. wp_steps.
    assert (sm_map_sessions (delete sid) (sm_map_sessions (<[sid := entry_set_session w e]>) m)
      = sm_map_sessions (delete sid) m) as ->
      by (unfold sm_map_sessions; cbn; by rewrite delete_insert_eq).
    split; [by apply keeps_delete|]. split; [done|]. split; [done|].
    cbn [sm_map_sessions sm_sessions]. split; [intros k Hk; by rewrite lookup_delete_ne|].
    right. right. split; [done|]. apply lookup_delete_eq.
Qed.

Lemma sm_insert_same m sid e :
  sm_sessions m !! sid = Some e -> sm_map_sessions (<[sid := e]>) m = m.
Proof. intros He. unfold sm_map_sessions. rewrite insert_id by done. by destruct m. Qed.

Lemma sm_delete_insert m sid e :
  sm_map_sessions (delete sid) (sm_map_sessions (<[sid := e]>) m) = sm_map_sessions (delete sid) m.
Proof. unfold sm_map_sessions. cbn. by rewrite delete_insert_eq. Qed.

(** A packet that decrypted. *)
Lemma data_accepted_wp m pkt from now e inner w :
  manager_wf m -> sm_sessions m !! packet_sid pkt = Some e -> length (packet_sid pkt) = SESSION_ID_LEN ->
  peek (sm_fail_gate m) from now (sm_limits m) = true ->
  WireSession_decrypt (se_session e) pkt = (Ok inner, w) ->
  wp (modify (sm_map_sessions
        (<[packet_sid pkt := mkSessionEntry w from now (se_established_at e)]>));;
      match ip_msg_type inner with
      | Data | TunData => mret (EvAppData (packet_sid pkt) inner)
      | Cover => mret EvNone
      | Close => modify (sm_map_sessions (delete (packet_sid pkt)));; mret (EvClosed (packet_sid pkt) PeerClosed)
      | Handshake => on_control_message (packet_sid pkt) inner
      end) m (data_post m pkt from now).
Proof.
  intros Hwf He Hs Hpeek Hd. destruct (mw_sessions _ Hwf _ _ He) as [_ Hlive].
  pose proof (ws_decrypt_live _ _ pkt Hlive) as Hw. rewrite Hd in Hw.
  set (e1 := mkSessionEntry w from now (se_established_at e)).
  assert (keeps m (sm_map_sessions (<[packet_sid pkt := e1]>) m)) as Hk1
    by (apply keeps_insert; [done|by split|left; by rewrite He]).
  assert (forall ev m', keeps m m' -> sm_hs m' = sm_hs m ->
    (forall k, k <> packet_sid pkt -> sm_sessions m' !! k = sm_sessions m !! k) ->
    decrypted m e pkt from now ev m' -> data_post m pkt from now (Ret ev) m') as Hpost.
  { intros ev m' H1 H2 H3 H4. split; [done|]. exists ev. rewrite He. auto 10. }
  unfold decrypted in Hpost. rewrite Hd in Hpost. cbn [fst] in Hpost.
  wp_steps. fold e1. set (m1 := sm_map_sessions (<[packet_sid pkt := e1]>) m) in *.
  assert (sm_sessions m1 !! packet_sid pkt = Some e1) as Hm1 by apply lookup_insert_eq.
  assert (forall k, k <> packet_sid pkt -> sm_sessions m1 !! k = sm_sessions m !! k) as Hother
    by (intros k Hk; by apply lookup_insert_ne).
  assert (forall e', sm_sessions m1 !! packet_sid pkt = Some e' ->
    se_peer e' = from /\ se_last_activity e' = now /\ se_established_at e' = se_established_at e) as Hfresh.
  { intros e' He'. rewrite Hm1 in He'. by injection He' as <-. }
  destruct (ip_msg_type inner).
  - eapply wp_mono; [apply (on_control_message_wp m1 _ inner e1 (proj1 Hk1) Hm1)|].
    intros r m' (Hkeep & Hhs & Hg & Ho & Hr). cbn [e1 se_peer] in Hr.
    assert (keeps m m') as Hkm by (eapply keeps_trans; [exact Hk1|exact Hkeep]).
    assert (sm_hs m' = sm_hs m) as Hhm by (rewrite Hhs; reflexivity).
    assert (sm_fail_gate m' = sm_fail_gate m) as Hgm by (rewrite Hg; reflexivity).
    assert (forall k, k <> packet_sid pkt -> sm_sessions m' !! k = sm_sessions m !! k) as Hom
      by (intros k Hk; rewrite Ho by done; by apply Hother).
    destruct Hr as [[-> ->]|[(p & e' & -> & He' & Has)|[-> Hgone]]];
      (apply Hpost; [exact Hkm|exact Hhm|exact Hom|]); (split; [exact Hgm|]).
    + split; [exact Hfresh|]. left. split; [done|by rewrite Hm1].
    + split; [|right; left; exists p; split; [done|by rewrite He']]. intros e2 E2. rewrite He' in E2.
      injection E2 as <-. by destruct Has as (-> & -> & ->).
    + split; [by rewrite Hgone|]. right. by right.
  - wp_steps. by apply Hpost.
  - wp_steps. by apply Hpost.
  - wp_steps. unfold m1. rewrite sm_delete_insert. apply Hpost; [by apply keeps_delete|done| |].
    + intros k Hk. by apply lookup_delete_ne.
    + split; [done|]. cbn [sm_map_sessions sm_sessions]. rewrite lookup_delete_eq. done.
  - wp_steps. by apply Hpost.
Qed.

Lemma server_on_data_packet_wp m pkt from now :
  manager_wf m -> WirePacket_wf pkt ->
  wp (server_on_data_packet pkt from now) m (data_post m pkt from now).
Proof.
  intros Hwf Hp. pose proof (length_packet_sid _ Hp) as Hs. unfold server_on_data_packet. wp_steps.
  fold (packet_sid pkt).
  destruct (sm_sessions m !! packet_sid pkt) as [e|] eqn:He.
  2:{ wp_steps. split; [by apply keeps_refl|]. exists EvNone. rewrite He. auto 10. }
  destruct (peek (sm_fail_gate m) from now (sm_limits m)) eqn:Hpeek; cbn [negb].
  2:{ wp_steps. split; [by apply keeps_refl|]. exists EvNone. rewrite He. auto 10. }
  destruct (WireSession_decrypt (se_session e) pkt) as [[inner|err] w] eqn:Hd.
  { by apply (data_accepted_wp m pkt from now e inner w). }
  destruct (mw_sessions _ Hwf _ _ He) as [_ Hlive].
  pose proof (ws_decrypt_live _ _ pkt Hlive) as Hw. rewrite Hd in Hw.
  assert (forall ev m', keeps m m' -> sm_hs m' = sm_hs m ->
    (forall k, k <> packet_sid pkt -> sm_sessions m' !! k = sm_sessions m !! k) ->
    decrypted m e pkt from now ev m' -> data_post m pkt from now (Ret ev) m') as Hpost.
  { intros ev m' H1 H2 H3 H4. split; [done|]. exists ev. rewrite He. auto 10. }
  unfold decrypted in Hpost. rewrite Hd in Hpost. cbn [fst] in Hpost.
  destruct Hw as [->|(Hl & [->| ->])]; cbn [classify_error]; wp_steps.
  - rewrite sm_delete_insert. apply Hpost; [by apply keeps_delete|done| |].
    + intros k Hk. by apply lookup_delete_ne.
    + split; [done|]. split; [apply lookup_delete_eq|done].
  - apply ws_decrypt_failed in Hd as ->.
    assert (entry_set_session (se_session e) e = e) as -> by by destruct e.
    rewrite sm_insert_same by done. apply Hpost; [by apply keeps_consume|done|done|]. done.
  - apply Hpost; [apply keeps_insert; [done|by split|left; by rewrite He]|done| |].
    + intros k Hk. by apply lookup_insert_ne.
    + split; [done|]. split; [done|]. exists (entry_set_session w e).
      split; [apply lookup_insert_eq|done].
Qed.

(** ** Datagrams *)

Definition manager_post (m : ServerSessionManager) (d : Draws) (now : Instant) (pkt : WirePacket)
    (from : SocketAddr) (r : exec ManagerError ManagerEvent) (m' : ServerSessionManager) : Prop :=
  keeps m m' /\ (exists ev, r = Ret ev) /\
  if is_handshake_fragment pkt then
    sm_sessions m' = sm_sessions m \/
    exists o hs, completes (sm_hs m) d pkt from o /\ established (sm_set_hs hs m) o from now r m'
  else data_post m pkt from now r m'.

Lemma completes_sid h d pkt from o :
  WirePacket_wf pkt -> completes h d pkt from o -> length (ho_session_id o) = SESSION_ID_LEN.
Proof. intros Hp (frag & ? & ? & ? & ? & ? & ? & ? & ? & Hf & <- & _). by eapply from_datagram_sid. Qed.

Lemma server_manager_handle_wp m d now pkt from :
  manager_wf m -> WirePacket_wf pkt ->
  wp (server_manager_handle d now pkt from) m (manager_post m d now pkt from).
Proof.
  intros Hwf Hp. unfold server_manager_handle, manager_post.
  destruct (is_handshake_fragment pkt).
  2:{ eapply wp_mono; [by apply server_on_data_packet_wp|]. intros r m' Hd.
      pose proof Hd as (Hk & ev & -> & _). split; [done|]. split; [by exists ev|done]. }
  wp_steps. eapply wp_mono; [apply (server_handle_wp d pkt from _ (mw_hs _ Hwf) Hp)|].
  intros r hs ((ev & -> & Hev) & Hhs & Hcfg). cbv beta iota.
  pose proof (keeps_hs m hs Hwf Hhs) as Hk. destruct ev as [packets peer|o|]; wp_steps.
  - split; [done|]. split; [by eexists|by left].
  - destruct Hev as [Hc _]. eapply wp_mono;
      [apply (on_handshake_complete_wp _ o from now (proj1 Hk)); by eapply completes_sid|].
    intros r m' [Hk' He]. split; [exact (keeps_trans _ _ _ Hk Hk')|].
    split; [destruct He as [(_ & -> & _)|(_ & -> & _)]; by eexists|right]. by exists o, hs.
  - split; [done|]. split; [by eexists|by left].
Qed.

(** ** Local operations *)

Lemma server_send_encrypted_wp m sid ty payload :
  manager_wf m -> length payload = PAYLOAD_LEN ->
  wp (server_send_encrypted sid ty payload) m (fun r m' => keeps m m' /\ forall site, r <> Panic site).
Proof.
  intros Hwf Hp. unfold server_send_encrypted. wp_steps.
  destruct (sm_sessions m !! sid) as [e|] eqn:He; cbn [ok_or].
  - eapply wp_try_ok; [reflexivity|]. cbv beta iota.
    eapply wp_mono; [by apply encrypt_event_wp|].
    intros r m' [[Hk (p & ->)]|(Hk & -> & _)]; by split.
  - apply wp_try; [done|]. intros err [= <-]. by split.
Qed.

Lemma with_session_ext {A} sid (f g : WireSession -> result SessionError A * WireSession) e :
  f (se_session e) = g (se_session e) -> with_session sid f e = with_session sid g e.
Proof. unfold with_session. by intros ->. Qed.

Lemma cover_packet_wp m sid fill :
  manager_wf m -> (forall f, fill = Ok f -> length f = PAYLOAD_LEN) ->
  wp (server_cover_packet sid fill) m (fun r m' => keeps m m' /\ forall site, r <> Panic site).
Proof.
  intros Hwf Hf. unfold server_cover_packet. wp_steps.
  destruct (sm_sessions m !! sid) as [e|] eqn:He; cbn [ok_or].
  2:{ apply wp_try; [done|]. intros err [= <-]. by split. }
  eapply wp_try_ok; [reflexivity|]. cbv beta iota.
  destruct (mw_sessions _ Hwf _ _ He) as [Hs Hlive]. destruct fill as [f|err].
  - rewrite (with_session_ext _ _ (fun s => WireSession_encrypt s Cover f)).
    + eapply wp_mono; [apply encrypt_event_wp; [done|done|by apply Hf]|].
      intros r m' [[Hk (p & ->)]|(Hk & -> & _)]; by split.
    + unfold WireSession_cover. by rewrite (require_established_live sid _ Hlive).
  - unfold with_session, send_result, WireSession_cover.
    rewrite (require_established_live sid _ Hlive). wp_steps. apply wp_try; [done|]. intros x [= <-].
    split; [|done]. assert (entry_set_session (se_session e) e = e) as -> by by destruct e.
    rewrite sm_insert_same by done. by apply keeps_refl.
Qed.

Lemma cover_each_wp sids fill m :
  manager_wf m -> (forall sid f, fill sid = Ok f -> length f = PAYLOAD_LEN) ->
  wp (cover_each sids fill) m (fun r m' => keeps m m' /\ forall site, r <> Panic site).
Proof.
  intros Hwf Hf. revert m Hwf. induction sids as [|sid sids IH]; intros m Hwf; cbn [cover_each].
  { wp_steps. by split. }
  wp_steps. eapply wp_mono; [by apply (cover_packet_wp m sid (fill sid)); [|apply Hf]|].
  intros r m1 [Hk Hr]. destruct r as [ev|e|site]; [|by split|by destruct (Hr site)].
  wp_steps. eapply wp_mono; [apply IH, Hk|]. intros r2 m2 [Hk2 Hr2].
  pose proof (keeps_trans _ _ _ Hk Hk2) as Hk3.
  destruct r2 as [out|e|site]; [|by split|by destruct (Hr2 site)]. wp_steps. by split.
Qed.

(** The first [Close] leaves everything but the retransmission list alone. *)
Lemma begin_close_spec e now m :
  (exists l, (begin_close e now m).2 = sm_map_closes (fun _ => l) m) /\
  ((begin_close e now m).1 = EvNone \/ exists p, (begin_close e now m).1 = EvSendPacket p (se_peer e)).
Proof.
  unfold begin_close. destruct (WireSession_encrypt _ _ _) as [[p|err] w]; cbn [fst snd].
  - split; [by eexists|]. right. by exists p.
  - split; [|by left]. exists (sm_pending_closes m). by destruct m.
Qed.

Lemma close_session_wp m sid now :
  manager_wf m -> wp (close_session sid now) m (fun r m' => keeps m m' /\ forall site, r <> Panic site).
Proof.
  intros Hwf. unfold close_session. wp_steps.
  destruct (sm_sessions m !! sid) as [e|] eqn:He; cbn [ok_or].
  2:{ apply wp_try; [done|]. intros err [= <-]. by split. }
  eapply wp_try_ok; [reflexivity|]. wp_steps. split; [|done].
  destruct (begin_close_spec e now (sm_map_closed (fun q => q ++ [EvClosed sid UserClosed])
    (sm_map_sessions (delete sid) m))) as [[l ->] _].
  pose proof (keeps_delete m sid Hwf) as Hk1.
  pose proof (keeps_closed _ (fun q => q ++ [EvClosed sid UserClosed]) (proj1 Hk1)) as Hk2.
  pose proof (keeps_closes _ (fun _ => l) (proj1 Hk2)) as Hk3.
  exact (keeps_trans _ _ _ Hk1 (keeps_trans _ _ _ Hk2 Hk3)).
Qed.

(** ** The tick *)

Definition expired_list (now : Instant) (m : ServerSessionManager) : list (bytes * CloseReason) :=
  omap (fun kv => r ← expiry (sm_limits m) now kv.2; Some (kv.1, r)) (map_to_list (sm_sessions m)).

Lemma elem_of_expired now m sid r :
  (sid, r) ∈ expired_list now m <->
  exists e, sm_sessions m !! sid = Some e /\ expiry (sm_limits m) now e = Some r.
Proof.
  unfold expired_list. rewrite list_elem_of_omap. split.
  - intros ([k e] & Hin & Hx). apply elem_of_map_to_list in Hin. cbn in Hx.
    destruct (expiry (sm_limits m) now e) eqn:Hr; [|done]. injection Hx as -> ->. by exists e.
  - intros (e & He & Hr). exists (sid, e). split; [by apply elem_of_map_to_list|]. cbn. by rewrite Hr.
Qed.

(** Everything the expiry loop leaves alone. *)
Definition same_rest (m m' : ServerSessionManager) : Prop :=
  sm_limits m' = sm_limits m /\ sm_hs m' = sm_hs m /\ sm_fail_gate m' = sm_fail_gate m /\
  sm_pending_closed m' = sm_pending_closed m.

Lemma expire_fold now l out m :
  let '(out', m') := foldl (fun st sr => expire_session now sr st) (out, m) l in
  same_rest m m' /\ sm_sessions m' = filter (fun kv => kv.1 ∉ l.*1) (sm_sessions m) /\
  forall sid r, EvClosed sid r ∈ out' <-> EvClosed sid r ∈ out \/ (sid, r) ∈ l.
Proof.
  revert out m. induction l as [|[sid0 r0] l IH]; intros out m; cbn [foldl].
  { split; [done|]. split; [|set_solver]. symmetry. apply map_filter_id. intros k e _. set_solver. }
  unfold expire_session at 2.
  destruct (sm_sessions m !! sid0) as [e|] eqn:He.
  - destruct (begin_close_spec e now (sm_map_sessions (delete sid0) m)) as [[pcs Em] Hev].
    destruct (begin_close e now (sm_map_sessions (delete sid0) m)) as [close m1]. cbn [fst snd] in *. subst m1.
    specialize (IH (out ++ match close with EvNone => [] | ev => [ev] end ++ [EvClosed sid0 r0])
      (sm_map_closes (fun _ => pcs) (sm_map_sessions (delete sid0) m))).
    destruct (foldl _ _ l) as [out' m']. destruct IH as (Hrest & Hs & Ho). split; [exact Hrest|]. split.
    + rewrite Hs. cbn [sm_map_closes sm_map_sessions sm_sessions]. apply map_eq. intros k.
      apply option_eq. intros x. rewrite !map_lookup_filter_Some, lookup_delete_Some. cbn. set_solver.
    + intros sid r. rewrite Ho. destruct Hev as [->|[p ->]]; set_solver.
  - specialize (IH (out ++ [EvClosed sid0 r0]) m).
    destruct (foldl _ _ l) as [out' m']. destruct IH as (Hrest & Hs & Ho). split; [exact Hrest|]. split.
    + rewrite Hs. apply map_eq. intros k. apply option_eq. intros x.
      rewrite !map_lookup_filter_Some. cbn. split; [|set_solver]. intros [Hx Hn]. split; [done|].
      intros [->|?]%elem_of_cons; [|done]. by rewrite He in Hx.
    + intros sid r. rewrite Ho. set_solver.
Qed.

Lemma retransmit_no_closed now pcs sid r : EvClosed sid r ∉ (retransmit_closes now pcs).1.
Proof.
  unfold retransmit_closes. cbn [fst]. rewrite list_elem_of_In, in_concat. intros (l & Hl & Hx).
  apply list_elem_of_In, list_elem_of_fmap in Hl as ([l' pc'] & -> & Hin).
  apply list_elem_of_fmap in Hin as (pc & E & _). unfold retransmit_one in E.
  case_match; [by injection E as -> ->|]. case_match. case_match; injection E as -> ->; cbn in Hx;
    [by destruct Hx as [?|[]]|done].
Qed.

Lemma server_tick_spec now m :
  let '(out, m') := server_tick now m in
  sm_limits m' = sm_limits m /\ sm_hs m' = sm_hs m /\ sm_pending_closed m' = [] /\
  sm_fail_gate m' = sweep now (sm_limits m) (sm_fail_gate m) /\
  sm_sessions m' = filter (fun kv => expiry (sm_limits m) now kv.2 = None) (sm_sessions m) /\
  forall sid r, EvClosed sid r ∈ out <->
    (exists e, sm_sessions m !! sid = Some e /\ expiry (sm_limits m) now e = Some r) \/
    EvClosed sid r ∈ sm_pending_closed m.
Proof.
  unfold server_tick. fold (expired_list now m).
  pose proof (expire_fold now (expired_list now m) [] m) as Hf.
  destruct (foldl _ _ (expired_list now m)) as [out m1]. destruct Hf as ((E1 & E2 & E3 & E4) & Hs & Ho).
  destruct (retransmit_closes now _) as [closes pcs] eqn:Er.
  cbn [sm_map_gate sm_map_closes sm_map_closed sm_limits sm_hs sm_pending_closed sm_fail_gate sm_sessions].
  split; [done|]. split; [done|]. split; [done|]. split; [by rewrite E1, E3|]. split.
  - rewrite Hs. apply map_eq. intros k. apply option_eq. intros e.
    rewrite !map_lookup_filter_Some. cbn [fst snd]. split; intros [He Hx]; (split; [done|]).
    + destruct (expiry (sm_limits m) now e) as [r|] eqn:Hr; [|done]. destruct Hx.
      apply list_elem_of_fmap. exists (k, r). split; [done|]. apply elem_of_expired. by exists e.
    + intros ([k' r] & -> & Hin)%list_elem_of_fmap. apply elem_of_expired in Hin as (e' & He' & Hr).
      cbn in *. rewrite He in He'. injection He' as <-. by rewrite Hx in Hr.
  - intros sid r. pose proof (retransmit_no_closed now (sm_pending_closes (sm_map_closed (fun _ => []) m1)) sid r)
      as Hn. rewrite Er in Hn. cbn [fst] in Hn.
    rewrite !elem_of_app, Ho, E4, <- elem_of_expired. set_solver.
Qed.

(** ** Runs of the manager *)

Inductive ManagerOp :=
| MDatagram (d : Draws) (now : Instant) (pkt : WirePacket) (from : SocketAddr)
| MSetRoster (roster : list VerifyingKey)
| MAppOutbound (sid payload : bytes)
| MTunOutbound (sid payload : bytes)
| MCoverPacketAll (fill : bytes -> result string bytes)
| MCloseSession (sid : bytes) (now : Instant)
| MTick (now : Instant).

Definition manager_apply (op : ManagerOp) (m : ServerSessionManager) : ServerSessionManager :=
  match op with
  | MDatagram d now pkt from => (server_manager_handle d now pkt from m).2
  | MSetRoster roster => (sm_set_roster roster m).2
  | MAppOutbound sid payload => (server_app_outbound sid payload m).2
  | MTunOutbound sid payload => (server_tun_outbound sid payload m).2
  | MCoverPacketAll fill => (cover_packet_all fill m).2
  | MCloseSession sid now => (close_session sid now m).2
  | MTick now => (server_tick now m).2
  end.

(** Datagrams are full-size; random fills have the size that was asked for. *)
Definition manager_op_wf (op : ManagerOp) : Prop :=
  match op with
  | MDatagram _ _ pkt _ => WirePacket_wf pkt
  | MCoverPacketAll fill => forall sid f, fill sid = Ok f -> length f = PAYLOAD_LEN
  | _ => True
  end.

Lemma manager_apply_keeps op m :
  manager_wf m -> manager_op_wf op -> keeps m (manager_apply op m).
Proof.
  intros Hwf Hop. destruct op as [d now pkt from|roster|sid payload|sid payload|fill|sid now|now];
    cbn [manager_apply].
  - apply (server_manager_handle_wp m d now pkt from Hwf Hop).
  - change (wp (sm_set_roster roster) m (fun _ m' => keeps m m')). unfold sm_set_roster. wp_steps.
    eapply wp_mono; [apply (set_roster_wp roster _ (mw_hs _ Hwf))|]. intros r hs [Hhs _].
    pose proof (keeps_hs m hs Hwf Hhs). by destruct r.
  - unfold server_app_outbound. destruct (Nat.ltb_spec PAYLOAD_LEN (length payload)) as [|Hle]; [done|].
    apply (server_send_encrypted_wp m sid Data (pad_payload payload) Hwf). by apply length_pad_payload.
  - unfold server_tun_outbound. destruct (Nat.eqb_spec (length payload) PAYLOAD_LEN); cbn [negb]; [|done].
    by apply (server_send_encrypted_wp m sid TunData payload Hwf).
  - change (wp (cover_packet_all fill) m (fun _ m' => keeps m m')). unfold cover_packet_all. wp_steps.
    eapply wp_mono; [by apply cover_each_wp|]. by intros r m' [? _].
  - apply (close_session_wp m sid now Hwf).
  - pose proof (server_tick_spec now m) as Ht. destruct (server_tick now m) as [out m']. cbn [snd].
    destruct Ht as (E1 & E2 & E3 & E4 & E5 & _). split; [|done]. destruct Hwf as [H1 H2 H3 H4 H5].
    split; rewrite ?E1, ?E2, ?E4, ?E5; try done.
    + by apply sweep_wf.
    + eapply map_Forall_sub; [apply map_filter_subseteq|done].
    + unfold table_cap. rewrite E1. etrans; [|exact H5]. apply map_subseteq_size, map_filter_subseteq.
Qed.

Inductive manager_reaches (cfg : ServerConfig) (limits : SessionLimits) (now : Instant)
    : ServerSessionManager -> Prop :=
| mr_new m : ServerSessionManager_new cfg limits now = Ok m -> manager_reaches cfg limits now m
| mr_step m op : manager_reaches cfg limits now m -> manager_op_wf op ->
    manager_reaches cfg limits now (manager_apply op m).

Lemma manager_reaches_wf cfg limits now m :
  0 <= sc_rate_limit_burst cfg -> 0 <= sl_max_fail_buckets limits ->
  manager_reaches cfg limits now m -> manager_wf m /\ sm_limits m = limits.
Proof.
  intros Hb Hg Hr. induction Hr as [m Hnew|m op Hr [IH El] Hop].
  - unfold ServerSessionManager_new in Hnew. apply bind_ok in Hnew as ([] & _ & Hnew).
    apply bind_ok in Hnew as ([] & _ & Hnew). injection Hnew as <-. split; [|done].
    split; cbn; [by apply server_new_wf|done|by apply gate_new_wf|apply map_Forall_empty|].
    rewrite map_size_empty. lia.
  - destruct (manager_apply_keeps op m IH Hop) as [Hw E]. split; [done|]. by rewrite E.
Qed.

End Manager.

(** ** A concrete manager for the witnesses *)

Module ManagerSample.

Definition manager0 : ServerSessionManager :=
  mkServerSessionManager SessionLimits_default Sample.server0 ∅ (FailGate_new 0) [] [].

Fixpoint deliver (t : Z) (pkts : list WirePacket) (m : ServerSessionManager) : ServerSessionManager :=
  match pkts with
  | [] => m
  | p :: pkts =>
      deliver t pkts (manager_apply (MDatagram (Sample.draws t) (from_secs t) p Sample.client_addr) m)
  end.

(** The manager after the sample handshake. *)
Definition manager1 : ServerSessionManager :=
  deliver 1 (default [] (ch_m1_frags <$> Sample.client) ++ [Sample.m3_packet]) manager0.

(** A data packet of the client's session. *)
Definition client_data {P : Primitives} (r : option (exec HandshakeV2Error ClientEvent))
    : option WirePacket :=
  match r with
  | Some (Ret (CE_M3Sent _ o)) =>
      match WireSession_established Client o 0 with
      | Ok w => match (WireSession_encrypt w Data (sample_payload x05)).1 with
                | Ok p => Some p | Err _ => None end
      | Err _ => None
      end
  | _ => None
  end.

Definition data_packet : WirePacket :=
  match Sample.client with
  | Some h => default (mkWirePacket []) (client_data (last (Sample.deliver_client Sample.m2_frags h).1))
  | None => mkWirePacket []
  end.

End ManagerSample.

Lemma manager_deliver_reaches t pkts m :
  Forall WirePacket_wf pkts ->
  manager_reaches Sample.server_cfg SessionLimits_default 0 m ->
  manager_reaches Sample.server_cfg SessionLimits_default 0 (ManagerSample.deliver t pkts m).
Proof.
  revert m. induction pkts as [|p pkts IH]; intros m Hp Hr; [done|].
  apply Forall_cons in Hp as [Hp Hps]. cbn [ManagerSample.deliver]. apply IH; [done|]. by apply mr_step.
Qed.

Lemma manager_new_reaches :
  manager_reaches Sample.server_cfg SessionLimits_default 0 ManagerSample.manager0.
Proof. by apply mr_new. Qed.

Lemma manager_sample_reaches :
  manager_reaches Sample.server_cfg SessionLimits_default 0 ManagerSample.manager1.
Proof.
  apply manager_deliver_reaches; [apply Forall_app; split; [apply sample_wf|]|by apply mr_new].
  constructor; [apply sample_wf|constructor].
Qed.

Lemma manager_sample_wf : WirePacket_wf ManagerSample.data_packet.
Proof. apply Nat.eqb_eq. vm_compute. reflexivity. Qed.

(** ** Properties *)

(** The server session manager is total on network input: in every state it
    can reach, whatever full-size datagram arrives from whatever source, the
    handler returns an event; no datagram makes it fail (which would end the
    driver) or panic. *)
Theorem server_manager_total {P : Primitives} {L : PrimitivesLaws P} cfg limits start m d now pkt from :
  0 <= sc_rate_limit_burst cfg -> 0 <= sl_max_fail_buckets limits ->
  manager_reaches cfg limits start m -> WirePacket_wf pkt ->
  exists ev, (server_manager_handle d now pkt from m).1 = Ret ev.
Proof.
  intros Hb Hg Hr Hp. destruct (manager_reaches_wf _ _ _ _ Hb Hg Hr) as [Hwf _].
  by destruct (server_manager_handle_wp m d now pkt from Hwf Hp) as (_ & Hev & _).
Qed.

Lemma server_manager_total_witness :
  exists ev, (server_manager_handle (Sample.draws 3) 7 ManagerSample.data_packet Sample.client_addr
                ManagerSample.manager1).1 = Ret ev.
Proof.
  apply (server_manager_total Sample.server_cfg SessionLimits_default 0);
    [vm_compute; discriminate|vm_compute; discriminate|apply manager_sample_reaches|apply manager_sample_wf].
Defined.

(** C30: The manager's tables stay bounded under any traffic and any local calls:
    at most [max_sessions] established sessions (one when the limit is zero),
    at most [max_pending] pending handshakes, [max_fail_buckets] failure buckets
    and 4096 rate buckets; every session in the table is established, carries
    the identifier it is filed under and has a well-formed cipher. *)
Theorem server_manager_bounded {P : Primitives} {L : PrimitivesLaws P} cfg limits start m :
  0 <= sc_rate_limit_burst cfg -> 0 <= sl_max_fail_buckets limits ->
  manager_reaches cfg limits start m ->
  (size (sm_sessions m) <= Nat.max 1 (sl_max_sessions limits))%nat /\
  Z.of_nat (size (fg_buckets (sm_fail_gate m))) <= sl_max_fail_buckets limits /\
  (size (sh_pending (sm_hs m)) <= sc_max_pending (sh_cfg (sm_hs m)))%nat /\
  Z.of_nat (size (sh_rate_buckets (sm_hs m))) <= MAX_RATE_BUCKETS /\
  map_Forall (fun sid e => ws_state (se_session e) = Established /\ ws_session_id (se_session e) = sid /\
                CipherSession_wf (ws_cipher (se_session e))) (sm_sessions m).
Proof.
  intros Hb Hg Hr. destruct (manager_reaches_wf _ _ _ _ Hb Hg Hr) as [[Hh _ [_ Hgc] Hs Hn] <-].
  destruct Hh as [[_ Hrc _] _ _ Hp _].
  split; [exact Hn|]. split; [exact Hgc|]. split; [exact Hp|]. split; [exact Hrc|].
  intros sid e He. destruct (Hs _ _ He) as (_ & H1 & H2 & H3 & H4). done.
Qed.

Lemma server_manager_bounded_witness :
  (size (sm_sessions ManagerSample.manager1) <= Nat.max 1 (sl_max_sessions SessionLimits_default))%nat.
Proof.
  refine (proj1 (server_manager_bounded Sample.server_cfg SessionLimits_default 0 ManagerSample.manager1
    _ _ manager_sample_reaches)); vm_compute; discriminate.
Defined.

(** C9: The data path is authentic and isolated. A datagram that is not a
    handshake fragment only concerns the session it names: unknown sessions and
    gated sources change nothing; a packet whose tag fails changes nothing but
    the failure gate; a rejected authentic packet (a replay) moves neither the
    gate, the peer address nor the idle clock; only an authenticated packet
    rebinds the peer, refreshes the idle clock, delivers data, closes the
    session or is answered. *)
Theorem server_data_path_authentic {P : Primitives} {L : PrimitivesLaws P} cfg limits start m d now pkt from :
  0 <= sc_rate_limit_burst cfg -> 0 <= sl_max_fail_buckets limits ->
  manager_reaches cfg limits start m -> WirePacket_wf pkt -> is_handshake_fragment pkt = false ->
  let run := server_manager_handle d now pkt from m in data_post m pkt from now run.1 run.2.
Proof.
  intros Hb Hg Hr Hp Hh run. destruct (manager_reaches_wf _ _ _ _ Hb Hg Hr) as [Hwf _].
  destruct (server_manager_handle_wp m d now pkt from Hwf Hp) as (_ & _ & Hd).
  by rewrite Hh in Hd.
Qed.

Lemma server_data_path_authentic_witness :
  data_post ManagerSample.manager1 ManagerSample.data_packet Sample.server_addr 7
    (server_manager_handle (Sample.draws 3) 7 ManagerSample.data_packet Sample.server_addr
       ManagerSample.manager1).1
    (server_manager_handle (Sample.draws 3) 7 ManagerSample.data_packet Sample.server_addr
       ManagerSample.manager1).2.
Proof.
  apply (server_data_path_authentic Sample.server_cfg SessionLimits_default 0);
    [vm_compute; discriminate|vm_compute; discriminate|apply manager_sample_reaches|apply manager_sample_wf|
     vm_compute; reflexivity].
Defined.

(** C11: Sessions come into existence only through an authentic handshake and are
    never overwritten: a handshake datagram leaves every established session as
    it is, except that a completing M3 (in the sense of [completes]) may evict
    the least recently active one when the table is full; a session is added
    only under an identifier that had none. *)
Theorem server_session_creation {P : Primitives} {L : PrimitivesLaws P} cfg limits start m d now pkt from :
  0 <= sc_rate_limit_burst cfg -> 0 <= sl_max_fail_buckets limits ->
  manager_reaches cfg limits start m -> WirePacket_wf pkt -> is_handshake_fragment pkt = true ->
  let m' := (server_manager_handle d now pkt from m).2 in
  forall sid,
    sm_sessions m' !! sid = sm_sessions m !! sid \/
    (exists o, completes (sm_hs m) d pkt from o /\
      ((sid = ho_session_id o /\ sm_sessions m !! sid = None /\
        exists w, WireSession_established Server o now = Ok w /\
          sm_sessions m' !! sid = Some (mkSessionEntry w from now now)) \/
       (sm_sessions m' !! sid = None /\ (sl_max_sessions limits <= size (sm_sessions m))%nat /\
        exists e, sm_sessions m !! sid = Some e /\
          forall k' e', sm_sessions m !! k' = Some e' -> se_last_activity e <= se_last_activity e'))).
Proof.
  intros Hb Hg Hr Hp Hh m' sid. destruct (manager_reaches_wf _ _ _ _ Hb Hg Hr) as [Hwf El].
  destruct (server_manager_handle_wp m d now pkt from Hwf Hp) as (_ & _ & Hd). rewrite Hh in Hd.
  fold m' in Hd. destruct Hd as [->|(o & hs & Hc & He)]; [by left|].
  destruct He as [(_ & _ & ->)|(Hnone & _ & w & rest & Hw & Hs & Hrest)]; [by left|].
  cbn [sm_set_hs sm_sessions sm_limits] in *. rewrite El in Hrest. rewrite Hs, lookup_insert. case_decide as Hsid.
  - right. exists o. split; [done|]. left. subst sid. split; [done|]. split; [done|]. by exists w.
  - destruct Hrest as [->|(Hfull & stale & e & Hst & -> & Hmin)]; [by left|].
    destruct (decide (stale = sid)) as [->|Hne]; [|left; by apply lookup_delete_ne].
    right. exists o. split; [done|]. right. split; [apply lookup_delete_eq|]. split; [done|]. by exists e.
Qed.

Lemma server_session_creation_witness :
  let m := ManagerSample.deliver 1 (default [] (ch_m1_frags <$> Sample.client)) ManagerSample.manager0 in
  let m' := (server_manager_handle (Sample.draws 1) 9 Sample.m3_packet Sample.client_addr m).2 in
  sm_sessions m' !! Sample.sid = sm_sessions m !! Sample.sid \/
  exists o, completes (sm_hs m) (Sample.draws 1) Sample.m3_packet Sample.client_addr o.
Proof.
  intros m m'.
  destruct (server_session_creation Sample.server_cfg SessionLimits_default 0 m (Sample.draws 1) 9
    Sample.m3_packet Sample.client_addr ltac:(vm_compute; discriminate) ltac:(vm_compute; discriminate)
    (manager_deliver_reaches 1 _ _ (proj1 sample_wf) manager_new_reaches)
    (proj2 sample_wf) ltac:(vm_compute; reflexivity) Sample.sid) as [H|(o & Hc & _)];
    [left; exact H|right; exists o; exact Hc].
Defined.

(** A tick evicts exactly the sessions that are due and reports each of them:
    the sessions left are those within both the idle timeout (counted from the
    last authenticated receive) and the lifetime cap; the [Closed] events are
    exactly those of the evicted sessions, with their reason, and the queued
    ones, which are drained; handshakes are untouched. *)
Theorem server_tick_exact {P : Primitives} {L : PrimitivesLaws P} now m :
  let '(out, m') := server_tick now m in
  sm_sessions m' = filter (fun kv => expiry (sm_limits m) now kv.2 = None) (sm_sessions m) /\
  (forall sid r, EvClosed sid r ∈ out <->
     (exists e, sm_sessions m !! sid = Some e /\ expiry (sm_limits m) now e = Some r) \/
     EvClosed sid r ∈ sm_pending_closed m) /\
  sm_pending_closed m' = [] /\ sm_hs m' = sm_hs m /\
  sm_fail_gate m' = sweep now (sm_limits m) (sm_fail_gate m).
Proof.
  pose proof (server_tick_spec now m) as H. destruct (server_tick now m) as [out m'].
  destruct H as (_ & H1 & H2 & H3 & H4 & H5). done.
Qed.

Lemma server_tick_exact_witness :
  let '(out, m') := server_tick (from_secs 400) ManagerSample.manager1 in
  sm_sessions m' = filter (fun kv => expiry (sm_limits ManagerSample.manager1) (from_secs 400) kv.2 = None)
                     (sm_sessions ManagerSample.manager1).
Proof.
  pose proof (server_tick_exact (from_secs 400) ManagerSample.manager1) as H.
  destruct (server_tick (from_secs 400) ManagerSample.manager1) as [out m']. exact (proj1 H).
Defined.
