(* ===== verification/ClientManagerOk.v ===== *)
(** * Correctness of the client session manager

    The invariant of the manager (one live object, the confirmation gate, the
    bounded queue and histories, the re-arm request), its preservation by every
    operation, totality on network input, authenticity of the data path, and
    the exact effect of a tick and of a session slot. *)

From S2P Require Import Prelude Bytes Errors Codec Replay Crypto Envelope WireSession Exec Net HandshakeMsg HandshakeFrag HandshakeClient HandshakeServer HandshakeSafety HandshakeClientOk SessionCommon FailGateOk ClientManager.

Local Open Scope Z_scope.

(** ** Bounded histories of identifiers *)

Record history (cap : nat) (order : list bytes) (s : gset bytes) : Prop := {
  hi_nodup : NoDup order;
  hi_bound : (length order <= cap)%nat;
  hi_set : s = list_to_set order }.

Lemma trim_history_spec cap order s :
  NoDup order -> s = list_to_set order ->
  let '(order', s') := trim_history cap order s in
  history cap order' s' /\ order' = drop (length order - cap) order.
Proof.
  revert s. induction order as [|x order IH]; intros s Hn Hs; cbn [trim_history].
  - destruct (Nat.leb_spec (length (@nil bytes)) cap); [|cbn in *; lia]. by rewrite drop_nil.
  - destruct (Nat.leb_spec (length (x :: order)) cap).
    + replace (_ - _)%nat with 0%nat by lia. done.
    + apply NoDup_cons in Hn as [Hx Hn].
      assert (s ∖ {[x]} = list_to_set order) as Hs' by (subst s; cbn [list_to_set]; set_solver).
      specialize (IH _ Hn Hs'). destruct (trim_history cap order (s ∖ {[x]})) as [o' s'].
      destruct IH as [Hh ->]. split; [done|]. cbn [length].
      replace (S (length order) - cap)%nat with (S (length order - cap)) by (cbn in *; lia). done.
Qed.

(** Adding an unknown identifier keeps the history, with the newcomer last. *)
Lemma history_push cap order s x :
  history cap order s -> x ∉ s -> (0 < cap)%nat ->
  let '(order', s') := trim_history cap (order ++ [x]) ({[ x ]} ∪ s) in
  history cap order' s' /\ x ∈ s' /\ order' <> [].
Proof.
  intros [Hn Hb ->] Hx Hc. rewrite elem_of_list_to_set in Hx.
  pose proof (trim_history_spec cap (order ++ [x]) ({[ x ]} ∪ list_to_set order)) as Ht.
  destruct (trim_history cap (order ++ [x]) _) as [o' s'].
  destruct Ht as [Hh Ho].
  - apply NoDup_app. split; [done|]. split; [|apply NoDup_singleton].
    by intros y Hy ->%list_elem_of_singleton.
  - rewrite list_to_set_app_L. set_solver.
  - assert (x ∈ o') as Hin.
    { rewrite Ho, drop_app_le by (rewrite length_app; cbn [length]; lia). set_solver. }
    split; [done|]. split; [|by intros ->; apply elem_of_nil in Hin].
    rewrite (hi_set _ _ _ Hh). by apply elem_of_list_to_set.
Qed.

Lemma Forall_sublist {A} (f : A -> Prop) (l k : list A) :
  l `sublist_of` k -> Forall f k -> Forall f l.
Proof.
  rewrite !Forall_forall. intros Hs Hk x Hx. apply Hk.
  eapply elem_of_submseteq; [exact Hx|by apply sublist_submseteq].
Qed.

Section Manager.
Context {P : Primitives} {L : PrimitivesLaws P}.

(** ** Sessions the client holds *)

(** The client's session is live, or it stopped for want of nonces. *)
Definition ws_held (w : WireSession) : Prop :=
  length (ws_session_id w) = SESSION_ID_LEN /\
  (ws_live (ws_session_id w) w \/ ws_state w = Rekey).

Lemma ws_encrypt_state w ty payload :
  let '(r, w') := WireSession_encrypt w ty payload in
  ws_session_id w' = ws_session_id w /\
  ws_state w' = match r with Err SE_RekeyRequired => Rekey | _ => ws_state w end.
Proof.
  unfold WireSession_encrypt, require_established. case_bool_decide; [|done]. cbv iota beta.
  destruct (encrypt (ws_cipher w) ty payload) as [[p|[]] c]; done.
Qed.

Lemma ws_decrypt_state w pkt :
  let '(r, w') := WireSession_decrypt w pkt in
  ws_session_id w' = ws_session_id w /\
  ws_state w' = match r with Err SE_RekeyRequired => Rekey | _ => ws_state w end.
Proof.
  unfold WireSession_decrypt, require_established. case_bool_decide; [|done]. cbv iota beta.
  destruct (decrypt (ws_cipher w) pkt) as [[p|[]] c]; done.
Qed.

Definition wrong_state : SessionError := SE_WrongState Established Rekey.

Lemma held_encrypt w ty payload :
  ws_held w -> length payload = PAYLOAD_LEN ->
  let '(r, w') := WireSession_encrypt w ty payload in
  ws_held w' /\ ws_session_id w' = ws_session_id w /\
  ((exists p, r = Ok p /\ ws_live (ws_session_id w) w) \/
   (r = Err SE_RekeyRequired /\ ws_state w' = Rekey /\ send_counter (ws_cipher w) = MAX_PACKET_NONCE) \/
   (r = Err wrong_state /\ w' = w /\ ws_state w = Rekey)).
Proof.
  intros [Hs [Hl|Hr]] Hp.
  - pose proof (ws_encrypt_live _ w ty payload Hl Hp) as H.
    pose proof (ws_encrypt_state w ty payload) as Hst.
    destruct (WireSession_encrypt w ty payload) as [[p|e] w']; destruct Hst as [Hi Hst]; rewrite Hi in *.
    + destruct H as (Hl' & _). split; [|eauto]. unfold ws_held. rewrite Hi. auto.
    + destruct H as [-> Hc]. cbn in Hst. split; [|auto 10]. unfold ws_held. rewrite Hi. auto.
  - unfold WireSession_encrypt, require_established. rewrite Hr. cbn [bool_decide decide]. cbv iota beta.
    split; [by split; [|right]|]. auto 10.
Qed.

Lemma held_decrypt w pkt :
  ws_held w ->
  let '(r, w') := WireSession_decrypt w pkt in
  ws_held w' /\ ws_session_id w' = ws_session_id w /\
  match r with
  | Ok _ => ws_live (ws_session_id w) w
  | Err e => e = SE_RekeyRequired \/ e = SE_Codec DecryptionFailed \/ e = SE_Codec Rejected \/
             (e = wrong_state /\ w' = w /\ ws_state w = Rekey)
  end.
Proof.
  intros [Hs [Hl|Hr]].
  - pose proof (ws_decrypt_live _ w pkt Hl) as H. pose proof (ws_decrypt_state w pkt) as Hst.
    destruct (WireSession_decrypt w pkt) as [[p|e] w']; destruct Hst as [Hi Hst]; unfold ws_held; rewrite Hi in *.
    + auto.
    + destruct H as [->|(Hl' & [->| ->])]; cbn in Hst; auto 10.
  - unfold WireSession_decrypt, require_established. rewrite Hr. cbn [bool_decide decide]. cbv iota beta.
    split; [by split; [|right]|]. auto 10.
Qed.

(** ** The invariant *)

Record cm_wf (m : ClientSessionManager) : Prop := {
  cw_version : cc_version (cm_cfg m) = PROTOCOL_VERSION;
  cw_one : cm_hs m = None \/ cm_session m = None;
  cw_hs : match cm_hs m with
          | Some h => hs_wf h /\ ch_cfg h = cm_cfg m /\ is_Some (cm_hs_started m)
          | None => cm_hs_started m = None end;
  cw_session : match cm_session m with
               | Some w => ws_held w /\ (ws_session_id w ∉ cm_retired_sids m) /\
                           is_Some (cm_prepared_at m) /\ is_Some (cm_next_probe_at m)
               | None => cm_ready m = false /\ cm_prepared_at m = None /\ cm_next_probe_at m = None
               end;
  cw_queue : (length (cm_out_queue m) <= OUTBOUND_QUEUE_CAP)%nat /\
             Forall (fun q => length (qp_payload q) = PAYLOAD_LEN) (cm_out_queue m);
  cw_used : history SID_HISTORY_CAP (cm_used_order m) (cm_used_sids m);
  cw_retired : history RETIRED_SID_CAP (cm_retired_order m) (cm_retired_sids m);
  cw_attempts : 0 <= cm_m3_attempts m <= Z.max 0 (cc_m3_max_attempts (cm_cfg m));
  cw_rearm : cm_hs m = None -> cm_session m = None -> cm_used_order m <> [] ->
             cm_rearm_requested m = true }.

(** What every operation promises: the invariant, the same configuration, and
    that a manager that began stays one that began. *)
Definition ckeeps (m m' : ClientSessionManager) : Prop :=
  cm_wf m' /\ cm_cfg m' = cm_cfg m /\ cm_limits m' = cm_limits m /\
  (cm_used_order m <> [] -> cm_used_order m' <> []).

Lemma ckeeps_refl m : cm_wf m -> ckeeps m m.
Proof. done. Qed.

Lemma ckeeps_trans m1 m2 m3 : ckeeps m1 m2 -> ckeeps m2 m3 -> ckeeps m1 m3.
Proof. intros (_ & E1 & E2 & E3) (W & E4 & E5 & E6). split; [done|]. rewrite E4, E5. auto. Qed.

Lemma client_manager_new_wf cfg limits m :
  ClientSessionManager_new cfg limits = Ok m -> cm_wf m /\ cm_cfg m = cfg /\ cm_limits m = limits.
Proof.
  unfold ClientSessionManager_new. case_bool_decide as Hv; cbn [negb]; [|done].
  destruct (SessionLimits_validate limits) as [[]|]; [|done]. intros [= <-].
  split; [|done]. split; cbn; auto with lia; try (split; [constructor|cbn; lia|done]).
Qed.

Lemma cm_set_session_keeps m w w' :
  cm_wf m -> cm_session m = Some w -> ws_held w' -> ws_session_id w' = ws_session_id w ->
  ckeeps m (cm_set_session (Some w') m).
Proof.
  intros [Hv Ho Hh Hs Hq Hu Hr Ha Hre] Hw Hheld Hid. rewrite Hw in *. split; [|done].
  split; cbn; try done.
  - destruct Ho as [Ho|Ho]; [by left|done].
  - destruct Hs as (_ & Hs). by rewrite Hid.
Qed.

(** ** Teardown *)

(** What a teardown of the session [w] leaves: nothing of it but its retired
    identifier and, possibly, a pending [Close]. *)
Definition torn_down (m : ClientSessionManager) (w : WireSession) (m' : ClientSessionManager) : Prop :=
  ckeeps m m' /\ cm_state m' = CmIdle /\ needs_rearm m' = true /\
  (ws_session_id w ∈ cm_retired_sids m') /\ cm_out_queue m' = cm_out_queue m /\
  cm_dropped_outbound m' = cm_dropped_outbound m /\ cm_pending_closed m' = cm_pending_closed m.

Lemma retire_sid_history m sid :
  cm_wf m ->
  history RETIRED_SID_CAP (cm_retired_order (retire_sid sid m)) (cm_retired_sids (retire_sid sid m)) /\
  (sid ∈ cm_retired_sids (retire_sid sid m)).
Proof.
  intros Hwf. unfold retire_sid. case_bool_decide as Hin; [by split; [apply Hwf|]|].
  pose proof (history_push RETIRED_SID_CAP _ _ sid (cw_retired _ Hwf) Hin ltac:(unfold RETIRED_SID_CAP; lia)) as H.
  destruct (trim_history _ _ _) as [o s]. by destruct H as (H1 & H2 & _).
Qed.

(** The state between dropping the session and scheduling its [Close]. *)
Definition dropped (sid : bytes) (m : ClientSessionManager) : ClientSessionManager :=
  retire_sid sid (cm_drop_session m).

Lemma dropped_torn_down m w :
  cm_wf m -> cm_session m = Some w -> torn_down m w (dropped (ws_session_id w) m).
Proof.
  intros Hwf Hw. pose proof Hwf as [Hv Ho Hh Hs Hq Hu Hr Ha Hre].
  assert (cm_hs m = None) as Hn by (rewrite Hw in Ho; by destruct Ho).
  rewrite Hn in Hh. destruct (retire_sid_history m (ws_session_id w) Hwf) as [Hhist Hin].
  unfold torn_down, ckeeps, dropped, retire_sid, cm_state, needs_rearm in *. cbn.
  destruct (bool_decide (ws_session_id w ∈ cm_retired_sids m)); [|destruct (trim_history _ _ _) as [o s]];
    cbn in *; rewrite Hn; (split; [split; [split; cbn; rewrite ?Hn; auto with lia|done]|]); auto 10.
Qed.

Lemma teardown_eq m w now send :
  cm_session m = Some w ->
  teardown now send m =
  let m' := dropped (ws_session_id w) m in
  if negb send then (None, m') else
  match WireSession_encrypt w Close (zeros PAYLOAD_LEN) with
  | (Err _, _) => (None, m')
  | (Ok packet, w') =>
      let m2 := cm_set_pending_closes (cm_pending_closes m' ++ [mkPendingClose w' (cm_peer m')
                  (CLOSE_RETRANSMIT_TOTAL - 1) (now + CLOSE_RETRANSMIT_BASE)]) m' in
      (Some (EvSendPacket packet (cm_peer m2)), m2)
  end.
Proof. intros Hw. unfold teardown, dropped. rewrite Hw. cbv beta iota zeta. reflexivity. Qed.

Lemma teardown_spec m w now send :
  cm_wf m -> cm_session m = Some w -> torn_down m w (teardown now send m).2.
Proof.
  intros Hwf Hw. pose proof (dropped_torn_down m w Hwf Hw) as Hd. rewrite (teardown_eq m w) by done.
  set (m1 := dropped (ws_session_id w) m) in *. clearbody m1. cbv zeta. destruct send; cbn [negb]; [|done].
  destruct (WireSession_encrypt w Close (zeros PAYLOAD_LEN)) as [[p|] w']; [|done].
  destruct Hd as (([? ? ? ? ? ? ? ? ?] & ? & ?) & ?). split; [|done]. split; [|done]. by split.
Qed.

(** A session replaced by its successor, then torn down. *)
Lemma torn_down_after m w w' m' :
  ckeeps m (cm_set_session (Some w') m) -> ws_session_id w' = ws_session_id w ->
  torn_down (cm_set_session (Some w') m) w' m' -> torn_down m w m'.
Proof.
  intros Hk Hi (Hk' & H1 & H2 & H3 & H4 & H5 & H6). split; [exact (ckeeps_trans _ _ _ Hk Hk')|].
  rewrite <- Hi. by split.
Qed.

(** ** Sending *)

(** The outcome of a packet sent on the session [w]: a packet to the peer, the
    closure of a session out of nonces, or the error of one that ran out of
    them before. *)
Definition sent_on (m : ClientSessionManager) (w : WireSession)
    (r : exec ManagerError ManagerEvent) (m' : ClientSessionManager) : Prop :=
  ckeeps m m' /\
  ((exists p w', r = Ret (EvSendPacket p (cm_peer m)) /\ m' = cm_set_session (Some w') m /\
      ws_session_id w' = ws_session_id w) \/
   (r = Ret (EvClosed (ws_session_id w) ReasonNonceExhausted) /\ torn_down m w m') \/
   (r = Fail (ME_Session wrong_state) /\ m' = m /\ ws_state w = Rekey)).

Lemma cm_set_session_id m w : cm_session m = Some w -> cm_set_session (Some w) m = m.
Proof. intros H. destruct m. cbn in H. by subst. Qed.

Lemma client_send_encrypted_wp m w d ty payload :
  cm_wf m -> cm_session m = Some w -> length payload = PAYLOAD_LEN ->
  wp (client_send_encrypted d ty payload) m (sent_on m w).
Proof.
  intros Hwf Hw Hp. pose proof (cw_session _ Hwf) as Hs. rewrite Hw in Hs. destruct Hs as (Hheld & _).
  pose proof (held_encrypt w ty payload Hheld Hp) as He.
  unfold client_send_encrypted. wp_steps. rewrite Hw.
  destruct (WireSession_encrypt w ty payload) as [r w']. destruct He as (Hh' & Hi & Hr).
  pose proof (cm_set_session_keeps m w w' Hwf Hw Hh' Hi) as Hk. wp_steps.
  destruct Hr as [(p & -> & _)|[(-> & _)|(-> & -> & Hst)]]; wp_steps.
  - split; [done|]. left. by exists p, w'.
  - pose proof (teardown_spec (cm_set_session (Some w') m) w' (clock d) true (proj1 Hk) eq_refl) as Ht.
    apply (torn_down_after m w w') in Ht; [|done|done]. split; [apply Ht|]. right. by left.
  - apply wp_try; [done|]. intros e [= <-]. rewrite (cm_set_session_id m w Hw).
    split; [done|]. right. right. done.
Qed.

(** The fields that transmissions leave alone. *)
Definition quiet (m m' : ClientSessionManager) : Prop :=
  cm_ready m' = cm_ready m /\ cm_peer m' = cm_peer m /\ cm_session_id m' = cm_session_id m /\
  cm_out_queue m' = cm_out_queue m.

Lemma build_probe_spec m :
  cm_wf m ->
  ckeeps m (build_probe m).2 /\ quiet m (build_probe m).2 /\ cm_hs (build_probe m).2 = cm_hs m.
Proof.
  intros Hwf. unfold build_probe. pose proof (cw_session _ Hwf) as Hs.
  destruct (cm_session m) as [w|] eqn:Hw; [|done]. destruct Hs as (Hheld & _).
  pose proof (held_encrypt w Handshake (control_payload PROBE) Hheld) as He.
  destruct (WireSession_encrypt w Handshake (control_payload PROBE)) as [r w'].
  destruct He as (Hh' & Hi & _); [apply length_control_payload|].
  pose proof (cm_set_session_keeps m w w' Hwf Hw Hh' Hi) as Hk.
  assert (quiet m (cm_set_session (Some w') m)) as Hv
    by (unfold quiet, cm_session_id; cbn; rewrite Hw; cbn; by rewrite Hi).
  by destruct r.
Qed.

(** ** Handshakes *)

(** The identifiers drawn have the size of the buffer that is filled. *)
Definition draws_ok (d : ClientDraws) : Prop :=
  forall i b, cd_fill d i = Ok b -> length b = SESSION_ID_LEN.

Lemma fresh_sid_from_wp m d i n :
  draws_ok d ->
  wp (fresh_sid_from (cd_fill d) i n) m (fun r m' =>
    (exists sid, r = Ret sid /\ length sid = SESSION_ID_LEN /\ (sid ∉ cm_used_sids m) /\
       m' = remember_sid sid m) \/
    (exists e, r = Fail e /\ m' = m)).
Proof.
  intros Hd. revert i. induction n as [|n IH]; intros i; cbn [fresh_sid_from].
  { apply wp_try; [done|]. intros e _. right. by eexists. }
  wp_steps. unfold random_sid. destruct (cd_fill d i) as [b|e] eqn:Hb; cbn [map_err].
  - eapply wp_try_ok; [reflexivity|]. wp_steps. case_bool_decide; [apply IH|].
    wp_steps. left. exists b. eauto.
  - apply wp_try; [done|]. intros e' _. right. by eexists.
Qed.

Lemma remember_sid_history m sid :
  cm_wf m -> sid ∉ cm_used_sids m ->
  exists order s, remember_sid sid m = cm_set_used order s m /\
    history SID_HISTORY_CAP order s /\ (sid ∈ s) /\ order <> [].
Proof.
  intros Hwf Hin. unfold remember_sid.
  pose proof (history_push SID_HISTORY_CAP _ _ sid (cw_used _ Hwf) Hin ltac:(unfold SID_HISTORY_CAP; lia)) as H.
  destruct (trim_history _ _ _) as [o s]. by exists o, s.
Qed.

(** A handshake starts only on an idle manager, under an identifier outside the
    history; otherwise nothing changes. *)
Definition begun (m : ClientSessionManager) (r : exec ManagerError ManagerEvent)
    (m' : ClientSessionManager) : Prop :=
  (exists h, cm_state m = CmIdle /\ r = Ret (EvSend (ch_m1_frags h) (cc_server_addr (cm_cfg m))) /\
     cm_hs m' = Some h /\ (ch_sid h ∉ cm_used_sids m) /\ (ch_sid h ∈ cm_used_sids m')) \/
  (exists e, r = Fail e /\ m' = m).

Lemma cm_begin_wp m d :
  cm_wf m -> draws_ok d -> wp (cm_begin_handshake d) m (fun r m' => ckeeps m m' /\ begun m r m').
Proof.
  intros Hwf Hd. unfold cm_begin_handshake. wp_steps.
  destruct (negb _ || negb _) eqn:Hidle.
  { apply wp_try; [done|]. intros e _. split; [done|]. right. by eexists. }
  apply orb_false_iff in Hidle as [H1%negb_false_iff%bool_decide_eq_true_1
    H2%negb_false_iff%bool_decide_eq_true_1].
  wp_steps. eapply wp_mono; [by apply fresh_sid_from_wp|].
  intros r m1 [(sid & -> & Hl & Hin & ->)|(e & -> & ->)].
  2:{ split; [done|]. right. by eexists. }
  destruct (remember_sid_history m sid Hwf Hin) as (o & s & -> & Hh & Hs & Ho).
  pose proof (client_new_wp (cm_cfg m) sid (cd_kem d) (cd_x d) (cd_jitter d) Hl) as Hw.
  unfold wp in Hw. wp_steps. unfold lift_new, wp at 1.
  destruct (ClientHandshake_new _ _ _ _ _ _).1 as [h| |];
    destruct Hw as [(h' & [= <-] & Hhw & E1 & E2 & _)|[Hv _]];
    try (by destruct Hv; apply Hwf). cbn [fst snd]. wp_steps.
  pose proof Hwf as [Hv Hone Hhs Hse Hq Hu Hr Ha Hre]. rewrite H2 in Hse.
  split; [split; [|done]|].
  - split; cbn; rewrite ?H2; auto; [by destruct Hse|done].
  - left. exists h. unfold cm_state. rewrite H1, H2, E1. cbn. auto 10.
Qed.

(** A prepared session: derived from the outcome, unconfirmed, with its probe
    sent, under an identifier that is not retired. *)
Definition prepared (m : ClientSessionManager) (d : ClientDraws) (o : HandshakeOutcome)
    (r : exec ManagerError ManagerEvent) (m' : ClientSessionManager) : Prop :=
  exists w pkts, WireSession_established Client o (clock d) = Ok w /\
    (ho_session_id o ∉ cm_retired_sids m) /\
    r = Ret (EvSend pkts (cc_server_addr (cm_cfg m))) /\
    cm_session m' = Some (WireSession_encrypt w Handshake (control_payload PROBE)).2 /\
    cm_state m' = CmUnconfirmed /\ cm_hs m' = None /\ cm_peer m' = cm_peer m.

Lemma on_m3_sent_wp m d pkts o :
  cm_wf m -> cm_session m = None -> length (ho_session_id o) = SESSION_ID_LEN ->
  wp (on_m3_sent d pkts o) m (fun r m' => ckeeps m m' /\
    ((ho_session_id o ∈ cm_retired_sids m) /\ r = Ret EvNone /\ m' = m \/ prepared m d o r m')).
Proof.
  intros Hwf Hn Hl. unfold on_m3_sent. wp_steps. rewrite bool_decide_true by done. cbn [negb].
  case_bool_decide as Hret; [wp_steps; split; [done|by left]|].
  destruct (ws_established_live Client o (clock d) Hl) as (w & Hw & Hlive).
  wp_steps. eapply wp_try_ok; [exact Hw|]. wp_steps.
  set (m1 := cm_install_session w (clock d) pkts m).
  assert (ckeeps m m1) as Hk.
  { pose proof Hlive as (_ & Hid & _). pose proof Hwf as [Hv Hone Hhs Hse Hq Hu Hr Ha Hre].
    split; [|done]. split; cbn; auto with lia; [|done]. rewrite Hid. split; [|eauto].
    split; [by rewrite Hid|]. left. by rewrite Hid. }
  destruct (build_probe_spec m1 (proj1 Hk)) as [Hk2 _]. split; [exact (ckeeps_trans _ _ _ Hk Hk2)|].
  right. exists w. eexists. split; [done|]. split; [done|]. split; [reflexivity|].
  unfold build_probe. cbn. by destruct (WireSession_encrypt w _ _) as [[p|e] w'].
Qed.

(** The effect of a handshake fragment. *)
Definition chs_post (m : ClientSessionManager) (d : ClientDraws) (pkt : WirePacket)
    (r : exec ManagerError ManagerEvent) (m' : ClientSessionManager) : Prop :=
  ckeeps m m' /\ cm_ready m' = cm_ready m /\ cm_peer m' = cm_peer m /\
  ((r = Ret EvNone /\ exists hs, m' = cm_set_hs hs m) \/
   exists h o m1, cm_hs m = Some h /\ cm_session m = None /\ authentic_m2 h (cd_encap d) pkt o /\
     cm_retired_sids m1 = cm_retired_sids m /\ cm_cfg m1 = cm_cfg m /\ prepared m1 d o r m').

Lemma cm_set_hs_keeps m h h' :
  cm_wf m -> cm_hs m = Some h -> hs_wf h' -> ch_cfg h' = ch_cfg h -> ckeeps m (cm_set_hs (Some h') m).
Proof.
  intros [Hv Hone Hhs Hse Hq Hu Hr Ha Hre] Hh Hw Hc. rewrite Hh in *. destruct Hhs as (_ & Hc' & Hst).
  destruct Hone as [Hone|Hone]; [done|]. split; [|done]. split; cbn; rewrite ?Hone in *; auto; [by rewrite Hc|done].
Qed.

Lemma cm_set_hs_id m : cm_set_hs (cm_hs m) m = m.
Proof. by destruct m. Qed.

Lemma client_handshake_fragment_wp m d pkt from :
  cm_wf m -> is_handshake_fragment pkt = true ->
  wp (client_manager_handle d pkt from) m (chs_post m d pkt).
Proof.
  intros Hwf Hf. unfold client_manager_handle. wp_steps. rewrite Hf.
  destruct (cm_hs m) as [h|] eqn:Hh.
  2:{ wp_steps. split; [done|]. do 2 (split; [done|]). left. split; [done|]. exists (cm_hs m).
      by rewrite cm_set_hs_id. }
  pose proof (cw_hs _ Hwf) as Hhs. rewrite Hh in Hhs. destruct Hhs as (Hw & Hcfg & _).
  destruct (cw_one _ Hwf) as [Hn|Hn]; [by rewrite Hn in Hh|].
  pose proof (cw_session _ Hwf) as Hse. rewrite Hn in Hse. destruct Hse as [Hready _].
  pose proof (client_handle_wp h (cd_encap d) (cd_jitter d) pkt Hw) as Hc. unfold wp in Hc.
  wp_steps. unfold with_hs, wp at 1.
  destruct (client_handle_datagram _ _ pkt h) as [r h']. destruct Hc as (Hw' & (Ec & Es & _) & Hr). cbn [fst snd] in *.
  pose proof (cm_set_hs_keeps m h h' Hwf Hh Hw' Ec) as Hk.
  destruct Hr as [->|(pkts & o & -> & _ & Ha & _)]; cbn [fst snd]; wp_steps; (eapply wp_try_ok; [reflexivity|]); wp_steps.
  - split; [done|]. do 2 (split; [done|]). left. split; [done|]. by eexists.
  - assert (length (ho_session_id o) = SESSION_ID_LEN) as Hl.
    { rewrite (authentic_m2_sid _ _ _ _ Ha). apply Hw. }
    eapply wp_mono; [by apply (on_m3_sent_wp (cm_set_hs (Some h') m) d pkts o (proj1 Hk))|].
    intros r m' [Hk' Hr]. split; [exact (ckeeps_trans _ _ _ Hk Hk')|].
    destruct Hr as [(_ & -> & ->)|Hp].
    + do 2 (split; [done|]). left. split; [done|]. by eexists.
    + pose proof Hp as (w & ps & _ & _ & _ & Hs & Hst & _ & Hpeer). split; [|split; [exact Hpeer|]].
      * unfold cm_state in Hst. rewrite Hs in Hst. rewrite Hready. by destruct (cm_ready m').
      * right. by exists h, o, (cm_set_hs (Some h') m).
Qed.

(** ** The data path *)

(** The effect of a data packet, by the outcome of its decryption. *)
Definition cdata_post (m : ClientSessionManager) (pkt : WirePacket) (from : SocketAddr)
    (r : exec ManagerError ManagerEvent) (m' : ClientSessionManager) : Prop :=
  ckeeps m m' /\
  match cm_session m with
  | None => r = Ret EvNone /\ m' = m
  | Some w =>
      (packet_sid pkt <> ws_session_id w /\ r = Ret EvNone /\ m' = m) \/
      packet_sid pkt = ws_session_id w /\
      let w' := (WireSession_decrypt w pkt).2 in
      match (WireSession_decrypt w pkt).1 with
      | Ok inner =>
          match ip_msg_type inner with
          | Data | TunData =>
              r = Ret (EvAppData (packet_sid pkt) inner) /\ m' = cm_confirm from (cm_set_session (Some w') m)
          | Handshake | Cover => r = Ret EvNone /\ m' = cm_confirm from (cm_set_session (Some w') m)
          | Close => r = Ret (EvClosed (packet_sid pkt) PeerClosed) /\ torn_down m w m'
          end
      | Err SE_RekeyRequired =>
          r = Ret (EvClosed (packet_sid pkt) ReasonNonceExhausted) /\ torn_down m w m'
      | Err (SE_Codec _) => r = Ret EvNone /\ m' = cm_set_session (Some w') m
      | Err e => e = wrong_state /\ ws_state w = Rekey /\ r = Fail (ME_Session wrong_state) /\ m' = m
      end
  end.

Lemma cm_confirm_keeps m w from :
  cm_wf m -> cm_session m = Some w -> ckeeps m (cm_confirm from m).
Proof.
  intros [Hv Hone Hhs Hse Hq Hu Hr Ha Hre] Hw. rewrite Hw in *. split; [|done].
  split; cbn; rewrite ?Hw; auto.
Qed.

Lemma torn_down_confirmed m w w' from m' :
  torn_down (cm_confirm from (cm_set_session (Some w') m)) w' m' -> ws_session_id w' = ws_session_id w ->
  ckeeps m (cm_confirm from (cm_set_session (Some w') m)) -> torn_down m w m'.
Proof.
  intros (Hk & H) Hi Hk0. split; [exact (ckeeps_trans _ _ _ Hk0 Hk)|]. rewrite <- Hi. exact H.
Qed.

Lemma client_on_data_packet_wp m d pkt from :
  cm_wf m -> wp (client_on_data_packet d pkt from) m (cdata_post m pkt from).
Proof.
  intros Hwf. unfold client_on_data_packet, cdata_post. wp_steps. fold (packet_sid pkt).
  destruct (cm_session m) as [w|] eqn:Hw; [|by wp_steps].
  case_bool_decide as Hsid; cbn [negb]; [|wp_steps; split; [done|by left]].
  pose proof (cw_session _ Hwf) as Hs. rewrite Hw in Hs. destruct Hs as (Hheld & _).
  pose proof (held_decrypt w pkt Hheld) as Hd.
  destruct (WireSession_decrypt w pkt) as [r w']. destruct Hd as (Hh' & Hi & Hr). cbn [fst snd].
  pose proof (cm_set_session_keeps m w w' Hwf Hw Hh' Hi) as Hk.
  pose proof (cm_confirm_keeps (cm_set_session (Some w') m) w' from (proj1 Hk) eq_refl) as Hkc.
  pose proof (ckeeps_trans _ _ _ Hk Hkc) as Hk2. wp_steps. destruct r as [inner|e].
  - wp_steps. destruct (ip_msg_type inner); wp_steps; [by split; [|right]..| |by split; [|right]].
    assert (torn_down m w (teardown (clock d) false (cm_confirm from (cm_set_session (Some w') m))).2) as Ht.
    { eapply torn_down_confirmed; [|exact Hi|exact Hk2]. by apply teardown_spec; [apply Hkc|]. }
    split; [apply Ht|]. right. done.
  - destruct Hr as [->|[->|[->|(-> & -> & Hst)]]]; cbn [classify_error]; wp_steps.
    + pose proof (teardown_spec (cm_set_session (Some w') m) w' (clock d) true (proj1 Hk) eq_refl) as Ht.
      apply (torn_down_after m w w') in Ht; [|done|done]. split; [apply Ht|]. right. done.
    + split; [done|]. by right.
    + split; [done|]. by right.
    + apply wp_try; [done|]. intros e [= <-]. rewrite (cm_set_session_id m w Hw).
      split; [done|]. right. done.
Qed.

Lemma client_manager_handle_wp m d pkt from :
  cm_wf m ->
  wp (client_manager_handle d pkt from) m (fun r m' =>
    if is_handshake_fragment pkt then chs_post m d pkt r m' else cdata_post m pkt from r m').
Proof.
  intros Hwf. destruct (is_handshake_fragment pkt) eqn:Hf; [by apply client_handshake_fragment_wp|].
  unfold client_manager_handle. wp_steps. rewrite Hf. by apply client_on_data_packet_wp.
Qed.

(** ** Timers *)

Lemma cm_clear_hs_keeps m h : cm_wf m -> cm_hs m = Some h -> ckeeps m (cm_clear_hs m).
Proof.
  intros [Hv Hone Hhs Hse Hq Hu Hr Ha Hre] Hh. rewrite Hh in *. destruct Hone as [|Hone]; [done|].
  split; [|done]. split; cbn; auto.
Qed.

(** A timer tick retransmits, stops, or reports the failed attempt. *)
Definition ctimer_post (m : ClientSessionManager) (r : exec ManagerError ManagerEvent)
    (m' : ClientSessionManager) : Prop :=
  ckeeps m m' /\ quiet m m' /\
  ((exists pkts, r = Ret (EvSend pkts (cc_server_addr (cm_cfg m))) /\ cm_state m' = cm_state m) \/
   (r = Ret EvNone /\ cm_state m' = cm_state m) \/
   (exists h, cm_hs m = Some h /\ r = Ret (EvClosed (ch_sid h) HandshakeTimeout) /\ needs_rearm m' = true)).

Lemma quiet_state m m' :
  quiet m m' -> (cm_hs m' = None <-> cm_hs m = None) -> cm_state m' = cm_state m.
Proof.
  intros (H1 & _ & H2 & _) H3. unfold cm_session_id, cm_state in *. rewrite H1.
  destruct (cm_session m'), (cm_session m); try done.
  destruct (cm_hs m'), (cm_hs m); try done; naive_solver.
Qed.

Lemma cm_on_timer_wp m d : cm_wf m -> wp (cm_on_timer d) m (ctimer_post m).
Proof.
  intros Hwf. unfold cm_on_timer. wp_steps. destruct (cm_hs m) as [h|] eqn:Hh.
  - pose proof (cw_hs _ Hwf) as Hhs. rewrite Hh in Hhs. destruct Hhs as (Hw & Hcfg & _).
    destruct (cw_one _ Hwf) as [Hn|Hn]; [by rewrite Hn in Hh|].
    pose proof (client_timer_wp h (cd_jitter d) Hw) as Hc. unfold wp in Hc.
    wp_steps. unfold with_hs, wp at 1.
    destruct (client_on_timer _ h) as [r h']. destruct Hc as (Hw' & (Ec & Es & _) & Hr). cbn [fst snd] in *.
    pose proof (cm_set_hs_keeps m h h' Hwf Hh Hw' Ec) as Hk.
    destruct Hr as [->|[pkts ->]]; cbn [fst snd]; wp_steps.
    + pose proof (cm_clear_hs_keeps _ h' (proj1 Hk) eq_refl) as Hk2.
      split; [exact (ckeeps_trans _ _ _ Hk Hk2)|]. split; [done|]. right. right. exists h.
      split; [done|]. split; [done|]. unfold needs_rearm. cbn. by rewrite Hn.
    + split; [done|]. split; [done|]. left. exists pkts. split; [done|].
      apply quiet_state; [done|]. cbn. by rewrite Hh.
  - pose proof Hwf as [Hv Hone Hhs Hse Hq Hu Hret Ha Hre].
    destruct (_ || _); [wp_steps; split; [done|split; [done|right; by left]]|].
    destruct (Z.leb_spec (cc_m3_max_attempts (cm_cfg m)) (cm_m3_attempts m)); wp_steps.
    { split; [split; [by split|done]|]. split; [done|]. right. by left. }
    set (m1 := cm_set_m3_attempts (cm_m3_attempts m + 1) m).
    assert (ckeeps m m1) as Hk by (split; [split; cbn; auto with lia|done]).
    destruct (build_probe_spec m1 (proj1 Hk)) as (Hk2 & Hsv & Hh2).
    split; [exact (ckeeps_trans _ _ _ Hk Hk2)|]. split; [exact Hsv|]. left. eexists.
    split; [reflexivity|]. apply quiet_state; [exact Hsv|]. by rewrite Hh2.
Qed.

(** ** The outbound queue *)

(** The payloads still within their time to live at [now]. *)
Definition live_queue (now : Instant) (q : list QueuedPayload) : list QueuedPayload :=
  filter (fun q => duration_since now (qp_queued_at q) < OUTBOUND_QUEUE_TTL) q.

(** The queue bookkeeping touches the queue, its drop counter and the log. *)
Definition requeued (q : list QueuedPayload) (m m' : ClientSessionManager) : Prop :=
  exists n l, m' = cm_set_last_drop_log l (cm_set_dropped_outbound n (cm_set_out_queue q m)).

Lemma log_drop_eq at_ m : exists l, log_drop at_ m = cm_set_last_drop_log l m.
Proof.
  unfold log_drop. destruct (cm_last_drop_log m) as [last|] eqn:El; [|by eexists].
  case_match; [|by eexists]. exists (Some last). destruct m. cbn in *. by subst.
Qed.

Lemma requeued_id m : requeued (cm_out_queue m) m m.
Proof. exists (cm_dropped_outbound m), (cm_last_drop_log m). by destruct m. Qed.

Lemma expire_queued_spec now at_ m :
  requeued (live_queue now (cm_out_queue m)) m (expire_queued now at_ m).2 /\
  (expire_queued now at_ m).1 =
    Z.of_nat (length (cm_out_queue m) - length (live_queue now (cm_out_queue m))) /\
  ((expire_queued now at_ m).1 = 0 -> (expire_queued now at_ m).2 = m).
Proof.
  unfold expire_queued. fold (live_queue now (cm_out_queue m)). cbv zeta.
  set (q := live_queue now (cm_out_queue m)).
  destruct (Z.ltb_spec 0 (Z.of_nat (length (cm_out_queue m) - length q))) as [Hd|Hd]; cbn [fst snd].
  - destruct (log_drop_eq at_ (cm_set_dropped_outbound (saturating_add 64
      (cm_dropped_outbound (cm_set_out_queue q m)) (Z.of_nat (length (cm_out_queue m) - length q)))
      (cm_set_out_queue q m))) as [l ->].
    split; [by eexists _, _|]. split; [done|lia].
  - assert (q = cm_out_queue m) as Hq.
    { apply filter_same_length. unfold q, live_queue in *.
      pose proof (length_filter (fun q => duration_since now (qp_queued_at q) < OUTBOUND_QUEUE_TTL)
        (cm_out_queue m)). lia. }
    rewrite Hq. assert (cm_set_out_queue (cm_out_queue m) m = m) as -> by by destruct m.
    split; [apply requeued_id|done].
Qed.

Lemma requeued_keeps q m m' :
  cm_wf m -> q `sublist_of` cm_out_queue m -> requeued q m m' -> ckeeps m m'.
Proof.
  intros [Hv Hone Hhs Hse [Hq1 Hq2] Hu Hr Ha Hre] Hsub (n & l & ->). split; [|done].
  split; cbn; try done. split; [apply sublist_length in Hsub; lia|].
  by eapply Forall_sublist.
Qed.

Lemma live_queue_sublist now q : live_queue now q `sublist_of` q.
Proof. apply sublist_filter. Qed.

Lemma expire_queued_keeps now at_ m : cm_wf m -> ckeeps m (expire_queued now at_ m).2.
Proof.
  intros Hwf. destruct (expire_queued_spec now at_ m) as [Hr _].
  eapply requeued_keeps; [done|apply live_queue_sublist|done].
Qed.

Lemma requeued_pop q q' m m' : requeued q m m' -> requeued q' m (cm_set_out_queue q' m').
Proof. intros (n & l & ->). by exists n, l. Qed.

(** ** Session slots *)

Lemma take_queued_payload_spec now d m :
  cm_wf m ->
  match live_queue now (cm_out_queue m) with
  | [] => exists m1, take_queued_payload now d m = (None, m1) /\ requeued [] m m1
  | q :: rest => exists m1, requeued rest m m1 /\
      take_queued_payload now d m =
      let '(r, m') := client_send_encrypted d Data (qp_payload q) m1 in
      (Some (match r with Ret ev => ev | _ => EvNone end), m')
  end.
Proof.
  intros Hwf. unfold take_queued_payload. destruct (expire_queued_spec now (clock d) m) as [Hr _].
  destruct (cw_queue _ Hwf) as [_ Hq].
  assert (Forall (fun q => length (qp_payload q) = PAYLOAD_LEN) (live_queue now (cm_out_queue m))) as Hl
    by (by eapply Forall_sublist; [apply live_queue_sublist|]).
  destruct (expire_queued now (clock d) m) as [n m1]. cbn [snd] in *. cbv zeta.
  assert (cm_out_queue m1 = live_queue now (cm_out_queue m)) as -> by (by destruct Hr as (? & ? & ->)).
  destruct (live_queue now (cm_out_queue m)) as [|q rest]; [by exists m1|].
  exists (cm_set_out_queue rest m1). split; [by eapply requeued_pop|].
  assert (write_at 0 (take PAYLOAD_LEN (qp_payload q)) (zeros PAYLOAD_LEN) = qp_payload q) as ->.
  { apply Forall_cons in Hl as [Hl _]. rewrite firstn_all2 by lia. unfold write_at.
    cbn [take app]. rewrite drop_ge, app_nil_r; [done|]. rewrite length_zeros. lia. }
  destruct (client_send_encrypted d Data (qp_payload q) (cm_set_out_queue rest m1)) as [[ev|e|s] m'];
    reflexivity.
Qed.

Lemma take_queued_payload_keeps now d m w :
  cm_wf m -> cm_session m = Some w -> ckeeps m (take_queued_payload now d m).2.
Proof.
  intros Hwf Hw. pose proof (take_queued_payload_spec now d m Hwf) as Hs.
  pose proof (live_queue_sublist now (cm_out_queue m)) as Hsub.
  pose proof (Forall_sublist _ _ _ Hsub (proj2 (cw_queue _ Hwf))) as Hl.
  destruct (live_queue now (cm_out_queue m)) as [|q rest].
  - destruct Hs as (m1 & -> & Hr). eapply requeued_keeps; [done|apply sublist_nil_l|done].
  - destruct Hs as (m1 & Hr & ->). apply Forall_cons in Hl as [Hl _].
    assert (ckeeps m m1) as Hk.
    { eapply requeued_keeps; [done| |done]. etrans; [|exact Hsub]. by apply sublist_cons. }
    assert (cm_session m1 = Some w) as Hw1 by (by destruct Hr as (? & ? & ->)).
    pose proof (client_send_encrypted_wp m1 w d Data (qp_payload q) (proj1 Hk) Hw1 Hl) as Hse.
    unfold wp in Hse. destruct (client_send_encrypted _ _ _ _) as [r m'].
    exact (ckeeps_trans _ _ _ Hk (proj1 Hse)).
Qed.

Lemma take_probe_keeps now m w :
  cm_wf m -> cm_session m = Some w -> ckeeps m (take_probe now m).2.
Proof.
  intros Hwf Hw. unfold take_probe. destruct (cm_next_probe_at m) as [due|] eqn:Hdue; [|done].
  destruct (now <? due); [done|].
  set (m1 := cm_set_next_probe_at _ m). assert (ckeeps m m1) as Hk.
  { destruct Hwf as [Hv Hone Hhs Hse Hq Hu Hr Ha Hre]. split; [|done]. split; cbn; try done.
    rewrite Hw in *. destruct Hse as (H1 & H2 & H3 & _). split; [done|]. split; [done|]. split; [done|by eexists]. }
  destruct (build_probe_spec m1 (proj1 Hk)) as (Hk2 & _). pose proof (ckeeps_trans _ _ _ Hk Hk2) as Hk3.
  destruct (build_probe m1) as [[p|] m2]; [|done]. cbn [snd] in *. destruct (cm_ready m2); [|done].
  destruct Hk3 as ([Hv Hone Hhs Hse Hq Hu Hr Ha Hre] & E). split; [by split|done].
Qed.

Lemma cm_set_last_slot_keeps m x : cm_wf m -> ckeeps m (cm_set_last_slot_at x m).
Proof. intros []. split; [by split|done]. Qed.

Lemma take_slot_keeps now d m : cm_wf m -> ckeeps m (take_slot now d m).2.
Proof.
  intros Hwf. unfold take_slot. destruct (cm_session m) as [w|] eqn:Hw; [|done].
  destruct (match cm_last_slot_at m with Some _ => _ | None => _ end); [done|].
  pose proof (take_queued_payload_keeps now d m w Hwf Hw) as Hk.
  pose proof (take_queued_payload_spec now d m Hwf) as Hs.
  destruct (take_queued_payload now d m) as [[ev|] m1]; cbn [snd] in *.
  { exact (ckeeps_trans _ _ _ Hk (cm_set_last_slot_keeps m1 _ (proj1 Hk))). }
  assert (cm_session m1 = Some w) as Hw1.
  { destruct (live_queue now (cm_out_queue m)).
    - destruct Hs as (? & [= <-] & (? & ? & ->)). done.
    - destruct Hs as (? & _ & Hs). by destruct (client_send_encrypted _ _ _ _). }
  pose proof (take_probe_keeps now m1 w (proj1 Hk) Hw1) as Hk2.
  destruct (take_probe now m1) as [[ev|] m2]; cbn [snd] in *; pose proof (ckeeps_trans _ _ _ Hk Hk2) as Hk3.
  - exact (ckeeps_trans _ _ _ Hk3 (cm_set_last_slot_keeps m2 _ (proj1 Hk3))).
  - exact Hk3.
Qed.

(** ** Ticks *)

(** The closure a tick at [now] performs, if any: the deadline of the handshake,
    or else of the session (lifetime first, then confirmation or liveness). *)
Definition elapsed (limit : option Duration) (now : Instant) (since : option Instant) : bool :=
  match limit, since with Some t, Some s => t <=? duration_since now s | _, _ => false end.

Definition due (now : Instant) (m : ClientSessionManager) : option (bytes * CloseReason) :=
  match cm_hs m, cm_session m with
  | Some h, _ =>
      if elapsed (sl_handshake_timeout (cm_limits m)) now (cm_hs_started m)
      then Some (ch_sid h, HandshakeTimeout) else None
  | None, Some w =>
      if elapsed (sl_lifetime_cap (cm_limits m)) now (cm_prepared_at m)
      then Some (ws_session_id w, LifetimeCap)
      else if cm_ready m then
        if sl_liveness_rounds (cm_limits m) <=? cm_rounds_unanswered m
        then Some (ws_session_id w, PeerUnresponsive) else None
      else if elapsed (sl_confirm_timeout (cm_limits m)) now (cm_prepared_at m)
        then Some (ws_session_id w, NotConfirmed) else None
  | None, None => None
  end.

Definition closed_by (m : ClientSessionManager) (closure : option (bytes * CloseReason))
    (out : list ManagerEvent) (m' : ClientSessionManager) : Prop :=
  match closure with
  | None => out = [] /\ m' = m
  | Some (sid, reason) =>
      ckeeps m m' /\ cm_state m' = CmIdle /\ needs_rearm m' = true /\
      cm_out_queue m' = cm_out_queue m /\ cm_pending_closed m' = cm_pending_closed m /\
      (out = [EvClosed sid reason] \/
       exists p, out = [EvSendPacket p (cm_peer m); EvClosed sid reason])
  end.

Lemma peer_retire_sid sid m : cm_peer (retire_sid sid m) = cm_peer m.
Proof. unfold retire_sid. case_bool_decide; [done|]. by destruct (trim_history _ _ _). Qed.

Lemma teardown_event m w now send :
  cm_session m = Some w ->
  (teardown now send m).1 = None \/ exists p, (teardown now send m).1 = Some (EvSendPacket p (cm_peer m)).
Proof.
  intros Hw. rewrite (teardown_eq m w) by done.
  pose proof (peer_retire_sid (ws_session_id w) (cm_drop_session m)) as Hp.
  unfold dropped. set (m1 := retire_sid _ _) in *. clearbody m1. cbv zeta.
  destruct send; cbn [negb]; [|by left].
  destruct (WireSession_encrypt w Close (zeros PAYLOAD_LEN)) as [[p|] w']; [|by left].
  right. exists p. cbn. by rewrite Hp.
Qed.

Lemma close_now_spec m w reason now :
  cm_wf m -> cm_session m = Some w ->
  closed_by m (Some (ws_session_id w, reason)) (close_now reason now m).1 (close_now reason now m).2.
Proof.
  intros Hwf Hw. pose proof (teardown_spec m w now true Hwf Hw) as (Hk & Hi & Hn & _ & Hq & _ & Hc).
  pose proof (teardown_event m w now true Hw) as He. unfold close_now, cm_session_id. rewrite Hw. cbn [fmap option_fmap option_map].
  destruct (teardown now true m) as [ev m']. cbn [fst snd] in *. split; [done|].
  do 4 (split; [done|]). destruct He as [->|[p ->]]; [by left|right; by exists p].
Qed.

Lemma idle_ticks m now :
  cm_wf m -> cm_session m = None ->
  tick_lifetime now m = ([], m) /\ tick_confirm now m = ([], m) /\ tick_liveness now m = ([], m).
Proof.
  intros Hwf Hn. pose proof (cw_session _ Hwf) as Hs. rewrite Hn in Hs. destruct Hs as (Hr & Hp & _).
  unfold tick_lifetime, tick_confirm, tick_liveness, confirm_deadline_passed. by rewrite Hr, Hp.
Qed.

Lemma idle_no_session m : cm_state m = CmIdle -> cm_session m = None.
Proof. unfold cm_state. destruct (cm_session m); [|done]. by destruct (cm_ready m). Qed.

(** The four deadline steps of a tick. *)
Definition tick_deadlines (now : Instant) (m : ClientSessionManager)
    : list ManagerEvent * ClientSessionManager :=
  let '(o1, m) := tick_handshake now m in
  let '(o2, m) := tick_lifetime now m in
  let '(o3, m) := tick_confirm now m in
  let '(o4, m) := tick_liveness now m in (o1 ++ o2 ++ o3 ++ o4, m).

(** After a closure the remaining deadlines find nothing to close. *)
Lemma close_then_idle now m w reason :
  cm_wf m -> cm_session m = Some w ->
  let '(o, m') := close_now reason now m in
  closed_by m (Some (ws_session_id w, reason)) o m' /\ tick_confirm now m' = ([], m') /\ tick_liveness now m' = ([], m').
Proof.
  intros Hwf Hw. pose proof (close_now_spec m w reason now Hwf Hw) as Hc.
  destruct (close_now reason now m) as [o m']. cbn [fst snd] in Hc. split; [done|].
  destruct Hc as (Hk & Hi & _). apply idle_ticks; [apply Hk|by apply idle_no_session].
Qed.

Lemma tick_deadlines_spec now m :
  cm_wf m -> closed_by m (due now m) (tick_deadlines now m).1 (tick_deadlines now m).2.
Proof.
  intros Hwf. unfold tick_deadlines, tick_handshake, due.
  destruct (cm_hs m) as [h|] eqn:Hh.
  - destruct (cw_one _ Hwf) as [Hn|Hn]; [by rewrite Hn in Hh|].
    change (match sl_handshake_timeout (cm_limits m), cm_hs_started m with
      | Some t, Some s => t <=? duration_since now s | _, _ => false end)
      with (elapsed (sl_handshake_timeout (cm_limits m)) now (cm_hs_started m)).
    pose proof (cm_clear_hs_keeps m h Hwf Hh) as Hk.
    destruct (elapsed _ _ _); cbn [fst snd].
    + destruct (idle_ticks (cm_clear_hs m) now (proj1 Hk)) as (-> & -> & ->); [done|]. cbn [fst snd app].
      unfold closed_by, needs_rearm, cm_state. cbn. rewrite Hn. auto 10.
    + destruct (idle_ticks m now Hwf Hn) as (-> & -> & ->). done.
  - destruct (cm_session m) as [w|] eqn:Hw.
    2:{ destruct (idle_ticks m now Hwf Hw) as (-> & -> & ->). done. }
    pose proof (fun reason => close_then_idle now m w reason Hwf Hw) as Hclose.
    unfold tick_lifetime. pose proof (cw_session _ Hwf) as Hs. rewrite Hw in Hs.
    destruct Hs as (_ & _ & [t0 Ht0] & _). rewrite Ht0. unfold elapsed.
    destruct (match sl_lifetime_cap (cm_limits m) with Some t => t <=? duration_since now t0 | None => false end) eqn:Hlife.
    + destruct (sl_lifetime_cap (cm_limits m)) as [t|]; [|done]. rewrite Hlife.
      specialize (Hclose LifetimeCap). destruct (close_now LifetimeCap now m) as [o m'].
      destruct Hclose as (Hc & -> & ->). cbn [app fst snd]. by rewrite !app_nil_r.
    + assert (match sl_lifetime_cap (cm_limits m) with
        | Some t => if t <=? duration_since now t0 then close_now LifetimeCap now m else ([], m)
        | None => ([], m) end = ([], m)) as -> by (destruct (sl_lifetime_cap _); [by rewrite Hlife|done]).
      assert (tick_confirm now m = if cm_ready m then ([], m) else
        if match sl_confirm_timeout (cm_limits m) with
           | Some t => t <=? duration_since now t0 | None => false end
        then close_now NotConfirmed now m else ([], m)) as ->.
      { unfold tick_confirm, confirm_deadline_passed. rewrite Ht0. by destruct (cm_ready m). }
      destruct (cm_ready m) eqn:Hr.
      * unfold tick_liveness. rewrite Hr. cbn [andb]. destruct (_ <=? _); [|done].
        specialize (Hclose PeerUnresponsive). destruct (close_now PeerUnresponsive now m) as [o m'].
        destruct Hclose as (Hc & _). exact Hc.
      * destruct (match sl_confirm_timeout (cm_limits m) with Some t => _ | None => _ end).
        -- specialize (Hclose NotConfirmed). destruct (close_now NotConfirmed now m) as [o m'].
           destruct Hclose as (Hc & _ & ->). cbn [app fst snd]. by rewrite app_nil_r.
        -- unfold tick_liveness. rewrite Hr. done.
Qed.

Lemma client_tick_eq now d m :
  client_tick now d m =
  let '(o, m1) := tick_deadlines now m in
  let '(o5, m2) := tick_queue now (clock d) m1 in
  let '(o7, pcs) := retransmit_closes now (cm_pending_closes m2) in
  (o ++ o5 ++ cm_pending_closed m2 ++ o7, cm_set_pending_closes pcs (cm_set_pending_closed [] m2)).
Proof.
  unfold client_tick, tick_deadlines. destruct (tick_handshake now m) as [o1 m1].
  destruct (tick_lifetime now m1) as [o2 m2]. destruct (tick_confirm now m2) as [o3 m3].
  destruct (tick_liveness now m3) as [o4 m4]. destruct (tick_queue now (clock d) m4) as [o5 m5].
  cbv zeta. change (cm_pending_closes (cm_set_pending_closed [] m5)) with (cm_pending_closes m5).
  destruct (retransmit_closes now (cm_pending_closes m5)) as [o7 pcs]. by rewrite <- !app_assoc.
Qed.

(** The queue step of a tick: expired payloads are dropped and reported. *)
Lemma tick_queue_spec now at_ m :
  let q := live_queue now (cm_out_queue m) in
  requeued q m (tick_queue now at_ m).2 /\
  (tick_queue now at_ m).1 =
    if bool_decide (q = cm_out_queue m) then []
    else [EvOutboundDropped (cm_dropped_outbound (tick_queue now at_ m).2)].
Proof.
  intros q. destruct (expire_queued_spec now at_ m) as (Hr & Hn & _). unfold tick_queue.
  destruct (expire_queued now at_ m) as [n m']. cbn [fst snd] in *. fold q in Hr, Hn.
  case_bool_decide as Hq.
  - rewrite Hq, Nat.sub_diag in Hn. by replace (0 <? n) with false by lia.
  - destruct (Z.ltb_spec 0 n) as [|Hle]; [done|]. destruct Hq. apply filter_same_length.
    pose proof (length_filter (fun q => duration_since now (qp_queued_at q) < OUTBOUND_QUEUE_TTL)
      (cm_out_queue m)). unfold q, live_queue in Hn. lia.
Qed.

Lemma cm_set_pending_keeps m pc pcs :
  cm_wf m -> ckeeps m (cm_set_pending_closes pcs (cm_set_pending_closed pc m)).
Proof. intros []. split; [by split|done]. Qed.

(** A tick performs exactly the closure that is due, drops the expired payloads,
    and hands over the queued closures and the [Close] retransmissions. *)
Definition ticked (now : Instant) (m : ClientSessionManager) (out : list ManagerEvent)
    (m' : ClientSessionManager) : Prop :=
  ckeeps m m' /\ cm_pending_closed m' = [] /\
  cm_out_queue m' = live_queue now (cm_out_queue m) /\
  exists closing m1 m2,
    closed_by m (due now m) closing m1 /\ requeued (live_queue now (cm_out_queue m)) m1 m2 /\
    m' = cm_set_pending_closes (retransmit_closes now (cm_pending_closes m1)).2
           (cm_set_pending_closed [] m2) /\
    out = closing ++
          (if bool_decide (live_queue now (cm_out_queue m) = cm_out_queue m) then []
           else [EvOutboundDropped (cm_dropped_outbound m')]) ++
          cm_pending_closed m ++ (retransmit_closes now (cm_pending_closes m1)).1.

Lemma closed_by_facts m c o m1 :
  cm_wf m -> closed_by m c o m1 ->
  ckeeps m m1 /\ cm_out_queue m1 = cm_out_queue m /\ cm_pending_closed m1 = cm_pending_closed m.
Proof. destruct c as [[sid reason]|]; [|by intros ? [_ ->]]. intros _ (? & _ & _ & ? & ? & _). done. Qed.

Lemma client_tick_spec now d m :
  cm_wf m -> ticked now m (client_tick now d m).1 (client_tick now d m).2.
Proof.
  intros Hwf. rewrite client_tick_eq. pose proof (tick_deadlines_spec now m Hwf) as Hd.
  destruct (tick_deadlines now m) as [o m1]. cbn [fst snd] in Hd.
  destruct (closed_by_facts _ _ _ _ Hwf Hd) as (Hk & Hq & Hp).
  pose proof (tick_queue_spec now (clock d) m1) as [Hr Ho]. destruct (tick_queue now (clock d) m1) as [o5 m2].
  cbn [fst snd] in *. rewrite Hq in Hr, Ho.
  assert (ckeeps m1 m2) as Hk2.
  { eapply requeued_keeps; [apply Hk| |exact Hr]. rewrite Hq. apply live_queue_sublist. }
  assert (cm_pending_closes m2 = cm_pending_closes m1 /\ cm_pending_closed m2 = cm_pending_closed m /\
    cm_out_queue m2 = live_queue now (cm_out_queue m)) as (E1 & E2 & E3)
    by (destruct Hr as (n & l & ->); by split).
  rewrite E1, E2. destruct (retransmit_closes now (cm_pending_closes m1)) as [o7 pcs] eqn:Hrc. cbn [fst snd].
  split; [exact (ckeeps_trans _ _ _ Hk (ckeeps_trans _ _ _ Hk2 (cm_set_pending_keeps m2 _ _ (proj1 Hk2))))|].
  split; [done|]. split; [done|]. exists o, m1, m2. rewrite Hrc. split; [done|]. split; [done|].
  split; [done|]. by rewrite Ho.
Qed.

End Manager.
