(* ===== verification/ClientManagerSafe.v ===== *)
(** * Theorems on the client session manager

    Runs of the manager over any sequence of calls, and its properties: the
    invariant and its bounds, totality on network input, the confirmation gate,
    the exact effect of ticks and session slots, and the detection of a dead
    peer. *)

From S2P Require Import Prelude Bytes Errors Codec Replay Crypto Envelope WireSession Exec Net HandshakeMsg HandshakeFrag HandshakeClient HandshakeServer HandshakeSafety HandshakeClientOk SessionCommon ServerManager ClientManager FailGateOk ServerManagerOk ClientManagerOk.

Local Open Scope Z_scope.

Section Runs.
Context {P : Primitives} {L : PrimitivesLaws P}.

(** ** Local operations *)

(** The outcome of an outbound call: refused, sent on the session, or without a
    session answered by the queue. *)
Definition outbound_post (refused : ManagerError -> Prop) (m : ClientSessionManager)
    (r : exec ManagerError ManagerEvent) (m' : ClientSessionManager) : Prop :=
  ckeeps m m' /\
  ((exists e, r = Fail e /\ refused e /\ m' = m) \/
   (exists w, cm_session m = Some w /\ sent_on m w r m') \/
   (cm_session m = None /\ cm_session m' = None /\ (r = Ret EvNone \/ exists n, r = Ret (EvOutboundDropped n)))).

Lemma outbound_refused (refused : ManagerError -> Prop) m e :
  cm_wf m -> refused e -> outbound_post refused m (Fail e) m.
Proof. intros Hwf He. split; [done|]. left. by exists e. Qed.

Lemma outbound_sent (refused : ManagerError -> Prop) m w r m' :
  cm_session m = Some w -> sent_on m w r m' -> outbound_post refused m r m'.
Proof. intros Hw Hs. split; [apply Hs|]. right. left. by exists w. Qed.

Lemma enqueue_keeps d payload m :
  cm_wf m -> length payload = PAYLOAD_LEN -> ckeeps m (enqueue d payload m).2.
Proof.
  intros Hwf Hp. unfold enqueue. destruct (Nat.leb_spec OUTBOUND_QUEUE_CAP (length (cm_out_queue m))); cbn [snd].
  - destruct (log_drop_eq (clock d) (cm_set_dropped_outbound (saturating_add 64 (cm_dropped_outbound m) 1) m))
      as [l ->].
    eapply (requeued_keeps (cm_out_queue m)); [done|done|].
    exists (saturating_add 64 (cm_dropped_outbound m) 1), l. by destruct m.
  - destruct Hwf as [Hv Hone Hhs Hse [Hq1 Hq2] Hu Hr Ha Hre]. split; [|done]. split; cbn; try done.
    rewrite length_app. cbn [length]. split; [lia|]. apply Forall_app. by split; [|constructor].
Qed.

Lemma enqueue_event d payload m :
  cm_session (enqueue d payload m).2 = cm_session m /\
  ((enqueue d payload m).1 = EvNone \/ exists n, (enqueue d payload m).1 = EvOutboundDropped n).
Proof.
  unfold enqueue. destruct (_ <=? _)%nat; cbn [fst snd]; [|by split; [|left]].
  split; [|right; by eexists].
  destruct (log_drop_eq (clock d) (cm_set_dropped_outbound (saturating_add 64 (cm_dropped_outbound m) 1) m))
    as [l ->]. done.
Qed.

Lemma client_app_outbound_wp d payload m :
  cm_wf m -> wp (client_app_outbound d payload) m (outbound_post (eq (payload_too_long payload)) m).
Proof.
  intros Hwf. unfold client_app_outbound. wp_steps.
  destruct (Nat.ltb_spec PAYLOAD_LEN (length payload)) as [|Hle].
  { apply wp_try; [done|]. intros e [= <-]. by apply outbound_refused. }
  pose proof (length_pad_payload payload Hle) as Hp.
  case_bool_decide as Hn.
  - wp_steps. split; [by apply enqueue_keeps|]. right. right.
    destruct (enqueue_event d (pad_payload payload) m) as [Hs He]. rewrite Hs. split; [done|]. split; [done|].
    destruct He as [->|[n ->]]; [by left|right; by exists n].
  - destruct (cm_session m) as [w|] eqn:Hw; [|done].
    eapply wp_mono; [by apply (client_send_encrypted_wp m w)|]. intros r m'. by apply outbound_sent.
Qed.

Lemma client_tun_outbound_wp d payload m :
  cm_wf m -> wp (client_tun_outbound d payload) m (outbound_post (eq (payload_too_long payload)) m).
Proof.
  intros Hwf. unfold client_tun_outbound. wp_steps.
  destruct (Nat.eqb_spec (length payload) PAYLOAD_LEN) as [Hp|]; cbn [negb].
  2:{ apply wp_try; [done|]. intros e [= <-]. by apply outbound_refused. }
  case_bool_decide as Hn; [wp_steps; split; [done|]; right; right; auto|].
  destruct (cm_session m) as [w|] eqn:Hw; [|done].
  eapply wp_mono; [by apply (client_send_encrypted_wp m w)|]. intros r m'. by apply outbound_sent.
Qed.

(** The error of a cover packet whose padding the random source did not give. *)
Definition cover_fault (msg : string) : ManagerError :=
  ME_Session (SE_Crypto (InvalidInput ("getrandom: " +:+ msg))).

Definition cover_refused (m : ClientSessionManager) (fill : result string bytes) (e : ManagerError) : Prop :=
  (e = ME_NoSession /\ cm_session m = None) \/ (exists msg, fill = Err msg /\ e = cover_fault msg) \/
  (e = ME_Session wrong_state /\ exists w, cm_session m = Some w /\ ws_state w = Rekey).

Lemma client_cover_packet_wp d fill m :
  cm_wf m -> (forall f, fill = Ok f -> length f = PAYLOAD_LEN) ->
  wp (client_cover_packet d fill) m (outbound_post (cover_refused m fill) m).
Proof.
  intros Hwf Hf. unfold client_cover_packet. wp_steps.
  destruct (cm_session m) as [w|] eqn:Hw.
  2:{ apply wp_try; [done|]. intros e [= <-]. apply outbound_refused; [done|by left]. }
  unfold WireSession_cover. pose proof (cw_session _ Hwf) as Hs. rewrite Hw in Hs. destruct Hs as (Hheld & _).
  assert (forall e, cover_refused m fill (ME_Session e) ->
    wp (modify (cm_set_session (Some w));; try ME_Session (@Err _ ManagerEvent e)) m
    (outbound_post (cover_refused m fill) m)) as Herr.
  { intros e He. wp_steps. rewrite (cm_set_session_id m w Hw). apply wp_try; [done|]. intros e' [= <-].
    by apply outbound_refused. }
  unfold require_established. case_bool_decide as Hst.
  - destruct fill as [f|e]; cbv iota beta; [|apply Herr; right; left; by eexists].
    pose proof (client_send_encrypted_wp m w d Cover f Hwf Hw (Hf f eq_refl)) as Hse.
    unfold client_send_encrypted in Hse. unfold wp, mbind, M_bind, get in Hse. rewrite Hw in Hse.
    eapply outbound_sent in Hse; [exact Hse|done].
  - destruct Hheld as (_ & [(Hx & _)|Hx]); [done|]. rewrite Hx. apply Herr. right. right. split; [done|by exists w].
Qed.

Lemma client_close_keeps d m : cm_wf m -> ckeeps m (client_close d m).2.
Proof.
  intros Hwf. unfold client_close, cm_session_id. destruct (cm_session m) as [w|] eqn:Hw; [|done].
  cbn [fmap option_fmap option_map].
  pose proof (teardown_spec m w (clock d) true Hwf Hw) as (Hk & _).
  destruct (teardown (clock d) true m) as [ev m']. cbn [fst snd] in *.
  destruct Hk as ([Hv Hone Hhs Hse Hq Hu Hr Ha Hre] & E). split; [by split|done].
Qed.

(** ** Runs *)

Inductive cm_reaches (cfg : ClientConfig) (limits : SessionLimits) : ClientSessionManager -> Prop :=
| cmr_new m : ClientSessionManager_new cfg limits = Ok m -> cm_reaches cfg limits m
| cmr_begin d m : draws_ok d -> cm_reaches cfg limits m -> cm_reaches cfg limits (cm_begin_handshake d m).2
| cmr_datagram d pkt from m : cm_reaches cfg limits m -> cm_reaches cfg limits (client_manager_handle d pkt from m).2
| cmr_timer d m : cm_reaches cfg limits m -> cm_reaches cfg limits (cm_on_timer d m).2
| cmr_slot now d m : cm_reaches cfg limits m -> cm_reaches cfg limits (take_slot now d m).2
| cmr_tick now d m : cm_reaches cfg limits m -> cm_reaches cfg limits (client_tick now d m).2
| cmr_app d payload m : cm_reaches cfg limits m -> cm_reaches cfg limits (client_app_outbound d payload m).2
| cmr_tun d payload m : cm_reaches cfg limits m -> cm_reaches cfg limits (client_tun_outbound d payload m).2
| cmr_cover d fill m : (forall f, fill = Ok f -> length f = PAYLOAD_LEN) -> cm_reaches cfg limits m ->
    cm_reaches cfg limits (client_cover_packet d fill m).2
| cmr_close d m : cm_reaches cfg limits m -> cm_reaches cfg limits (client_close d m).2.

Lemma handle_keeps m d pkt from : cm_wf m -> ckeeps m (client_manager_handle d pkt from m).2.
Proof.
  intros Hwf. pose proof (client_manager_handle_wp m d pkt from Hwf) as Hw. unfold wp in Hw.
  destruct (is_handshake_fragment pkt); apply Hw.
Qed.

Lemma cm_reaches_wf cfg limits m :
  cm_reaches cfg limits m -> cm_wf m /\ cm_cfg m = cfg /\ cm_limits m = limits.
Proof.
  assert (forall m m', cm_wf m /\ cm_cfg m = cfg /\ cm_limits m = limits -> ckeeps m m' ->
    cm_wf m' /\ cm_cfg m' = cfg /\ cm_limits m' = limits) as Hstep.
  { intros m1 m2 (_ & <- & <-) (H1 & H2 & H3 & _). done. }
  intros Hr. induction Hr as [m Hnew|d m Hd Hr IH|d pkt from m Hr IH|d m Hr IH|now d m Hr IH|now d m Hr IH
    |d payload m Hr IH|d payload m Hr IH|d fill m Hf Hr IH|d m Hr IH].
  { by apply client_manager_new_wf in Hnew. }
  all: apply (Hstep m); [exact IH|]; destruct IH as [IH _].
  - apply (cm_begin_wp m d IH Hd).
  - by apply handle_keeps.
  - apply (cm_on_timer_wp m d IH).
  - by apply take_slot_keeps.
  - apply (client_tick_spec now d m IH).
  - apply (client_app_outbound_wp d payload m IH).
  - apply (client_tun_outbound_wp d payload m IH).
  - apply (client_cover_packet_wp d fill m IH Hf).
  - by apply client_close_keeps.
Qed.

(** ** The content of a slot *)

(** What a session slot at [now] carries: nothing, the oldest live payload, or a
    liveness probe. *)
Inductive slot_choice := SlotNone | SlotData (q : QueuedPayload) (rest : list QueuedPayload) | SlotProbe.

Definition paced (now : Instant) (m : ClientSessionManager) : bool :=
  match cm_last_slot_at m with
  | Some last => duration_since now last <? sl_slot_interval (cm_limits m) | None => false end.

Definition choose_slot (now : Instant) (m : ClientSessionManager) : slot_choice :=
  match live_queue now (cm_out_queue m) with
  | q :: rest => SlotData q rest
  | [] => match cm_next_probe_at m with
          | Some due => if now <? due then SlotNone else SlotProbe
          | None => SlotNone
          end
  end.

(** A probe was sent at [now]: the next one is scheduled and, once the session
    is confirmed, an unanswered round is counted. *)
Definition probed (now : Instant) (m : ClientSessionManager) : ClientSessionManager :=
  cm_set_rounds_unanswered
    (if cm_ready m then saturating_add 32 (cm_rounds_unanswered m) 1 else cm_rounds_unanswered m)
    (cm_set_next_probe_at (Some (now + sl_liveness_probe_interval (cm_limits m))) m).

(** The slot sent the packet [p] of type [ty] on the session [w]. *)
Definition slot_sent (now : Instant) (m0 m : ClientSessionManager) (w : WireSession) (ty : MessageType)
    (payload : bytes) (r : option ManagerEvent * ClientSessionManager) : Prop :=
  exists p w', WireSession_encrypt w ty payload = (Ok p, w') /\
    r = (Some (EvSendPacket p (cm_peer m0)), cm_set_last_slot_at (Some now) (cm_set_session (Some w') m)).

Definition slotted (now : Instant) (m : ClientSessionManager) (w : WireSession)
    (r : option ManagerEvent * ClientSessionManager) : Prop :=
  match choose_slot now m with
  | SlotNone => r.1 = None /\ requeued [] m r.2
  | SlotData q rest => exists m1, requeued rest m m1 /\ slot_sent now m m1 w Data (qp_payload q) r
  | SlotProbe => exists m1, requeued [] m m1 /\
      slot_sent now m (probed now m1) w Handshake (control_payload PROBE) r
  end.

Lemma encrypt_room w ty payload :
  ws_live (ws_session_id w) w -> length payload = PAYLOAD_LEN -> send_counter (ws_cipher w) < MAX_PACKET_NONCE ->
  exists p w', WireSession_encrypt w ty payload = (Ok p, w') /\ ws_session_id w' = ws_session_id w /\
    ws_live (ws_session_id w') w' /\ send_counter (ws_cipher w') = send_counter (ws_cipher w) + 1.
Proof.
  intros Hl Hp Hc. pose proof (ws_encrypt_live _ w ty payload Hl Hp) as H.
  destruct (WireSession_encrypt w ty payload) as [[p|e] w']; [|lia].
  destruct H as (Hl' & _ & Hn). exists p, w'. pose proof Hl' as (_ & Hi & _). by rewrite Hi.
Qed.

Lemma take_probe_room now m w :
  cm_session m = Some w -> ws_live (ws_session_id w) w -> send_counter (ws_cipher w) < MAX_PACKET_NONCE ->
  match cm_next_probe_at m with
  | Some due =>
      if now <? due then take_probe now m = (None, m)
      else exists p w', WireSession_encrypt w Handshake (control_payload PROBE) = (Ok p, w') /\
        take_probe now m = (Some (EvSendPacket p (cm_peer m)), cm_set_session (Some w') (probed now m))
  | None => take_probe now m = (None, m)
  end.
Proof.
  intros Hw Hl Hc. unfold take_probe. destruct (cm_next_probe_at m) as [due|]; [|done].
  destruct (now <? due); [done|].
  destruct (encrypt_room w Handshake (control_payload PROBE) Hl (length_control_payload _) Hc) as (p & w' & He & _).
  exists p, w'. split; [done|]. unfold build_probe. cbn [cm_session cm_set_next_probe_at]. rewrite Hw, He.
  unfold probed. cbn [cm_ready cm_set_session cm_set_next_probe_at]. by destruct (cm_ready m), m.
Qed.

Lemma take_slot_room now d m w :
  cm_wf m -> cm_session m = Some w -> ws_live (ws_session_id w) w ->
  send_counter (ws_cipher w) < MAX_PACKET_NONCE -> paced now m = false ->
  slotted now m w (take_slot now d m).
Proof.
  intros Hwf Hw Hl Hc Hpace. unfold take_slot. rewrite Hw. fold (paced now m). rewrite Hpace.
  pose proof (take_queued_payload_spec now d m Hwf) as Hq. unfold slotted, choose_slot.
  pose proof (Forall_sublist _ _ _ (live_queue_sublist now _) (proj2 (cw_queue _ Hwf))) as Hlen.
  destruct (live_queue now (cm_out_queue m)) as [|q rest].
  - destruct Hq as (m1 & -> & Hr). assert (cm_session m1 = Some w) as Hw1 by (by destruct Hr as (? & ? & ->)).
    pose proof (take_probe_room now m1 w Hw1 Hl Hc) as Hp.
    assert (cm_next_probe_at m1 = cm_next_probe_at m /\ cm_peer m1 = cm_peer m) as [Hn Hpe]
      by (by destruct Hr as (? & ? & ->)).
    rewrite Hn in Hp. destruct (cm_next_probe_at m) as [due|]; [destruct (now <? due)|]; try (by rewrite Hp).
    destruct Hp as (p & w' & He & ->). exists m1. split; [done|]. exists p, w'. by rewrite Hpe.
  - destruct Hq as (m1 & Hr & ->). exists m1. split; [done|].
    assert (cm_session m1 = Some w /\ cm_peer m1 = cm_peer m) as [Hw1 Hpe] by (by destruct Hr as (? & ? & ->)).
    apply Forall_cons in Hlen as [Hlen _].
    destruct (encrypt_room w Data (qp_payload q) Hl Hlen Hc) as (p & w' & He & _). exists p, w'.
    split; [done|]. unfold client_send_encrypted, mbind, M_bind, get. rewrite Hw1, He. cbn. by rewrite Hpe.
Qed.

(** ** A silent peer *)

(** The driver between two datagrams: a slot, then a tick, at each time. *)
Fixpoint silent_run (d : ClientDraws) (ts : list Instant) (m : ClientSessionManager)
    : list ManagerEvent * ClientSessionManager :=
  match ts with
  | [] => ([], m)
  | t :: ts =>
      let m1 := (take_slot t d m).2 in
      let '(o, m2) := client_tick t d m1 in
      let '(o', m3) := silent_run d ts m2 in (o ++ o', m3)
  end.

(** Times at which a probe may be sent, the first one from [from] on. *)
Fixpoint probe_times (limits : SessionLimits) (from : Instant) (ts : list Instant) : Prop :=
  match ts with
  | [] => True
  | t :: ts => from <= t /\
      probe_times limits (t + Z.max (sl_liveness_probe_interval limits) (sl_slot_interval limits)) ts
  end.

(** A confirmed session with an empty queue, [r] unanswered rounds, and room for
    [n] packets, whose next slot may go out from [from] on. *)
Record waiting (m : ClientSessionManager) (sid : bytes) (r n : Z) (from : Instant) : Prop := {
  wa_wf : cm_wf m;
  wa_session : exists w, cm_session m = Some w /\ ws_session_id w = sid /\ ws_live sid w /\
    send_counter (ws_cipher w) + n <= MAX_PACKET_NONCE;
  wa_ready : cm_ready m = true;
  wa_queue : cm_out_queue m = [];
  wa_rounds : cm_rounds_unanswered m = r;
  wa_probe : exists due, cm_next_probe_at m = Some due /\ due <= from;
  wa_slot : match cm_last_slot_at m with Some l => l + sl_slot_interval (cm_limits m) <= from | None => True end }.

Definition rearming (m : ClientSessionManager) : Prop :=
  cm_wf m /\ cm_state m = CmIdle /\ needs_rearm m = true.

Lemma requeued_same q m m' :
  requeued q m m' -> cm_state m' = cm_state m /\ needs_rearm m' = needs_rearm m.
Proof. intros (n & l & ->). done. Qed.

(** The state a tick leaves when it closes something, and when it does not. *)
Lemma tick_closing t d m sid reason :
  cm_wf m -> due t m = Some (sid, reason) ->
  rearming (client_tick t d m).2 /\ In (EvClosed sid reason) (client_tick t d m).1.
Proof.
  intros Hwf Hd. destruct (client_tick_spec t d m Hwf) as (Hk & _ & _ & closing & m1 & m2 & Hc & Hr & Hm & Ho).
  rewrite Hd in Hc. destruct Hc as (_ & Hi & Hn & _ & _ & Hev). destruct (requeued_same _ _ _ Hr) as [Hs Hre].
  split.
  - split; [apply Hk|]. rewrite Hm. split; [etrans; [exact Hs|exact Hi]|etrans; [exact Hre|exact Hn]].
  - rewrite Ho. apply in_or_app. left. destruct Hev as [->|[p ->]]; cbn; auto.
Qed.

Lemma tick_keeping t d m :
  cm_wf m -> due t m = None ->
  exists m2 pcs, requeued (live_queue t (cm_out_queue m)) m m2 /\
    (client_tick t d m).2 = cm_set_pending_closes pcs (cm_set_pending_closed [] m2).
Proof.
  intros Hwf Hd. destruct (client_tick_spec t d m Hwf) as (Hk & _ & _ & closing & m1 & m2 & Hc & Hr & Hm & Ho).
  rewrite Hd in Hc. destruct Hc as [_ ->]. by exists m2, (retransmit_closes t (cm_pending_closes m)).2.
Qed.

Lemma silent_idle d ts m : rearming m -> rearming (silent_run d ts m).2.
Proof.
  revert m. induction ts as [|t ts IH]; intros m Hm; [done|]. cbn [silent_run].
  pose proof Hm as (Hwf & Hi & Hn). pose proof (idle_no_session _ Hi) as Hs.
  assert (take_slot t d m = (None, m)) as -> by (unfold take_slot; by rewrite Hs). cbn [snd].
  assert (rearming (client_tick t d m).2) as Hr.
  { destruct (due t m) as [[sid reason]|] eqn:Hd; [by apply (tick_closing t d m sid reason)|].
    pose proof (client_tick_spec t d m Hwf) as (Hk & _).
    destruct (tick_keeping t d m Hwf Hd) as (m2 & pcs & Hq & E). split; [apply Hk|]. rewrite E.
    destruct (requeued_same _ _ _ Hq) as [E1 E2]. split; [etrans; [exact E1|done]|etrans; [exact E2|done]]. }
  destruct (client_tick t d m) as [o m2]. specialize (IH m2 Hr).
  by destruct (silent_run d ts m2) as [o' m3].
Qed.

Lemma slot_of_waiting t d m sid r n from :
  waiting m sid r n from -> from <= t -> 0 < n -> 0 <= r -> r + 1 < 2 ^ 32 ->
  waiting (take_slot t d m).2 sid (r + 1) (n - 1)
    (t + Z.max (sl_liveness_probe_interval (cm_limits m)) (sl_slot_interval (cm_limits m))).
Proof.
  intros [Hwf (w & Hw & Hid & Hl & Hc) Hr Hq Hro (pd & Hp & Hpd) Hs] Ht Hn Hr0 Hr32.
  pose proof (take_slot_keeps t d m Hwf) as Hk. rewrite <- Hid in Hl.
  assert (paced t m = false) as Hpace.
  { unfold paced. destruct (cm_last_slot_at m); [|done]. unfold duration_since. lia. }
  pose proof (take_slot_room t d m w Hwf Hw Hl ltac:(lia) Hpace) as Hsl.
  unfold slotted, choose_slot in Hsl. rewrite Hq, Hp in Hsl. cbn [live_queue filter list_filter] in Hsl.
  replace (t <? pd) with false in Hsl by lia. destruct Hsl as (m1 & (k & l & ->) & p & w' & He & Hsl).
  destruct (encrypt_room w Handshake (control_payload PROBE) Hl (length_control_payload _) ltac:(lia))
    as (p' & w2 & He2 & Hi2 & Hl2 & Hc2). rewrite He in He2. injection He2 as <- <-.
  rewrite Hsl in *. cbn [snd] in *. split; [apply Hk|..].
  - exists w'. split; [done|]. rewrite <- Hid, <- Hi2. split; [done|]. split; [done|lia].
  - exact Hr.
  - done.
  - cbn. rewrite Hr, Hro. unfold saturating_add, umax. lia.
  - cbn. eexists. split; [reflexivity|]. lia.
  - cbn. lia.
Qed.

Lemma waiting_tick t d m sid r n from :
  waiting m sid r n from ->
  (exists reason, In (EvClosed sid reason) (client_tick t d m).1) /\ rearming (client_tick t d m).2 \/
  r < sl_liveness_rounds (cm_limits m) /\ waiting (client_tick t d m).2 sid r n from.
Proof.
  intros Hw. pose proof Hw as [Hwf (w & Hse & Hid & Hl & Hc) Hr Hq Hro Hp Hs].
  destruct (due t m) as [[sid' reason]|] eqn:Hd.
  - left. assert (sid' = sid) as ->.
    { unfold due in Hd. rewrite Hse in Hd. destruct (cw_one _ Hwf) as [Hn|Hn]; [|by rewrite Hse in Hn].
      rewrite Hn, Hid in Hd. repeat case_match; congruence. }
    destruct (tick_closing t d m sid reason Hwf Hd) as [? ?]. eauto.
  - right. split.
    + unfold due in Hd. rewrite Hse, Hr, Hro in Hd.
      destruct (cw_one _ Hwf) as [Hn|Hn]; [|by rewrite Hse in Hn]. rewrite Hn in Hd.
      destruct (elapsed _ _ _); [done|]. destruct (Z.leb_spec (sl_liveness_rounds (cm_limits m)) r); [done|lia].
    + destruct (client_tick_spec t d m Hwf) as (Hk & _). destruct (tick_keeping t d m Hwf Hd) as (m2 & pcs & (k & l & ->) & E).
      rewrite E in *. split; [apply Hk|by exists w|done| |done|done|done]. cbn. by rewrite Hq.
Qed.

Lemma silent_run_closes d ts m sid r from :
  waiting m sid r (Z.of_nat (length ts)) from -> 0 <= r < sl_liveness_rounds (cm_limits m) ->
  sl_liveness_rounds (cm_limits m) < 2 ^ 32 ->
  probe_times (cm_limits m) from ts -> sl_liveness_rounds (cm_limits m) <= r + Z.of_nat (length ts) ->
  (exists reason, In (EvClosed sid reason) (silent_run d ts m).1) /\ rearming (silent_run d ts m).2.
Proof.
  revert m r from. induction ts as [|t ts IH]; intros m r from Hw Hr H32 Hsp Hlen; [cbn in Hlen; lia|].
  cbn [probe_times] in Hsp. destruct Hsp as [Ht Hsp]. cbn [length] in *. cbn [silent_run].
  pose proof (slot_of_waiting t d m sid r _ from Hw Ht ltac:(lia) ltac:(lia) ltac:(lia)) as Hw1.
  pose proof (take_slot_keeps t d m (wa_wf _ _ _ _ _ Hw)) as (_ & _ & Hlim & _).
  set (m1 := (take_slot t d m).2) in *. clearbody m1.
  pose proof (client_tick_spec t d m1 (wa_wf _ _ _ _ _ Hw1)) as ((_ & _ & Hlim2 & _) & _).
  pose proof (waiting_tick t d m1 sid _ _ _ Hw1) as Hor.
  destruct (client_tick t d m1) as [o m2]. cbn [fst snd] in *. rewrite Hlim in *.
  destruct Hor as [[[reason Hin] Hre]|[Hlt Hw2]].
  - pose proof (silent_idle d ts m2 Hre) as Hre'. destruct (silent_run d ts m2) as [o' m3].
    cbn [fst snd] in *. split; [|done]. exists reason. apply in_or_app. by left.
  - specialize (IH m2 (r + 1) (t + Z.max (sl_liveness_probe_interval (cm_limits m)) (sl_slot_interval (cm_limits m)))).
    rewrite Hlim2 in IH. destruct IH as [[reason Hin] Hre]; [|lia|lia|done|lia|].
    { replace (Z.of_nat (length ts)) with (Z.of_nat (S (length ts)) - 1) by lia. exact Hw2. }
    destruct (silent_run d ts m2) as [o' m3]. cbn [fst snd] in *. split; [|done].
    exists reason. apply in_or_app. by right.
Qed.

(** ** Nonce exhaustion in a probe *)

(** A probe that finds the nonces exhausted leaves the session in [Rekey]. *)
Lemma build_probe_exhausted m w :
  cm_session m = Some w -> ws_live (ws_session_id w) w -> send_counter (ws_cipher w) = MAX_PACKET_NONCE ->
  exists w', build_probe m = (None, cm_set_session (Some w') m) /\ ws_state w' = Rekey /\
    ws_session_id w' = ws_session_id w.
Proof.
  intros Hw Hl Hc. unfold build_probe. rewrite Hw.
  pose proof (ws_encrypt_live _ w Handshake (control_payload PROBE) Hl (length_control_payload _)) as He.
  pose proof (ws_encrypt_state w Handshake (control_payload PROBE)) as Hs.
  destruct (WireSession_encrypt w Handshake (control_payload PROBE)) as [[p|e] w'].
  - destruct He as ((_ & _ & _ & Hwf) & _ & Hn). destruct Hwf as (_ & _ & _ & _ & _ & Hwf). lia.
  - destruct He as [-> _]. destruct Hs as [Hi Hs]. exists w'. by rewrite Hi.
Qed.

Lemma take_slot_exhausted now d m w pd :
  cm_wf m -> cm_session m = Some w -> ws_live (ws_session_id w) w ->
  send_counter (ws_cipher w) = MAX_PACKET_NONCE -> cm_out_queue m = [] -> paced now m = false ->
  cm_next_probe_at m = Some pd -> pd <= now ->
  exists m1 w' np, take_slot now d m = (None, cm_set_session (Some w') (cm_set_next_probe_at np m1)) /\
    requeued [] m m1 /\ ws_state w' = Rekey.
Proof.
  intros Hwf Hw Hl Hc Hq Hpace Hp Hpd.
  pose proof (take_queued_payload_spec now d m Hwf) as Hqs. rewrite Hq in Hqs.
  destruct Hqs as (m1 & Hqe & Hr). exists m1.
  assert (cm_session m1 = Some w /\ cm_next_probe_at m1 = Some pd) as [Hw1 Hp1]
    by (by destruct Hr as (? & ? & ->)).
  set (np := Some (now + sl_liveness_probe_interval (cm_limits m1))).
  destruct (build_probe_exhausted (cm_set_next_probe_at np m1) w Hw1 Hl Hc) as (w' & Hb & Hst & _).
  exists w', np. split; [|done]. unfold take_slot. rewrite Hw. fold (paced now m). rewrite Hpace, Hqe.
  unfold take_probe. rewrite Hp1. replace (now <? pd) with false by lia. fold np. by rewrite Hb.
Qed.

(** Everything that happens to the manager but an explicit close. *)
Inductive cm_input :=
| InDatagram (d : ClientDraws) (pkt : WirePacket) (from : SocketAddr)
| InTimer (d : ClientDraws)
| InSlot (now : Instant) (d : ClientDraws)
| InTick (now : Instant) (d : ClientDraws)
| InApp (d : ClientDraws) (payload : bytes)
| InTun (d : ClientDraws) (payload : bytes).

Definition cm_feed (m : ClientSessionManager) (i : cm_input) : ClientSessionManager :=
  match i with
  | InDatagram d pkt from => (client_manager_handle d pkt from m).2
  | InTimer d => (cm_on_timer d m).2
  | InSlot now d => (take_slot now d m).2
  | InTick now d => (client_tick now d m).2
  | InApp d payload => (client_app_outbound d payload m).2
  | InTun d payload => (client_tun_outbound d payload m).2
  end.

(** A confirmed session that stopped in [Rekey] while the liveness rounds are
    below their limit and no lifetime cap is set. *)
Definition wedged (m : ClientSessionManager) : Prop :=
  cm_wf m /\ (exists w, cm_session m = Some w /\ ws_state w = Rekey) /\ cm_ready m = true /\
  cm_rounds_unanswered m < sl_liveness_rounds (cm_limits m) /\ sl_lifetime_cap (cm_limits m) = None.

Lemma rekey_encrypt w ty payload :
  ws_state w = Rekey -> WireSession_encrypt w ty payload = (Err wrong_state, w).
Proof. intros Hs. unfold WireSession_encrypt, require_established. by rewrite Hs. Qed.

Lemma rekey_decrypt w pkt : ws_state w = Rekey -> WireSession_decrypt w pkt = (Err wrong_state, w).
Proof. intros Hs. unfold WireSession_decrypt, require_established. by rewrite Hs. Qed.

Lemma rekey_send m w d ty payload :
  cm_session m = Some w -> ws_state w = Rekey ->
  client_send_encrypted d ty payload m = (Fail (ME_Session wrong_state), m).
Proof.
  intros Hw Hs. unfold client_send_encrypted, mbind, M_bind, get. rewrite Hw, (rekey_encrypt w) by done.
  unfold modify. cbn. by rewrite (cm_set_session_id m w Hw).
Qed.

Lemma wedged_due t m : wedged m -> due t m = None.
Proof.
  intros (Hwf & (w & Hw & Hs) & Hr & Hro & Hl). unfold due. rewrite Hw, Hr, Hl.
  destruct (cw_one _ Hwf) as [Hn|Hn]; [|by rewrite Hw in Hn]. rewrite Hn. cbn [elapsed].
  destruct (Z.leb_spec (sl_liveness_rounds (cm_limits m)) (cm_rounds_unanswered m)); [lia|done].
Qed.

Lemma rekey_slot now d m :
  wedged m ->
  exists m1 q np ls, requeued q m m1 /\
    (take_slot now d m).2 = cm_set_last_slot_at ls (cm_set_next_probe_at np m1).
Proof.
  intros (Hwf & (w & Hw & Hs) & _).
  assert (forall m1, m1 = cm_set_last_slot_at (cm_last_slot_at m1) (cm_set_next_probe_at (cm_next_probe_at m1) m1)) as Hid
    by (by intros []).
  unfold take_slot. rewrite Hw. fold (paced now m). destruct (paced now m).
  { exists m. do 3 eexists. split; [apply requeued_id|apply Hid]. }
  pose proof (take_queued_payload_spec now d m Hwf) as Hq.
  destruct (live_queue now (cm_out_queue m)) as [|q rest].
  - destruct Hq as (m1 & -> & Hr). assert (cm_session m1 = Some w) as Hw1 by (by destruct Hr as (? & ? & ->)).
    exists m1, []. unfold take_probe. destruct (cm_next_probe_at m1) as [pd|] eqn:Hp.
    2:{ do 2 eexists. split; [done|apply Hid]. }
    destruct (now <? pd); [do 2 eexists; split; [done|apply Hid]|].
    unfold build_probe. cbn [cm_session cm_set_next_probe_at]. rewrite Hw1, (rekey_encrypt w) by done. cbn [snd].
    exists (Some (now + sl_liveness_probe_interval (cm_limits m1))), (cm_last_slot_at m1). split; [done|].
    destruct m1. cbn in *. by subst.
  - destruct Hq as (m1 & Hr & ->). assert (cm_session m1 = Some w) as Hw1 by (by destruct Hr as (? & ? & ->)).
    rewrite (rekey_send m1 w) by done. cbn [snd]. exists m1, rest, (cm_next_probe_at m1), (Some now).
    split; [done|]. by destruct m1.
Qed.

Lemma wedged_feed m i : wedged m -> wedged (cm_feed m i).
Proof.
  intros Hwe. pose proof Hwe as (Hwf & (w & Hw & Hs) & Hr & Hro & Hl).
  assert (cm_hs m = None) as Hn by (destruct (cw_one _ Hwf) as [Hn|Hn]; [done|by rewrite Hw in Hn]).
  destruct i as [d pkt from|d|now d|now d|d payload|d payload]; cbn [cm_feed].
  - assert ((client_manager_handle d pkt from m).2 = m) as ->; [|done].
    unfold client_manager_handle, mbind, M_bind, get. destruct (is_handshake_fragment pkt); [by rewrite Hn|].
    unfold client_on_data_packet, mbind, M_bind, get. rewrite Hw. destruct (negb _); [done|].
    rewrite (rekey_decrypt w) by done. cbn. by rewrite (cm_set_session_id m w Hw).
  - assert ((cm_on_timer d m).2 = m) as ->; [|done].
    unfold cm_on_timer, mbind, M_bind, get. rewrite Hn, Hr. by destruct (bool_decide _).
  - pose proof (take_slot_keeps now d m Hwf) as (Hk & _).
    destruct (rekey_slot now d m Hwe) as (m1 & q & np & ls & (n & l & ->) & E). rewrite E in *.
    split; [exact Hk|]. split; [by exists w|]. done.
  - pose proof (client_tick_spec now d m Hwf) as ((Hk & _) & _).
    destruct (tick_keeping now d m Hwf (wedged_due now m Hwe)) as (m2 & pcs & (n & l & ->) & E). rewrite E in *.
    split; [exact Hk|]. split; [by exists w|]. done.
  - assert ((client_app_outbound d payload m).2 = m) as ->; [|done].
    unfold client_app_outbound, mbind, M_bind, get. destruct (_ <? _)%nat; [done|].
    rewrite bool_decide_false by (by rewrite Hw). by rewrite (rekey_send m w).
  - assert ((client_tun_outbound d payload m).2 = m) as ->; [|done].
    unfold client_tun_outbound, mbind, M_bind, get. destruct (negb _); [done|].
    rewrite bool_decide_false by (by rewrite Hw). by rewrite (rekey_send m w).
Qed.

Lemma wedged_feeds l m : wedged m -> wedged (foldl cm_feed m l).
Proof. revert m. induction l as [|i l IH]; intros m Hm; [done|]. cbn [foldl]. by apply IH, wedged_feed. Qed.

End Runs.

(** ** A concrete run for the witnesses *)

Module ClientSample.

Definition draws (t : Z) : ClientDraws :=
  mkClientDraws (from_secs t) (fun _ => Ok Sample.sid) (replicate 32 x11) (replicate 32 x12)
    (replicate 32 x31) 5.

Fixpoint deliver (t : Z) (pkts : list WirePacket) (m : ClientSessionManager) : ClientSessionManager :=
  match pkts with
  | [] => m
  | p :: pkts => deliver t pkts (client_manager_handle (draws t) p Sample.server_addr m).2
  end.

(** A data packet of the server's session. *)
Definition server_packet : WirePacket :=
  match (server_app_outbound Sample.sid (sample_payload x06) ManagerSample.manager1).1 with
  | Ret (EvSendPacket p _) => p | _ => mkWirePacket [] end.

(** The manager after its handshake, and after the first packet of the server. *)
Definition prepared_from (m : ClientSessionManager) : ClientSessionManager :=
  deliver 1 Sample.m2_frags (cm_begin_handshake (draws 1) m).2.
Definition confirmed_from (m : ClientSessionManager) : ClientSessionManager :=
  deliver 1 [server_packet] (prepared_from m).

End ClientSample.

Lemma client_deliver_reaches t pkts m :
  cm_reaches Sample.client_cfg SessionLimits_default m ->
  cm_reaches Sample.client_cfg SessionLimits_default (ClientSample.deliver t pkts m).
Proof.
  revert m. induction pkts as [|p pkts IH]; intros m Hr; [done|]. cbn [ClientSample.deliver].
  apply IH. by constructor.
Qed.

Lemma client_prepared_reaches m :
  ClientSessionManager_new Sample.client_cfg SessionLimits_default = Ok m ->
  cm_reaches Sample.client_cfg SessionLimits_default (ClientSample.prepared_from m).
Proof.
  intros E. unfold ClientSample.prepared_from. apply (client_deliver_reaches 1 Sample.m2_frags). apply cmr_begin; [|by apply cmr_new].
  intros i b [= <-]. reflexivity.
Qed.

Lemma client_sample_reaches m :
  ClientSessionManager_new Sample.client_cfg SessionLimits_default = Ok m ->
  cm_reaches Sample.client_cfg SessionLimits_default (ClientSample.confirmed_from m).
Proof.
  intros E. unfold ClientSample.confirmed_from. apply (client_deliver_reaches 1 [ClientSample.server_packet]).
  by apply client_prepared_reaches.
Qed.

(** What the sample run reaches: an established session with room for packets,
    an empty queue, no unanswered round, and its first probe due at 6 s. *)
Definition sample_established (m : ClientSessionManager) : bool :=
  match cm_session m with
  | Some w => bool_decide (ws_state w = Established) && (send_counter (ws_cipher w) + 3 <=? MAX_PACKET_NONCE) &&
      cm_ready m && bool_decide (cm_out_queue m = []) && (cm_rounds_unanswered m =? 0) &&
      bool_decide (cm_next_probe_at m = Some (from_secs 6)) && bool_decide (cm_last_slot_at m = None)
  | None => false
  end.

Lemma client_sample_established : exists m,
  cm_reaches Sample.client_cfg SessionLimits_default m /\ sample_established m = true.
Proof.
  assert (match ClientSessionManager_new Sample.client_cfg SessionLimits_default with
          | Ok m => sample_established (ClientSample.confirmed_from m) | Err _ => false end = true) as H
    by (vm_compute; reflexivity).
  destruct (ClientSessionManager_new Sample.client_cfg SessionLimits_default) as [m|] eqn:E; [|discriminate H].
  exists (ClientSample.confirmed_from m). split; [by apply client_sample_reaches|exact H].
Qed.

(** ** Properties *)

(** The client manager is total on network input: in every state it can
    reach, whatever datagram arrives from wherever, the handler returns an event;
    the only failure is the state error of a session that already ran out of
    nonces, which changes nothing. The retransmission timer always returns an
    event. Neither panics. *)
Theorem client_manager_total {P : Primitives} {L : PrimitivesLaws P} cfg limits m d pkt from :
  cm_reaches cfg limits m ->
  ((exists ev, (client_manager_handle d pkt from m).1 = Ret ev) \/
   (client_manager_handle d pkt from m = (Fail (ME_Session wrong_state), m) /\
    exists w, cm_session m = Some w /\ ws_state w = Rekey)) /\
  exists ev, (cm_on_timer d m).1 = Ret ev.
Proof.
  intros Hr. destruct (cm_reaches_wf _ _ _ Hr) as [Hwf _].
  pose proof (client_manager_handle_wp m d pkt from Hwf) as Hh.
  destruct (cm_on_timer_wp m d Hwf) as (_ & _ & Ht).
  split; [|destruct Ht as [(pkts & -> & _)|[(-> & _)|(h & _ & -> & _)]]; by eexists].
  unfold wp in Hh. destruct (client_manager_handle d pkt from m) as [r m']. cbn [fst snd] in *.
  destruct (is_handshake_fragment pkt).
  - left. destruct Hh as (_ & _ & _ & [[-> _]|(h & o & m1 & _ & _ & _ & _ & _ & w & pkts & _ & _ & -> & _)]);
      by eexists.
  - destruct Hh as [_ Hh]. destruct (cm_session m) as [w|] eqn:Hw; [|left; destruct Hh as [-> _]; by eexists].
    destruct Hh as [(_ & -> & _)|[_ Hh]]; [left; by eexists|].
    destruct (WireSession_decrypt w pkt).1 as [inner|e].
    + left. destruct (ip_msg_type inner); destruct Hh as [-> _]; by eexists.
    + destruct e; try (left; destruct Hh as [-> _]; by eexists).
      all: destruct Hh as (_ & Hs & -> & ->); right; split; [done|by exists w].
Qed.

Lemma client_manager_total_witness :
  exists m, cm_reaches Sample.client_cfg SessionLimits_default m /\
  ((exists ev, (client_manager_handle (ClientSample.draws 2) ClientSample.server_packet Sample.server_addr m).1
      = Ret ev) \/
   exists w, cm_session m = Some w /\ ws_state w = Rekey).
Proof.
  destruct client_sample_established as (m & Hr & _). exists m. split; [exact Hr|].
  destruct (client_manager_total Sample.client_cfg SessionLimits_default m (ClientSample.draws 2)
    ClientSample.server_packet Sample.server_addr Hr) as [[H|[_ H]] _]; [left; exact H|right; exact H].
Defined.

(** A tick empties the queue of Closed events. *)
Lemma client_tick_reports {P : Primitives} now d m : cm_pending_closed (client_tick now d m).2 = [].
Proof. unfold client_tick. repeat case_match; simplify_eq; done. Qed.

(** C14: What holds in every reachable state of the client manager: a handshake
    or a session, never both; confirmed only with a session; a session's
    identifier is never one of a torn-down session that is still remembered, that
    is, among the last 1024; the outbound queue holds at most 64 payloads, all of
    the full size, and the identifier histories at most 64 and 1024 entries
    without duplicates; M3 retransmissions stay within their budget; and once a
    handshake has begun the manager never rests: whenever it holds neither a
    handshake nor a session it asks to be re-armed. The Closed events that wait to
    be reported ([pending_closed]) have no such bound, but a tick empties
    their queue; of the Close retransmissions ([pending_closes]) nothing is said. *)
Theorem client_manager_invariant {P : Primitives} {L : PrimitivesLaws P} cfg limits m :
  cm_reaches cfg limits m ->
  (cm_hs m = None \/ cm_session m = None) /\
  (cm_ready m = true -> cm_state m = CmEstablished) /\
  (forall w, cm_session m = Some w -> ws_session_id w ∉ cm_retired_sids m) /\
  (length (cm_out_queue m) <= 64)%nat /\ Forall (fun q => length (qp_payload q) = PAYLOAD_LEN) (cm_out_queue m) /\
  (length (cm_used_order m) <= 64)%nat /\ NoDup (cm_used_order m) /\
  (size (cm_retired_sids m) <= 1024)%nat /\ cm_retired_sids m = list_to_set (cm_retired_order m) /\
  cm_m3_attempts m <= Z.max 0 (cc_m3_max_attempts cfg) /\
  (cm_used_order m <> [] -> cm_state m = CmIdle -> needs_rearm m = true) /\
  (forall now d, cm_pending_closed (client_tick now d m).2 = []).
Proof.
  intros Hr. destruct (cm_reaches_wf _ _ _ Hr) as (Hwf & <- & _).
  pose proof Hwf as [Hv Hone Hhs Hse [Hq Hq'] [Hu1 Hu2 Hu3] [Hr1 Hr2 Hr3] Ha Hre].
  split; [done|]. split.
  { intros H. unfold cm_state. rewrite H. destruct (cm_session m); [done|]. destruct Hse as [E _]. by rewrite E in H. }
  split; [intros w Hw; rewrite Hw in Hse; apply Hse|]. split; [exact Hq|]. split; [exact Hq'|].
  split; [exact Hu2|]. split; [done|].
  split; [rewrite Hr3, size_list_to_set by done; exact Hr2|]. split; [done|]. split; [lia|].
  split; [|intros now d; apply client_tick_reports].
  intros Ho Hi. unfold cm_state, needs_rearm in *. destruct (cm_session m); [by destruct (cm_ready m)|].
  destruct (cm_hs m); [done|]. by rewrite Hre.
Qed.

Lemma client_manager_invariant_witness : exists m,
  cm_reaches Sample.client_cfg SessionLimits_default m /\ (length (cm_out_queue m) <= 64)%nat.
Proof.
  destruct client_sample_established as (m & Hr & _). exists m. split; [exact Hr|].
  exact (proj1 (proj2 (proj2 (proj2 (client_manager_invariant Sample.client_cfg SessionLimits_default m Hr))))).
Defined.

(** C10: The confirmation gate and the origin of sessions: a handshake fragment
    never confirms, delivers data or moves the peer address, and creates a
    session only from an M2 signed by the pinned server key for the running
    handshake, unconfirmed, under an identifier that is not retired. A data
    packet affects the manager only when it names the held session: a packet
    that decrypts confirms the session, resets the liveness rounds, moves the
    peer address and is delivered, consumed or closes the session by its type; a
    packet that fails to authenticate or is replayed changes nothing but the
    session's replay window. *)
Theorem client_gate_authentic {P : Primitives} {L : PrimitivesLaws P} cfg limits m d pkt from r m' :
  cm_reaches cfg limits m -> client_manager_handle d pkt from m = (r, m') ->
  if is_handshake_fragment pkt then chs_post m d pkt r m' else cdata_post m pkt from r m'.
Proof.
  intros Hr Hh. destruct (cm_reaches_wf _ _ _ Hr) as [Hwf _].
  exact (wp_run _ _ _ _ _ (client_manager_handle_wp m d pkt from Hwf) Hh).
Qed.

Lemma client_gate_authentic_witness : exists m r m',
  cm_reaches Sample.client_cfg SessionLimits_default m /\
  client_manager_handle (ClientSample.draws 2) ClientSample.server_packet Sample.server_addr m = (r, m') /\
  if is_handshake_fragment ClientSample.server_packet then chs_post m (ClientSample.draws 2) ClientSample.server_packet r m'
  else cdata_post m ClientSample.server_packet Sample.server_addr r m'.
Proof.
  destruct client_sample_established as (m & Hr & _). exists m.
  destruct (client_manager_handle (ClientSample.draws 2) ClientSample.server_packet Sample.server_addr m)
    as [r m'] eqn:E.
  exists r, m'. split; [exact Hr|]. split; [reflexivity|].
  exact (client_gate_authentic Sample.client_cfg SessionLimits_default m (ClientSample.draws 2)
    ClientSample.server_packet Sample.server_addr r m' Hr E).
Defined.

(** A tick of the client performs exactly the closure that is due (the
    handshake deadline; or, on a session, the lifetime cap, else the
    confirmation deadline before and the liveness limit after confirmation),
    leaving the manager idle and asking to be re-armed; it drops exactly the
    expired payloads and reports them; and it hands over the queued closures and
    the [Close] retransmissions, in this order. *)
Theorem client_tick_exact {P : Primitives} {L : PrimitivesLaws P} cfg limits m now d :
  cm_reaches cfg limits m -> ticked now m (client_tick now d m).1 (client_tick now d m).2.
Proof. intros Hr. destruct (cm_reaches_wf _ _ _ Hr) as [Hwf _]. by apply client_tick_spec. Qed.

Lemma client_tick_exact_witness : exists m, cm_reaches Sample.client_cfg SessionLimits_default m /\
  ticked (from_secs 9) m (client_tick (from_secs 9) (ClientSample.draws 9) m).1
    (client_tick (from_secs 9) (ClientSample.draws 9) m).2.
Proof.
  destruct client_sample_established as (m & Hr & _). exists m. split; [exact Hr|].
  exact (client_tick_exact Sample.client_cfg SessionLimits_default m (from_secs 9) (ClientSample.draws 9) Hr).
Defined.

(** A session slot carries what it should: within the slot interval of the
    previous one, nothing; otherwise the oldest payload still within its time to
    live (the expired ones are discarded first), or, with none, the liveness
    probe that is due, which counts an unanswered round on a confirmed session;
    each as one packet encrypted on the session and sent to the peer. *)
Theorem client_slot_exact {P : Primitives} {L : PrimitivesLaws P} cfg limits m w now d :
  cm_reaches cfg limits m -> cm_session m = Some w -> ws_state w = Established ->
  send_counter (ws_cipher w) < MAX_PACKET_NONCE ->
  if paced now m then take_slot now d m = (None, m) else slotted now m w (take_slot now d m).
Proof.
  intros Hr Hw Hs Hc. destruct (cm_reaches_wf _ _ _ Hr) as [Hwf _].
  pose proof (cw_session _ Hwf) as Hh. rewrite Hw in Hh. destruct Hh as ([_ [Hl|Hl]] & _); [|by rewrite Hs in Hl].
  destruct (paced now m) eqn:Hp; [|by apply take_slot_room].
  unfold take_slot. rewrite Hw. fold (paced now m). by rewrite Hp.
Qed.

Lemma sample_facts m : sample_established m = true ->
  exists w, cm_session m = Some w /\ ws_state w = Established /\
    send_counter (ws_cipher w) + 3 <= MAX_PACKET_NONCE /\ cm_state m = CmEstablished /\
    cm_out_queue m = [] /\ cm_rounds_unanswered m = 0 /\ cm_next_probe_at m = Some (from_secs 6) /\
    cm_last_slot_at m = None.
Proof.
  unfold sample_established, cm_state. destruct (cm_session m) as [w|]; [|done]. intros H. exists w.
  rewrite !andb_true_iff, !bool_decide_eq_true, Z.leb_le, Z.eqb_eq in H.
  destruct H as ((((((H1 & H2) & H3) & H4) & H5) & H6) & H7). rewrite H3. auto 10.
Qed.

Lemma client_slot_exact_witness : exists m w, cm_session m = Some w /\
  (if paced (from_secs 6) m then take_slot (from_secs 6) (ClientSample.draws 6) m = (None, m)
   else slotted (from_secs 6) m w (take_slot (from_secs 6) (ClientSample.draws 6) m)).
Proof.
  destruct client_sample_established as (m & Hr & Hm).
  destruct (sample_facts m Hm) as (w & Hw & Hs & Hc & _). exists m, w. split; [exact Hw|].
  apply (client_slot_exact Sample.client_cfg SessionLimits_default m w (from_secs 6) (ClientSample.draws 6)
    Hr Hw Hs). lia.
Defined.

(** C26: A dead peer is detected: a confirmed client with an empty queue that
    hears nothing, and whose driver keeps giving it slots and ticks at least a
    probe interval and a slot interval apart, reports the closure of its session
    after at most as many rounds as are left of [liveness_rounds], and is then
    idle and asking to be re-armed. *)
Theorem client_dead_peer_detected {P : Primitives} {L : PrimitivesLaws P} cfg limits m w d from ts :
  cm_reaches cfg limits m -> cm_state m = CmEstablished -> cm_session m = Some w -> ws_state w = Established ->
  send_counter (ws_cipher w) + Z.of_nat (length ts) <= MAX_PACKET_NONCE ->
  cm_out_queue m = [] ->
  0 <= cm_rounds_unanswered m < sl_liveness_rounds limits -> sl_liveness_rounds limits < 2 ^ 32 ->
  (forall due, cm_next_probe_at m = Some due -> due <= from) ->
  (forall l, cm_last_slot_at m = Some l -> l + sl_slot_interval limits <= from) ->
  probe_times limits from ts -> sl_liveness_rounds limits <= cm_rounds_unanswered m + Z.of_nat (length ts) ->
  (exists reason, In (EvClosed (ws_session_id w) reason) (silent_run d ts m).1) /\
  cm_state (silent_run d ts m).2 = CmIdle /\ needs_rearm (silent_run d ts m).2 = true.
Proof.
  intros Hr Hst Hw Hs Hc Hq Hro H32 Hp Hsl Hsp Hlen. destruct (cm_reaches_wf _ _ _ Hr) as (Hwf & _ & <-).
  pose proof (cw_session _ Hwf) as Hh. rewrite Hw in Hh.
  destruct Hh as ([_ [Hl|Hl]] & _ & _ & [pd Hpd]); [|by rewrite Hs in Hl].
  destruct (silent_run_closes d ts m (ws_session_id w) (cm_rounds_unanswered m) from) as [H (_ & ? & ?)]; try done.
  split; [done|by exists w| |done|done|by eauto|].
  - unfold cm_state in Hst. rewrite Hw in Hst. by destruct (cm_ready m).
  - destruct (cm_last_slot_at m) as [l|]; [|done]. by apply Hsl.
Qed.

Lemma client_dead_peer_detected_witness : exists m,
  cm_reaches Sample.client_cfg SessionLimits_default m /\
  cm_state (silent_run (ClientSample.draws 20) [from_secs 6; from_secs 11; from_secs 16] m).2 = CmIdle.
Proof.
  destruct client_sample_established as (m & Hr & Hm). exists m. split; [exact Hr|].
  destruct (sample_facts m Hm) as (w & Hw & Hs & Hc & Hst & Hq & Hro & Hp & Hsl).
  refine (proj1 (proj2 (client_dead_peer_detected Sample.client_cfg SessionLimits_default m w
    (ClientSample.draws 20) (from_secs 6) [from_secs 6; from_secs 11; from_secs 16]
    Hr Hst Hw Hs Hc Hq _ _ _ _ _ _))); rewrite ?Hro, ?Hp, ?Hsl.
  - split; reflexivity || discriminate.
  - reflexivity.
  - intros x Hx. injection Hx as <-. discriminate.
  - intros x Hx. discriminate Hx.
  - cbn [probe_times]. repeat split; vm_compute; discriminate.
  - vm_compute. discriminate.
Defined.

(** A probe that finds the send nonces exhausted wedges the client: the slot
    reports nothing, the session stays in place in the state [Rekey], and from
    then on, without a lifetime cap, no sequence of datagrams, timers, slots,
    ticks and outbound payloads closes it: it still counts as established, no
    tick ever has a closure due, and every payload is refused with an error. *)
Theorem client_probe_exhaustion {P : Primitives} {L : PrimitivesLaws P} m w now d pd inputs :
  cm_wf m -> cm_state m = CmEstablished -> cm_session m = Some w -> ws_state w = Established ->
  send_counter (ws_cipher w) = MAX_PACKET_NONCE -> cm_out_queue m = [] -> paced now m = false ->
  cm_next_probe_at m = Some pd -> pd <= now ->
  cm_rounds_unanswered m < sl_liveness_rounds (cm_limits m) -> sl_lifetime_cap (cm_limits m) = None ->
  (take_slot now d m).1 = None /\
  let m' := foldl cm_feed (take_slot now d m).2 inputs in
  cm_state m' = CmEstablished /\ (forall t, due t m' = None) /\
  forall d' payload, length payload = PAYLOAD_LEN ->
    (client_tun_outbound d' payload m').1 = Fail (ME_Session wrong_state).
Proof.
  intros Hwf Hst Hw Hs Hc Hq Hpace Hp Hpd Hro Hl.
  pose proof (cw_session _ Hwf) as Hh. rewrite Hw in Hh. destruct Hh as ([_ [Hlive|Hx]] & _); [|by rewrite Hs in Hx].
  pose proof (take_slot_keeps now d m Hwf) as (Hwf' & _).
  assert (cm_ready m = true) as Hr by (unfold cm_state in Hst; rewrite Hw in Hst; by destruct (cm_ready m)).
  destruct (take_slot_exhausted now d m w pd) as (m1 & w' & np & Hts & (n & l & ->) & Hre); try done.
  rewrite Hts in *. cbn [fst snd] in *. split; [done|].
  set (m' := foldl cm_feed _ inputs).
  assert (wedged m') as Hwe by (apply wedged_feeds; split; [exact Hwf'|]; split; [by exists w'|]; done).
  pose proof Hwe as (Hwfm & (w2 & Hw2 & Hs2) & Hr2 & _). clearbody m'.
  split; [unfold cm_state; by rewrite Hw2, Hr2|]. split; [intros t; by apply wedged_due|].
  intros d' payload Hlen. unfold client_tun_outbound, mbind, M_bind, get.
  rewrite Hlen, Nat.eqb_refl. cbn [negb]. rewrite bool_decide_false by (by rewrite Hw2).
  by rewrite (rekey_send m' w2).
Qed.

(** The sample session with its last nonce spent. *)
Definition exhausted (w : WireSession) : WireSession :=
  ws_with w (ws_state w) (set_send_counter (ws_cipher w) MAX_PACKET_NONCE) (ws_metrics w).

Lemma exhausted_live w : ws_live (ws_session_id w) w -> ws_live (ws_session_id w) (exhausted w).
Proof.
  intros (H1 & H2 & H3 & H4). split; [done|]. split; [done|]. split; [done|].
  destruct H4 as (? & ? & ? & ? & ? & _). do 5 (split; [done|]). by split.
Qed.

Lemma client_probe_exhaustion_witness : exists m, cm_wf m /\
  (take_slot (from_secs 6) (ClientSample.draws 6) m).1 = None /\
  cm_state (foldl cm_feed (take_slot (from_secs 6) (ClientSample.draws 6) m).2
    [InTick (from_secs 100) (ClientSample.draws 100)]) = CmEstablished.
Proof.
  destruct client_sample_established as (m & Hr & Hm).
  destruct (sample_facts m Hm) as (w & Hw & Hs & Hc & Hst & Hq & Hro & Hp & Hsl).
  destruct (cm_reaches_wf _ _ _ Hr) as (Hwf & _ & Hlim).
  pose proof (cw_session _ Hwf) as Hh. rewrite Hw in Hh.
  destruct Hh as ([Hlen [Hl|Hx]] & _); [|rewrite Hs in Hx; discriminate Hx].
  set (m1 := cm_set_session (Some (exhausted w)) m).
  assert (ckeeps m m1) as [Hwf1 _].
  { apply (cm_set_session_keeps m w); [exact Hwf|exact Hw| |reflexivity]. split; [exact Hlen|].
    left. exact (exhausted_live w Hl). }
  assert (cm_state m1 = CmEstablished) as Hst1.
  { unfold cm_state in Hst |- *. rewrite Hw in Hst. exact Hst. }
  assert (paced (from_secs 6) m1 = false) as Hpace by (unfold paced, m1; cbn; rewrite Hsl; reflexivity).
  exists m1. split; [exact Hwf1|].
  destruct (client_probe_exhaustion m1 (exhausted w) (from_secs 6) (ClientSample.draws 6) (from_secs 6)
    [InTick (from_secs 100) (ClientSample.draws 100)] Hwf1 Hst1 eq_refl Hs eq_refl Hq Hpace Hp
    ltac:(lia) ltac:(cbn; rewrite Hro, Hlim; reflexivity) ltac:(cbn; rewrite Hlim; reflexivity))
    as (H1 & H2 & _).
  split; [exact H1|exact H2].
Defined.
