(* ===== verification/Conform.v ===== *)
(** * The wire format of what is sent

    A datagram conforms when the other end can only read it the way it was meant:
    as a handshake fragment that [from_datagram] accepts, of a message type the
    sending end is to send, or as a data packet under the current version with a
    counter below the rotation threshold. This file shows that the handshake
    machines and the managers only hand out such datagrams. A computation is typed
    when it preserves the invariant of its state and returns a value of its kind;
    the rules compose along the monad, and the hint database [typed] applies
    them. The sizes that are types in the source, [[u8; 1280]] for a packet and
    [[u8; 8]] for an identifier, are part of the invariants. *)

From S2P Require Import Prelude Bytes Errors Codec Replay Crypto Envelope WireSession Exec Net HandshakeMsg HandshakeFrag HandshakeClient HandshakeServer HandshakeSafety HandshakeClientOk SessionCommon ServerManager ClientManager FailGateOk ServerManagerOk ClientManagerOk ClientManagerSafe.

Local Open Scope Z_scope.

Create HintDb typed discriminated.

(** ** Typed computations *)

Definition typed {S E A} (I : S -> Prop) (R : A -> Prop) (m : M S E A) : Prop :=
  forall s, I s -> I (m s).2 /\ forall a, (m s).1 = Ret a -> R a.

Definition anything {A} (a : A) : Prop := True.

Section Rules.
Context {S E : Type} {I : S -> Prop}.

Lemma typed_ret {A} (R : A -> Prop) a : R a -> typed (E := E) I R (mret a).
Proof. intros H s Hs. split; [done|]. by intros ? [= <-]. Qed.

Lemma typed_bind {A B} (R : A -> Prop) (R' : B -> Prop) (m : M S E A) k :
  typed I R m -> (forall a, R a -> typed I R' (k a)) -> typed I R' (m ≫= k).
Proof.
  intros Hm Hk s Hs. destruct (Hm s Hs) as [H1 H2]. unfold mbind, M_bind.
  destruct (m s) as [[a|e|p] s']; cbn [fst snd] in *; [|by split..]. by apply Hk; [apply H2|].
Qed.

Lemma typed_get : typed (E := E) I I get.
Proof. intros s Hs. split; [done|]. by intros ? [= <-]. Qed.

Lemma typed_modify f : (forall s, I s -> I (f s)) -> typed (E := E) I anything (modify f).
Proof. intros H s Hs. by split; [apply H|]. Qed.

Lemma typed_call {A} (R : A -> Prop) f :
  (forall s, I s -> I (f s).2 /\ R (f s).1) -> typed (E := E) I R (call f).
Proof. intros H s Hs. destruct (H s Hs). split; [done|]. by intros ? [= <-]. Qed.

Lemma typed_try {F A} (R : A -> Prop) (f : F -> E) r :
  (forall a, r = Ok a -> R a) -> typed I R (try f r).
Proof. intros H s Hs. destruct r; (split; [done|]); intros ? [= <-]; auto. Qed.

Lemma typed_expect {A} (R : A -> Prop) site o :
  (forall a, o = Some a -> R a) -> typed (E := E) I R (expect site o).
Proof. intros H s Hs. destruct o; (split; [done|]); intros ? [= <-]; auto. Qed.

Lemma typed_map_fail {F A} (R : A -> Prop) (f : F -> E) m : typed I R m -> typed I R (map_fail f m).
Proof.
  intros H s Hs. destruct (H s Hs) as [H1 H2]. unfold map_fail.
  destruct (m s) as [[a|e|p] s']; cbn [fst snd] in *; (split; [done|]); intros ? [= <-]. by apply H2.
Qed.

Lemma typed_zoom {T A} (J : T -> Prop) (R : A -> Prop) sel upd (m : M T E A) :
  (forall s, I s -> J (sel s)) -> (forall s t, I s -> J t -> I (upd t s)) -> typed J R m ->
  typed I R (zoom sel upd m).
Proof.
  intros Hsel Hupd H s Hs. destruct (H _ (Hsel s Hs)) as [H1 H2]. unfold zoom.
  destruct (m (sel s)) as [r t]. cbn [fst snd] in *. by split; [apply Hupd|].
Qed.

Lemma typed_weaken {A} (R R' : A -> Prop) (m : M S E A) :
  typed I R m -> (forall a, R a -> R' a) -> typed I R' m.
Proof. intros H Hr s Hs. destruct (H s Hs) as [H1 H2]. split; [done|]. intros a Ha. by apply Hr, H2. Qed.

Lemma typed_any {A} (R : A -> Prop) (m : M S E A) : typed I R m -> typed I anything m.
Proof. intros H. by eapply typed_weaken. Qed.

Lemma typed_attempt {A} (R : A -> Prop) (m : M S E A) :
  typed I R m -> typed I (fun r => forall a, r = Ok a -> R a) (attempt m).
Proof.
  intros H s Hs. destruct (H s Hs) as [H1 H2]. unfold attempt.
  destruct (m s) as [[a|e|p] s']; cbn [fst snd] in *; (split; [done|]); intros ? [= <-]; [|done].
  intros ? [= <-]. by apply H2.
Qed.

Lemma typed_for_each {X} (Q : X -> Prop) (f : X -> M S E ()) l :
  (forall x, Q x -> typed I anything (f x)) -> Forall Q l -> typed I anything (for_each f l).
Proof.
  intros H. induction 1 as [|x l Hx _ IH]; cbn [for_each]; [by apply typed_ret|].
  eapply typed_bind; [by apply H|]. by intros.
Qed.

(** What a computation of that kind returns, beside any postcondition. *)
Lemma wp_typed {A} (R : A -> Prop) (m : M S E A) s (Q : exec E A -> S -> Prop) :
  typed I R m -> I s -> wp m s Q -> wp m s (fun r s' => Q r s' /\ I s' /\ forall a, r = Ret a -> R a).
Proof. intros H Hs HQ. destruct (H s Hs) as [H1 H2]. by split. Qed.

End Rules.

(** Steps through a computation; what it calls is left to the database. *)
Ltac typed_step :=
  cbv beta;
  lazymatch goal with
  | |- typed _ _ (mret _) => apply typed_ret
  | |- typed _ _ (mbind _ (try _ ?r)) =>
      apply (typed_bind (fun a => r = Ok a)); [by apply typed_try|intros ? ?]
  | |- typed _ _ (mbind _ (expect _ ?o)) =>
      apply (typed_bind (fun a => o = Some a)); [by apply typed_expect|intros ? ?]
  | |- typed _ _ (mbind _ _) => eapply typed_bind; [|intros ? ?]
  | |- typed _ _ get => apply typed_get
  | |- typed _ _ (modify _) => apply typed_modify; intros ? ?
  | |- typed _ _ (try _ _) => apply typed_try; intros ? ?
  | |- typed _ _ (map_fail _ _) => apply typed_map_fail
  | |- typed _ _ (if ?b then _ else _) => let E := fresh "E" in destruct b eqn:E
  | |- typed _ _ (match ?x with _ => _ end) => let E := fresh "E" in destruct x eqn:E
  end.

Ltac typed_go :=
  repeat first [solve [eauto 3 with typed] | typed_step]; cbv beta in *; try done; eauto with typed.

(** The elements of a list given by its constructors. *)
Ltac foralls := cbn [option_list]; repeat first [apply Forall_nil_2 | apply Forall_cons_2]; try done.

(** ** Packets and messages *)

Definition sid_typed (sid : bytes) : Prop := length sid = SESSION_ID_LEN.

Lemma write_at_keeps n off src buf :
  length buf = n -> (off + length src <= n)%nat -> length (write_at off src buf) = n.
Proof. intros <- H. by apply length_write_at. Qed.

(** The message types each end sends. *)
Definition server_types : list byte := [HS_TYPE_SERVER_HELLO].
Definition client_types : list byte := [HS_TYPE_CLIENT_HELLO; HS_TYPE_CLIENT_CONFIRM].

(** The first counter whose high byte can be mistaken for a message type. *)
Definition ALIAS_COUNTER : Z := 2 ^ 60.

Definition conforms (ts : list byte) (p : WirePacket) : Prop :=
  WirePacket_wf p /\
  ((is_handshake_fragment p = true /\ exists f, from_datagram p = Ok f /\ hf_hs_type f ∈ ts) \/
   (exists h, WirePacket_parse_header p = Ok h /\ ph_packet_nonce h < MAX_PACKET_NONCE /\
      (ph_packet_nonce h < ALIAS_COUNTER -> is_handshake_fragment p = false))).

Lemma fragment_message_conforms ts t v sid msg ps :
  sid_typed sid -> v = PROTOCOL_VERSION -> t ∈ ts -> fragment_message t v sid msg = Ok ps -> Forall (conforms ts) ps.
Proof.
  intros Hs -> Ht Hm. destruct (fragment_message_inv _ _ _ _ _ Hm) as (total & n & Hmsg & ->).
  apply Forall_fmap, Forall_forall. intros i Hi. apply elem_of_seq in Hi. split; [by eapply datagram_wf|]. left.
  split; [by eapply datagram_is_handshake|]. eexists. split; [eapply from_datagram_fragment; [done|done|lia]|done].
Qed.

Lemma data_packet_conforms ts sid c ct :
  sid_typed sid -> 0 <= c < MAX_PACKET_NONCE -> length ct = (PACKET_SIZE - HEADER_LEN)%nat ->
  conforms ts (mkWirePacket (PacketHeader_encode (PacketHeader_new sid c) ++ ct)).
Proof.
  intros Hs Hc Hct. split.
  { unfold WirePacket_wf. cbn [as_bytes]. rewrite length_app, length_PacketHeader_encode, Hct by done. dims. }
  right. exists (PacketHeader_new sid c). split; [|split; [cbn; lia|]].
  - apply WirePacket_parse_header_app; [|done]. apply PacketHeader_new_wf; [done|lia].
  - cbn [ph_packet_nonce PacketHeader_new]. intros Ha. apply data_packet_not_handshake; [done|].
    unfold ALIAS_COUNTER in Ha. lia.
Qed.

Lemma conforms_wf ts p : conforms ts p -> WirePacket_wf p.
Proof. by intros []. Qed.

Lemma conform_all_wf ts ps : Forall (conforms ts) ps -> Forall WirePacket_wf ps.
Proof. intros H. eapply Forall_impl; [exact H|]. apply conforms_wf. Qed.

Lemma from_parts_inv header region p :
  length header = HEADER_LEN -> WirePacket_from_parts header region = Ok p ->
  length region = (PACKET_SIZE - HEADER_LEN)%nat /\ p = mkWirePacket (header ++ region).
Proof.
  intros Hh Hp. assert (Hp' := Hp). unfold WirePacket_from_parts in Hp'.
  destruct (bool_decide (byte_at 0 header = PROTOCOL_VERSION)) eqn:Hv; [|done]. cbn [negb] in Hp'.
  destruct (Nat.eqb_spec (length region) (PACKET_SIZE - HEADER_LEN)) as [Hr|]; [|done].
  apply bool_decide_eq_true in Hv. rewrite WirePacket_from_parts_app in Hp by done. by injection Hp as <-.
Qed.

Section Sessions.
Context {P : Primitives}.

(** The identifier in the header of a session's packets, and its counter. *)
Definition cs_typed (c : CipherSession) : Prop := sid_typed (cs_session_id c) /\ 0 <= send_counter c.
Definition ws_typed (w : WireSession) : Prop := cs_typed (ws_cipher w).

Lemma encrypt_typed ts c ty payload r c' :
  cs_typed c -> encrypt c ty payload = (r, c') ->
  cs_typed c' /\ forall p, r = Ok p -> conforms ts p.
Proof.
  intros [Hs Hn]. unfold encrypt, encrypt_traced, aead_call, is_counter_exhausted.
  pose proof (length_PacketHeader_encode (PacketHeader_new (cs_session_id c) (send_counter c)) Hs) as Hh.
  case_match; [intros [= <- <-]; by repeat split|].
  destruct (Z.leb_spec MAX_PACKET_NONCE (send_counter c)) as [|Hmax]; [intros [= <- <-]; by repeat split|].
  repeat (case_match; try (intros [= <- <-]; by repeat split)).
  intros [= <- <-]. match goal with H : checked_add _ _ _ = Some _ |- _ => rewrite checked_add_counter in H by lia; injection H as <- end.
  split; [split; [done|cbn; lia]|]. intros p [= <-].
  match goal with H : WirePacket_from_parts _ _ = Ok _ |- _ => destruct (from_parts_inv _ _ _ Hh H) as [Hr ->] end.
  by apply data_packet_conforms.
Qed.

Lemma ws_encrypt_typed ts w ty payload r w' :
  ws_typed w -> WireSession_encrypt w ty payload = (r, w') ->
  ws_typed w' /\ forall p, r = Ok p -> conforms ts p.
Proof.
  intros Hw. unfold WireSession_encrypt. destruct (require_established w); [|by intros [= <- <-]].
  destruct (encrypt (ws_cipher w) ty payload) as [r0 c] eqn:E.
  destruct (encrypt_typed ts _ _ _ _ _ Hw E) as [Hc Hp]. unfold ws_typed.
  repeat case_match; intros [= <- <-]; cbn [ws_cipher ws_with]; (split; [done|]); intros ? [= <-]; auto.
Qed.

Lemma ws_cover_typed ts w fill r w' :
  ws_typed w -> WireSession_cover w fill = (r, w') -> ws_typed w' /\ forall p, r = Ok p -> conforms ts p.
Proof.
  intros Hw. unfold WireSession_cover. repeat case_match; try (by intros [= <- <-]). by apply ws_encrypt_typed.
Qed.

Lemma decrypt_keeps c p : cs_session_id (decrypt c p).2 = cs_session_id c /\ send_counter (decrypt c p).2 = send_counter c.
Proof. unfold decrypt. repeat case_match; done. Qed.

Lemma ws_decrypt_typed w p : ws_typed w -> ws_typed (WireSession_decrypt w p).2.
Proof.
  intros Hw. unfold WireSession_decrypt. destruct (require_established w); [|done].
  destruct (decrypt_keeps (ws_cipher w) p) as [Hd Hc]. unfold ws_typed, cs_typed in *.
  destruct (decrypt (ws_cipher w) p) as [r c]. cbn [snd] in Hd, Hc.
  repeat case_match; simplify_eq; cbn [snd ws_cipher ws_with]; by rewrite ?Hd, ?Hc.
Qed.

Lemma ws_established_typed role o now w :
  sid_typed (ho_session_id o) -> WireSession_established role o now = Ok w -> ws_typed w.
Proof.
  intros Hs. unfold WireSession_established. intros Hw. apply bind_ok in Hw as (c & Hc & [= <-]).
  destruct (CipherSession_new _ _ _) as [c'|] eqn:E; [|done]. injection Hc as <-. unfold ws_typed. cbn [ws_cipher].
  unfold CipherSession_new in E. do 4 apply bind_ok in E as (? & _ & E). injection E as <-. by split.
Qed.

End Sessions.

(** ** The handshake machines *)

Section Machines.
Context {P : Primitives}.

Record sh_typed (h : ServerHandshake) : Prop := {
  sht_version : sc_version (sh_cfg h) = PROTOCOL_VERSION;
  sht_pending : map_Forall (fun sid _ => sid_typed sid) (sh_pending h) }.

Definition srv_event_typed (ev : ServerEvent) : Prop :=
  match ev with
  | SrvEmit ps _ => Forall (conforms server_types) ps
  | SrvComplete o => sid_typed (ho_session_id o)
  | SrvNone => True
  end.

Lemma sh_typed_sub f h :
  (forall m : gmap bytes PendingSession, f m ⊆ m) -> sh_typed h -> sh_typed (sh_map_pending f h).
Proof. intros Hf [Hv H]. split; [done|]. eapply map_Forall_sub; [apply Hf|exact H]. Qed.

Lemma sh_typed_insert sid e h :
  sid_typed sid -> sh_typed h -> sh_typed (sh_map_pending (<[sid := e]>) h).
Proof. intros Hs [Hv H]. split; [done|]. by apply map_Forall_insert_2. Qed.

Lemma sh_typed_alter f sid h : sh_typed h -> sh_typed (sh_map_pending (alter f sid) h).
Proof.
  intros [Hv H]. split; [done|]. intros k e. cbn [sh_pending sh_map_pending]. intros He. apply lookup_alter_Some in He as [(-> & x & Hx & _)|[_ Hx]]; by eapply H.
Qed.

Lemma sh_typed_evict now h : sh_typed h -> sh_typed (evict_expired now h).
Proof. apply sh_typed_sub. intros m. apply map_filter_subseteq. Qed.

Lemma rate_ok_pending from now h :
  sh_pending (rate_ok from now h).2 = sh_pending h /\ sh_cfg (rate_ok from now h).2 = sh_cfg h.
Proof. unfold rate_ok, rate_prune. repeat case_match; done. Qed.

Lemma rate_ok_typed from now : typed (E := HandshakeV2Error) sh_typed anything (call (rate_ok from now)).
Proof. apply typed_call. intros h [Hv Hp]. split; [|done].
  destruct (rate_ok_pending from now h) as [E1 E2]. split; by rewrite ?E1, ?E2. Qed.

Lemma remove_pending_typed sid : typed sh_typed anything (remove_pending sid).
Proof. apply typed_modify. intros h. apply sh_typed_sub. intros m. apply delete_subseteq. Qed.

Lemma server_hello_type : HS_TYPE_SERVER_HELLO ∈ server_types.
Proof. left. Qed.

Lemma emit_typed ps peer : Forall (conforms server_types) ps -> srv_event_typed (SrvEmit ps peer).
Proof. done. Qed.
Lemma complete_typed o : sid_typed (ho_session_id o) -> srv_event_typed (SrvComplete o).
Proof. done. Qed.

#[local] Hint Resolve emit_typed complete_typed rate_ok_typed remove_pending_typed sh_typed_insert sh_typed_alter sh_typed_evict
  fragment_message_conforms sht_version server_hello_type : typed.

Lemma complete_m1_typed d sid m1 from :
  sid_typed sid -> typed sh_typed srv_event_typed (complete_m1 d sid m1 from).
Proof. intros Hs. unfold complete_m1. typed_go. Qed.

#[local] Hint Resolve complete_m1_typed : typed.

Lemma m1_advance_typed d frag e from :
  sid_typed (hf_sid frag) -> typed sh_typed srv_event_typed (m1_advance d frag e from).
Proof. intros Hs. unfold m1_advance. typed_go. Qed.

Lemma m1_resend_typed d frag e from :
  sid_typed (hf_sid frag) -> typed sh_typed srv_event_typed (m1_resend d frag e from).
Proof. intros Hs. unfold m1_resend. typed_go. Qed.

Lemma m1_admit_typed d frag from :
  sid_typed (hf_sid frag) -> typed sh_typed srv_event_typed (m1_admit d frag from).
Proof. intros Hs. unfold m1_admit. typed_go. Qed.

#[local] Hint Resolve m1_advance_typed m1_resend_typed m1_admit_typed : typed.

Lemma server_handle_typed d pkt from :
  WirePacket_wf pkt -> typed sh_typed srv_event_typed (server_handle_datagram d pkt from).
Proof.
  intros Hp. assert (forall f, from_datagram pkt = Ok f -> sid_typed (hf_sid f)) as Hs
    by (intros f; by apply from_datagram_sid).
  unfold server_handle_datagram, on_m1_fragment, on_m3_fragment. destruct (byte_at _ _); typed_go.
Qed.

(** The client's machine: its identifier and the fragments it may send again. *)
Record ch_typed (h : ClientHandshake) : Prop := {
  cht_version : cc_version (ch_cfg h) = PROTOCOL_VERSION;
  cht_sid : sid_typed (ch_sid h);
  cht_m1 : Forall (conforms client_types) (ch_m1_frags h);
  cht_m3 : Forall (conforms client_types) (m3_frags_of h) }.

Lemma validate_version_ok v : validate_version v = Ok () -> v = PROTOCOL_VERSION.
Proof. unfold validate_version. by case_bool_decide. Qed.

Definition cl_event_typed (ev : ClientEvent) : Prop :=
  match ev with
  | CE_Emit ps => Forall (conforms client_types) ps
  | CE_M3Sent ps o => Forall (conforms client_types) ps /\ sid_typed (ho_session_id o)
  | CE_None => True
  end.

Lemma ch_await_typed a n d h : ch_typed h -> ch_typed (ch_set_state (AwaitM2 a n d) h).
Proof. intros [H0 H1 H2 _]. by split. Qed.
Lemma ch_sent_typed ps n d o h : Forall (conforms client_types) ps -> ch_typed h -> ch_typed (ch_set_state (M3Sent ps n d o) h).
Proof. intros Hp [H0 H1 H2 _]. by split. Qed.
Lemma ce_emit_typed ps : Forall (conforms client_types) ps -> cl_event_typed (CE_Emit ps).
Proof. done. Qed.
Lemma ce_m3_typed ps o : Forall (conforms client_types) ps -> sid_typed (ho_session_id o) -> cl_event_typed (CE_M3Sent ps o).
Proof. done. Qed.
Lemma ch_m3_typed h ps n d o : ch_typed h -> ch_state h = M3Sent ps n d o -> Forall (conforms client_types) ps.
Proof. intros [_ _ _ H] E. unfold m3_frags_of in H. by rewrite E in H. Qed.

Lemma confirm_conforms h msg ps :
  ch_typed h -> fragment_message HS_TYPE_CLIENT_CONFIRM (cc_version (ch_cfg h)) (ch_sid h) msg = Ok ps ->
  Forall (conforms client_types) ps.
Proof. intros [Hv Hs _ _]. apply fragment_message_conforms; [done|done|]. right. left. Qed.

#[local] Hint Resolve ch_await_typed ch_sent_typed ce_emit_typed ce_m3_typed ch_m3_typed confirm_conforms cht_sid cht_m1 : typed.

Lemma client_new_typed cfg sid k x j :
  sid_typed sid -> typed (E := HandshakeV2Error) anything ch_typed (ClientHandshake_new cfg sid k x j).
Proof.
  intros Hs. unfold ClientHandshake_new. typed_step.
  match goal with H : validate_version _ = Ok ?u |- _ => destruct u; apply validate_version_ok in H as Hv end.
  typed_go. split; cbn; [done|done| |constructor]. eapply fragment_message_conforms; [done|exact Hv|left|eassumption].
Qed.

Lemma reset_assembler_typed : typed ch_typed anything reset_m2_assembler.
Proof. unfold reset_m2_assembler. typed_go. Qed.

#[local] Hint Resolve reset_assembler_typed : typed.

Lemma on_complete_m2_typed re rj m2 : typed ch_typed cl_event_typed (on_complete_m2 re rj m2).
Proof. unfold on_complete_m2. typed_go. Qed.

#[local] Hint Resolve on_complete_m2_typed : typed.

Lemma client_handle_typed re rj pkt : typed ch_typed cl_event_typed (client_handle_datagram re rj pkt).
Proof. unfold client_handle_datagram. typed_go. Qed.

Lemma client_on_timer_typed rj : typed ch_typed cl_event_typed (client_on_timer rj).
Proof. unfold client_on_timer. typed_go. Qed.

End Machines.

#[export] Hint Resolve server_handle_typed client_new_typed client_handle_typed
  client_on_timer_typed : typed.

(** ** The server manager *)

Definition ev_typed (ts : list byte) (ev : ManagerEvent) : Prop :=
  match ev with
  | EvSend ps _ => Forall (conforms ts) ps
  | EvSendPacket p _ => conforms ts p
  | _ => True
  end.

Definition pc_typed (pc : PendingClose) : Prop := ws_typed (pc_session pc).

Lemma send_typed ts ps peer : Forall (conforms ts) ps -> ev_typed ts (EvSend ps peer).
Proof. done. Qed.
Lemma send_packet_typed ts p peer : conforms ts p -> ev_typed ts (EvSendPacket p peer).
Proof. done. Qed.

#[export] Hint Resolve send_typed send_packet_typed : typed.

Lemma retransmit_closes_typed {P : Primitives} ts now pcs :
  Forall pc_typed pcs ->
  Forall (ev_typed ts) (retransmit_closes now pcs).1 /\ Forall pc_typed (retransmit_closes now pcs).2.
Proof.
  intros H. unfold retransmit_closes. cbn [fst snd].
  assert (forall pc, pc_typed pc -> Forall (ev_typed ts) (retransmit_one now pc).1 /\ pc_typed (retransmit_one now pc).2) as Hone.
  { intros pc Hpc. unfold retransmit_one. case_match; [by split; [constructor|]|].
    destruct (WireSession_encrypt (pc_session pc) Close (zeros PAYLOAD_LEN)) as [r w] eqn:E.
    destruct (ws_encrypt_typed ts _ _ _ _ _ Hpc E) as [Hw Hp]. destruct r; cbn [fst snd]; (split; [|done]); foralls.
    by apply Hp. }
  split.
  - induction H as [|pc pcs Hpc _ IH]; [constructor|]. cbn [fmap list_fmap concat]. apply Forall_app. by split; [apply Hone|].
  - apply Forall_forall. intros pc Hin. apply list_elem_of_filter in Hin as [_ Hin].
    apply list_elem_of_fmap in Hin as (x & -> & Hin). apply list_elem_of_fmap in Hin as (y & -> & Hin).
    apply Hone. by eapply Forall_forall in H.
Qed.

Section Server.
Context {P : Primitives}.

Record sm_typed (m : ServerSessionManager) : Prop := {
  smt_hs : sh_typed (sm_hs m);
  smt_sessions : map_Forall (fun _ e => ws_typed (se_session e)) (sm_sessions m);
  smt_closed : Forall (ev_typed server_types) (sm_pending_closed m);
  smt_closes : Forall pc_typed (sm_pending_closes m) }.

Lemma sm_insert_typed sid e m : ws_typed (se_session e) -> sm_typed m -> sm_typed (sm_map_sessions (<[sid := e]>) m).
Proof. intros He []. split; try done. by apply map_Forall_insert_2. Qed.
Lemma sm_delete_typed sid m : sm_typed m -> sm_typed (sm_map_sessions (delete sid) m).
Proof. intros []. split; try done. by apply map_Forall_delete. Qed.
Lemma sm_gate_typed f m : sm_typed m -> sm_typed (sm_map_gate f m).
Proof. by intros []. Qed.
Lemma sm_closed_typed ev m : ev_typed server_types ev -> sm_typed m -> sm_typed (sm_map_closed (fun q => q ++ [ev]) m).
Proof. intros He []. split; try done. apply Forall_app. by split; [|constructor]. Qed.
Lemma sm_lookup_typed sid e m : sm_typed m -> sm_sessions m !! sid = Some e -> ws_typed (se_session e).
Proof. intros [_ H _ _] He. by eapply H in He. Qed.

#[local] Hint Resolve sm_insert_typed sm_delete_typed sm_gate_typed sm_closed_typed sm_lookup_typed
  ws_established_typed ws_decrypt_typed : typed.

Lemma on_handshake_complete_typed o from now :
  sid_typed (ho_session_id o) -> typed sm_typed (ev_typed server_types) (on_handshake_complete o from now).
Proof. intros Hs. unfold on_handshake_complete. typed_go. Qed.

(** Encrypting on a session of the table and reporting the outcome. *)
Lemma on_session_typed sid f e peer :
  ws_typed (se_session e) ->
  (forall r w, f (se_session e) = (r, w) -> ws_typed w /\ forall p, r = Ok p -> conforms server_types p) ->
  typed sm_typed (ev_typed server_types) (r ← with_session sid f e; send_result sid peer r).
Proof.
  intros He Hf. unfold with_session. destruct (f (se_session e)) as [r w] eqn:E. destruct (Hf _ _ eq_refl) as [Hw Hp].
  eapply (typed_bind (fun x => x = r)).
  - typed_step; [typed_step; by apply sm_insert_typed|]. by apply typed_ret.
  - intros x ->. unfold send_result. typed_go.
Qed.

Lemma session_encrypt_typed sid ty payload e peer :
  ws_typed (se_session e) ->
  typed sm_typed (ev_typed server_types)
    (r ← with_session sid (fun s => WireSession_encrypt s ty payload) e; send_result sid peer r).
Proof. intros He. apply on_session_typed; [done|]. intros r w. by apply ws_encrypt_typed. Qed.

Lemma session_cover_typed sid fill e peer :
  ws_typed (se_session e) ->
  typed sm_typed (ev_typed server_types) (r ← with_session sid (fun s => WireSession_cover s fill) e; send_result sid peer r).
Proof. intros He. apply on_session_typed; [done|]. intros r w. by apply ws_cover_typed. Qed.

Lemma entry_typed m sid e :
  sm_typed m -> ok_or (sm_sessions m !! sid) ME_NoSession = Ok e -> ws_typed (se_session e).
Proof. intros Hm He. destruct (sm_sessions m !! sid) eqn:E; [|done]. injection He as <-. by eapply sm_lookup_typed. Qed.

#[local] Hint Resolve on_handshake_complete_typed session_encrypt_typed session_cover_typed entry_typed : typed.

Lemma on_control_message_typed sid inner : typed sm_typed (ev_typed server_types) (on_control_message sid inner).
Proof. unfold on_control_message. typed_go. Qed.

#[local] Hint Resolve on_control_message_typed : typed.

Lemma server_send_encrypted_typed sid ty payload : typed sm_typed (ev_typed server_types) (server_send_encrypted sid ty payload).
Proof. unfold server_send_encrypted. typed_go. Qed.

Lemma server_cover_packet_typed sid fill : typed sm_typed (ev_typed server_types) (server_cover_packet sid fill).
Proof. unfold server_cover_packet. typed_go. Qed.

#[local] Hint Resolve server_send_encrypted_typed server_cover_packet_typed : typed.

Lemma server_app_outbound_typed sid payload : typed sm_typed (ev_typed server_types) (server_app_outbound sid payload).
Proof. unfold server_app_outbound. typed_go. Qed.

Lemma server_tun_outbound_typed sid payload : typed sm_typed (ev_typed server_types) (server_tun_outbound sid payload).
Proof. unfold server_tun_outbound. typed_go. Qed.

Lemma server_on_data_packet_typed pkt from now : typed sm_typed (ev_typed server_types) (server_on_data_packet pkt from now).
Proof.
  unfold server_on_data_packet. typed_step; [typed_step|]. typed_step; [|by apply typed_ret].
  typed_step; [by apply typed_ret|].
  pose proof (ws_decrypt_typed (se_session s) pkt (sm_lookup_typed _ _ _ H E)) as Hw.
  destruct (WireSession_decrypt (se_session s) pkt) as [r w]. cbn [snd] in Hw. typed_go.
Qed.

#[local] Hint Resolve server_on_data_packet_typed : typed.

Lemma server_manager_handle_typed d now pkt from :
  WirePacket_wf pkt -> typed sm_typed (ev_typed server_types) (server_manager_handle d now pkt from).
Proof.
  intros Hp. unfold server_manager_handle. typed_step; [|eauto with typed].
  apply (typed_bind srv_event_typed).
  - typed_step. apply (typed_zoom sh_typed); [by intros ? []|by intros ? ? []|by apply server_handle_typed].
  - intros ev Hev. typed_go.
Qed.

Lemma cover_packet_all_typed fill : typed sm_typed (Forall (ev_typed server_types)) (cover_packet_all fill).
Proof.
  unfold cover_packet_all. typed_step; [typed_step|]. generalize (sort_sids (map_to_list (sm_sessions a)).*1).
  intros sids. induction sids as [|sid sids IH]; cbn [cover_each]; [by apply typed_ret; constructor|].
  eapply typed_bind; [apply server_cover_packet_typed|]. intros ev Hev.
  eapply typed_bind; [exact IH|]. intros out Hout. apply typed_ret. by destruct ev; try constructor.
Qed.

Lemma begin_close_typed e now m :
  ws_typed (se_session e) -> sm_typed m ->
  sm_typed (begin_close e now m).2 /\ ev_typed server_types (begin_close e now m).1.
Proof.
  intros He [H1 H2 H3 H4]. unfold begin_close.
  destruct (WireSession_encrypt (se_session e) Close (zeros PAYLOAD_LEN)) as [r w] eqn:E.
  destruct (ws_encrypt_typed server_types _ _ _ _ _ He E) as [Hw Hp]. destruct r as [p|]; cbn [fst snd]; [|by split].
  split; [|by apply Hp]. split; try done. cbn. apply Forall_app. by split; [|foralls].
Qed.

Lemma close_session_typed sid now : typed sm_typed (ev_typed server_types) (close_session sid now).
Proof.
  unfold close_session. typed_go. apply typed_call. intros m Hm. apply begin_close_typed; [|done].
  eapply entry_typed; [|eassumption]. done.
Qed.

Lemma server_tick_typed now m : sm_typed m -> sm_typed (server_tick now m).2 /\ Forall (ev_typed server_types) (server_tick now m).1.
Proof.
  intros Hm. unfold server_tick. generalize (omap (fun kv => r ← expiry (sm_limits m) now kv.2; Some (kv.1, r))
    (map_to_list (sm_sessions m))). intros expired.
  assert (forall st, sm_typed st.2 /\ Forall (ev_typed server_types) st.1 ->
    let st' := foldl (fun st sr => expire_session now sr st) st expired in sm_typed st'.2 /\ Forall (ev_typed server_types) st'.1) as Hfold.
  { induction expired as [|[sid reason] expired IH]; intros [out m'] [Hm' Ho]; [done|]. apply IH. cbn [fst snd] in *.
    unfold expire_session. destruct (sm_sessions m' !! sid) as [e|] eqn:He; cbn [fst snd].
    - destruct (begin_close_typed e now (sm_map_sessions (delete sid) m')) as [Hc Hev];
        [by eapply sm_lookup_typed|by apply sm_delete_typed|].
      destruct (begin_close _ _ _) as [ev m'']. cbn [fst snd] in *. split; [done|].
      apply Forall_app. split; [done|]. apply Forall_app. split; [|foralls]. by destruct ev; foralls.
    - split; [done|]. apply Forall_app. split; [done|foralls]. }
  destruct (Hfold ([], m)) as [Hm1 Ho]; [by split; [|constructor]|].
  destruct (foldl _ ([], m) expired) as [out m1]. cbn [fst snd] in *. destruct Hm1 as [H1 H2 H3 H4].
  cbn [sm_pending_closes sm_map_closed]. destruct (retransmit_closes_typed server_types now _ H4) as [R1 R2].
  destruct (retransmit_closes now (sm_pending_closes m1)) as [closes pcs]. cbn [fst snd] in *.
  split; [split; try done; constructor|]. by repeat (apply Forall_app; split).
Qed.

End Server.

#[export] Hint Resolve server_app_outbound_typed server_tun_outbound_typed server_manager_handle_typed
  cover_packet_all_typed close_session_typed : typed.

(** ** The client manager *)

Section Client.
Context {P : Primitives}.

Definition opt_typed {A} (R : A -> Prop) (o : option A) : Prop := forall a, o = Some a -> R a.

Definition cm_typed (m : ClientSessionManager) : Prop :=
  opt_typed ch_typed (cm_hs m) /\ opt_typed ws_typed (cm_session m) /\ Forall (conforms client_types) (cm_m3_frags m) /\
  Forall (ev_typed client_types) (cm_pending_closed m) /\ Forall pc_typed (cm_pending_closes m).

Lemma opt_none {A} (R : A -> Prop) : opt_typed R None.
Proof. done. Qed.
Lemma opt_some {A} (R : A -> Prop) a : R a -> opt_typed R (Some a).
Proof. by intros H ? [= <-]. Qed.

Lemma cm_hs_typed h m : ch_typed h -> cm_typed m -> cm_typed (cm_set_hs (Some h) m).
Proof. intros Hh (_ & H). split; [by apply opt_some|exact H]. Qed.
Lemma cm_install_hs_typed h now m : ch_typed h -> cm_typed m -> cm_typed (cm_install_hs h now m).
Proof. apply cm_hs_typed. Qed.
Lemma cm_clear_hs_typed m : cm_typed m -> cm_typed (cm_clear_hs m).
Proof. intros (_ & H). split; [apply opt_none|exact H]. Qed.
Lemma cm_session_typed w m : ws_typed w -> cm_typed m -> cm_typed (cm_set_session (Some w) m).
Proof. intros Hw (H1 & _ & H). split; [exact H1|]. split; [by apply opt_some|exact H]. Qed.
Lemma cm_install_typed w now ps m :
  ws_typed w -> Forall (conforms client_types) ps -> cm_typed m -> cm_typed (cm_install_session w now ps m).
Proof.
  intros Hw Hp (_ & _ & _ & H). split; [apply opt_none|]. split; [by apply opt_some|]. by split.
Qed.
Lemma cm_drop_typed m : cm_typed m -> cm_typed (cm_drop_session m).
Proof. intros (H1 & _ & _ & H). split; [exact H1|]. split; [apply opt_none|]. by split; [constructor|]. Qed.
Lemma cm_live_typed m w : cm_typed m -> cm_session m = Some w -> ws_typed w.
Proof. intros (_ & H & _). apply H. Qed.
Lemma cm_machine_typed m h : cm_typed m -> cm_hs m = Some h -> ch_typed h.
Proof. intros (H & _). apply H. Qed.
Lemma cm_frags_typed m : cm_typed m -> Forall (conforms client_types) (cm_m3_frags m).
Proof. intros (_ & _ & H & _). exact H. Qed.
Lemma cm_retire_typed sid m : cm_typed m -> cm_typed (retire_sid sid m).
Proof. intros H. unfold retire_sid. case_bool_decide; [done|]. by destruct (trim_history _ _ _). Qed.
Lemma cm_remember_typed sid m : cm_typed m -> cm_typed (remember_sid sid m).
Proof. intros H. unfold remember_sid. by destruct (trim_history _ _ _). Qed.

#[local] Hint Resolve cm_hs_typed cm_install_hs_typed cm_clear_hs_typed cm_session_typed cm_install_typed
  cm_live_typed cm_machine_typed cm_frags_typed cm_remember_typed ws_established_typed : typed.

Lemma lift_new_typed {A} (R : A -> Prop) (f : M () HandshakeV2Error A) :
  typed anything R f -> typed cm_typed R (lift_new f).
Proof.
  intros H m Hm. destruct (H () I) as [_ Hr]. unfold lift_new.
  destruct (f ()) as [[a|e|p] u]; cbn [fst snd] in *; (split; [done|]); intros ? [= <-]. by apply Hr.
Qed.

Lemma with_hs_typed {A} (R : A -> Prop) (f : M ClientHandshake HandshakeV2Error A) h :
  ch_typed h -> typed ch_typed R f ->
  typed cm_typed (fun r => forall a, r = Ok a -> R a) (with_hs f h).
Proof.
  intros Hh H m Hm. destruct (H h Hh) as [H1 H2]. unfold with_hs.
  destruct (f h) as [[a|e|p] h']; cbn [fst snd] in *; (split; [by apply cm_hs_typed|]); intros ? [= <-]; [|done].
  intros ? [= <-]. by apply H2.
Qed.

Lemma fresh_sid_typed d : draws_ok d -> typed cm_typed sid_typed (fresh_sid d).
Proof.
  intros Hd. unfold fresh_sid. generalize 8%nat at 1 as n. generalize 0%nat as i. intros i n. revert i.
  induction n as [|n IH]; intros i; cbn [fresh_sid_from]; [by apply typed_try|].
  typed_step. typed_step; [typed_step|]. typed_step; [apply IH|]. typed_step; [typed_step; by apply cm_remember_typed|].
  apply typed_ret.
  unfold random_sid, map_err in *. destruct (cd_fill d i) eqn:Ef; [|done]. simplify_eq/=. by apply (Hd i).
Qed.

#[local] Hint Resolve lift_new_typed fresh_sid_typed : typed.

Lemma cm_begin_handshake_typed d : draws_ok d -> typed cm_typed (ev_typed client_types) (cm_begin_handshake d).
Proof.
  intros Hd. unfold cm_begin_handshake. typed_step; [typed_step|]. typed_step; [typed_go|].
  eapply typed_bind; [by apply fresh_sid_typed|]. intros sid Hs.
  eapply typed_bind; [apply lift_new_typed; by apply client_new_typed|]. intros hs Hh.
  typed_step; [typed_step; by apply cm_install_hs_typed|]. apply typed_ret. apply Hh.
Qed.

Lemma build_probe_typed m :
  cm_typed m -> cm_typed (build_probe m).2 /\ opt_typed (conforms client_types) (build_probe m).1.
Proof.
  intros Hm. unfold build_probe. destruct (cm_session m) as [w|] eqn:Hw; [|by split].
  destruct (WireSession_encrypt w Handshake (control_payload PROBE)) as [r w'] eqn:E.
  destruct (ws_encrypt_typed client_types _ _ _ _ _ (cm_live_typed _ _ Hm Hw) E) as [Hw' Hp].
  destruct r as [p|]; cbn [fst snd]; (split; [by apply cm_session_typed|]); [|done]. apply opt_some. by apply Hp.
Qed.

Lemma probe_call_typed : typed (E := ManagerError) cm_typed (opt_typed (conforms client_types)) (call build_probe).
Proof. apply typed_call. apply build_probe_typed. Qed.

Lemma with_probe_typed ps probe :
  Forall (conforms client_types) ps -> opt_typed (conforms client_types) probe -> Forall (conforms client_types) (ps ++ option_list probe).
Proof. intros Hp Ho. apply Forall_app. split; [done|]. destruct probe; foralls. by apply Ho. Qed.

#[local] Hint Resolve probe_call_typed with_probe_typed : typed.

Lemma on_m3_sent_typed d ps o :
  Forall (conforms client_types) ps -> sid_typed (ho_session_id o) -> typed cm_typed (ev_typed client_types) (on_m3_sent d ps o).
Proof. intros Hp Ho. unfold on_m3_sent. typed_go. Qed.

Lemma teardown_typed now sc m : cm_typed m -> cm_typed (teardown now sc m).2 /\ opt_typed (ev_typed client_types) (teardown now sc m).1.
Proof.
  intros Hm. unfold teardown. destruct (cm_session m) as [w|] eqn:Hw; [|by split].
  pose proof (cm_retire_typed (ws_session_id w) _ (cm_drop_typed _ Hm)) as Hd.
  set (m1 := retire_sid _ _) in *. clearbody m1. destruct (negb sc); [by split|].
  destruct (WireSession_encrypt w Close (zeros PAYLOAD_LEN)) as [r w'] eqn:E.
  destruct (ws_encrypt_typed client_types _ _ _ _ _ (cm_live_typed _ _ Hm Hw) E) as [Hw' Hp].
  destruct r as [p|]; cbn [fst snd]; [|by split]. split; [|apply opt_some; by apply Hp].
  destruct Hd as (H1 & H2 & H3 & H4 & H5). do 4 (split; [done|]). cbn. apply Forall_app. by split; [|foralls].
Qed.

Lemma teardown_call_typed now sc : typed (E := ManagerError) cm_typed anything (call (teardown now sc)).
Proof. apply typed_call. intros m Hm. split; [by apply teardown_typed|done]. Qed.

#[local] Hint Resolve on_m3_sent_typed teardown_call_typed : typed.

Lemma client_send_encrypted_typed d ty payload : typed cm_typed (ev_typed client_types) (client_send_encrypted d ty payload).
Proof.
  unfold client_send_encrypted. typed_step; [typed_step|]. typed_step; [|typed_go].
  destruct (WireSession_encrypt w ty payload) as [r w'] eqn:E'.
  destruct (ws_encrypt_typed client_types _ _ _ _ _ (cm_live_typed _ _ H E) E') as [Hw' Hp]. typed_go.
Qed.

Lemma client_cover_packet_typed d fill : typed cm_typed (ev_typed client_types) (client_cover_packet d fill).
Proof.
  unfold client_cover_packet. typed_step; [typed_step|]. typed_step; [|typed_go].
  destruct (WireSession_cover w fill) as [r w'] eqn:E'.
  destruct (ws_cover_typed client_types _ _ _ _ (cm_live_typed _ _ H E) E') as [Hw' Hp]. typed_go.
Qed.

Lemma client_on_data_packet_typed d pkt from : typed cm_typed (ev_typed client_types) (client_on_data_packet d pkt from).
Proof.
  unfold client_on_data_packet. typed_step; [typed_step|]. typed_step; [|typed_go]. typed_step; [typed_go|].
  pose proof (ws_decrypt_typed w pkt (cm_live_typed _ _ H E)) as Hw.
  destruct (WireSession_decrypt w pkt) as [r w']. cbn [snd] in Hw. typed_go.
Qed.

#[local] Hint Resolve client_send_encrypted_typed client_on_data_packet_typed : typed.

Lemma client_manager_handle_typed d pkt from : typed cm_typed (ev_typed client_types) (client_manager_handle d pkt from).
Proof.
  unfold client_manager_handle. typed_step; [typed_step|]. typed_step; [|eauto with typed].
  typed_step; [|typed_go].
  eapply typed_bind; [apply with_hs_typed; [by eapply cm_machine_typed|apply client_handle_typed]|].
  intros r Hr. apply (typed_bind cl_event_typed); [apply typed_try; exact Hr|].
  intros ev Hev. destruct ev; cbn in Hev; typed_go. apply on_m3_sent_typed; apply Hev.
Qed.

Lemma cm_on_timer_typed d : typed cm_typed (ev_typed client_types) (cm_on_timer d).
Proof.
  unfold cm_on_timer. typed_step; [typed_step|]. typed_step; [|typed_go].
  eapply typed_bind; [apply with_hs_typed; [by eapply cm_machine_typed|apply client_on_timer_typed]|].
  intros r Hr. destruct r as [ev|e]; [|typed_go]. specialize (Hr _ eq_refl).
  destruct ev; cbn in Hr; typed_go. apply on_m3_sent_typed; apply Hr.
Qed.

Lemma enqueue_typed d payload : typed (E := ManagerError) cm_typed (ev_typed client_types) (call (enqueue d payload)).
Proof.
  apply typed_call. intros m Hm. unfold enqueue. case_match; cbn [fst snd]; [|done].
  destruct (log_drop_eq (clock d) (cm_set_dropped_outbound (saturating_add 64 (cm_dropped_outbound m) 1) m)) as [l ->].
  done.
Qed.

#[local] Hint Resolve enqueue_typed : typed.

Lemma client_app_outbound_typed d payload : typed cm_typed (ev_typed client_types) (client_app_outbound d payload).
Proof. unfold client_app_outbound. typed_go. Qed.

Lemma client_tun_outbound_typed d payload : typed cm_typed (ev_typed client_types) (client_tun_outbound d payload).
Proof. unfold client_tun_outbound. typed_go. Qed.

Lemma expire_queued_typed now at_ m : cm_typed m -> cm_typed (expire_queued now at_ m).2.
Proof. intros Hm. by destruct (expire_queued_spec now at_ m) as [(n & l & ->) _]. Qed.

Lemma take_slot_typed now d m : cm_typed m -> cm_typed (take_slot now d m).2 /\ opt_typed (ev_typed client_types) (take_slot now d m).1.
Proof.
  intros Hm. unfold take_slot. destruct (cm_session m); [|done]. case_match; [done|].
  unfold take_queued_payload. pose proof (expire_queued_typed now (clock d) m Hm) as Hm1.
  destruct (expire_queued now (clock d) m) as [n m1]. cbn [snd] in *. destruct (cm_out_queue m1) as [|q rest].
  - unfold take_probe. destruct (cm_next_probe_at m1) as [due|]; [|done]. destruct (now <? due); [done|].
    match goal with |- context [build_probe ?x] => pose proof (build_probe_typed x Hm1) as [Hb Hp]; destruct (build_probe x) as [[p|] m2] end;
      cbn [fst snd] in *; [|done].
    destruct (cm_ready m2); (split; [done|apply opt_some; by apply Hp]).
  - match goal with |- context [client_send_encrypted ?a ?b ?c ?x] =>
      pose proof (client_send_encrypted_typed a b c x Hm1) as [Hs Hr]; destruct (client_send_encrypted a b c x) as [[ev|e|s] m2] end;
      cbn [fst snd] in *; (split; [done|apply opt_some]); [by apply Hr|done|done].
Qed.

(** The steps of a tick, each closing the session or leaving the manager. *)
Definition step_typed (r : list ManagerEvent * ClientSessionManager) : Prop := cm_typed r.2 /\ Forall (ev_typed client_types) r.1.

Lemma close_now_typed reason now m : cm_typed m -> step_typed (close_now reason now m).
Proof.
  intros Hm. unfold close_now, step_typed. destruct (cm_session_id m); [|by split; [|constructor]].
  destruct (teardown_typed now true m Hm) as [Ht Ho]. destruct (teardown now true m) as [ev m']. cbn [fst snd] in *.
  split; [done|]. apply Forall_app. split; [|foralls]. destruct ev; foralls. by apply Ho.
Qed.

Lemma idle_typed m : cm_typed m -> step_typed ([], m).
Proof. intros H. by split; [|constructor]. Qed.

Lemma client_tick_typed now d m : cm_typed m -> step_typed (client_tick now d m).
Proof.
  intros Hm. unfold client_tick.
  assert (step_typed (tick_handshake now m)) as S1.
  { unfold tick_handshake. destruct (cm_hs m); [|by apply idle_typed]. cbv zeta.
    match goal with |- step_typed (if ?b then _ else _) => destruct b end; [|by apply idle_typed].
    split; [by apply cm_clear_hs_typed|foralls]. }
  destruct (tick_handshake now m) as [o1 m1]. destruct S1 as [M1 E1]. cbn [fst snd] in *.
  assert (step_typed (tick_lifetime now m1)) as S2
    by (unfold tick_lifetime; repeat case_match; first [by apply idle_typed|by apply close_now_typed]).
  destruct (tick_lifetime now m1) as [o2 m2]. destruct S2 as [M2 E2]. cbn [fst snd] in *.
  assert (step_typed (tick_confirm now m2)) as S3
    by (unfold tick_confirm; case_match; [by apply close_now_typed|by apply idle_typed]).
  destruct (tick_confirm now m2) as [o3 m3]. destruct S3 as [M3 E3]. cbn [fst snd] in *.
  assert (step_typed (tick_liveness now m3)) as S4
    by (unfold tick_liveness; case_match; [by apply close_now_typed|by apply idle_typed]).
  destruct (tick_liveness now m3) as [o4 m4]. destruct S4 as [M4 E4]. cbn [fst snd] in *.
  assert (step_typed (tick_queue now (clock d) m4)) as S5.
  { unfold tick_queue. pose proof (expire_queued_typed now (clock d) m4 M4) as Hx.
    destruct (expire_queued _ _ _) as [n mq]. case_match; split; cbn [fst snd]; try done; foralls. }
  destruct (tick_queue now (clock d) m4) as [o5 m5]. destruct S5 as [(H1 & H2 & H3 & H4 & H5) E5]. cbn [fst snd] in *.
  cbn [cm_pending_closes cm_set_pending_closed]. destruct (retransmit_closes_typed client_types now _ H5) as [R1 R2].
  destruct (retransmit_closes now (cm_pending_closes m5)) as [o7 pcs]. cbn [fst snd] in *.
  split; [do 3 (split; [done|]); by split; [constructor|]|]. by repeat (apply Forall_app; split).
Qed.

Lemma client_close_typed d m : cm_typed m -> cm_typed (client_close d m).2 /\ ev_typed client_types (client_close d m).1.
Proof.
  intros Hm. unfold client_close. destruct (cm_session_id m); [|done].
  destruct (teardown_typed (clock d) true m Hm) as [(H1 & H2 & H3 & H4 & H5) Ho].
  destruct (teardown (clock d) true m) as [ev m']. cbn [fst snd] in *. split; [|destruct ev; [by apply Ho|done]].
  do 3 (split; [done|]). split; [|done]. apply Forall_app. by split; [|foralls].
Qed.

End Client.

#[export] Hint Resolve cm_begin_handshake_typed client_manager_handle_typed cm_on_timer_typed client_app_outbound_typed
  client_tun_outbound_typed client_cover_packet_typed : typed.

(** ** The managers conform from the start *)

Lemma new_server_typed {P : Primitives} cfg limits now m :
  ServerSessionManager_new cfg limits now = Ok m -> sm_typed m.
Proof.
  intros Hs. apply bind_ok in Hs as (? & Hv & Hs). apply bind_ok in Hs as (? & _ & [= <-]).
  split; [split; [|apply map_Forall_empty]|apply map_Forall_empty|constructor|constructor]. cbn [sm_hs ServerHandshake_new sh_cfg].
  unfold ServerConfig_validate in Hv. case_bool_decide as Ev; [|done]. by destruct (_ <? _)%nat.
Qed.

Lemma new_client_typed {P : Primitives} cfg limits m : ClientSessionManager_new cfg limits = Ok m -> cm_typed m.
Proof.
  unfold ClientSessionManager_new. case_match; [done|]. intros Hc. apply bind_ok in Hc as (? & _ & [= <-]).
  by repeat split; try constructor.
Qed.

Lemma set_roster_typed {P : Primitives} roster : typed sm_typed anything (sm_set_roster roster).
Proof.
  unfold sm_set_roster. apply typed_map_fail, (typed_zoom sh_typed); [by intros ? []|by intros ? ? []|].
  unfold set_roster. eapply (typed_bind sh_typed); [apply typed_get|]. intros h0 [Hv _].
  typed_step; [typed_go|]. typed_step; [typed_go|]. apply typed_modify. by intros h [].
Qed.

Lemma manager_apply_typed {P : Primitives} op m : manager_op_wf op -> sm_typed m -> sm_typed (manager_apply op m).
Proof.
  intros Hop Hm. destruct op; cbn [manager_apply manager_op_wf] in *.
  - by apply (server_manager_handle_typed d now pkt from Hop).
  - by apply (set_roster_typed roster).
  - by apply (server_app_outbound_typed sid payload).
  - by apply (server_tun_outbound_typed sid payload).
  - by apply (cover_packet_all_typed fill).
  - by apply (close_session_typed sid now).
  - by apply server_tick_typed.
Qed.

Lemma manager_reaches_typed {P : Primitives} cfg limits start m : manager_reaches cfg limits start m -> sm_typed m.
Proof. induction 1; [by eapply new_server_typed|by apply manager_apply_typed]. Qed.
