(* ===== verification/DriversOk.v ===== *)
(** * Correctness of the session-manager drivers

    The drivers survive everything the network and the application can send
    them: they end only on errors the environment returned to them ([io_fault],
    [server_fault], [client_fault]), so not at all as long as the transport, the
    channel and the random source work. The client driver never leaves the tunnel
    down past a tick, and its cover schedule only runs while the session is
    confirmed. *)

From S2P Require Import Prelude Bytes Errors Codec Replay Crypto Envelope WireSession Scheduler Exec Net HandshakeMsg HandshakeFrag HandshakeClient HandshakeServer HandshakeSafety HandshakeClientOk SessionCommon ServerManager ClientManager Drivers FailGateOk ServerManagerOk ClientManagerOk ClientManagerSafe Conform.

Local Open Scope Z_scope.

(** The transport and the application channel work. *)
Definition io_ok (io : DriverIO) : Prop :=
  (forall p a, io_send io p a = Ok ()) /\ (forall n, io_notify io n = true).

(** The errors the outside of a driver can end it with: a send of a whole packet
    that failed, or an application that no longer listens. *)
Definition io_fault (io : DriverIO) (e : ManagerError) : Prop :=
  (exists p a e', WirePacket_wf p /\ io_send io p a = Err e' /\ e = ME_Handshake e') \/
  (e = ME_AppClosed /\ exists n, io_notify io n = false).

Lemma io_ok_no_fault io e : io_ok io -> ~ io_fault io e.
Proof. intros [Hs Hn] [(p & a & e' & _ & H & _)|(_ & n & H)]; by rewrite ?Hs, ?Hn in H. Qed.

(** The receive errors a driver does not outlive. *)
Definition fatal_recv (e : HandshakeV2Error) : bool :=
  match e with HS_DatagramRejected | HS_TransportReset => false | _ => true end.

Definition is_closed (ev : ManagerEvent) : bool :=
  match ev with EvClosed _ _ => true | _ => false end.

Section Client.
Context {P : Primitives} {L : PrimitivesLaws P}.

(** ** Effects only extend the log *)

Definition add_logs (es : list effect) (s : ClientDriver) : ClientDriver :=
  mkClientDriver (cv_manager s) (cv_was_ready s) (cv_cover_sched s) (cv_cover_arm s) (cv_slot_arm s)
    (cv_retransmit s) (cv_reset_noticed s) (cv_log s ++ es).

Lemma add_logs_nil s : add_logs [] s = s.
Proof. destruct s. unfold add_logs. cbn. by rewrite app_nil_r. Qed.

Lemma add_logs_app es es' s : add_logs es' (add_logs es s) = add_logs (es ++ es') s.
Proof. destruct s. unfold add_logs. cbn. by rewrite <- app_assoc. Qed.

Lemma wp_send_to io p a s (Q : exec ManagerError () -> ClientDriver -> Prop) :
  WirePacket_wf p ->
  (forall es, Q (Ret ()) (add_logs es s)) -> (forall e es, io_fault io e -> Q (Fail e) (add_logs es s)) ->
  wp (send_to io p a) s Q.
Proof.
  intros Hp H1 H2. unfold send_to. wp_steps. destruct (io_send io p a) as [[]|e] eqn:He; apply wp_try; try done.
  - intros [] _. wp_steps. apply (H1 [Sent p a]).
  - intros e' [= <-]. rewrite <- (add_logs_nil s). apply H2. left. eauto 8.
Qed.

Lemma wp_send_packets io ps a s (Q : exec ManagerError () -> ClientDriver -> Prop) :
  Forall WirePacket_wf ps ->
  (forall es, Q (Ret ()) (add_logs es s)) -> (forall e es, io_fault io e -> Q (Fail e) (add_logs es s)) ->
  wp (send_packets io ps a) s Q.
Proof.
  intros Hps. revert s. induction Hps as [|p ps Hp _ IH]; intros s H1 H2; cbn [send_packets].
  - wp_steps. rewrite <- (add_logs_nil s). apply H1.
  - apply wp_bind, wp_send_to; [done| |done]. intros es. apply IH; intros; rewrite add_logs_app; auto.
Qed.

Lemma wp_notify io n s (Q : exec ManagerError () -> ClientDriver -> Prop) :
  (forall es, Q (Ret ()) (add_logs es s)) -> (forall e es, io_fault io e -> Q (Fail e) (add_logs es s)) ->
  wp (notify io n) s Q.
Proof.
  intros H1 H2. unfold notify. destruct (io_notify io n) eqn:Hn.
  - wp_steps. apply (H1 [Notified n]).
  - apply wp_try; [done|]. intros e [= <-]. rewrite <- (add_logs_nil s). apply H2. right. eauto.
Qed.

(** ** The invariant of the driver *)

Record driver_base (s : ClientDriver) : Prop := {
  db_wf : cm_wf (cv_manager s);
  db_typed : cm_typed (cv_manager s);
  db_began : cm_used_order (cv_manager s) <> [];
  db_cover : next (cv_cover_sched s) <> None -> cv_was_ready s = true }.

Definition driver_wf (s : ClientDriver) : Prop :=
  driver_base s /\ (cv_was_ready s = true -> cm_ready (cv_manager s) = true).

(** A session that ran out of nonces. *)
Definition stuck (m : ClientSessionManager) : Prop :=
  exists w, cm_session m = Some w /\ ws_state w = Rekey.

(** What a step of the driver promises when [F] are the errors its environment can
    cause. *)
Definition step_post {A} (F : ManagerError -> Prop) (r : exec ManagerError A) (s : ClientDriver) : Prop :=
  match r with
  | Ret _ => driver_wf s
  | Fail e => F e \/ (e = ME_Session wrong_state /\ stuck (cv_manager s))
  | Panic _ => False
  end.

(** A step that fails only when the outside world does. *)
Definition io_post {A} (F : ManagerError -> Prop) (r : exec ManagerError A) (s : ClientDriver) : Prop :=
  match r with Ret _ => driver_wf s | Fail e => F e | Panic _ => False end.

Lemma io_step {A} F (r : exec ManagerError A) s : io_post F r s -> step_post F r s.
Proof. destruct r; cbn; auto. Qed.

Lemma wp_io_step {A} F (f : M ClientDriver ManagerError A) s : wp f s (io_post F) -> wp f s (step_post F).
Proof. intros H. eapply wp_mono; [exact H|]. apply io_step. Qed.

Lemma driver_base_logs es s : driver_base s -> driver_base (add_logs es s).
Proof. by intros []. Qed.

Lemma driver_wf_logs es s : driver_wf s -> driver_wf (add_logs es s).
Proof. intros [? ?]. split; [by apply driver_base_logs|done]. Qed.

Lemma driver_base_manager m' s :
  driver_base s -> ckeeps (cv_manager s) m' -> cm_typed m' -> driver_base (cv_set_manager m' s).
Proof. intros [? ? ? ?] (? & _ & _ & ?) ?. split; cbn; auto. Qed.

Lemma driver_wf_manager m' s :
  driver_wf s -> ckeeps (cv_manager s) m' -> cm_typed m' ->
  (cm_ready (cv_manager s) = true -> cm_ready m' = true) -> driver_wf (cv_set_manager m' s).
Proof. intros [Hb Hr] Hk Ht Hm. split; [by apply driver_base_manager|]. cbn. auto. Qed.

Lemma driver_base_slot x s : driver_base s -> driver_base (cv_set_slot_arm x s).
Proof. by intros []. Qed.
Lemma driver_base_retransmit x s : driver_base s -> driver_base (cv_set_retransmit x s).
Proof. by intros []. Qed.

Lemma driver_wf_slot x s : driver_wf s -> driver_wf (cv_set_slot_arm x s).
Proof. intros [? ?]. split; [by apply driver_base_slot|done]. Qed.
Lemma driver_wf_retransmit x s : driver_wf s -> driver_wf (cv_set_retransmit x s).
Proof. intros [? ?]. split; [by apply driver_base_retransmit|done]. Qed.

(** ** Re-arming and closing *)

Definition turn_ok (t : ClientTurn) : Prop :=
  draws_ok (ct_draws t) /\ (forall i, draws_ok (ct_rearm t i)) /\
  (forall f, ct_fill t = Ok f -> length f = PAYLOAD_LEN).

Lemma rearm_client_wp t i s F (Q : exec ManagerError () -> ClientDriver -> Prop) :
  turn_ok t -> driver_base s -> (forall e, io_fault (ct_io t) e -> F e) ->
  (forall m' es, ckeeps (cv_manager s) m' -> cm_typed m' ->
     begun (cv_manager s) (cm_begin_handshake (ct_rearm t i) (cv_manager s)).1 m' ->
     (cm_ready (cv_manager s) = false -> cm_ready m' = false) ->
     Q (Ret ()) (add_logs es (cv_set_manager m' s))) ->
  (forall e s', F e -> Q (Fail e) s') ->
  wp (rearm_client t i) s Q.
Proof.
  intros Ht Hb Hio H1 H2. unfold rearm_client. wp_steps. unfold try_client, wp at 1.
  pose proof (cm_begin_wp (cv_manager s) (ct_rearm t i) (db_wf _ Hb) (proj1 (proj2 Ht) i)) as Hw. unfold wp in Hw.
  destruct (cm_begin_handshake_typed (ct_rearm t i) (proj1 (proj2 Ht) i) _ (db_typed _ Hb)) as [Hm Hev].
  destruct (cm_begin_handshake (ct_rearm t i) (cv_manager s)) as [r m']. cbn [fst snd] in Hw, Hm, Hev.
  destruct Hw as [Hk Hbeg].
  assert (cm_ready (cv_manager s) = false -> cm_ready m' = false) as Hr.
  { destruct Hbeg as [(h & _ & _ & Hh & _)|(e & _ & ->)]; [|done]. intros _.
    destruct Hk as [Hwf _]. destruct (cw_one _ Hwf) as [Hn|Hn]; [by rewrite Hn in Hh|].
    pose proof (cw_session _ Hwf) as Hs. rewrite Hn in Hs. apply Hs. }
  pose proof Hbeg as [(h & _ & -> & _)|(e & -> & _)]; cbn [fst snd].
  - apply wp_send_packets; [by eapply conform_all_wf, (Hev _ eq_refl)|intros es; by eapply H1|].
    intros e es Hn. apply H2. auto.
  - wp_steps. rewrite <- (add_logs_nil (cv_set_manager m' s)). by eapply H1.
Qed.

Definition closed_post (F : ManagerError -> Prop) (m : ClientSessionManager) (r : exec ManagerError ()) (s : ClientDriver) : Prop :=
  io_post F r s /\ (r = Ret () -> exists r0, begun m r0 (cv_manager s)).

Lemma on_closed_wp t i sid reason s F :
  turn_ok t -> driver_base s -> (forall e, io_fault (ct_io t) e -> F e) ->
  wp (on_closed t i sid reason) s (closed_post F (cv_manager s)).
Proof.
  intros Ht Hb Hio. unfold on_closed, arm_slot, arm_retransmit. wp_steps.
  set (s1 := cv_set_slot_arm _ _).
  assert (driver_base s1) as Hb1 by (destruct Hb; split; done).
  assert (cv_was_ready s1 = false /\ cv_manager s = cv_manager s1) as [Hw ->] by done. clearbody s1.
  apply wp_notify; [|intros e es Hn; split; [by apply Hio|done]]. intros es. wp_steps.
  apply (rearm_client_wp t i _ F); [done|by apply driver_base_logs|done| |intros e s' Hn; by split].
  intros m' es' Hk Hm Hbeg _. wp_steps. split; [|intros _; by eexists].
  apply driver_wf_retransmit, driver_wf_logs.
  split; [apply driver_base_manager; [by apply driver_base_logs|done|done]|]. cbn. by rewrite Hw.
Qed.

Lemma on_closed_io t i sid reason s F :
  turn_ok t -> driver_base s -> (forall e, io_fault (ct_io t) e -> F e) -> wp (on_closed t i sid reason) s (io_post F).
Proof. intros. eapply wp_mono; [by apply on_closed_wp|]. by intros r s' [H' _]. Qed.

(** Running the closing block, or another effect, after a manager call that
    keeps the confirmation unless it closed. *)
Lemma after_call_wp {A} (k : () -> M ClientDriver ManagerError A) (f : M ClientDriver ManagerError ()) s F :
  wp f s (io_post F) -> (forall s', driver_wf s' -> wp (k ()) s' (step_post F)) ->
  wp (f ≫= k) s (step_post F).
Proof.
  intros Hf Hk. apply wp_bind. eapply wp_mono; [exact Hf|]. intros [[]|e|p] s' Hs; [by apply Hk|by apply (io_step F (Fail e))|exact Hs].
Qed.

Lemma send_to_step ts io p a s F :
  conforms ts p -> driver_wf s -> (forall e, io_fault io e -> F e) -> wp (send_to io p a) s (io_post F).
Proof.
  intros Hp Hd Hio. apply wp_send_to; [by eapply conforms_wf|intros es; by apply driver_wf_logs|]. intros e es Hn. by apply Hio.
Qed.

Lemma send_packets_step ts io ps a s F :
  Forall (conforms ts) ps -> driver_wf s -> (forall e, io_fault io e -> F e) -> wp (send_packets io ps a) s (io_post F).
Proof.
  intros Hp Hd Hio. apply wp_send_packets; [by eapply conform_all_wf|intros es; by apply driver_wf_logs|]. intros e es Hn. by apply Hio.
Qed.

Lemma notify_step io n s F :
  driver_wf s -> (forall e, io_fault io e -> F e) -> wp (notify io n) s (io_post F).
Proof.
  intros Hd Hio. apply wp_notify; [intros es; by apply driver_wf_logs|]. intros e es Hn. by apply Hio.
Qed.

Lemma arm_slot_step t o s F : driver_wf s -> wp (arm_slot t o) s (io_post F).
Proof. intros Hd. unfold arm_slot. wp_steps. by apply driver_wf_slot. Qed.

Lemma arm_retransmit_step t s F : driver_wf s -> wp (arm_retransmit t) s (io_post F).
Proof. intros Hd. unfold arm_retransmit. wp_steps. by apply driver_wf_retransmit. Qed.

Lemma signal_ready_wp t s F :
  driver_wf s -> (forall e, io_fault (ct_io t) e -> F e) -> wp (client_signal_ready t) s (io_post F).
Proof.
  intros Hd Hio. unfold client_signal_ready. wp_steps.
  destruct (cm_ready (cv_manager s)) eqn:Hr; [|by wp_steps].
  destruct (cv_was_ready s) eqn:Hw; cbn [andb negb]; [by wp_steps|].
  unfold arm_slot. wp_steps. set (s1 := cv_set_slot_arm _ _).
  assert (driver_wf s1) as Hd1 by (destruct Hd as [[] _]; split; [split|]; done).
  clearbody s1. destruct (cm_session_id (cv_manager s)); [by apply notify_step|by wp_steps].
Qed.

(** ** Manager calls keep the confirmation unless they close *)

Definition kept (m : ClientSessionManager) (ev : option ManagerEvent) (m' : ClientSessionManager) : Prop :=
  ckeeps m m' /\
  ((exists sid reason, ev = Some (EvClosed sid reason)) \/ (cm_ready m = true -> cm_ready m' = true)).

Lemma handle_kept m d pkt from :
  cm_wf m ->
  wp (client_manager_handle d pkt from) m (fun r m' => match r with
    | Ret ev => kept m (Some ev) m'
    | Fail e => e = ME_Session wrong_state /\ stuck m' /\ m' = m
    | Panic _ => False end).
Proof.
  intros Hwf. eapply wp_mono; [by apply client_manager_handle_wp|]. intros r m' Hh.
  destruct (is_handshake_fragment pkt).
  - destruct Hh as (Hk & Hr & _ & [[-> _]|(h & o & m1 & _ & _ & _ & _ & _ & w & pkts & _ & _ & -> & _)]);
      (split; [done|right; by rewrite Hr]).
  - destruct Hh as [Hk Hh]. unfold kept. destruct (cm_session m) as [w|] eqn:Hw; [|destruct Hh as [-> ->]; auto].
    destruct Hh as [(_ & -> & ->)|[_ Hh]]; [auto|].
    destruct (WireSession_decrypt w pkt).1 as [inner|e].
    + destruct (ip_msg_type inner); destruct Hh as [-> Hm]; (split; [done|]); try (right; by rewrite Hm).
      left. by eexists _, _.
    + destruct e; try (destruct Hh as [-> Hm]; (split; [done|]); first [left; by eexists _, _ | right; by rewrite Hm]).
      all: destruct Hh as (_ & Hs & -> & ->); split; [done|]; split; [by exists w|done].
Qed.

Lemma timer_kept m d :
  cm_wf m -> wp (cm_on_timer d) m (fun r m' => exists ev, r = Ret ev /\ kept m (Some ev) m').
Proof.
  intros Hwf. eapply wp_mono; [by apply cm_on_timer_wp|]. intros r m' (Hk & (Hr & _) & Ht).
  assert (forall ev, kept m ev m') as Hkept by (intros ev; split; [done|right; by rewrite Hr]).
  destruct Ht as [(pkts & -> & _)|[(-> & _)|(h & _ & -> & _)]]; eauto.
Qed.

Lemma sent_on_kept m w r m' :
  cm_session m = Some w -> sent_on m w r m' ->
  match r with
  | Ret ev => kept m (Some ev) m'
  | Fail e => e = ME_Session wrong_state /\ stuck m' /\ m' = m
  | Panic _ => False end.
Proof.
  intros Hw (Hk & [(p & w' & -> & -> & _)|[(-> & _)|(-> & -> & Hs)]]).
  - split; [done|by right].
  - split; [done|left; by eexists _, _].
  - split; [done|]. split; [by exists w|done].
Qed.

Lemma take_probe_ready now m : cm_wf m -> cm_ready (take_probe now m).2 = cm_ready m.
Proof.
  intros Hwf. unfold take_probe. destruct (cm_next_probe_at m) as [pd|] eqn:Hp; [|done]. destruct (now <? pd); [done|].
  set (m1 := cm_set_next_probe_at _ m).
  assert (cm_wf m1) as Hwf1.
  { destruct Hwf as [Hv Hone Hhs Hse Hq Hu Hr Ha Hre]. split; cbn; try done.
    destruct (cm_session m); [|by destruct Hse as (_ & _ & Hx); rewrite Hx in Hp].
    destruct Hse as (? & ? & ? & _). eauto. }
  destruct (build_probe_spec m1 Hwf1) as (_ & (Hr & _) & _).
  change (cm_ready m1) with (cm_ready m) in Hr. destruct (build_probe m1) as [[p|] m2]; cbn [snd] in *.
  - destruct (cm_ready m2) eqn:E; cbn; congruence.
  - done.
Qed.

Lemma slot_kept now d m : cm_wf m -> kept m (take_slot now d m).1 (take_slot now d m).2.
Proof.
  intros Hwf. split; [by apply take_slot_keeps|]. unfold take_slot.
  destruct (cm_session m) as [w|] eqn:Hw; [|by right].
  destruct (match cm_last_slot_at m with Some _ => _ | None => _ end); [by right|].
  pose proof (take_queued_payload_spec now d m Hwf) as Hq.
  pose proof (live_queue_sublist now (cm_out_queue m)) as Hsub.
  pose proof (Forall_sublist _ _ _ Hsub (proj2 (cw_queue _ Hwf))) as Hl.
  destruct (live_queue now (cm_out_queue m)) as [|q rest].
  - destruct Hq as (m1 & -> & Hr). right. intros Hready.
    assert (cm_ready m1 = true) as Hr1 by (by destruct Hr as (? & ? & ->)).
    assert (cm_wf m1) as Hwf1 by (apply (requeued_keeps [] m m1); [done|apply sublist_nil_l|done]).
    pose proof (take_probe_ready now m1 Hwf1) as Hp. destruct (take_probe now m1) as [[ev|] m2]; cbn in *; congruence.
  - destruct Hq as (m1 & Hr & ->). apply Forall_cons in Hl as [Hl _].
    assert (cm_wf m1) as Hwf1.
    { apply (requeued_keeps rest m m1); [done| |done]. etrans; [|exact Hsub]. by apply sublist_cons. }
    assert (cm_session m1 = Some w /\ cm_ready m1 = cm_ready m) as [Hw1 Hrd] by (by destruct Hr as (? & ? & ->)).
    pose proof (client_send_encrypted_wp m1 w d Data (qp_payload q) Hwf1 Hw1 Hl) as Hse. unfold wp in Hse.
    apply sent_on_kept in Hse; [|done].
    destruct (client_send_encrypted d Data (qp_payload q) m1) as [[ev|e|p] m2]; cbn [fst snd] in *.
    + destruct Hse as [_ [(sid & reason & [= ->])|Hk]]; [left; by eexists _, _|right; rewrite <- Hrd; exact Hk].
    + destruct Hse as (_ & _ & ->). right. by rewrite <- Hrd.
    + done.
Qed.

(** A call whose event says whether the confirmation was lost, then the closing
    block or an effect on the log. *)
Lemma kept_wf s ev m' :
  driver_wf s -> kept (cv_manager s) ev m' -> cm_typed m' ->
  driver_base (cv_set_manager m' s) /\
  ((exists sid reason, ev = Some (EvClosed sid reason)) \/ driver_wf (cv_set_manager m' s)).
Proof.
  intros Hd [Hk He] Ht. split; [apply driver_base_manager; [apply Hd|done|done]|].
  destruct He as [He|He]; [by left|right]. by apply driver_wf_manager.
Qed.

(** ** The arms *)

Lemma datagram_event_wp t ev s F :
  turn_ok t -> ev_typed client_types ev -> (forall e, io_fault (ct_io t) e -> F e) -> driver_base s ->
  (exists sid reason, Some ev = Some (EvClosed sid reason)) \/ driver_wf s ->
  wp (client_on_datagram_event t ev) s (io_post F).
Proof.
  intros Ht Hev Hio Hb He. destruct ev; cbn [client_on_datagram_event];
    try (destruct He as [(? & ? & [=])|He]).
  - by apply (send_packets_step client_types).
  - by apply (send_to_step client_types).
  - by wp_steps.
  - by apply notify_step.
  - by apply on_closed_io.
  - by apply on_closed_io.
  - by wp_steps.
  - by wp_steps.
Qed.

Lemma recv_arm_wp t r s F :
  turn_ok t -> (forall e, io_fault (ct_io t) e -> F e) -> driver_wf s ->
  (forall e, r = Err e -> fatal_recv e = true -> F (ME_Handshake e)) ->
  wp (client_recv_arm t r) s (step_post F).
Proof.
  intros Ht Hio Hd Hr. unfold client_recv_arm, on_client.
  assert (forall e, F (ME_Handshake e) -> wp (try ME_Handshake (@Err _ bool e)) s (step_post F)) as Herr.
  { intros e Hn. apply wp_try; [done|]. intros e' [= <-]. by left. }
  destruct r as [[pkt from]|e].
  2:{ destruct e; first [by wp_steps | wp_steps; by destruct Hd as [[] ?] | by apply Herr, Hr]. }
  wp_steps. set (s0 := cv_set_reset_noticed false s).
  assert (driver_wf s0) as Hd0 by (by destruct Hd as [[] ?]). clearbody s0.
  eapply wp_mono; [apply (wp_typed (I := cm_typed) (ev_typed client_types));
    [apply client_manager_handle_typed|apply Hd0|apply handle_kept, Hd0]|].
  intros [ev|e|p] m' (Hk & Hm & Hev); [|right; cbn; by destruct Hk as (-> & ? & _)|done].
  specialize (Hev _ eq_refl). destruct (kept_wf s0 (Some ev) m' Hd0 Hk Hm) as [Hb He]. wp_steps.
  eapply wp_mono; [by apply datagram_event_wp|]. intros [[]|e|p] s1 Hs; [|by apply (io_step F (Fail e))|exact Hs]. wp_steps.
  destruct (_ && _).
  - eapply wp_mono; [apply (arm_retransmit_step t s1 F Hs)|]. intros [[]|e|p] s2 Hs2; [|by apply (io_step F (Fail e))|exact Hs2].
    wp_steps. unfold arm_slot. wp_steps. by apply driver_wf_slot.
  - wp_steps. unfold arm_slot. wp_steps. by apply driver_wf_slot.
Qed.

Lemma try_client_kept {A} (f : M ClientSessionManager ManagerError A) s
    (Q : exec ManagerError (result ManagerError A) -> ClientDriver -> Prop) :
  wp f (cv_manager s) (fun r m' => match r with
    | Ret a => Q (Ret (Ok a)) (cv_set_manager m' s)
    | Fail e => Q (Ret (Err e)) (cv_set_manager m' s)
    | Panic p => Q (Panic p) (cv_set_manager m' s) end) ->
  wp (try_client f) s Q.
Proof. unfold wp, try_client. by destruct (f (cv_manager s)) as [[a|e|p] m']. Qed.

Lemma cmd_arm_wp t cmd s F :
  turn_ok t -> (forall e, io_fault (ct_io t) e -> F e) -> driver_wf s -> wp (client_cmd_arm t cmd) s (step_post F).
Proof.
  intros Ht Hio Hd. unfold client_cmd_arm. destruct cmd as [payload|]; [|by wp_steps]. wp_steps.
  apply try_client_kept. eapply wp_mono; [apply (wp_typed (I := cm_typed) (ev_typed client_types));
    [apply client_app_outbound_typed|apply Hd|apply client_app_outbound_wp, Hd]|].
  intros r m' ((Hk & Hr) & Hm & Hty).
  assert (driver_wf s -> cm_session (cv_manager s) = None -> cm_session m' = None -> driver_wf (cv_set_manager m' s)) as Hidle.
  { intros _ Hn Hn'. apply driver_wf_manager; [done|done|done|]. intros Hx.
    pose proof (cw_session _ (db_wf _ (proj1 Hd))) as Hs. rewrite Hn in Hs. destruct Hs as [Hs _]. congruence. }
  destruct Hr as [(e & -> & <- & ->)|[(w & Hw & Hs)|(Hn & Hn' & [->|[n ->]])]].
  - unfold payload_too_long. wp_steps. by apply driver_wf_manager.
  - apply sent_on_kept in Hs; [|done]. destruct r as [ev|e|p]; [|destruct Hs as (-> & ? & _); wp_steps; apply wp_try; [done|];
      intros e [= <-]; by right|done].
    specialize (Hty _ eq_refl). destruct (kept_wf s (Some ev) m' Hd Hs Hm) as [Hb He].
    destruct ev; try (destruct He as [(? & ? & [=])|He]); apply after_call_wp;
      first [by apply on_closed_io | by apply (send_to_step client_types) | by apply notify_step | by apply arm_slot_step | intros; by wp_steps].
  - apply after_call_wp; [apply arm_slot_step; by apply Hidle|intros; by wp_steps].
  - apply after_call_wp; [apply notify_step; [by apply Hidle|done]|intros; by wp_steps].
Qed.

Lemma retransmit_arm_wp t s F :
  turn_ok t -> (forall e, io_fault (ct_io t) e -> F e) -> driver_wf s -> wp (client_retransmit_arm t) s (io_post F).
Proof.
  intros Ht Hio Hd. unfold client_retransmit_arm, on_client. wp_steps.
  eapply wp_mono; [apply (wp_typed (I := cm_typed) (ev_typed client_types));
    [apply cm_on_timer_typed|apply Hd|apply timer_kept, Hd]|]. intros r m' ((ev & -> & Hk) & Hm & Hev).
  specialize (Hev _ eq_refl). destruct (kept_wf s (Some ev) m' Hd Hk Hm) as [Hb He]. wp_steps.
  eapply (wp_mono _ _ (io_post F)); [|intros [[]|e|p] s1 Hs; [by wp_steps|exact Hs|exact Hs]].
  destruct ev; try (destruct He as [(? & ? & [=])|He]); try (by apply arm_retransmit_step);
    try (by apply on_closed_io).
  apply wp_bind. eapply wp_mono; [by apply (send_packets_step client_types)|]. intros [[]|e|p] s1 Hs; [|exact Hs|exact Hs].
  by apply arm_retransmit_step.
Qed.

Lemma slot_event_wp t ev s F :
  turn_ok t -> opt_typed (ev_typed client_types) ev -> (forall e, io_fault (ct_io t) e -> F e) -> driver_base s ->
  (exists sid reason, ev = Some (EvClosed sid reason)) \/ driver_wf s ->
  wp (client_on_slot_event t ev) s (io_post F).
Proof.
  intros Ht Hev Hio Hb He. destruct ev as [ev|]; [|destruct He as [(? & ? & [=])|He]; by wp_steps].
  specialize (Hev _ eq_refl).
  destruct ev; cbn [client_on_slot_event]; try (destruct He as [(? & ? & [=])|He]);
    first [by apply on_closed_io | by apply (send_to_step client_types) | by wp_steps].
Qed.

Lemma slot_arm_wp t s F :
  turn_ok t -> (forall e, io_fault (ct_io t) e -> F e) -> driver_wf s -> wp (client_slot_arm t) s (io_post F).
Proof.
  intros Ht Hio Hd. unfold client_slot_arm, on_client. wp_steps.
  destruct (take_slot_typed (ct_now t) (ct_draws t) _ (db_typed _ (proj1 Hd))) as [Hm Hev].
  destruct (kept_wf s _ _ Hd (slot_kept (ct_now t) (ct_draws t) (cv_manager s) (db_wf _ (proj1 Hd))) Hm) as [Hb He].
  eapply wp_mono; [by apply slot_event_wp|]. intros [[]|e|p] s1 Hs; [|exact Hs|exact Hs].
  wp_steps. unfold arm_slot. wp_steps. by apply driver_wf_slot.
Qed.

(** A run of [on_deadline] never starts the schedule. *)
Lemma on_deadline_next sched now : next sched = None -> next (on_deadline sched now).2 = None.
Proof. unfold on_deadline. intros H. destruct (negb _); [done|]. by rewrite H. Qed.

Lemma driver_wf_deadline s now :
  driver_wf s -> driver_wf (cv_set_sched (on_deadline (cv_cover_sched s) now).2 s).
Proof.
  intros [[H1 H0 H2 H3] H4]. split; [split|]; cbn; auto. intros Hx. apply H3. intros Hn. destruct Hx.
  by apply on_deadline_next.
Qed.

Lemma slot_or_cover_wp t s (F : ManagerError -> Prop) :
  turn_ok t -> (forall msg, ct_fill t = Err msg -> F (cover_fault msg)) -> driver_wf s ->
  wp (slot_or_cover t) s (fun r s' => match r with
    | Ret ev => opt_typed (ev_typed client_types) ev /\ driver_base s' /\
        ((exists sid reason, ev = Some (EvClosed sid reason)) \/ driver_wf s')
    | Fail e => F e \/ (e = ME_Session wrong_state /\ stuck (cv_manager s'))
    | Panic _ => False end).
Proof.
  intros Ht HF Hd. unfold slot_or_cover, on_client. wp_steps.
  destruct (take_slot_typed (ct_slot_now t) (ct_draws t) _ (db_typed _ (proj1 Hd))) as [Hm Hev].
  destruct (kept_wf s _ _ Hd (slot_kept (ct_slot_now t) (ct_draws t) (cv_manager s) (db_wf _ (proj1 Hd))) Hm) as [Hb He].
  destruct (take_slot (ct_slot_now t) (ct_draws t) (cv_manager s)) as [[ev|] m1]; cbn [fst snd] in *; [by wp_steps|].
  destruct He as [(? & ? & [=])|Hd1]. set (s1 := cv_set_manager m1 s) in *. clearbody s1. wp_steps.
  apply try_client_kept. eapply wp_mono; [apply (wp_typed (I := cm_typed) (ev_typed client_types));
    [apply client_cover_packet_typed|apply Hd1|apply client_cover_packet_wp; [apply Hd1|apply Ht]]|].
  intros r m' ((Hk & Hr) & Hm' & Hev'). destruct Hr as [(e & -> & He & ->)|[(w & Hw & Hs)|(Hn & Hn' & Hr)]].
  - assert (driver_wf (cv_set_manager (cv_manager s1) s1)) as Hd2 by (by apply driver_wf_manager).
    destruct He as [[-> _]|[(msg & Hfill & ->)|[-> Hst]]]; unfold cover_fault; wp_steps.
    + split; [apply opt_none|]. split; [apply Hd2|by right].
    + apply wp_try; [done|]. intros e [= <-]. left. by apply HF.
    + apply wp_try; [done|]. intros e [= <-]. by right.
  - apply sent_on_kept in Hs; [|done]. destruct r as [ev|e|p]; [|destruct Hs as (-> & ? & _)|done]; wp_steps.
    + destruct (kept_wf s1 (Some ev) m' Hd1 Hs Hm') as [Hb1 He1]. split; [apply opt_some; by apply Hev'|by split].
    + apply wp_try; [done|]. intros e [= <-]. by right.
  - assert (driver_wf (cv_set_manager m' s1)) as Hd2.
    { apply driver_wf_manager; [done|done|done|]. intros Hx.
      pose proof (cw_session _ (db_wf _ (proj1 Hd1))) as Hs. rewrite Hn in Hs. destruct Hs as [Hs _]. congruence. }
    destruct Hr as [->|[n ->]]; wp_steps; (split; [by apply opt_some, Hev'|split; [apply Hd2|by right]]).
Qed.

Lemma cover_arm_wp t s F :
  turn_ok t -> (forall e, io_fault (ct_io t) e -> F e) -> (forall msg, ct_fill t = Err msg -> F (cover_fault msg)) ->
  driver_wf s -> wp (client_cover_arm t) s (step_post F).
Proof.
  intros Ht Hio Hfill Hd. unfold client_cover_arm. wp_steps. pose proof (driver_wf_deadline s (ct_now t) Hd) as Hd1.
  destruct (on_deadline (cv_cover_sched s) (ct_now t)) as [due sched]. cbn [snd] in Hd1. wp_steps.
  set (s1 := cv_set_sched sched s) in *. clearbody s1.
  assert (forall s', driver_wf s' -> step_post F (Ret true) (cv_arm_cover s')) as Hend
    by (intros s' [[] ?]; by split).
  destruct due; wp_steps; [|by apply Hend].
  eapply wp_mono; [by apply (slot_or_cover_wp t s1 F)|].
  intros [ev|e|p] s2 Hs; [|exact Hs|exact Hs]. destruct Hs as (Hev & Hb & He). wp_steps.
  eapply wp_mono; [by apply (slot_event_wp t ev s2 F)|].
  intros [[]|e|p] s3 Hs; [|by apply (io_step F (Fail e))|exact Hs]. wp_steps. by apply Hend.
Qed.

(** ** The tick arm *)

Lemma for_events_tick t m evs i s F :
  turn_ok t -> Forall (ev_typed client_types) evs -> (forall e, io_fault (ct_io t) e -> F e) -> driver_base s ->
  driver_wf s \/ (exists sid reason, In (EvClosed sid reason) evs) ->
  cv_manager s = m \/ cm_state (cv_manager s) <> CmIdle ->
  wp (for_events (client_on_tick_event t) i evs) s (fun r s' =>
    io_post F r s' /\ (r = Ret () -> cv_manager s' = m \/ cm_state (cv_manager s') <> CmIdle)).
Proof.
  intros Ht Hevs Hio. revert i s. induction Hevs as [|ev evs Hev _ IH]; intros i s Hb Hd HJ; cbn [for_events].
  { wp_steps. destruct Hd as [Hd|(? & ? & [])]. by split. }
  assert (forall es, is_closed ev = false -> wp (for_events (client_on_tick_event t) (S i) evs) (add_logs es s)
    (fun r s' => io_post F r s' /\ (r = Ret () -> cv_manager s' = m \/ cm_state (cv_manager s') <> CmIdle))) as Hnext.
  { intros es Hc. apply IH; [by apply driver_base_logs| |done].
    destruct Hd as [Hd|(sid & reason & [->|Hin])]; [left; by apply driver_wf_logs|done|right; by eexists _, _]. }
  assert (forall (e : ManagerError) es, io_fault (ct_io t) e -> io_post (A := ()) F (Fail e) (add_logs es s) /\
    (Fail e = Ret () -> cv_manager (add_logs es s) = m \/ cm_state (cv_manager (add_logs es s)) <> CmIdle)) as Hfail.
  { intros e es Hn. split; [by apply Hio|done]. }
  apply wp_bind. destruct ev; cbn [client_on_tick_event];
    try (wp_steps; rewrite <- (add_logs_nil s); by apply Hnext).
  - apply wp_send_to; [by eapply conforms_wf|intros es; by apply Hnext|intros e es Hn; by apply Hfail].
  - eapply wp_mono; [by apply (on_closed_wp t i sid reason s F)|].
    intros [[]|e|p] s1 [Hs Hbeg]; [|by split|by split]. apply IH; [apply Hs|by left|].
    destruct (Hbeg eq_refl) as (r0 & [(h & _ & _ & Hh & _)|(e & _ & ->)]); [right|exact HJ].
    destruct Hs as [[Hwf _ _ _] _]. unfold cm_state. rewrite Hh.
    destruct (cw_one _ Hwf) as [Hn|Hn]; [by rewrite Hn in Hh|]. by rewrite Hn.
  - apply wp_notify; [intros es; by apply Hnext|intros e es Hn; by apply Hfail].
Qed.

Lemma fresh_first m fill i n b :
  fill i = Ok b -> b ∉ cm_used_sids m ->
  wp (fresh_sid_from fill i (S n)) m (fun r _ => r = Ret b).
Proof.
  intros Hf Hb. cbn [fresh_sid_from]. wp_steps. unfold random_sid. rewrite Hf. cbn [map_err].
  eapply wp_try_ok; [reflexivity|]. wp_steps. rewrite bool_decide_false by done. by wp_steps.
Qed.

Lemma cm_begin_fresh m d b :
  cm_wf m -> draws_ok d -> cm_state m = CmIdle -> cd_fill d 0 = Ok b -> b ∉ cm_used_sids m ->
  forall e, (cm_begin_handshake d m).1 <> Fail e.
Proof.
  intros Hwf Hd Hi Hf Hb. pose proof (idle_no_session _ Hi) as Hs.
  assert (cm_hs m = None) as Hh by (unfold cm_state in Hi; rewrite Hs in Hi; by destruct (cm_hs m)).
  change (wp (cm_begin_handshake d) m (fun r _ => forall e, r <> Fail e)).
  unfold cm_begin_handshake. wp_steps. rewrite Hh, Hs. rewrite !bool_decide_true by done. cbn [negb orb].
  wp_steps. unfold fresh_sid. eapply wp_mono; [by apply fresh_first|]. intros r m1 ->. wp_steps.
  pose proof (client_new_wp (cm_cfg m) b (cd_kem d) (cd_x d) (cd_jitter d) (Hd _ _ Hf)) as Hw.
  unfold wp in Hw. unfold lift_new, wp at 1.
  destruct (ClientHandshake_new _ _ _ _ _ _).1 as [h| |]; cbn [fst snd];
    destruct Hw as [(h' & Hx & _)|[Hv _]]; try done; try (by destruct Hv; apply Hwf).
Qed.

Definition tick_fresh (t : ClientTurn) (m : ClientSessionManager) : Prop :=
  forall i, exists b, cd_fill (ct_rearm t i) 0 = Ok b /\
    (b ∉ cm_used_sids (client_tick (ct_now t) (ct_draws t) m).2).

Lemma tick_arm_wp t s F :
  turn_ok t -> (forall e, io_fault (ct_io t) e -> F e) -> driver_wf s ->
  wp (client_tick_arm t) s (fun r s' => io_post F r s' /\
    (forall b, r = Ret b -> b = true /\ (tick_fresh t (cv_manager s) -> cm_state (cv_manager s') <> CmIdle))).
Proof.
  intros Ht Hio Hd. unfold client_tick_arm, on_client. wp_steps.
  pose proof (db_wf _ (proj1 Hd)) as Hwf.
  pose proof (client_tick_spec (ct_now t) (ct_draws t) (cv_manager s) Hwf) as (Hk & _ & _ & cl & m1 & m2 & Hc & Hr & Hm & Ho).
  destruct (client_tick_typed (ct_now t) (ct_draws t) _ (db_typed _ (proj1 Hd))) as [Hty Hevs].
  unfold tick_fresh. destruct (client_tick (ct_now t) (ct_draws t) (cv_manager s)) as [evs m']. cbn [fst snd] in *.
  pose proof (driver_base_manager m' s (proj1 Hd) Hk Hty) as Hb.
  assert (driver_wf (cv_set_manager m' s) \/ exists sid reason, In (EvClosed sid reason) evs) as Hcl.
  { destruct (due (ct_now t) (cv_manager s)) as [[sid reason]|].
    - right. exists sid, reason. rewrite Ho. apply in_or_app. left.
      destruct Hc as (_ & _ & _ & _ & _ & [->|[p ->]]); cbn; auto.
    - left. destruct Hc as [_ ->]. apply driver_wf_manager; [done|done|done|]. destruct Hr as (n & l & ->). by rewrite Hm. }
  eapply wp_mono; [apply (for_events_tick t m' evs 0 _ F Ht Hevs Hio Hb Hcl); by left|].
  intros [[]|e|p] s1 [Hs HJ]; [|by split|by split]. specialize (HJ eq_refl). wp_steps.
  destruct (needs_rearm (cv_manager s1)) eqn:Hnr; wp_steps.
  - apply (rearm_client_wp t _ s1 F); [done|apply Hs|done| |intros e s' Hn; by split].
    intros m3 es Hk3 Hm3 Hbeg Hr3. unfold arm_retransmit. wp_steps. split.
    + apply driver_wf_retransmit, driver_wf_logs. split; [by apply driver_base_manager; [apply Hs| |]|].
      cbn. intros Hw. destruct Hs as [Hbs Hws]. specialize (Hws Hw).
      unfold needs_rearm in Hnr. apply andb_true_iff in Hnr as [_ Hnr%bool_decide_eq_true_1].
      pose proof (cw_session _ (db_wf _ Hbs)) as Hse. rewrite Hnr in Hse. destruct Hse as [Hse _]. congruence.
    + intros b [= <-]. split; [done|]. intros Hfresh. cbn.
      destruct Hbeg as [(h & _ & _ & Hh & _)|(e & He & ->)].
      * destruct Hk3 as [Hwf3 _]. unfold cm_state. rewrite Hh.
        destruct (cw_one _ Hwf3) as [Hn|Hn]; [by rewrite Hn in Hh|]. by rewrite Hn.
      * intros Hi. destruct HJ as [HJ|HJ]; [|done]. destruct (Hfresh (length evs)) as (b & Hb1 & Hb2).
        rewrite <- HJ in Hb2. destruct Hs as [[Hwf1 _ _ _] _].
        by apply (cm_begin_fresh _ _ b Hwf1 (proj1 (proj2 Ht) (length evs)) Hi Hb1 Hb2) in He.
  - split; [exact Hs|]. intros b [= <-]. split; [done|]. intros _.
    intros Hi. pose proof (idle_no_session _ Hi) as Hse. destruct Hs as [[Hwf1 _ Hbegan _] _].
    assert (cm_hs (cv_manager s1) = None) as Hh by (unfold cm_state in Hi; rewrite Hse in Hi; by destruct (cm_hs _)).
    unfold needs_rearm in Hnr. by rewrite (cw_rearm _ Hwf1 Hh Hse Hbegan), Hh, Hse in Hnr.
Qed.


(** ** Turns and runs *)

(** The errors the environment of a turn can cause: those of the transport and the
    application channel, a receive error the driver does not outlive, and a random
    source that fails when a cover packet is due. *)
Definition client_fault (t : ClientTurn) (i : client_input) (e : ManagerError) : Prop :=
  io_fault (ct_io t) e \/
  (exists e', i = CIRecv (Err e') /\ fatal_recv e' = true /\ e = ME_Handshake e') \/
  (i = CICover /\ exists msg, ct_fill t = Err msg /\ e = cover_fault msg).

(** Inputs that are not themselves a failure of the transport, of the random
    source or the end of the application. *)
Definition benign (t : ClientTurn) (i : client_input) : Prop :=
  match i with
  | CIRecv (Err HS_DatagramRejected) | CIRecv (Err HS_TransportReset) | CIRecv (Ok _) => True
  | CIRecv (Err _) => False
  | CICover => exists f, ct_fill t = Ok f
  | _ => True
  end.

Lemma benign_no_fault t i e : io_ok (ct_io t) -> benign t i -> ~ client_fault t i e.
Proof.
  intros Hio Hb [Hf|[(e' & -> & Hf & _)|(-> & msg & Hf & _)]].
  - by apply (io_ok_no_fault _ e Hio).
  - by destruct e'.
  - destruct Hb as [f Hb]. by rewrite Hb in Hf.
Qed.

Lemma client_turn_wp t i s F :
  turn_ok t -> (forall e, client_fault t i e -> F e) -> driver_wf s -> wp (client_turn t i) s (step_post F).
Proof.
  intros Ht HF Hd. unfold client_fault in HF. assert (forall e, io_fault (ct_io t) e -> F e) as Hio by auto.
  unfold client_turn. apply after_call_wp; [by apply signal_ready_wp|]. intros s1 Hd1.
  destruct i as [r|cmd| | | |].
  - apply recv_arm_wp; [done|done|done|]. intros e -> He. eauto 8.
  - by apply cmd_arm_wp.
  - apply wp_io_step. by apply retransmit_arm_wp.
  - apply wp_io_step. eapply wp_mono; [by apply tick_arm_wp|]. by intros r s' [? _].
  - apply wp_io_step. by apply slot_arm_wp.
  - apply cover_arm_wp; [done|done| |done]. eauto 8.
Qed.

(** A turn only ends the loop when the application closed its side. *)
Lemma bind_true {A} (f : M ClientDriver ManagerError A) (k : A -> M ClientDriver ManagerError bool) s b :
  (forall a s' b', (k a s').1 = Ret b' -> b' = true) -> ((f ≫= k) s).1 = Ret b -> b = true.
Proof. intros Hk. unfold mbind, M_bind. destruct (f s) as [[a|e|p] s1]; [apply Hk|done|done]. Qed.

Ltac ends_with_true :=
  repeat first
    [ progress intros
    | match goal with
      | H : ((mbind _ _) _).1 = Ret _ |- _ => revert H; apply bind_true
      | H : ((mret _) _).1 = Ret _ |- _ => injection H as H; by subst
      | H : ((try _ (Err _)) _).1 = Ret _ |- _ => discriminate H
      end ].

Lemma client_turn_continues t i s b :
  i <> CICmd None -> (client_turn t i s).1 = Ret b -> b = true.
Proof.
  intros Hi. unfold client_turn. apply bind_true. intros [] s1 b1.
  destruct i as [r|cmd| | | |].
  - unfold client_recv_arm. destruct r as [[pkt from]|[]]; ends_with_true.
  - unfold client_cmd_arm. destruct cmd as [payload|]; [|done]. apply bind_true. intros r s2 b2.
    destruct r as [ev|e]; [destruct ev|destruct e as [| e | | | |]; [|destruct e as [| |c| |]; [| |destruct c| |]| | | |]];
      ends_with_true.
  - unfold client_retransmit_arm. ends_with_true.
  - unfold client_tick_arm. ends_with_true.
  - unfold client_slot_arm. ends_with_true.
  - unfold client_cover_arm. apply bind_true. intros s2 s3 b3.
    destruct (on_deadline (cv_cover_sched s2) (ct_now t)). ends_with_true.
Qed.

Inductive driver_reaches (cfg : ClientConfig) (limits : SessionLimits) : ClientDriver -> Prop :=
| dr_connect t m cover s :
    turn_ok t -> ClientSessionManager_new cfg limits = Ok m ->
    client_connect t (client_driver_init t m cover) = (Ret (), s) -> driver_reaches cfg limits s
| dr_turn t i s s' :
    turn_ok t -> driver_reaches cfg limits s -> client_turn t i s = (Ret true, s') ->
    driver_reaches cfg limits s'.

Lemma client_connect_wp t m cover :
  turn_ok t -> cm_wf m -> cm_typed m ->
  wp (client_connect t) (client_driver_init t m cover) (fun r s => r = Ret () -> driver_wf s).
Proof.
  intros Ht Hwf Hty. unfold client_connect, on_client, arm_slot, arm_retransmit. wp_steps.
  eapply wp_mono; [apply (wp_typed (I := cm_typed) (ev_typed client_types));
    [apply cm_begin_handshake_typed, Ht|exact Hty|by apply cm_begin_wp; [|apply Ht]]|].
  intros r m' ([Hk Hb] & Hm & Hev). cbn [cv_manager client_driver_init] in *.
  destruct Hb as [(h & _ & -> & Hh & _ & Hu)|(e & -> & _)]; [|done].
  set (s1 := cv_set_manager m' (client_driver_init t m cover)).
  assert (driver_wf s1) as Hd.
  { pose proof (cw_used _ (proj1 Hk)) as Hc. split; [|done]. split; [apply Hk|exact Hm| |done]. cbn. intros Hn.
    pose proof (hi_set _ _ _ Hc) as Hx. rewrite Hn in Hx. rewrite Hx in Hu. by apply elem_of_empty in Hu. }
  clearbody s1. wp_steps. apply wp_send_packets; [by eapply conform_all_wf, (Hev _ eq_refl)| |by intros].
  intros es. wp_steps. intros _.
  apply driver_wf_retransmit, driver_wf_slot, driver_wf_logs, Hd.
Qed.

Lemma driver_reaches_wf cfg limits s : driver_reaches cfg limits s -> driver_wf s.
Proof.
  induction 1 as [t m cover s Ht Hnew Hc|t i s s' Ht Hr IH Hs].
  - pose proof (new_client_typed _ _ _ Hnew) as Hty. apply client_manager_new_wf in Hnew as (Hwf & _).
    exact (wp_run _ _ _ _ _ (client_connect_wp t m cover Ht Hwf Hty) Hc eq_refl).
  - exact (wp_run _ _ _ _ _ (client_turn_wp t i s (client_fault t i) Ht ltac:(done) IH) Hs).
Qed.

Lemma signal_ready_same t s :
  io_ok (ct_io t) ->
  exists s1, client_signal_ready t s = (Ret (), s1) /\ cv_manager s1 = cv_manager s.
Proof.
  intros [_ Hn].
  assert (wp (client_signal_ready t) s (fun r s1 => r = Ret () /\ cv_manager s1 = cv_manager s)) as Hw.
  { unfold client_signal_ready. wp_steps. destruct (_ && _); [|by wp_steps]. unfold arm_slot. wp_steps.
    destruct (cm_session_id (cv_manager s)) as [sid|]; [|by wp_steps]. unfold notify. rewrite Hn. by wp_steps. }
  unfold wp in Hw. destruct (client_signal_ready t s) as [r s1]. destruct Hw as [Hr Hm]. cbn in *. subst. by exists s1.
Qed.

Lemma signal_not_ready t s :
  cm_ready (cv_manager s) = false -> client_signal_ready t s = (Ret (), s).
Proof. intros Hr. unfold client_signal_ready, mbind, M_bind, get. by rewrite Hr. Qed.

End Client.

Section Server.
Context {P : Primitives} {L : PrimitivesLaws P}.

(** ** Sending on the server *)

Lemma server_send_total m sid ty payload :
  manager_wf m -> length payload = PAYLOAD_LEN ->
  wp (server_send_encrypted sid ty payload) m (fun r m' => keeps m m' /\
    ((exists ev, r = Ret ev) \/ r = Fail ME_NoSession)).
Proof.
  intros Hwf Hp. unfold server_send_encrypted. wp_steps.
  destruct (sm_sessions m !! sid) as [e|] eqn:He; cbn [ok_or].
  - eapply wp_try_ok; [reflexivity|]. cbv beta iota. eapply wp_mono; [by apply encrypt_event_wp|].
    intros r m' [[Hk (p & ->)]|(Hk & -> & _)]; eauto.
  - apply wp_try; [done|]. intros err [= <-]. by split; [|right].
Qed.

(** A cover packet on a live session succeeds and leaves the others alone. *)
Lemma cover_packet_total m sid f :
  manager_wf m -> is_Some (sm_sessions m !! sid) -> length f = PAYLOAD_LEN ->
  wp (server_cover_packet sid (Ok f)) m (fun r m' => keeps m m' /\ (exists ev, r = Ret ev) /\
    forall k, k <> sid -> is_Some (sm_sessions m !! k) -> is_Some (sm_sessions m' !! k)).
Proof.
  intros Hwf [e He] Hf. destruct (mw_sessions _ Hwf _ _ He) as [Hs Hlive].
  unfold server_cover_packet. wp_steps. rewrite He. cbn [ok_or]. eapply wp_try_ok; [reflexivity|]. cbv beta iota.
  rewrite (with_session_ext _ _ (fun s => WireSession_encrypt s Cover f))
    by (unfold WireSession_cover; by rewrite (require_established_live sid _ Hlive)).
  pose proof (encrypt_event_wp m sid e Cover f Hwf He Hf) as Hw. unfold wp in *.
  assert (forall k, k <> sid -> sm_sessions ((r ← with_session sid (λ s, WireSession_encrypt s Cover f) e;
    send_result sid (se_peer e) r) m).2 !! k = sm_sessions m !! k) as Hother.
  { intros k Hk. unfold with_session, send_result, mbind, M_bind, modify, mret, M_ret.
    destruct (WireSession_encrypt (se_session e) Cover f) as [[p|err] w]; cbn; [by rewrite lookup_insert_ne|].
    destruct err; cbn; rewrite ?lookup_delete_ne, ?lookup_insert_ne; done. }
  destruct ((r ← with_session sid (λ s, WireSession_encrypt s Cover f) e; send_result sid (se_peer e) r) m) as [r m'].
  cbn [fst snd] in *. assert (keeps m m' /\ exists ev, r = Ret ev) as [Hk Hev]
    by (destruct Hw as [[Hk (p & ->)]|(Hk & -> & _)]; eauto).
  split; [done|]. split; [done|]. intros k Hne. by rewrite Hother.
Qed.

Lemma cover_each_total sids fill m :
  manager_wf m -> NoDup sids -> (forall sid, sid ∈ sids -> is_Some (sm_sessions m !! sid)) ->
  (forall sid f, fill sid = Ok f -> length f = PAYLOAD_LEN) ->
  wp (cover_each sids fill) m (fun r m' => match r with
    | Ret _ => keeps m m'
    | Fail e => exists sid msg, fill sid = Err msg /\ e = cover_fault msg
    | Panic _ => False end).
Proof.
  intros Hwf Hn Hin Hf. revert m Hwf Hn Hin. induction sids as [|sid sids IH]; intros m Hwf Hn Hin; cbn [cover_each].
  { by wp_steps. }
  apply NoDup_cons in Hn as [Hni Hn]. destruct (fill sid) as [f|msg] eqn:Ef; wp_steps.
  - eapply wp_mono; [apply cover_packet_total; [done|apply Hin; left|by eapply Hf]|].
    intros r m1 (Hk & [ev ->] & Ho). wp_steps. eapply wp_mono; [apply IH; [apply Hk|done|]|].
    + intros k Hk'. apply Ho; [by intros ->|]. apply Hin. by right.
    + intros [evs|e|q] m2 Hk2; [|done|done]. wp_steps. exact (keeps_trans _ _ _ Hk Hk2).
  - destruct (Hin sid ltac:(left)) as [en Hen]. destruct (mw_sessions _ Hwf _ _ Hen) as [Hs Hlive].
    unfold server_cover_packet, with_session, send_result, WireSession_cover. wp_steps. rewrite Hen. cbn [ok_or].
    eapply wp_try_ok; [reflexivity|]. cbv beta iota. rewrite (require_established_live sid _ Hlive). wp_steps.
    apply wp_try; [done|]. intros e [= <-]. by exists sid, msg.
Qed.

Lemma insert_sid_perm sid l : insert_sid sid l ≡ₚ sid :: l.
Proof.
  induction l as [|x l IH]; cbn [insert_sid]; [done|]. destruct (_ <=? _); [done|]. rewrite IH. apply Permutation_swap.
Qed.

Lemma sort_sids_perm l : sort_sids l ≡ₚ l.
Proof. induction l as [|x l IH]; [done|]. cbn [sort_sids foldr]. fold (sort_sids l). by rewrite insert_sid_perm, IH. Qed.

Lemma cover_packet_all_total fill m :
  manager_wf m -> (forall sid f, fill sid = Ok f -> length f = PAYLOAD_LEN) ->
  wp (cover_packet_all fill) m (fun r m' => match r with
    | Ret _ => keeps m m'
    | Fail e => exists sid msg, fill sid = Err msg /\ e = cover_fault msg
    | Panic _ => False end).
Proof.
  intros Hwf Hf. unfold cover_packet_all. wp_steps. apply cover_each_total; [done| | |done].
  - rewrite sort_sids_perm. apply NoDup_fst_map_to_list.
  - intros sid. rewrite sort_sids_perm. intros [[k e] [-> Hin]]%list_elem_of_fmap. cbn.
    apply elem_of_map_to_list in Hin. by rewrite Hin.
Qed.

(** ** Server turns *)

(** An effect of the server driver: it leaves the manager alone and fails only when
    the outside does. *)
Definition srv_post (io : DriverIO) (m : ServerSessionManager) (r : exec ManagerError ()) (s : ServerDriver) : Prop :=
  match r with Ret _ => sd_manager s = m | Fail e => io_fault io e | Panic _ => False end.

Lemma srv_send_to io p a s : conforms server_types p -> wp (send_to io p a) s (srv_post io (sd_manager s)).
Proof.
  intros [Hp _]. unfold send_to. wp_steps. destruct (io_send io p a) as [[]|e] eqn:He; apply wp_try; try done.
  intros e' [= <-]. left. eauto 8.
Qed.

Lemma srv_notify io n s : wp (notify io n) s (srv_post io (sd_manager s)).
Proof.
  unfold notify. destruct (io_notify io n) eqn:Hn; [by wp_steps|]. apply wp_try; [done|]. intros e [= <-]. right. eauto.
Qed.

Lemma srv_then {A} io m (f : M ServerDriver ManagerError ()) (k : () -> M ServerDriver ManagerError A) s
    (Q : exec ManagerError A -> ServerDriver -> Prop) :
  wp f s (srv_post io m) -> (forall s', sd_manager s' = m -> wp (k ()) s' Q) ->
  (forall e s', io_fault io e -> Q (Fail e) s') -> wp (f ≫= k) s Q.
Proof.
  intros Hf Hk He. apply wp_bind. eapply wp_mono; [exact Hf|]. intros [[]|e|q] s' H; [by apply Hk|by apply He|done].
Qed.

Lemma srv_send_packets io ps a s : Forall (conforms server_types) ps -> wp (send_packets io ps a) s (srv_post io (sd_manager s)).
Proof.
  intros Hps. revert s. induction Hps as [|p ps Hp _ IH]; intros s; cbn [send_packets]; [by wp_steps|].
  apply (srv_then io (sd_manager s)); [by apply srv_send_to| |done]. intros s' <-. apply IH.
Qed.

Lemma srv_timed_events t i evs s :
  Forall (ev_typed server_types) evs ->
  wp (for_events (server_on_timed_event t) i evs) s (srv_post (st_io t) (sd_manager s)).
Proof.
  intros Hevs. revert i s. induction Hevs as [|ev evs Hev _ IH]; intros i s; cbn [for_events]; [by wp_steps|].
  apply (srv_then (st_io t) (sd_manager s)); [| |done].
  - destruct ev; cbn [server_on_timed_event]; first [by apply srv_send_to | apply srv_notify | by wp_steps].
  - intros s' <-. apply IH.
Qed.

(** What the types of the code promise of a turn: whole packets are received, and
    the padding of a cover packet fills its payload. *)
Definition server_turn_typed (t : ServerTurn) (i : server_input) : Prop :=
  (forall sid f, st_fill t sid = Ok f -> length f = PAYLOAD_LEN) /\
  match i with SIRecv (Ok (pkt, _)) => WirePacket_wf pkt | _ => True end.

(** The errors the environment of a turn can cause. *)
Definition server_fault (t : ServerTurn) (i : server_input) (e : ManagerError) : Prop :=
  io_fault (st_io t) e \/
  (exists e', i = SIRecv (Err e') /\ fatal_recv e' = true /\ e = ME_Handshake e') \/
  (i = SICover /\ exists sid msg, st_fill t sid = Err msg /\ e = cover_fault msg).

Definition server_turn_ok (t : ServerTurn) (i : server_input) : Prop :=
  io_ok (st_io t) /\ server_turn_typed t i /\
  match i with
  | SIRecv (Err HS_DatagramRejected) | SIRecv (Err HS_TransportReset) => True
  | SIRecv (Err _) => False
  | SICover => forall sid, is_ok (st_fill t sid) = true
  | _ => True
  end.

Lemma server_turn_no_fault t i e : server_turn_ok t i -> ~ server_fault t i e.
Proof.
  intros (Hio & _ & Hi) [Hf|[(e' & -> & Hf & _)|(-> & sid & msg & Hf & _)]].
  - by apply (io_ok_no_fault _ e Hio).
  - by destruct e'.
  - specialize (Hi sid). by rewrite Hf in Hi.
Qed.

Definition server_step_post (t : ServerTurn) (i : server_input) (m : ServerSessionManager)
    (r : exec ManagerError bool) (s : ServerDriver) : Prop :=
  match r with
  | Ret b => (keeps m (sd_manager s) /\ sm_typed (sd_manager s)) /\ (b = false -> i = SICmd None)
  | Fail e => server_fault t i e
  | Panic _ => False
  end.

Lemma server_recv_wp t r s :
  manager_wf (sd_manager s) -> sm_typed (sd_manager s) -> server_turn_typed t (SIRecv r) ->
  wp (server_recv_arm t r) s (server_step_post t (SIRecv r) (sd_manager s)).
Proof.
  intros Hwf Hty [_ Hi]. unfold server_recv_arm, on_manager. destruct r as [[pkt from]|e].
  2:{ destruct e; try (by wp_steps); apply wp_try; try done; intros e' [= <-]; right; left; by eexists. }
  wp_steps. eapply wp_mono; [apply (wp_typed (I := sm_typed) (ev_typed server_types));
    [by apply server_manager_handle_typed|exact Hty|by apply server_manager_handle_wp]|].
  intros r m' ((Hk & [ev ->] & _) & Hm & Hev). specialize (Hev _ eq_refl). wp_steps.
  eapply (wp_mono _ _ (srv_post (st_io t) m')).
  - destruct ev; cbn [server_on_event]; unfold modify; wp_steps;
      first [by apply srv_send_packets | by apply srv_send_to | by apply (srv_notify (st_io t)) | done].
  - intros [[]|e|q] s1 H; [|by left|done]. wp_steps. split; [|done]. cbn in H. by rewrite H.
Qed.

Lemma server_cmd_wp t cmd s :
  manager_wf (sd_manager s) -> sm_typed (sd_manager s) -> wp (server_cmd_arm t cmd) s (server_step_post t (SICmd cmd) (sd_manager s)).
Proof.
  intros Hwf Hty. unfold server_cmd_arm. destruct cmd as [cmd|]; [|by wp_steps].
  assert (wp (server_app_outbound (sac_sid cmd) (sac_payload cmd)) (sd_manager s) (fun r m' => keeps (sd_manager s) m' /\
    ((exists ev, r = Ret ev) \/ r = Fail ME_NoSession \/ r = Fail (payload_too_long (sac_payload cmd))))) as Hw.
  { unfold server_app_outbound. destruct (Nat.ltb_spec PAYLOAD_LEN (length (sac_payload cmd))) as [|Hle].
    - apply wp_try; [done|]. intros e [= <-]. split; [done|]. by right; right.
    - eapply wp_mono; [apply server_send_total; [done|by apply length_pad_payload]|].
      intros r m' [? [?| ?]]; auto. }
  destruct (server_app_outbound_typed (sac_sid cmd) (sac_payload cmd) _ Hty) as [Hm Hev].
  unfold wp in Hw |- *. destruct (server_app_outbound _ _ _) as [r m']. cbn [fst snd] in Hw, Hm, Hev.
  assert (forall f : M ServerDriver ManagerError (), keeps (sd_manager s) m' ->
    wp f (sd_set_manager m' s) (srv_post (st_io t) m') ->
    wp (f;; mret true) (sd_set_manager m' s) (server_step_post t (SICmd (Some cmd)) (sd_manager s))) as Hf.
  { intros f Hk Hw'. apply (srv_then (st_io t) m'); [done| |by left]. intros s' Hs'. wp_steps. split; [by rewrite Hs'|done]. }
  destruct Hw as (Hk & [[ev ->]|[->| ->]]); [|by split|by split].
  specialize (Hev _ eq_refl). destruct ev; try (by split).
  - apply (Hf (send_to (st_io t) packet peer) Hk), (srv_send_to _ _ _ (sd_set_manager m' s)), Hev.
  - apply (Hf (notify (st_io t) (NClosed sid reason)) Hk), (srv_notify _ _ (sd_set_manager m' s)).
Qed.

Lemma server_turn_wp t i s :
  manager_wf (sd_manager s) -> sm_typed (sd_manager s) -> server_turn_typed t i ->
  wp (server_turn t i) s (server_step_post t i (sd_manager s)).
Proof.
  intros Hwf Hty Hi. destruct i as [r|cmd| |]; cbn [server_turn].
  - by apply server_recv_wp.
  - by apply server_cmd_wp.
  - unfold server_tick_arm, on_manager. wp_steps.
    pose proof (manager_apply_keeps (MTick (st_now t)) (sd_manager s) Hwf I) as Hk.
    destruct (server_tick_typed (st_now t) _ Hty) as [Hm Hev].
    eapply wp_mono; [by apply srv_timed_events|]. intros [[]|e|q] s1 H; [|by left|done]. wp_steps. split; [|done]. cbn in H. by rewrite H.
  - unfold server_cover_arm, on_manager. wp_steps.
    destruct (on_deadline (sd_cover_sched s) (st_now t)) as [due sched]. wp_steps. destruct due; wp_steps; [|done].
    eapply wp_mono; [apply (wp_typed (I := sm_typed) (Forall (ev_typed server_types)));
      [apply cover_packet_all_typed|exact Hty|apply cover_packet_all_total; [done|apply Hi]]|].
    intros [evs|e|q] m' (H & Hm & Hev); [|right; right; by split|done]. specialize (Hev _ eq_refl). wp_steps.
    eapply wp_mono; [by apply srv_timed_events|]. intros [[]|e|q] s1 H1; [|by left|done]. wp_steps.
    split; [|done]. cbn [sd_arm_cover sd_manager]. cbn in H1. destruct (_ =? _)%nat; cbn; by rewrite H1.
Qed.

End Server.

(** ** Whole runs *)

Lemma server_loop_wp {P : Primitives} {L : PrimitivesLaws P} turns s :
  manager_wf (sd_manager s) -> sm_typed (sd_manager s) -> Forall (fun ti => server_turn_typed ti.1 ti.2) turns ->
  wp (server_driver_loop turns) s (fun r s' => match r with
    | Ret b => keeps (sd_manager s) (sd_manager s') /\ (b = false -> Exists (fun ti => ti.2 = SICmd None) turns)
    | Fail e => Exists (fun ti => server_fault ti.1 ti.2 e) turns
    | Panic _ => False end).
Proof.
  intros Hwf Hty Hok. revert s Hwf Hty. induction Hok as [|[t i] turns Hi Hok IH]; intros s Hwf Hty; cbn [server_driver_loop].
  { by wp_steps. }
  wp_steps. eapply wp_mono; [by apply server_turn_wp|]. intros [b|e|q] s1 H; [|by left|done]. destruct H as [[Hk Hm] Hb].
  cbv beta iota. destruct b.
  - eapply wp_mono; [apply IH; [apply Hk|exact Hm]|]. intros [b|e|q] s2 H; [|by right|done]. destruct H as [Hk2 Hb2].
    split; [exact (keeps_trans _ _ _ Hk Hk2)|]. intros Hf. right. auto.
  - wp_steps. split; [done|]. intros _. left. auto.
Qed.

Lemma client_loop_wp {P : Primitives} {L : PrimitivesLaws P} turns s :
  driver_wf s -> Forall (fun ti => turn_ok ti.1) turns ->
  wp (client_driver_loop turns) s (fun r s' =>
    step_post (fun e => Exists (fun ti => client_fault ti.1 ti.2 e) turns) r s' /\
    (r = Ret false -> Exists (fun ti => ti.2 = CICmd None) turns)).
Proof.
  intros Hd Hok. revert s Hd. induction Hok as [|[t i] turns Ht Hok IH]; intros s Hd; cbn [client_driver_loop].
  { wp_steps. by split. }
  apply wp_bind. cbn [fst snd] in *. pose proof (client_turn_wp t i s (client_fault t i) Ht ltac:(done) Hd) as Hw.
  pose proof (client_turn_continues t i s) as Hc. unfold wp in Hw |- * at 1.
  destruct (client_turn t i s) as [[b|e|p] s1]; cbn [fst snd] in *; [| |done].
  2:{ split; [|discriminate]. destruct Hw as [Hw|Hw]; [left; by left|by right]. }
  destruct b.
  - eapply wp_mono; [by apply IH|]. intros r s2 [H1 H2]. split; [|intros Hr; right; auto].
    destruct r as [b|e|q]; [done| |done]. destruct H1 as [H1|H1]; [left; by right|by right].
  - wp_steps. split; [done|]. intros _. left. destruct i as [r|[pl|]| | | |]; try done;
      (assert (false = true) by (by apply Hc)); done.
Qed.

(** ** A concrete driver for the witnesses *)

Module DriverSample.

Definition io : DriverIO := mkDriverIO (fun _ _ => Ok ()) (fun _ => true).

(** A turn at second [t] whose random draws give the identifier [k]. *)
Definition turn (t k : Z) : ClientTurn :=
  mkClientTurn (from_secs t) (from_secs t) (ClientSample.draws t)
    (fun _ => mkClientDraws (from_secs t) (fun _ => Ok (be_bytes 8 k)) (replicate 32 x11) (replicate 32 x12)
                (replicate 32 x31) 5)
    5 (Ok (zeros PAYLOAD_LEN)) io.

Definition connected (m : ClientSessionManager) : exec ManagerError () * ClientDriver :=
  client_connect (turn 1 1) (client_driver_init (turn 1 1) m CoverPolicy_default).

End DriverSample.

Lemma sample_turn_ok t k : turn_ok (DriverSample.turn t k).
Proof.
  split; [intros i b [= <-]; reflexivity|]. split; [intros i j b [= <-]; reflexivity|].
  intros f [= <-]. apply length_zeros.
Qed.

Lemma sample_io_ok t k : io_ok (ct_io (DriverSample.turn t k)).
Proof. split; reflexivity. Qed.

Definition connected_fresh {P : Primitives} (r : exec ManagerError () * ClientDriver) : bool :=
  match r.1 with Ret _ => true | _ => false end && negb (cm_ready (cv_manager r.2)) &&
  bool_decide (be_bytes 8 77 ∉ cm_used_sids (client_tick (from_secs 40) (ClientSample.draws 40) (cv_manager r.2)).2).

Lemma driver_sample : exists s,
  driver_reaches Sample.client_cfg SessionLimits_default s /\ cm_ready (cv_manager s) = false /\
  (be_bytes 8 77 ∉ cm_used_sids (client_tick (from_secs 40) (ClientSample.draws 40) (cv_manager s)).2).
Proof.
  assert (match ClientSessionManager_new Sample.client_cfg SessionLimits_default with
          | Ok m => connected_fresh (DriverSample.connected m) | Err _ => false end = true) as H
    by (vm_compute; reflexivity).
  destruct (ClientSessionManager_new Sample.client_cfg SessionLimits_default) as [m|] eqn:E; [|discriminate H].
  unfold connected_fresh in H. destruct (DriverSample.connected m) as [r s] eqn:Ec. cbn [fst snd] in H.
  destruct r as [[]|e|p]; [|discriminate H|discriminate H].
  rewrite !andb_true_iff, negb_true_iff, bool_decide_eq_true in H. destruct H as [[_ H1] H2].
  exists s. split; [|by split].
  exact (dr_connect _ _ (DriverSample.turn 1 1) m CoverPolicy_default s (sample_turn_ok 1 1) E Ec).
Qed.

(** ** Properties *)

(** The server driver survives: with a working transport, channel and random
    source, on any sequence of received datagrams (of any content and source),
    rejected datagrams, transport resets, application commands (for any session
    and of any size), ticks and cover deadlines, the loop never returns an error
    and never panics, and it only ends when the application closes its side. *)
Theorem server_driver_survives {P : Primitives} {L : PrimitivesLaws P} cfg limits start m cover turns :
  0 <= sc_rate_limit_burst cfg -> 0 <= sl_max_fail_buckets limits ->
  manager_reaches cfg limits start m -> Forall (fun ti => server_turn_ok ti.1 ti.2) turns ->
  exists b, (run_server_manager m cover turns).1 = Ret b /\
    (b = false -> Exists (fun ti => ti.2 = SICmd None) turns).
Proof.
  intros Hb Hf Hr Hok. destruct (manager_reaches_wf _ _ _ _ Hb Hf Hr) as [Hwf _].
  pose proof (server_loop_wp turns (server_driver_init m cover) Hwf (manager_reaches_typed _ _ _ _ Hr)) as Hw. unfold wp in Hw.
  unfold run_server_manager. destruct (server_driver_loop turns _) as [[b|e|q] s'].
  - destruct Hw as [_ Hw]; [|by exists b]. eapply Forall_impl; [exact Hok|]. by intros ti (_ & ? & _).
  - exfalso. assert (Exists (fun ti => server_fault ti.1 ti.2 e) turns) as Hx
      by (apply Hw; eapply Forall_impl; [exact Hok|]; by intros ti (_ & ? & _)).
    apply Exists_exists in Hx as (ti & Hin & Hx). rewrite Forall_forall in Hok.
    exact (server_turn_no_fault _ _ e (Hok ti Hin) Hx).
  - exfalso. apply Hw. eapply Forall_impl; [exact Hok|]. by intros ti (_ & ? & _).
Qed.

Definition sample_server_turn : ServerTurn :=
  mkServerTurn (from_secs 1) (Sample.draws 1) (fun _ => Ok (zeros PAYLOAD_LEN)) DriverSample.io.

Lemma server_driver_survives_witness : exists b,
  (run_server_manager ManagerSample.manager1 CoverPolicy_default
    [(sample_server_turn, SIRecv (Ok (ManagerSample.data_packet, Sample.client_addr)));
     (sample_server_turn, SIRecv (Err HS_TransportReset)); (sample_server_turn, SITick);
     (sample_server_turn, SICover)]).1 = Ret b.
Proof.
  destruct (server_driver_survives Sample.server_cfg SessionLimits_default 0 ManagerSample.manager1 CoverPolicy_default
    [(sample_server_turn, SIRecv (Ok (ManagerSample.data_packet, Sample.client_addr)));
     (sample_server_turn, SIRecv (Err HS_TransportReset)); (sample_server_turn, SITick);
     (sample_server_turn, SICover)]) as (b & Hb & _).
  - vm_compute. discriminate.
  - vm_compute. discriminate.
  - apply manager_sample_reaches.
  - assert (io_ok DriverSample.io) as Hio by (split; reflexivity).
    assert (forall sid f, st_fill sample_server_turn sid = Ok f -> length f = PAYLOAD_LEN) as Hf
      by (intros sid f [= <-]; apply length_zeros).
    repeat (apply Forall_cons; split; [split; [exact Hio|split; [split; [exact Hf|]|]]|]);
      try apply Forall_nil; try exact I; try exact manager_sample_wf. intros sid. reflexivity.
  - exists b. exact Hb.
Defined.

(** The client driver survives: from any state it can reach, with a working
    transport, channel and random source, on any sequence of datagrams, rejected
    datagrams, transport resets, application payloads of any size, timers, slots
    and cover deadlines, the loop never panics and only ends when the application
    closes its side or on the state error of a session out of nonces. *)
Theorem client_driver_survives {P : Primitives} {L : PrimitivesLaws P} cfg limits s turns :
  driver_reaches cfg limits s ->
  Forall (fun ti => turn_ok ti.1 /\ io_ok (ct_io ti.1) /\ benign ti.1 ti.2) turns ->
  match client_driver_loop turns s with
  | (Ret b, s') => b = false -> Exists (fun ti => ti.2 = CICmd None) turns
  | (Fail e, s') => e = ME_Session wrong_state /\ stuck (cv_manager s')
  | (Panic _, _) => False
  end.
Proof.
  intros Hr Hok. pose proof (client_loop_wp turns s (driver_reaches_wf _ _ _ Hr)) as Hw. unfold wp in Hw.
  destruct Hw as [H1 H2]; [eapply Forall_impl; [exact Hok|]; by intros ti (? & _)|].
  destruct (client_driver_loop turns s) as [[b|e|p] s']; cbn [fst snd] in H1, H2.
  - intros ->. by apply H2.
  - destruct H1 as [H1|H1]; [exfalso|done]. apply Exists_exists in H1 as (ti & Hin & Hx). rewrite Forall_forall in Hok.
    destruct (Hok ti Hin) as (_ & Hio & Hb). by apply (benign_no_fault ti.1 ti.2 e).
  - done.
Qed.

Lemma client_driver_survives_witness : exists s, driver_reaches Sample.client_cfg SessionLimits_default s /\
  match client_driver_loop [(DriverSample.turn 2 2, CIRecv (Ok (Sample.m3_packet, Sample.server_addr)));
                            (DriverSample.turn 3 3, CIRetransmit); (DriverSample.turn 4 4, CICmd None)] s with
  | (Ret b, _) => True | (Fail e, s') => e = ME_Session wrong_state /\ stuck (cv_manager s') | (Panic _, _) => False end.
Proof.
  destruct driver_sample as (s & Hr & _). exists s. split; [exact Hr|].
  pose proof (client_driver_survives Sample.client_cfg SessionLimits_default s
    [(DriverSample.turn 2 2, CIRecv (Ok (Sample.m3_packet, Sample.server_addr)));
     (DriverSample.turn 3 3, CIRetransmit); (DriverSample.turn 4 4, CICmd None)] Hr) as H.
  match type of H with ?F -> _ => assert F as Hok end.
  { repeat (apply Forall_cons; split; [split; [apply sample_turn_ok|split; [apply sample_io_ok|exact I]]|]).
    apply Forall_nil. exact I. }
  specialize (H Hok). destruct (client_driver_loop _ s) as [[b|e|p] s']; [exact I|exact H|exact H].
Defined.

(** C27: The client driver never leaves the tunnel down past a tick: from any
    reachable state, whatever the tick closes, with a working transport and a
    random source that yields an identifier outside the history, the tick turn
    completes and a handshake or a session is in place afterwards. *)
Theorem client_driver_rearms {P : Primitives} {L : PrimitivesLaws P} cfg limits s t :
  driver_reaches cfg limits s -> turn_ok t -> io_ok (ct_io t) -> tick_fresh t (cv_manager s) ->
  exists s', client_turn t CITick s = (Ret true, s') /\ cm_state (cv_manager s') <> CmIdle.
Proof.
  intros Hr Ht Hio Hf. pose proof (driver_reaches_wf _ _ _ Hr) as Hd.
  destruct (signal_ready_same t s Hio) as (s1 & Es & Em).
  pose proof (wp_run _ _ _ _ _ (signal_ready_wp t s (fun _ => False) Hd (fun e => io_ok_no_fault _ e Hio)) Es) as Hd1.
  unfold client_turn, mbind, M_bind. rewrite Es.
  pose proof (tick_arm_wp t s1 (fun _ => False) Ht (fun e => io_ok_no_fault _ e Hio) Hd1) as Hw. unfold wp in Hw. rewrite Em in Hw.
  destruct (client_tick_arm t s1) as [[b|e|p] s']; cbn [fst snd] in Hw; destruct Hw as [H1 H2]; [|by destruct H1|done].
  destruct (H2 b eq_refl) as [-> Hi]. exists s'. split; [done|]. by apply Hi.
Qed.

Lemma client_driver_rearms_witness : exists s s',
  driver_reaches Sample.client_cfg SessionLimits_default s /\
  client_turn (DriverSample.turn 40 77) CITick s = (Ret true, s') /\ cm_state (cv_manager s') <> CmIdle.
Proof.
  destruct driver_sample as (s & Hr & _ & Hfresh).
  destruct (client_driver_rearms Sample.client_cfg SessionLimits_default s (DriverSample.turn 40 77) Hr
    (sample_turn_ok 40 77) (sample_io_ok 40 77)) as (s' & E & H).
  - intros i. exists (be_bytes 8 77). split; [reflexivity|exact Hfresh].
  - exists s, s'. split; [exact Hr|]. split; [exact E|exact H].
Defined.

(** Cover traffic only flows on a confirmed session: in every reachable state
    of the client driver the cover schedule runs only while the session is
    established, and as long as it is not, the cover arm sends and reports
    nothing. *)
Theorem client_driver_cover_gated {P : Primitives} {L : PrimitivesLaws P} cfg limits s :
  driver_reaches cfg limits s ->
  (next_deadline (cv_cover_sched s) <> None -> cm_state (cv_manager s) = CmEstablished) /\
  (cm_state (cv_manager s) <> CmEstablished ->
     forall t, (client_turn t CICover s).1 = Ret true /\ cv_log (client_turn t CICover s).2 = cv_log s).
Proof.
  intros Hr. destruct (driver_reaches_wf _ _ _ Hr) as [[Hwf _ _ Hc] Hw].
  assert (cm_ready (cv_manager s) = true -> cm_state (cv_manager s) = CmEstablished) as Hready.
  { intros H. unfold cm_state. rewrite H. pose proof (cw_session _ Hwf) as Hs.
    destruct (cm_session (cv_manager s)); [done|]. destruct Hs as [Hs _]. congruence. }
  assert (next (cv_cover_sched s) <> None -> cm_state (cv_manager s) = CmEstablished) as Hnext by auto.
  split; [exact Hnext|]. intros Hn t.
  assert (next (cv_cover_sched s) = None) as Hnone by (destruct (next (cv_cover_sched s)); [by destruct Hn; apply Hnext|done]).
  assert (cm_ready (cv_manager s) = false) as Hnr by (destruct (cm_ready (cv_manager s)); [by destruct Hn; apply Hready|done]).
  unfold client_turn, mbind, M_bind. rewrite (signal_not_ready t s Hnr).
  unfold client_cover_arm, mbind, M_bind, get, on_deadline. rewrite Hnone. by destruct (negb _).
Qed.

Lemma client_driver_cover_gated_witness : exists s,
  driver_reaches Sample.client_cfg SessionLimits_default s /\
  (client_turn (DriverSample.turn 2 2) CICover s).1 = Ret true.
Proof.
  destruct driver_sample as (s & Hr & Hn & _). exists s. split; [exact Hr|].
  refine (proj1 (proj2 (client_driver_cover_gated Sample.client_cfg SessionLimits_default s Hr) _ _)).
  unfold cm_state. rewrite Hn. destruct (cm_session (cv_manager s)), (cm_hs (cv_manager s)); discriminate.
Defined.
