(* ===== verification/TunDriverOk.v ===== *)
(** * Theorems on the TUN drivers

    What reaches the TUN devices, that no input ends a driver, delivery of a
    packet from the client's device to the server's, and the limits of the
    client's driver. *)

From S2P Require Import Prelude Bytes Chunks Errors Codec Replay Crypto Envelope WireSession Exec Net IpAddr Dataplane PacketPolicy Reassembly HandshakeMsg HandshakeFrag HandshakeClient HandshakeServer HandshakeSafety HandshakeClientOk SessionCommon ServerManager ClientManager TunDriver FailGateOk ServerManagerOk ClientManagerOk ClientManagerSafe.

Local Open Scope Z_scope.

Definition is_sent (e : TunEffect) : Prop := match e with TunSent _ _ => True | TunWrote _ => False end.

(** The effects between two logs. *)
Definition logged (l l' : list TunEffect) (Q : TunEffect -> Prop) : Prop := exists es, l' = l ++ es /\ Forall Q es.

Lemma logged_refl l Q : logged l l Q.
Proof. exists []. split; [by rewrite app_nil_r|done]. Qed.

Lemma logged_snoc l l' Q e : logged l l' Q -> Q e -> logged l (l' ++ [e]) Q.
Proof. intros (es & -> & HQ) He. exists (es ++ [e]). rewrite <- app_assoc. split; [done|]. apply Forall_app. auto. Qed.

Lemma logged_mono l l' (Q R : TunEffect -> Prop) : (forall e, Q e -> R e) -> logged l l' Q -> logged l l' R.
Proof. intros H (es & -> & HQ). exists es. split; [done|]. by eapply Forall_impl. Qed.

(** [cbn] restricted to the fields of the driver states. *)
Ltac tun_fields := cbn [ts_manager ts_reasms ts_current_sid ts_ctr ts_log ts_set_manager ts_map_reasms ts_set_current
  ts_next_id ts_emit tc_manager tc_reasm tc_ctr tc_log tc_set_manager tc_set_reasm tc_next_id tc_emit] in *.

Section Server.
Context {P : Primitives} {L : PrimitivesLaws P}.

(** ** The server *)

Record tun_server_wf (s : TunServer) : Prop := {
  tw_manager : manager_wf (ts_manager s);
  tw_reasms : map_Forall (fun _ r => Reassembler_wf r) (ts_reasms s) }.

(** Datagrams are full-size, and fills have the length that was asked for. *)
Definition tun_turn_ok (t : TunServerTurn) (i : tun_input) : Prop :=
  (forall sid f, tst_fill t sid = Ok f -> length f = PAYLOAD_LEN) /\
  match i with TIRecv (Ok (p, _)) => WirePacket_wf p | _ => True end.

(** A step that completes and only sends. *)
Definition only_sends (l : list TunEffect) (r : exec ManagerError ()) (s' : TunServer) : Prop :=
  r = Ret () /\ tun_server_wf s' /\ logged l (ts_log s') is_sent.

Lemma ts_send_wp l peer p s :
  tun_server_wf s -> logged l (ts_log s) is_sent -> wp (ts_send peer p) s (only_sends l).
Proof. intros [? ?] Hl. split; [done|]. split; [by split|]. by apply logged_snoc. Qed.

Lemma ts_for_each_wp {X} l (f : X -> M TunServer ManagerError ()) (xs : list X) s :
  tun_server_wf s -> logged l (ts_log s) is_sent ->
  (forall x s, x ∈ xs -> tun_server_wf s -> logged l (ts_log s) is_sent -> wp (f x) s (only_sends l)) ->
  wp (for_each f xs) s (only_sends l).
Proof.
  intros Hs Hl Hf. apply (wp_for_each f xs (fun s => tun_server_wf s /\ logged l (ts_log s) is_sent)); [done|].
  intros x s' Hx [? ?]. by apply Hf.
Qed.

Lemma ts_sends_wp l peer ps s :
  tun_server_wf s -> logged l (ts_log s) is_sent -> wp (for_each (ts_send peer) ps) s (only_sends l).
Proof. intros Hs Hl. apply ts_for_each_wp; [done|done|]. intros x s' _. apply ts_send_wp. Qed.

Lemma ts_keeps_wf m' s : tun_server_wf s -> keeps (ts_manager s) m' -> tun_server_wf (ts_set_manager m' s).
Proof. intros [? ?] [? _]. by split. Qed.

Lemma deadline_reasm_wf : Reassembler_wf (Reassembler_new REASSEMBLY_DEADLINE).
Proof. apply with_caps_wf; vm_compute; repeat split; congruence. Qed.

Lemma reasm_or_new_wf sid rs :
  map_Forall (fun _ r => Reassembler_wf r) rs -> Reassembler_wf (reasm_or_new sid rs).
Proof.
  intros Hr. unfold reasm_or_new. destruct (rs !! sid) as [r|] eqn:E; [by apply (Hr sid)|apply deadline_reasm_wf].
Qed.

Lemma on_tun_established_wp l sid s :
  tun_server_wf s -> logged l (ts_log s) is_sent -> wp (on_tun_established sid) s (only_sends l).
Proof.
  intros [Hm Hr] Hl. unfold on_tun_established. wp_steps. split; [done|]. split; [|done]. split; [done|].
  tun_fields. apply map_Forall_insert_2; [by apply reasm_or_new_wf|done].
Qed.

Lemma on_tun_closed_wp l sid s :
  tun_server_wf s -> logged l (ts_log s) is_sent -> wp (on_tun_closed sid) s (only_sends l).
Proof.
  intros [Hm Hr] Hl. unfold on_tun_closed. wp_steps. split; [done|]. split; [|done]. split; [done|].
  tun_fields. intros k r Hk. apply lookup_delete_Some in Hk as [Hne Hk]. rewrite lookup_alter_ne in Hk by done.
  by apply (Hr k).
Qed.

Lemma server_tun_outbound_keeps m sid slot :
  manager_wf m -> wp (server_tun_outbound sid slot) m (fun r m' => keeps m m' /\ forall site, r <> Panic site).
Proof.
  intros Hwf. unfold server_tun_outbound. destruct (Nat.eqb_spec (length slot) PAYLOAD_LEN); cbn [negb].
  - by apply server_send_encrypted_wp.
  - apply wp_try; [done|]. intros e [= <-]. by split.
Qed.

Lemma tun_server_slot_wp l sid slot s :
  tun_server_wf s -> logged l (ts_log s) is_sent -> wp (tun_server_slot sid slot) s (only_sends l).
Proof.
  intros Hs Hl. unfold tun_server_slot, ts_call. wp_steps.
  eapply wp_mono; [apply (server_tun_outbound_keeps _ sid slot (tw_manager _ Hs))|].
  intros r m' [Hk Hr]. pose proof (ts_keeps_wf m' s Hs Hk) as Hs'.
  destruct r as [ev|e|site]; [|by wp_steps|by destruct (Hr site)].
  destruct ev; try by wp_steps. by apply ts_send_wp.
Qed.

Lemma tun_server_packet_wp pkt s :
  tun_server_wf s -> wp (tun_server_packet pkt) s (only_sends (ts_log s)).
Proof.
  intros Hs. pose proof (logged_refl (ts_log s) is_sent) as Hl. unfold tun_server_packet.
  destruct (is_boundary_dropped pkt); [by wp_steps|]. destruct (validate_inner pkt); cbn [negb]; [|by wp_steps].
  wp_steps. destruct (ts_current_sid s) as [sid|]; [|by wp_steps]. wp_steps.
  assert (tun_server_wf (ts_next_id s)) as Hs' by (destruct Hs; by split).
  destruct (fragment_ip_packet pkt (ts_ctr s)) as [slots|e]; [|by wp_steps].
  apply ts_for_each_wp; [done|done|]. intros slot s' _. apply tun_server_slot_wp.
Qed.

Lemma tun_server_tick_wp t i s :
  tun_turn_ok t i -> tun_server_wf s -> wp (tun_server_tick t) s (only_sends (ts_log s)).
Proof.
  intros Ht Hs. pose proof (logged_refl (ts_log s) is_sent) as Hl. unfold tun_server_tick, ts_call. wp_steps.
  pose proof (manager_apply_keeps (MTick (tst_now t)) (ts_manager s) (tw_manager _ Hs) I) as Hk.
  cbn [manager_apply] in Hk. destruct (server_tick (tst_now t) (ts_manager s)) as [evs m1]. cbn [fst snd] in *.
  eapply wp_mono; [apply (ts_for_each_wp (ts_log s)); [by apply ts_keeps_wf|done|]|].
  { intros ev s1 _ Hs1 Hl1. destruct ev; cbn [tun_server_on_tick_event]; try by wp_steps.
    - by apply ts_sends_wp.
    - by apply ts_send_wp.
    - by apply on_tun_established_wp.
    - by apply on_tun_closed_wp. }
  intros r s1 (-> & Hs1 & Hl1). wp_steps. unfold cover_packet_all. wp_steps.
  eapply wp_mono; [apply (cover_each_wp _ _ _ (tw_manager _ Hs1) (proj1 Ht))|]. intros r m2 [Hk2 Hr].
  pose proof (ts_keeps_wf m2 s1 Hs1 Hk2) as Hs2.
  destruct r as [evs'|e|site]; [|by wp_steps|by destruct (Hr site)].
  apply ts_for_each_wp; [done|done|]. intros ev s3 _ Hs3 Hl3.
  destruct ev; cbn [tun_server_on_cover_event]; try by wp_steps. by apply ts_send_wp.
Qed.

(** Application data only comes from data packets. *)
Lemma handle_appdata m d now pkt from sid inner :
  (server_manager_handle d now pkt from m).1 = Ret (EvAppData sid inner) -> is_handshake_fragment pkt = false.
Proof.
  unfold server_manager_handle. destruct (is_handshake_fragment pkt); [|done].
  unfold mbind, M_bind, map_fail, zoom. destruct (server_handle_datagram d pkt from (sm_hs m)) as [r hs].
  destruct r as [[packets peer|o|]|e|p]; cbn; try done.
  unfold on_handshake_complete, mbind, M_bind, get, try, modify. intros H. repeat (case_match; try done); congruence.
Qed.

(** What a packet written to the server's device went through. *)
Definition server_wrote (t : TunServerTurn) (i : tun_input) (s : TunServer) (pkt : bytes) : Prop :=
  exists p from e inner,
    i = TIRecv (Ok (p, from)) /\ sm_sessions (ts_manager s) !! packet_sid p = Some e /\
    (WireSession_decrypt (se_session e) p).1 = Ok inner /\ ip_msg_type inner = TunData /\
    (feed (reasm_or_new (packet_sid p) (ts_reasms s)) (ip_payload inner) (tst_feed_now t)).1 = Complete pkt /\
    validate_inner_packet pkt ClientAssignment_default = Allow.

Definition server_effect_ok (t : TunServerTurn) (i : tun_input) (s : TunServer) (e : TunEffect) : Prop :=
  match e with TunSent _ _ => True | TunWrote pkt => server_wrote t i s pkt end.

Definition server_turn_post (t : TunServerTurn) (i : tun_input) (s : TunServer)
    (r : exec ManagerError ()) (s' : TunServer) : Prop :=
  r = Ret () /\ tun_server_wf s' /\ logged (ts_log s) (ts_log s') (server_effect_ok t i s).

Lemma only_sends_turn t i s r s' : only_sends (ts_log s) r s' -> server_turn_post t i s r s'.
Proof.
  intros (-> & Hs & Hl). split; [done|]. split; [done|]. eapply logged_mono; [|done]. by intros [].
Qed.

Lemma ws_decrypt_payload w p inner :
  (WireSession_decrypt w p).1 = Ok inner -> length (ip_payload inner) = PAYLOAD_LEN.
Proof.
  unfold WireSession_decrypt. destruct (require_established w); [|done].
  pose proof (decrypt_classified (ws_cipher w) p) as Hd. destruct (decrypt (ws_cipher w) p) as [[i|e] c]; cbn.
  - destruct Hd as (h & pt & _ & _ & _ & _ & Hi & _). intros [= <-].
    by apply InnerPlaintext_decode_inv in Hi as [Hi _].
  - by destruct e.
Qed.

Lemma on_tun_data_wp t i s m' p from e inner :
  i = TIRecv (Ok (p, from)) -> tun_server_wf s -> keeps (ts_manager s) m' ->
  sm_sessions (ts_manager s) !! packet_sid p = Some e -> (WireSession_decrypt (se_session e) p).1 = Ok inner ->
  wp (on_tun_data t (packet_sid p) inner) (ts_set_manager m' s) (server_turn_post t i s).
Proof.
  intros Hi Hs Hk He Hd. pose proof (ts_keeps_wf m' s Hs Hk) as [Hm Hr].
  pose proof (logged_refl (ts_log s) (server_effect_ok t i s)) as Hl.
  unfold on_tun_data. wp_steps. case_bool_decide as Hty; [|wp_steps; split; [done|]; split; [by split|done]].
  wp_steps. tun_fields.
  pose proof (proj1 (feed_wf _ (ip_payload inner) (tst_feed_now t) (reasm_or_new_wf (packet_sid p) _ Hr)
    (ws_decrypt_payload _ _ _ Hd))) as Hf.
  destruct (feed _ (ip_payload inner) (tst_feed_now t)) as [out r] eqn:Ef. wp_steps. cbn [snd] in Hf.
  assert (forall l, tun_server_wf (mkTunServer m' (<[packet_sid p := r]> (ts_reasms s)) (Some (packet_sid p)) (ts_ctr s) l))
    as Hw by (intros l; split; [done|]; by apply map_Forall_insert_2).
  destruct out; try (wp_steps; split; [done|]; split; [apply Hw|done]).
  case_bool_decide as Ha; wp_steps; (split; [done|]; split; [apply Hw|]); [|done].
  apply logged_snoc; [done|]. exists p, from, e, inner. by rewrite Ef.
Qed.

Lemma tun_server_recv_wp t r s :
  tun_turn_ok t (TIRecv r) -> tun_server_wf s -> wp (tun_server_recv t r) s (server_turn_post t (TIRecv r) s).
Proof.
  intros [_ Hp] Hs. pose proof (logged_refl (ts_log s) is_sent) as Hl.
  destruct r as [[p from]|e]; cbn [tun_server_recv]; [|wp_steps; by apply only_sends_turn].
  unfold ts_call. wp_steps.
  pose proof (handle_appdata (ts_manager s) (tst_draws t) (tst_now t) p from) as Ha.
  pose proof (server_manager_handle_wp _ (tst_draws t) (tst_now t) p from (tw_manager _ Hs) Hp) as Hw.
  unfold wp in Hw |- *. destruct (server_manager_handle _ _ _ _ _) as [r m']. cbn [fst snd] in *.
  destruct Hw as (Hk & [ev ->] & Hev). pose proof (ts_keeps_wf m' s Hs Hk) as Hs'.
  change (wp (match ev with EvSend packets q => for_each (ts_send q) packets | EvSendPacket packet q => ts_send q packet
    | EvAppData sid inner => on_tun_data t sid inner | EvEstablished sid _ => on_tun_established sid
    | EvClosed sid _ => on_tun_closed sid | _ => mret () end) (ts_set_manager m' s)
    (server_turn_post t (TIRecv (Ok (p, from))) s)).
  destruct ev as [| | |sid inner| | |].
  4: rewrite (Ha sid inner eq_refl) in Hev; destruct Hev as (_ & ev & [= <-] & _ & _ & Hev);
    destruct (sm_sessions (ts_manager s) !! packet_sid p) as [e|] eqn:He; [|by destruct Hev];
    destruct Hev as [(_ & ? & _)|[_ Hev]]; [done|]; unfold decrypted in Hev;
    destruct (WireSession_decrypt (se_session e) p).1 as [i|err] eqn:Hd;
      [|by repeat case_match; naive_solver];
    destruct Hev as (_ & _ & Hev);
    assert (sid = packet_sid p /\ inner = i) as [-> ->] by (destruct (ip_msg_type i); naive_solver);
    by eapply on_tun_data_wp.
  all: eapply wp_mono; [|apply only_sends_turn]; try by wp_steps.
  - by apply ts_sends_wp.
  - by apply ts_send_wp.
  - by apply on_tun_established_wp.
  - by apply on_tun_closed_wp.
Qed.

Lemma tun_server_turn_wp t i s :
  tun_turn_ok t i -> tun_server_wf s -> wp (tun_server_turn t i) s (server_turn_post t i s).
Proof.
  intros Ht Hs. destruct i as [r|pkt|]; cbn [tun_server_turn].
  - by apply tun_server_recv_wp.
  - eapply wp_mono; [by apply tun_server_packet_wp|]. apply only_sends_turn.
  - eapply wp_mono; [by eapply tun_server_tick_wp|]. apply only_sends_turn.
Qed.

Lemma tun_server_loop_wp turns s :
  Forall (fun ti => tun_turn_ok ti.1 ti.2) turns -> tun_server_wf s ->
  wp (tun_server_loop turns) s (fun r s' => r = Ret () /\ tun_server_wf s').
Proof.
  intros Ht Hs. apply wp_for_each; [done|]. intros [t i] s' Hin Hs'.
  eapply wp_mono; [apply tun_server_turn_wp; [|done]|by intros r s'' (? & ? & _)].
  rewrite Forall_forall in Ht. by apply (Ht (t, i)).
Qed.

End Server.

Section Client.
Context {P : Primitives} {L : PrimitivesLaws P}.

(** ** The client *)

Record tun_client_wf (s : TunClient) : Prop := {
  tcw_manager : cm_wf (tc_manager s);
  tcw_reasm : Reassembler_wf (tc_reasm s) }.

Definition fill_ok (t : TunClientTurn) : Prop := forall f, tct_fill t = Ok f -> length f = PAYLOAD_LEN.

Definition client_sends (l : list TunEffect) (r : exec ManagerError ()) (s' : TunClient) : Prop :=
  r = Ret () /\ tun_client_wf s' /\ logged l (tc_log s') is_sent.

Lemma tc_send_wp l peer p s :
  tun_client_wf s -> logged l (tc_log s) is_sent -> wp (tc_send peer p) s (client_sends l).
Proof. intros [? ?] Hl. split; [done|]. split; [by split|]. by apply logged_snoc. Qed.

Lemma tc_for_each_wp {X} l (f : X -> M TunClient ManagerError ()) (xs : list X) s :
  tun_client_wf s -> logged l (tc_log s) is_sent ->
  (forall x s, x ∈ xs -> tun_client_wf s -> logged l (tc_log s) is_sent -> wp (f x) s (client_sends l)) ->
  wp (for_each f xs) s (client_sends l).
Proof.
  intros Hs Hl Hf. apply (wp_for_each f xs (fun s => tun_client_wf s /\ logged l (tc_log s) is_sent)); [done|].
  intros x s' Hx [? ?]. by apply Hf.
Qed.

Lemma tc_sends_wp l peer ps s :
  tun_client_wf s -> logged l (tc_log s) is_sent -> wp (for_each (tc_send peer) ps) s (client_sends l).
Proof. intros Hs Hl. apply tc_for_each_wp; [done|done|]. intros x s' _. apply tc_send_wp. Qed.

Lemma tc_clear_wp l s : tun_client_wf s -> logged l (tc_log s) is_sent -> wp tc_clear s (client_sends l).
Proof.
  intros [Hm (H1 & H2 & H3 & H4)] Hl. unfold tc_clear. wp_steps. split; [done|]. split; [|done]. split; [done|].
  tun_fields. split; [intros id e; cbn; by rewrite lookup_empty|]. split; [done|].
  pose proof (total_nonneg _ H1). cbn. rewrite map_size_empty. lia.
Qed.

Lemma tc_keeps_wf m' s : tun_client_wf s -> ckeeps (tc_manager s) m' -> tun_client_wf (tc_set_manager m' s).
Proof. intros [? ?] [? _]. by split. Qed.

(** The outbound calls keep the manager and never panic. *)
Lemma outbound_no_panic refused m r m' : outbound_post refused m r m' -> forall site, r <> Panic site.
Proof.
  intros (_ & [(e & -> & _)|[(w & _ & _ & [(? & ? & -> & _)|[[-> _]|[-> _]]])|(_ & _ & [->|[n ->]])]]); done.
Qed.

Lemma tun_client_slot_wp t l slot s :
  tun_client_wf s -> logged l (tc_log s) is_sent -> wp (tun_client_slot t slot) s (client_sends l).
Proof.
  intros Hs Hl. unfold tun_client_slot, tc_call. wp_steps.
  eapply wp_mono; [apply (client_tun_outbound_wp (tct_draws t) slot _ (tcw_manager _ Hs))|].
  intros r m' Hp. pose proof (tc_keeps_wf m' s Hs (proj1 Hp)) as Hs'.
  pose proof (outbound_no_panic _ _ _ _ Hp) as Hr.
  destruct r as [ev|e|site]; [|by wp_steps|by destruct (Hr site)].
  destruct ev; try by wp_steps. by apply tc_send_wp.
Qed.

Lemma tun_client_packet_wp t pkt s :
  tun_client_wf s -> wp (tun_client_packet t pkt) s (client_sends (tc_log s)).
Proof.
  intros Hs. pose proof (logged_refl (tc_log s) is_sent) as Hl. unfold tun_client_packet.
  destruct (is_boundary_dropped pkt); [by wp_steps|]. destruct (validate_inner pkt); cbn [negb]; [|by wp_steps].
  wp_steps. assert (tun_client_wf (tc_next_id s)) as Hs' by (destruct Hs; by split).
  destruct (fragment_ip_packet pkt (tc_ctr s)) as [slots|e]; [|by wp_steps].
  apply tc_for_each_wp; [done|done|]. intros slot s' _. apply tun_client_slot_wp.
Qed.

Lemma tun_client_tick_wp t s :
  fill_ok t -> tun_client_wf s -> wp (tun_client_tick t) s (client_sends (tc_log s)).
Proof.
  intros Ht Hs. pose proof (logged_refl (tc_log s) is_sent) as Hl. unfold tun_client_tick, tc_call. wp_steps.
  pose proof (client_tick_spec (tct_now t) (tct_draws t) _ (tcw_manager _ Hs)) as (Hk & _).
  eapply wp_mono; [apply (tc_for_each_wp (tc_log s)); [by apply tc_keeps_wf|done|]|].
  { intros ev s1 _ Hs1 Hl1. destruct ev; cbn [tun_client_on_tick_event]; try by wp_steps.
    - by apply tc_sends_wp.
    - by apply tc_send_wp.
    - by apply tc_clear_wp. }
  intros r s1 (-> & Hs1 & Hl1). wp_steps.
  eapply wp_mono; [apply (client_cover_packet_wp _ _ _ (tcw_manager _ Hs1) Ht)|].
  intros r m2 Hp. pose proof (tc_keeps_wf m2 s1 Hs1 (proj1 Hp)) as Hs2.
  pose proof (outbound_no_panic _ _ _ _ Hp) as Hr.
  destruct r as [ev|e|site]; [|by wp_steps|by destruct (Hr site)].
  destruct ev; try by wp_steps. by apply tc_send_wp.
Qed.

(** What a packet written to the client's device went through. *)
Definition client_wrote (t : TunClientTurn) (i : tun_input) (s : TunClient) (pkt : bytes) : Prop :=
  exists p from w inner,
    i = TIRecv (Ok (p, from)) /\ cm_session (tc_manager s) = Some w /\ packet_sid p = ws_session_id w /\
    (WireSession_decrypt w p).1 = Ok inner /\ ip_msg_type inner = TunData /\
    (feed (tc_reasm s) (ip_payload inner) (tct_feed_now t)).1 = Complete pkt /\
    is_boundary_dropped pkt = false /\ validate_inner pkt = true.

Definition client_effect_ok (t : TunClientTurn) (i : tun_input) (s : TunClient) (e : TunEffect) : Prop :=
  match e with TunSent _ _ => True | TunWrote pkt => client_wrote t i s pkt end.

Definition client_turn_post (t : TunClientTurn) (i : tun_input) (s : TunClient)
    (r : exec ManagerError ()) (s' : TunClient) : Prop :=
  r = Ret () /\ tun_client_wf s' /\ logged (tc_log s) (tc_log s') (client_effect_ok t i s).

Lemma client_sends_turn t i s r s' : client_sends (tc_log s) r s' -> client_turn_post t i s r s'.
Proof.
  intros (-> & Hs & Hl). split; [done|]. split; [done|]. eapply logged_mono; [|done]. by intros [].
Qed.

Lemma on_client_tun_data_wp t i s m' p from w inner :
  i = TIRecv (Ok (p, from)) -> tun_client_wf s -> ckeeps (tc_manager s) m' ->
  cm_session (tc_manager s) = Some w -> packet_sid p = ws_session_id w ->
  (WireSession_decrypt w p).1 = Ok inner ->
  wp (on_client_tun_data t inner) (tc_set_manager m' s) (client_turn_post t i s).
Proof.
  intros Hi Hs Hk Hw Hid Hd. pose proof (tc_keeps_wf m' s Hs Hk) as [Hm Hr].
  pose proof (logged_refl (tc_log s) (client_effect_ok t i s)) as Hl.
  unfold on_client_tun_data. case_bool_decide as Hty; [|wp_steps; split; [done|]; split; [by split|done]].
  wp_steps. tun_fields.
  pose proof (proj1 (feed_wf _ (ip_payload inner) (tct_feed_now t) Hr (ws_decrypt_payload _ _ _ Hd))) as Hf.
  destruct (feed _ (ip_payload inner) (tct_feed_now t)) as [out r] eqn:Ef. wp_steps. cbn [snd] in Hf.
  destruct out; try (wp_steps; split; [done|]; split; [by split|done]).
  destruct (is_boundary_dropped packet) eqn:Hb, (validate_inner packet) eqn:Hv; cbn [negb andb]; wp_steps;
    (split; [done|]; split; [by split|]); try done.
  apply logged_snoc; [done|]. exists p, from, w, inner. by rewrite Ef.
Qed.

Lemma tun_client_recv_wp t r s :
  tun_client_wf s -> wp (tun_client_recv t r) s (client_turn_post t (TIRecv r) s).
Proof.
  intros Hs. pose proof (logged_refl (tc_log s) is_sent) as Hl.
  destruct r as [[p from]|e]; cbn [tun_client_recv]; [|wp_steps; by apply client_sends_turn].
  unfold tc_call. wp_steps.
  eapply wp_mono; [apply (client_manager_handle_wp _ (tct_draws t) p from (tcw_manager _ Hs))|].
  intros r m' Hp. destruct (is_handshake_fragment p).
  - pose proof Hp as (Hk & _). pose proof (tc_keeps_wf m' s Hs Hk) as Hs'.
    destruct Hp as (_ & _ & _ & [[-> _]|(h & o & m1 & _ & _ & _ & _ & _ & w & pkts & _ & _ & -> & _)]).
    + wp_steps. by apply client_sends_turn.
    + eapply wp_mono; [by apply tc_sends_wp|apply client_sends_turn].
  - destruct Hp as [Hk Hp]. pose proof (tc_keeps_wf m' s Hs Hk) as Hs'.
    assert (wp (mret ()) (tc_set_manager m' s) (client_turn_post t (TIRecv (Ok (p, from))) s)) as Hskip
      by (wp_steps; by apply client_sends_turn).
    assert (wp tc_clear (tc_set_manager m' s) (client_turn_post t (TIRecv (Ok (p, from))) s)) as Hclear
      by (eapply wp_mono; [by apply tc_clear_wp|apply client_sends_turn]).
    destruct (cm_session (tc_manager s)) as [w|] eqn:Hw; [|by destruct Hp as [-> _]].
    destruct Hp as [(_ & -> & _)|[Hid Hp]]; [done|].
    destruct (WireSession_decrypt w p).1 as [inner|e] eqn:Hd.
    + destruct (ip_msg_type inner); destruct Hp as [-> _]; try done; by eapply on_client_tun_data_wp.
    + destruct e; try (destruct Hp as [-> _]; done). all: by destruct Hp as (_ & _ & -> & _).
Qed.

Lemma tun_client_turn_wp t i s :
  fill_ok t -> tun_client_wf s -> wp (tun_client_turn t i) s (client_turn_post t i s).
Proof.
  intros Ht Hs. destruct i as [r|pkt|]; cbn [tun_client_turn].
  - by apply tun_client_recv_wp.
  - eapply wp_mono; [by apply tun_client_packet_wp|]. apply client_sends_turn.
  - eapply wp_mono; [by apply tun_client_tick_wp|]. apply client_sends_turn.
Qed.

Lemma tun_client_loop_wp turns s :
  Forall (fun ti => fill_ok ti.1) turns -> tun_client_wf s ->
  wp (tun_client_loop turns) s (fun r s' => r = Ret () /\ tun_client_wf s').
Proof.
  intros Ht Hs. apply wp_for_each; [done|]. intros [t i] s' Hin Hs'.
  eapply wp_mono; [apply tun_client_turn_wp; [|done]|by intros r s'' (? & ? & _)].
  rewrite Forall_forall in Ht. by apply (Ht (t, i)).
Qed.

(** *** Without a session *)

Lemma close_now_none reason now m : cm_session m = None -> close_now reason now m = ([], m).
Proof. intros Hn. unfold close_now, cm_session_id. by rewrite Hn. Qed.

Lemma tick_without_session now d m :
  cm_session m = None ->
  let m' := (client_tick now d m).2 in
  cm_session m' = None /\ (cm_hs m = None -> cm_hs m' = None) /\ cm_pending_closed m' = [] /\
  cm_pending_closes m' = (retransmit_closes now (cm_pending_closes m)).2 /\
  forall ev, ev ∈ (client_tick now d m).1 ->
    (exists sid reason, ev = EvClosed sid reason) \/ (exists n, ev = EvOutboundDropped n) \/
    ev ∈ cm_pending_closed m \/ ev ∈ (retransmit_closes now (cm_pending_closes m)).1.
Proof.
  intros Hn. assert (exists o m1, tick_deadlines now m = (o, m1) /\ cm_session m1 = None /\
    (cm_hs m = None -> cm_hs m1 = None) /\ cm_pending_closed m1 = cm_pending_closed m /\
    cm_pending_closes m1 = cm_pending_closes m /\ (o = [] \/ exists sid reason, o = [EvClosed sid reason]))
    as (o & m1 & Ed & Hn1 & Hh1 & Hp1 & Hc1 & Ho).
  { unfold tick_deadlines. destruct (tick_handshake now m) as [o1 m1] eqn:E1.
    assert (cm_session m1 = None) as Hn1.
    { unfold tick_handshake in E1. repeat case_match; simplify_eq; done. }
    assert (tick_lifetime now m1 = ([], m1)) as -> by (unfold tick_lifetime; repeat case_match; by rewrite ?close_now_none).
    assert (tick_confirm now m1 = ([], m1)) as -> by (unfold tick_confirm; case_match; by rewrite ?close_now_none).
    assert (tick_liveness now m1 = ([], m1)) as -> by (unfold tick_liveness; case_match; by rewrite ?close_now_none).
    exists o1, m1. rewrite !app_nil_r. split; [done|]. split; [done|].
    unfold tick_handshake in E1. repeat case_match; simplify_eq; naive_solver. }
  rewrite client_tick_eq, Ed. pose proof (tick_queue_spec now (clock d) m1) as [(n & l & Em) _].
  assert (Forall (fun ev => exists n, ev = EvOutboundDropped n) (tick_queue now (clock d) m1).1) as Hq.
  { unfold tick_queue. destruct (expire_queued now (clock d) m1) as [k m2]. destruct (0 <? k); [|by constructor].
    apply Forall_singleton. by eexists. }
  destruct (tick_queue now (clock d) m1) as [o5 m2]. cbn [fst snd] in *. subst m2.
  cbn [cm_pending_closes cm_pending_closed cm_set_last_drop_log cm_set_dropped_outbound cm_set_out_queue].
  rewrite Hc1, Hp1. destruct (retransmit_closes now (cm_pending_closes m)) as [o7 pcs]. cbn [fst snd].
  split; [done|]. split; [done|]. split; [done|]. split; [done|]. intros ev Hev. rewrite !elem_of_app in Hev.
  destruct Hev as [Hev|[Hev|[Hev|Hev]]]; [|right; left; rewrite Forall_forall in Hq; by apply Hq|auto|auto].
  destruct Ho as [->|(sid & reason & ->)]; [by apply elem_of_nil in Hev|]. apply list_elem_of_singleton in Hev. eauto.
Qed.

Lemma slot_without_session t slot s :
  cm_session (tc_manager s) = None -> tun_client_slot t slot s = (Ret (), s).
Proof.
  intros Hn. unfold tun_client_slot, tc_call, attempt, zoom, client_tun_outbound, mbind, M_bind, get, try.
  destruct (negb _); [by destruct s|]. rewrite bool_decide_true by done. by destruct s.
Qed.

Lemma packet_without_session t pkt s :
  cm_session (tc_manager s) = None ->
  exists c, tun_client_packet t pkt s = (Ret (), mkTunClient (tc_manager s) (tc_reasm s) c (tc_log s)).
Proof.
  intros Hn. unfold tun_client_packet. destruct (is_boundary_dropped pkt); [exists (tc_ctr s); by destruct s|].
  destruct (negb _); [exists (tc_ctr s); by destruct s|]. exists (fetch_add_one (tc_ctr s)).
  unfold mbind, M_bind, get, modify. destruct (fragment_ip_packet pkt (tc_ctr s)) as [slots|e]; [|done].
  induction slots as [|slot slots IH]; [done|]. cbn [for_each]. unfold mbind, M_bind.
  by rewrite slot_without_session.
Qed.

Lemma cover_without_session d fill m : cm_session m = None -> client_cover_packet d fill m = (Fail ME_NoSession, m).
Proof. intros Hn. unfold client_cover_packet, mbind, M_bind, get. by rewrite Hn. Qed.

Definition quiet_event (ev : ManagerEvent) : Prop :=
  match ev with EvSend _ _ | EvSendPacket _ _ => False | _ => True end.

Lemma tick_events_wp evs s :
  wp (for_each tun_client_on_tick_event evs) s (fun r s' => r = Ret () /\ tc_manager s' = tc_manager s /\
    logged (tc_log s) (tc_log s') is_sent /\ (Forall quiet_event evs -> tc_log s' = tc_log s)).
Proof.
  assert (forall peer ps s0, exists es, for_each (tc_send peer) ps s0 =
    (Ret (), mkTunClient (tc_manager s0) (tc_reasm s0) (tc_ctr s0) (tc_log s0 ++ es)) /\ Forall is_sent es) as Hsends.
  { intros peer ps. induction ps as [|p ps IH]; intros s0; cbn [for_each].
    - exists []. rewrite app_nil_r. by destruct s0.
    - destruct (IH (tc_emit (TunSent p peer) s0)) as (es & E & He). exists (TunSent p peer :: es).
      split; [|by constructor]. etrans; [exact E|]. tun_fields. by rewrite <- app_assoc. }
  revert s. induction evs as [|ev evs IH]; intros s; cbn [for_each].
  { wp_steps. split; [done|]. split; [done|]. split; [apply logged_refl|done]. }
  assert (exists r0 es, tun_client_on_tick_event ev s =
    (Ret (), mkTunClient (tc_manager s) r0 (tc_ctr s) (tc_log s ++ es)) /\ Forall is_sent es /\ (quiet_event ev -> es = []))
    as (r0 & es & E & He & Hq).
  { destruct ev as [ps a|p a|? ?|? ?|? ?| |]; cbn [tun_client_on_tick_event quiet_event].
    - destruct (Hsends a ps s) as (es & -> & He). exists (tc_reasm s), es. split; [done|]. by split.
    - exists (tc_reasm s), [TunSent p a]. split; [done|]. split; [by apply Forall_singleton|done].
    - exists (tc_reasm s), []. rewrite app_nil_r. by destruct s.
    - exists (tc_reasm s), []. rewrite app_nil_r. by destruct s.
    - exists (Reassembler_clear (tc_reasm s)), []. rewrite app_nil_r. by destruct s.
    - exists (tc_reasm s), []. rewrite app_nil_r. by destruct s.
    - exists (tc_reasm s), []. rewrite app_nil_r. by destruct s. }
  apply wp_bind. unfold wp at 1. rewrite E. cbn [fst snd]. eapply wp_mono; [apply IH|]. cbv beta. tun_fields.
  intros r s' (-> & Hm & (es' & Hl & He') & Hn). split; [done|]. split; [done|]. split.
  - exists (es ++ es'). rewrite app_assoc. split; [done|]. by apply Forall_app.
  - intros Hall. apply Forall_cons in Hall as [H1 H2]. rewrite (Hn H2), (Hq H1). by rewrite app_nil_r.
Qed.

Definition drained (m : ClientSessionManager) : Prop := cm_pending_closed m = [] /\ cm_pending_closes m = [].

(** A turn without a session, with no handshake or no datagram to answer. *)
Lemma silent_turn_wp t i s :
  cm_session (tc_manager s) = None ->
  (cm_hs (tc_manager s) = None \/ match i with TIRecv (Ok _) => False | _ => True end) ->
  wp (tun_client_turn t i) s (fun r s' => r = Ret () /\ cm_session (tc_manager s') = None /\
    (cm_hs (tc_manager s) = None -> cm_hs (tc_manager s') = None) /\ logged (tc_log s) (tc_log s') is_sent /\
    (drained (tc_manager s) -> drained (tc_manager s') /\ tc_log s' = tc_log s)).
Proof.
  intros Hn Hi. pose proof (logged_refl (tc_log s) is_sent) as Hl. destruct i as [r|pkt|]; cbn [tun_client_turn].
  - destruct r as [[p from]|e]; cbn [tun_client_recv]; [|by wp_steps]. destruct Hi as [Hh|[]].
    assert (client_manager_handle (tct_draws t) p from (tc_manager s) = (Ret EvNone, tc_manager s)) as E.
    { unfold client_manager_handle, client_on_data_packet, mbind, M_bind, get.
      destruct (is_handshake_fragment p); by rewrite ?Hh, ?Hn. }
    unfold tc_call, wp, mbind, M_bind, attempt, zoom. rewrite E. by destruct s.
  - destruct (packet_without_session t pkt s Hn) as [c E]. unfold wp. by rewrite E.
  - unfold tun_client_tick, tc_call. wp_steps.
    destruct (tick_without_session (tct_now t) (tct_draws t) _ Hn) as (H1 & H2 & H3 & H4 & H5).
    eapply wp_mono; [apply tick_events_wp|]. intros r s1 (-> & Em & Hl1 & Hq). tun_fields. wp_steps.
    rewrite Em. unfold wp at 1. rewrite cover_without_session by done. cbn [fst snd]. wp_steps. tun_fields.
    split; [done|]. split; [done|]. split; [done|]. split; [done|]. intros [D1 D2]. split.
    + split; [done|]. by rewrite H4, D2.
    + apply Hq, Forall_forall. intros ev Hev. rewrite D1, D2 in H5.
      destruct (H5 ev Hev) as [(? & ? & ->)|[[? ->]|[H|H]]]; [done|done|by apply elem_of_nil in H..].
Qed.

Lemma silent_loop_wp turns s :
  cm_session (tc_manager s) = None ->
  (cm_hs (tc_manager s) = None \/ Forall (fun ti => match ti.2 with TIRecv (Ok _) => False | _ => True end) turns) ->
  wp (tun_client_loop turns) s (fun r s' => r = Ret () /\ cm_session (tc_manager s') = None /\
    (cm_hs (tc_manager s) = None -> cm_hs (tc_manager s') = None) /\ logged (tc_log s) (tc_log s') is_sent /\
    (drained (tc_manager s) -> tc_log s' = tc_log s)).
Proof.
  unfold tun_client_loop. revert s. induction turns as [|[t i] turns IH]; intros s Hn Hi; cbn [for_each fst snd].
  { wp_steps. split; [done|]. split; [done|]. split; [done|]. split; [apply logged_refl|done]. }
  apply wp_bind. eapply wp_mono; [apply silent_turn_wp; [done|]|].
  { destruct Hi as [Hi|Hi]; [by left|right]. by apply Forall_cons in Hi as [Hi _]. }
  intros r s1 (-> & Hn1 & Hh1 & (es & Hl1 & He1) & Hd1). eapply wp_mono; [apply IH; [done|]|].
  { destruct Hi as [Hi|Hi]; [left; auto|right]. by apply Forall_cons in Hi as [_ Hi]. }
  intros r s2 (-> & Hn2 & Hh2 & (es' & Hl2 & He2) & Hd2). split; [done|]. split; [done|]. split; [auto|]. split.
  - exists (es ++ es'). rewrite Hl2, Hl1, app_assoc. split; [done|]. by apply Forall_app.
  - intros Hd. destruct (Hd1 Hd) as [Hd' <-]. by apply Hd2.
Qed.

End Client.

(** ** Properties *)

Module TunSample.

Definition at_server : TunServerTurn :=
  mkTunServerTurn (Sample.draws 3) 7 7 (fun _ => Ok (sample_payload x00)).

Definition at_client : TunClientTurn :=
  mkTunClientTurn (ClientSample.draws 3) 7 7 (Ok (sample_payload x00)).

End TunSample.

(** C13: Nothing but authenticated, policy-checked traffic reaches the server's TUN
    device, and no input stops the driver: whatever datagrams, device packets
    and ticks came before, a turn completes, and every packet it writes to the
    device completed the reassembly of a slot that decrypted on a live session
    of the manager under its own identifier, was of type TunData, and was
    allowed by the inner-packet policy; the reassembly buffers stay within their
    caps. *)
Theorem tun_server_confined {P : Primitives} {L : PrimitivesLaws P} cfg limits start m turns t i :
  0 <= sc_rate_limit_burst cfg -> 0 <= sl_max_fail_buckets limits ->
  ServerSessionManager_new cfg limits start = Ok m ->
  Forall (fun ti => tun_turn_ok ti.1 ti.2) turns -> tun_turn_ok t i ->
  exists s s' es,
    tun_server_loop turns (tun_server_init m) = (Ret (), s) /\
    tun_server_turn t i s = (Ret (), s') /\
    ts_log s' = ts_log s ++ es /\ map_Forall (fun _ r => Reassembler_wf r) (ts_reasms s') /\
    forall pkt, TunWrote pkt ∈ es ->
      exists p from e inner,
        i = TIRecv (Ok (p, from)) /\ sm_sessions (ts_manager s) !! packet_sid p = Some e /\
        (WireSession_decrypt (se_session e) p).1 = Ok inner /\ ip_msg_type inner = TunData /\
        (feed (reasm_or_new (packet_sid p) (ts_reasms s)) (ip_payload inner) (tst_feed_now t)).1 = Complete pkt /\
        validate_inner_packet pkt ClientAssignment_default = Allow.
Proof.
  intros Hb Hg Hm Ht Hi. destruct (manager_reaches_wf _ _ _ _ Hb Hg (mr_new _ _ _ _ Hm)) as [Hwf _].
  assert (tun_server_wf (tun_server_init m)) as H0 by (split; [done|apply map_Forall_empty]).
  pose proof (tun_server_loop_wp turns _ Ht H0) as Hl. unfold wp in Hl.
  destruct (tun_server_loop turns (tun_server_init m)) as [r s]. cbn [fst snd] in Hl.
  destruct Hl as [-> Hs].
  pose proof (tun_server_turn_wp t i s Hi Hs) as Hw. unfold wp in Hw.
  destruct (tun_server_turn t i s) as [r s'] eqn:E. cbn [fst snd] in Hw.
  destruct Hw as (-> & [_ Hr] & es & Hes & Hall).
  exists s, s', es. split; [done|]. split; [done|]. split; [done|]. split; [done|].
  intros pkt Hin. rewrite Forall_forall in Hall. apply (Hall _ Hin).
Qed.

Lemma tun_server_confined_witness :
  exists s s', tun_server_loop [] (tun_server_init ManagerSample.manager0) = (Ret (), s) /\
    tun_server_turn TunSample.at_server (TIRecv (Ok (ManagerSample.data_packet, Sample.client_addr))) s = (Ret (), s').
Proof.
  destruct (tun_server_confined Sample.server_cfg SessionLimits_default 0 ManagerSample.manager0 []
    TunSample.at_server (TIRecv (Ok (ManagerSample.data_packet, Sample.client_addr))))
    as (s & s' & es & H1 & H2 & _).
  - vm_compute. discriminate.
  - vm_compute. discriminate.
  - done.
  - constructor.
  - split; [by intros sid f [= <-]|apply manager_sample_wf].
  - exists s, s'. exact (conj H1 H2).
Defined.

(** The same for the client: from any state of its manager no input stops the
    driver, and a packet is written to the client's TUN device only when it
    completed the reassembly of a TunData slot that decrypted on the held
    session and passed the boundary filter and the length check. *)
Theorem tun_client_confined {P : Primitives} {L : PrimitivesLaws P} cfg limits m turns t i :
  cm_reaches cfg limits m -> Forall (fun ti => fill_ok ti.1) turns -> fill_ok t ->
  exists s s' es,
    tun_client_loop turns (tun_client_init m) = (Ret (), s) /\
    tun_client_turn t i s = (Ret (), s') /\
    tc_log s' = tc_log s ++ es /\ Reassembler_wf (tc_reasm s') /\
    forall pkt, TunWrote pkt ∈ es ->
      exists p from w inner,
        i = TIRecv (Ok (p, from)) /\ cm_session (tc_manager s) = Some w /\ packet_sid p = ws_session_id w /\
        (WireSession_decrypt w p).1 = Ok inner /\ ip_msg_type inner = TunData /\
        (feed (tc_reasm s) (ip_payload inner) (tct_feed_now t)).1 = Complete pkt /\
        is_boundary_dropped pkt = false /\ validate_inner pkt = true.
Proof.
  intros Hm Ht Hi. destruct (cm_reaches_wf _ _ _ Hm) as [Hwf _].
  assert (tun_client_wf (tun_client_init m)) as H0 by (split; [done|apply deadline_reasm_wf]).
  pose proof (tun_client_loop_wp turns _ Ht H0) as Hl. unfold wp in Hl.
  destruct (tun_client_loop turns (tun_client_init m)) as [r s]. cbn [fst snd] in Hl.
  destruct Hl as [-> Hs].
  pose proof (tun_client_turn_wp t i s Hi Hs) as Hw. unfold wp in Hw.
  destruct (tun_client_turn t i s) as [r s'] eqn:E. cbn [fst snd] in Hw.
  destruct Hw as (-> & [_ Hr] & es & Hes & Hall).
  exists s, s', es. split; [done|]. split; [done|]. split; [done|]. split; [done|].
  intros pkt Hin. rewrite Forall_forall in Hall. apply (Hall _ Hin).
Qed.

Lemma tun_client_confined_witness : exists m s s',
  cm_reaches Sample.client_cfg SessionLimits_default m /\
  tun_client_loop [(TunSample.at_client, TITick)] (tun_client_init m) = (Ret (), s) /\
  tun_client_turn TunSample.at_client (TIRecv (Ok (ClientSample.server_packet, Sample.server_addr))) s = (Ret (), s').
Proof.
  destruct client_sample_established as (m & Hr & _). exists m.
  destruct (tun_client_confined Sample.client_cfg SessionLimits_default m [(TunSample.at_client, TITick)]
    TunSample.at_client (TIRecv (Ok (ClientSample.server_packet, Sample.server_addr))) Hr)
    as (s & s' & es & H1 & H2 & _).
  - apply Forall_singleton. by intros f [= <-].
  - by intros f [= <-].
  - exists s, s'. exact (conj Hr (conj H1 H2)).
Defined.

(** The TUN client never retries. Once its manager has no session and nothing
    left to report or retransmit, the driver is silent for ever: with a
    handshake in flight, as long as no datagram arrives (so a lost M1 is never
    sent again), and without one, whatever arrives (so a session that ended is
    never re-established). *)
Theorem tun_client_never_retries {P : Primitives} turns s :
  cm_session (tc_manager s) = None -> drained (tc_manager s) ->
  (cm_hs (tc_manager s) = None \/ Forall (fun ti => match ti.2 with TIRecv (Ok _) => False | _ => True end) turns) ->
  exists s', tun_client_loop turns s = (Ret (), s') /\ tc_log s' = tc_log s /\ cm_session (tc_manager s') = None.
Proof.
  intros Hn Hd Hi. pose proof (silent_loop_wp turns s Hn Hi) as Hw. unfold wp in Hw.
  destruct (tun_client_loop turns s) as [r s']. cbn [fst snd] in Hw. destruct Hw as (-> & Hn' & _ & _ & Hl). exists s'.
  split; [done|]. split; [by apply Hl|done].
Qed.

(** A client that sent its M1. *)
Definition sample_waiting (s : TunClient) : bool :=
  bool_decide (cm_session (tc_manager s) = None) && bool_decide (cm_pending_closed (tc_manager s) = []) &&
  bool_decide (length (cm_pending_closes (tc_manager s)) = 0%nat) && negb (bool_decide (tc_log s = [])).

Lemma tun_client_never_retries_witness : exists m s s',
  ClientSessionManager_new Sample.client_cfg SessionLimits_default = Ok m /\
  (tun_client_connect (fun _ _ => Ok ()) (ClientSample.draws 1) (tun_client_init m)).2 = s /\
  tc_log s <> [] /\
  tun_client_loop [(TunSample.at_client, TITick); (TunSample.at_client, TIPacket (sample_ip 40))] s = (Ret (), s') /\
  tc_log s' = tc_log s.
Proof.
  assert (match ClientSessionManager_new Sample.client_cfg SessionLimits_default with
          | Ok m => sample_waiting (tun_client_connect (fun _ _ => Ok ()) (ClientSample.draws 1) (tun_client_init m)).2
          | Err _ => false end = true) as H by (vm_compute; reflexivity).
  destruct (ClientSessionManager_new Sample.client_cfg SessionLimits_default) as [m|] eqn:E; [|discriminate H].
  destruct (tun_client_connect (fun _ _ => Ok ()) (ClientSample.draws 1) (tun_client_init m)) as [r s] eqn:Ec.
  cbn [snd] in H. unfold sample_waiting in H. apply andb_prop in H as [H H4]. apply andb_prop in H as [H H3].
  apply andb_prop in H as [H1 H2].
  apply bool_decide_eq_true in H1, H2, H3. apply negb_true_iff, bool_decide_eq_false in H4.
  destruct (tun_client_never_retries
    [(TunSample.at_client, TITick); (TunSample.at_client, TIPacket (sample_ip 40))] s) as (s' & H5 & H6 & _).
  - exact H1.
  - split; [exact H2|]. by apply nil_length_inv.
  - right. by repeat constructor.
  - exists m, s, s'. rewrite Ec. exact (conj eq_refl (conj eq_refl (conj H4 (conj H5 H6)))).
Defined.
