(* ===== verification/Channel.v ===== *)
(** * The secure channel between two managers

    What the envelope, the wire sessions and the managers give to the data paths
    above them: a payload encrypted at one end of a paired session is accepted
    at the other, by the manager that holds that end. *)

From S2P Require Import Prelude Bytes Errors Codec Replay Crypto Envelope WireSession Exec Net HandshakeMsg HandshakeFrag HandshakeClient HandshakeServer HandshakeSafety HandshakeClientOk SessionCommon ServerManager ClientManager FailGateOk ServerManagerOk ClientManagerOk ClientManagerSafe.

Local Open Scope Z_scope.

Section Channel.
Context {P : Primitives} {L : PrimitivesLaws P}.

(** [p] carries the payload [slot] of type [ty] under the counter [c] of the end
    [a]. *)
Definition sealed (ty : MessageType) (a : CipherSession) (c : Z) (slot : bytes) (p : WirePacket) : Prop :=
  exists ct, p = mkWirePacket (PacketHeader_encode (PacketHeader_new (cs_session_id a) c) ++ ct) /\
    aead_decrypt (send_key a) (mkAeadNonce (build_session_nonce (send_prefix a) c)) ct
      (PacketHeader_encode (PacketHeader_new (cs_session_id a) c)) =
    Ok (InnerPlaintext_encode (mkInnerPlaintext ty (send_direction (cs_role a)) slot)).

Lemma packet_sid_sealed ty a c slot p :
  length (cs_session_id a) = SESSION_ID_LEN -> sealed ty a c slot p -> packet_sid p = cs_session_id a.
Proof.
  intros Hs (ct & -> & _). unfold packet_sid. cbn [as_bytes]. rewrite PacketHeader_encode_app by done.
  rewrite <- !app_assoc. cbn [ph_session_id PacketHeader_new]. by rewrite (slice_exact [_] (cs_session_id a)) by dims.
Qed.

Lemma sealed_counter ty a c slot p :
  length (cs_session_id a) = SESSION_ID_LEN -> 0 <= c < 2 ^ 60 -> sealed ty a c slot p -> packet_counter p = Some c.
Proof.
  intros Hs Hc (ct & -> & _). unfold packet_counter. rewrite WirePacket_parse_header_app; [done| |done].
  apply PacketHeader_new_wf; [done|]. unfold MAX_PACKET_NONCE, umax. lia.
Qed.

(** The server takes it for application data. *)
Lemma server_accepts ty d now p from m e a c slot :
  ty = Data \/ ty = TunData -> sealed ty a c slot p -> paired a (ws_cipher (se_session e)) ->
  length (cs_session_id a) = SESSION_ID_LEN -> 0 <= c < 2 ^ 60 -> length slot = PAYLOAD_LEN ->
  sm_sessions m !! cs_session_id a = Some e -> ws_state (se_session e) = Established ->
  (accept (replay (ws_cipher (se_session e))) c).1 = Ok () ->
  peek (sm_fail_gate m) from now (sm_limits m) = true ->
  exists w', ws_state w' = Established /\ ws_session_id w' = ws_session_id (se_session e) /\
    ws_cipher w' = set_replay (ws_cipher (se_session e)) (accept (replay (ws_cipher (se_session e))) c).2 /\
    server_manager_handle d now p from m =
    (Ret (EvAppData (cs_session_id a) (mkInnerPlaintext ty (send_direction (cs_role a)) slot)),
     sm_map_sessions (<[cs_session_id a := mkSessionEntry w' from now (se_established_at e)]>) m).
Proof.
  intros Hty Hp Hpair Hs Hc Hsl He Hst Hacc Hpk. pose proof (packet_sid_sealed ty a c slot p Hs Hp) as Hid.
  destruct Hp as (ct & -> & Hd). unfold packet_sid in Hid.
  assert (c < MAX_PACKET_NONCE) as Hm by (unfold MAX_PACKET_NONCE, umax; lia).
  pose proof (decrypt_honest a (ws_cipher (se_session e)) c ty slot ct Hpair Hs ltac:(lia) Hsl Hd) as Hdec.
  rewrite Hacc in Hdec. cbn [is_ok] in Hdec.
  set (w' := ws_with (se_session e) (ws_state (se_session e))
    (set_replay (ws_cipher (se_session e)) (accept (replay (ws_cipher (se_session e))) c).2)
    (count_received (ws_metrics (se_session e)))).
  exists w'. split; [done|]. split; [done|]. split; [done|].
  unfold server_manager_handle. rewrite data_packet_not_handshake by done.
  unfold server_on_data_packet, mbind, M_bind, get. rewrite Hid, He, Hpk. cbn [negb].
  unfold WireSession_decrypt, require_established. rewrite bool_decide_true by done. rewrite Hdec.
  by destruct Hty as [-> | ->].
Qed.

(** A live session seals a payload under its next counter. *)
Lemma seal_ok ty payload w :
  ws_live (ws_session_id w) w -> send_counter (ws_cipher w) < MAX_PACKET_NONCE -> length payload = PAYLOAD_LEN ->
  exists p w', WireSession_encrypt w ty payload = (Ok p, w') /\ ws_live (ws_session_id w) w' /\
    ws_cipher w' = set_send_counter (ws_cipher w) (send_counter (ws_cipher w) + 1) /\
    sealed ty (ws_cipher w) (send_counter (ws_cipher w)) payload p.
Proof.
  intros Hl Hc Hp. pose proof Hl as (_ & _ & Hcs & Hwf).
  destruct (encrypt_ok (ws_cipher w) ty payload Hwf Hp Hc) as (ct & E & _ & Hd).
  unfold WireSession_encrypt. rewrite (require_established_live _ w Hl), E. eexists _, _. split; [done|].
  split; [split; [apply Hl|]; split; [done|]; split; [done|]; by apply set_send_counter_wf|].
  split; [done|]. by exists ct.
Qed.

Lemma client_seals d ty payload m w :
  cm_session m = Some w -> ws_live (ws_session_id w) w -> send_counter (ws_cipher w) < MAX_PACKET_NONCE ->
  length payload = PAYLOAD_LEN ->
  exists p w', client_send_encrypted d ty payload m = (Ret (EvSendPacket p (cm_peer m)), cm_set_session (Some w') m) /\
    ws_live (ws_session_id w) w' /\
    ws_cipher w' = set_send_counter (ws_cipher w) (send_counter (ws_cipher w) + 1) /\
    sealed ty (ws_cipher w) (send_counter (ws_cipher w)) payload p.
Proof.
  intros Hw Hl Hc Hp. destruct (seal_ok ty payload w Hl Hc Hp) as (p & w' & E & H). exists p, w'. split; [|done].
  unfold client_send_encrypted, mbind, M_bind, get. by rewrite Hw, E.
Qed.

Lemma server_seals ty payload m sid e :
  sm_sessions m !! sid = Some e -> ws_live sid (se_session e) ->
  send_counter (ws_cipher (se_session e)) < MAX_PACKET_NONCE -> length payload = PAYLOAD_LEN ->
  exists p w', server_send_encrypted sid ty payload m =
    (Ret (EvSendPacket p (se_peer e)), sm_map_sessions (<[sid := entry_set_session w' e]>) m) /\ ws_live sid w' /\
    ws_cipher w' = set_send_counter (ws_cipher (se_session e)) (send_counter (ws_cipher (se_session e)) + 1) /\
    sealed ty (ws_cipher (se_session e)) (send_counter (ws_cipher (se_session e))) payload p.
Proof.
  intros He Hl Hc Hp. assert (ws_session_id (se_session e) = sid) as Ei by apply Hl. rewrite <- Ei in Hl.
  destruct (seal_ok ty payload (se_session e) Hl Hc Hp) as (p & w' & E & H). rewrite Ei in H. exists p, w'. split; [|done].
  unfold server_send_encrypted, with_session, send_result, mbind, M_bind, get, try. by rewrite He; cbn [ok_or]; rewrite E.
Qed.

(** The window of an end that has accepted nothing at or above [c]. *)
Definition behind (r : ReplayWindow) (c : Z) : Prop :=
  exists d, refines r d /\ forall k, k ∈ d_accepted d -> k < c.

Lemma behind_accepts r c : behind r c -> (accept r c).1 = Ok () /\ behind (accept r c).2 (c + 1).
Proof.
  intros (d & Href & Hacc).
  assert (Detector_fresh d c = true) as Hfr.
  { unfold Detector_fresh. rewrite bool_decide_false by (intros Hin; specialize (Hacc c Hin); lia).
    destruct Href as (_ & Hh & Hw). rewrite <- Hh. destruct (highest _) as [h|]; [|done].
    destruct Hw as [Hin _]. specialize (Hacc h Hin). unfold WINDOW_BITS. cbn. lia. }
  destruct (accept_refines r d c Href) as [Hok Href']. unfold Detector_accept in *. rewrite Hfr in *. cbn [fst snd] in *.
  split; [by destruct (accept _ c) as [[[]|] ?]|]. eexists. split; [exact Href'|].
  intros k Hk. cbn [d_accepted] in Hk. apply elem_of_union in Hk as [->%elem_of_singleton|Hk]; [lia|].
  specialize (Hacc k Hk). lia.
Qed.

Lemma behind_mono r c c' : behind r c -> c <= c' -> behind r c'.
Proof. intros (d & Hr & Ha) Hc. exists d. split; [done|]. intros k Hk. specialize (Ha k Hk). lia. Qed.

(** The client takes it for application data, and as a confirmation. *)
Lemma client_accepts ty d p from m w b c slot :
  ty = Data \/ ty = TunData -> sealed ty b c slot p -> paired b (ws_cipher w) ->
  length (cs_session_id b) = SESSION_ID_LEN -> 0 <= c < 2 ^ 60 -> length slot = PAYLOAD_LEN ->
  cm_session m = Some w -> ws_live (cs_session_id b) w -> (accept (replay (ws_cipher w)) c).1 = Ok () ->
  exists w', ws_live (cs_session_id b) w' /\
    ws_cipher w' = set_replay (ws_cipher w) (accept (replay (ws_cipher w)) c).2 /\
    client_manager_handle d p from m =
    (Ret (EvAppData (cs_session_id b) (mkInnerPlaintext ty (send_direction (cs_role b)) slot)),
     cm_confirm from (cm_set_session (Some w') m)).
Proof.
  intros Hty Hp Hpair Hs Hc Hsl Hw Hl Hacc. pose proof (packet_sid_sealed ty b c slot p Hs Hp) as Hid.
  destruct Hp as (ct & -> & Hd). unfold packet_sid in Hid.
  assert (c < MAX_PACKET_NONCE) as Hm by (unfold MAX_PACKET_NONCE, umax; lia).
  pose proof (decrypt_honest b (ws_cipher w) c ty slot ct Hpair Hs ltac:(lia) Hsl Hd) as Hdec.
  rewrite Hacc in Hdec. cbn [is_ok] in Hdec. destruct Hl as (Hst & Ei & Ecs & Hwf).
  set (w' := ws_with w (ws_state w) (set_replay (ws_cipher w) (accept (replay (ws_cipher w)) c).2)
    (count_received (ws_metrics w))).
  exists w'. split; [split; [done|]; split; [done|]; split; [done|]; exact Hwf|]. split; [done|].
  unfold client_manager_handle, mbind, M_bind, get. rewrite data_packet_not_handshake by done.
  unfold client_on_data_packet, mbind, M_bind, get. rewrite Hw, Hid, Ei, bool_decide_true by done. cbn [negb].
  unfold WireSession_decrypt, require_established. rewrite bool_decide_true by done. rewrite Hdec.
  by destruct Hty as [-> | ->].
Qed.

(** Two ends with the same keys, the second of which has received nothing: a
    check for concrete sessions. *)
Definition fresh_ends (a b : CipherSession) : bool :=
  bool_decide (cs_session_id a = cs_session_id b) &&
  bool_decide (ak_bytes (key_c2s a) = ak_bytes (key_c2s b)) &&
  bool_decide (ak_bytes (key_s2c a) = ak_bytes (key_s2c b)) &&
  bool_decide (prefix_c2s a = prefix_c2s b) && bool_decide (prefix_s2c a = prefix_s2c b) &&
  bool_decide (highest (replay b) = None) && bool_decide (bitmap (replay b) = bitmap ReplayWindow_new) &&
  match cs_role a, cs_role b with Client, Server | Server, Client => true | _, _ => false end.

Lemma fresh_ends_ok a b : fresh_ends a b = true -> paired a b /\ refines (replay b) Detector_new.
Proof.
  unfold fresh_ends. rewrite !andb_true_iff, !bool_decide_eq_true. intros [[[[[[[H1 H2] H3] H4] H5] H6] H7] H8]. split.
  - split; [done|]. destruct (key_c2s a), (key_c2s b). cbn in H2. subst. destruct (key_s2c a), (key_s2c b). cbn in H3. subst.
    repeat (split; [done|]). by destruct (cs_role a), (cs_role b).
  - destruct (replay b) as [h bm]. cbn in H6, H7. subst. apply refines_new.
Qed.

Lemma behind_new r c : refines r Detector_new -> behind r c.
Proof. intros H. exists Detector_new. split; [done|]. intros k Hk. by apply elem_of_empty in Hk. Qed.

End Channel.
