(* ===== verification/TunDelivery.v ===== *)
(** * Delivery of a packet from TUN to TUN

    A packet read from the client's device is fragmented, encrypted and sent by
    [tun/client.rs]; whatever order its datagrams arrive in, [tun/server.rs]
    decrypts and reassembles them and writes the same packet to its device. *)

From S2P Require Import Prelude Bytes Chunks Errors Codec Replay Crypto Envelope WireSession Exec Net IpAddr Dataplane PacketPolicy Reassembly HandshakeMsg HandshakeFrag HandshakeClient HandshakeServer HandshakeSafety HandshakeClientOk SessionCommon ServerManager ClientManager TunDriver FailGateOk ServerManagerOk ClientManagerOk ClientManagerSafe Channel TunDriverOk.

Local Open Scope Z_scope.

(** A fresh reassembler has room for one datagram, and one that holds an entry
    of the datagram never refuses its fragments. *)
Lemma feed_entry_not_dropped e hdr slot bad : (feed_entry e hdr slot bad).1 <> DroppedCap.
Proof. unfold feed_entry. repeat (case_match; try done). Qed.

Lemma feed_on_entry_not_dropped r e hdr slot bad : (feed_on_entry r e hdr slot bad).1 <> DroppedCap.
Proof.
  unfold feed_on_entry. pose proof (feed_entry_not_dropped e hdr slot bad) as H.
  by destruct (feed_entry e hdr slot bad) as [o [e'|]].
Qed.

Lemma feed_has_room ip id n i r now :
  fragmentable ip n -> in_range 64 id -> (i < n)%nat ->
  (r = Reassembler_new REASSEMBLY_DEADLINE \/ exists e, r_entries r !! id = Some e /\ now < e_deadline e) ->
  (feed r (fragment_slot ip id (crc32 ip) n i) now).1 <> DroppedCap.
Proof.
  intros Hf Hid Hi Hr. unfold feed. rewrite (fragment_slot_decode ip id n i) by done.
  cbn [datagram_id fragment_header]. destruct Hr as [->|(e & He & Hd)].
  - assert (expire (Reassembler_new REASSEMBLY_DEADLINE) now = Reassembler_new REASSEMBLY_DEADLINE) as -> by done.
    cbn [Reassembler_new with_caps r_entries r_max_entries r_max_bytes r_current_bytes ip_total_len fragment_header].
    rewrite lookup_empty, map_size_empty. destruct (trailing_nonzero _ _); [done|].
    destruct Hf as [[H1 H2] _]. pose proof (eq_refl : MAX_IP_PACKET_LEN = 65535) as Hmax.
    replace (MAX_ENTRIES_PER_SESSION <=? Z.of_nat 0) with false by done.
    replace (MAX_BYTES_PER_SESSION <? saturating_add 64 0 (zlen ip)) with false; [apply feed_on_entry_not_dropped|].
    unfold saturating_add, MAX_BYTES_PER_SESSION, umax in *. lia.
  - rewrite expire_lookup, He. replace (e_deadline e <=? now) with false by lia. apply feed_on_entry_not_dropped.
Qed.

Section Delivery.
Context {P : Primitives} {L : PrimitivesLaws P}.

(** ** The client's side *)

Lemma client_slot_sealed t slot s w :
  cm_session (tc_manager s) = Some w -> ws_live (ws_session_id w) w ->
  send_counter (ws_cipher w) < MAX_PACKET_NONCE -> length slot = PAYLOAD_LEN ->
  exists p w', ws_live (ws_session_id w) w' /\
    ws_cipher w' = set_send_counter (ws_cipher w) (send_counter (ws_cipher w) + 1) /\
    sealed TunData (ws_cipher w) (send_counter (ws_cipher w)) slot p /\
    tun_client_slot t slot s =
    (Ret (), mkTunClient (cm_set_session (Some w') (tc_manager s)) (tc_reasm s) (tc_ctr s)
               (tc_log s ++ [TunSent p (cm_peer (tc_manager s))])).
Proof.
  intros Hw Hl Hc Hs. destruct (client_seals (tct_draws t) TunData slot (tc_manager s) w Hw Hl Hc Hs) as (p & w' & E & Hl' & Ew & Hp).
  exists p, w'. split; [done|]. split; [done|]. split; [done|].
  unfold tun_client_slot, tc_call, attempt, zoom, client_tun_outbound, mbind, M_bind, get.
  rewrite Hs, Nat.eqb_refl. cbn [negb]. rewrite bool_decide_false by (by rewrite Hw). by rewrite E.
Qed.

Lemma client_slots_sealed t slots s w :
  cm_session (tc_manager s) = Some w -> ws_live (ws_session_id w) w ->
  send_counter (ws_cipher w) + Z.of_nat (length slots) <= MAX_PACKET_NONCE ->
  Forall (fun slot => length slot = PAYLOAD_LEN) slots ->
  exists pkts s', for_each (tun_client_slot t) slots s = (Ret (), s') /\
    tc_log s' = tc_log s ++ ((fun p => TunSent p (cm_peer (tc_manager s))) <$> pkts) /\
    length pkts = length slots /\
    forall i slot, slots !! i = Some slot -> exists p, pkts !! i = Some p /\
      sealed TunData (ws_cipher w) (send_counter (ws_cipher w) + Z.of_nat i) slot p.
Proof.
  revert s w. induction slots as [|slot slots IH]; intros s w Hw Hl Hc Hs; cbn [for_each].
  { exists [], s. split; [done|]. split; [by rewrite app_nil_r|]. by split. }
  apply Forall_cons in Hs as [Hs1 Hs]. cbn [length] in Hc.
  destruct (client_slot_sealed t slot s w Hw Hl ltac:(lia) Hs1) as (p & w' & Hl' & Ew & Hp & E).
  set (s1 := mkTunClient _ _ _ _) in E. assert (ws_session_id w' = ws_session_id w) as Eid by apply Hl'.
  destruct (IH s1 w') as (pkts & s' & E' & El & Hlen & Hall); [done|by rewrite Eid|rewrite Ew; cbn; lia|done|].
  exists (p :: pkts), s'. split; [unfold mbind, M_bind; by rewrite E|].
  split; [rewrite El; cbn; by rewrite <- app_assoc|]. split; [cbn; lia|].
  intros [|i] slot' Hi; cbn in Hi.
  - injection Hi as <-. exists p. split; [done|]. by rewrite Z.add_0_r.
  - destruct (Hall i slot' Hi) as (p' & Hp' & Hse). exists p'. split; [done|]. rewrite Ew in Hse.
    replace (send_counter (ws_cipher w) + Z.of_nat (S i)) with (send_counter (ws_cipher w) + 1 + Z.of_nat i) by lia.
    exact Hse.
Qed.

(** ** Receiving the fragments of one packet *)

Section Receive.
Variables (ip : bytes) (id : Z) (n : nat) (a : CipherSession) (dl : Instant) (g : FailGate) (lim : SessionLimits)
  (from : SocketAddr).
Hypothesis Hfrag : fragmentable ip n.
Hypothesis Hid : in_range 64 id.
Hypothesis Hsid : length (cs_session_id a) = SESSION_ID_LEN.
Hypothesis Hctr : 0 <= send_counter a /\ send_counter a + Z.of_nat n <= 2 ^ 60.
Hypothesis Hallow : validate_inner_packet ip ClientAssignment_default = Allow.

Abbreviation slot_of i := (fragment_slot ip id (crc32 ip) n i).
Abbreviation sid := (cs_session_id a).

(** The server has received the fragments of [q], and nothing of the client
    beyond them but packets sent before. *)
Record receiving (q : gset nat) (s : TunServer) : Prop := {
  rc_entry : exists e d, sm_sessions (ts_manager s) !! sid = Some e /\
    ws_state (se_session e) = Established /\ paired a (ws_cipher (se_session e)) /\
    refines (replay (ws_cipher (se_session e))) d /\
    forall k, k ∈ d_accepted d -> k < send_counter a \/ exists i, i ∈ q /\ k = send_counter a + Z.of_nat i;
  rc_reasm : in_flight ip id n dl q (reasm_or_new sid (ts_reasms s));
  rc_deadline : r_deadline (reasm_or_new sid (ts_reasms s)) = REASSEMBLY_DEADLINE;
  rc_fresh : q = ∅ -> reasm_or_new sid (ts_reasms s) = Reassembler_new REASSEMBLY_DEADLINE;
  rc_gate : sm_fail_gate (ts_manager s) = g /\ sm_limits (ts_manager s) = lim }.

(** Its window accepts the next fragment. *)
Lemma receiving_accepts q s i :
  receiving q s -> (i < n)%nat -> i ∉ q ->
  exists e d, sm_sessions (ts_manager s) !! sid = Some e /\
    ws_state (se_session e) = Established /\ paired a (ws_cipher (se_session e)) /\
    let r := accept (replay (ws_cipher (se_session e))) (send_counter a + Z.of_nat i) in
    r.1 = Ok () /\ refines r.2 d /\
    forall k, k ∈ d_accepted d -> k < send_counter a \/
      exists j, j ∈ ({[ i ]} ∪ q : gset nat) /\ k = send_counter a + Z.of_nat j.
Proof.
  intros [(e & d & He & Hst & Hpair & Href & Hacc) [Hq _] _ _ _] Hi Hni.
  destruct (fragment_count_bounds ip n Hfrag) as (_ & Hn & _). pose proof (eq_refl : MAX_FRAG_COUNT = 54) as Hmax.
  set (c := send_counter a + Z.of_nat i). exists e, (Detector_accept d c).2. split; [done|]. split; [done|]. split; [done|].
  assert (Detector_fresh d c = true) as Hfr.
  { unfold Detector_fresh. rewrite bool_decide_false.
    2:{ intros Hin. destruct (Hacc c Hin) as [Hlt|(j & Hj & E)]; [lia|]. assert (j = i) as -> by lia. done. }
    destruct Href as (_ & Hh & Hw). rewrite <- Hh. destruct (highest _) as [h|]; [|done].
    destruct Hw as [Hin _]. unfold WINDOW_BITS. destruct (Hacc h Hin) as [Hlt|(j & Hj & ->)]; [cbn; lia|].
    specialize (Hq j Hj). cbn. lia. }
  destruct (accept_refines _ d c Href) as [Hok Href']. unfold Detector_accept in *. rewrite Hfr in *. cbn [fst snd] in *.
  cbv zeta. split; [by destruct (accept _ c) as [[[]|] ?]|]. split; [done|].
  intros k Hk. cbn [d_accepted] in Hk. apply elem_of_union in Hk as [->%elem_of_singleton|Hk].
  - right. exists i. split; [|done]. apply elem_of_add. by left.
  - destruct (Hacc k Hk) as [|(j & Hj & ->)]; [by left|right]. exists j. split; [|done]. apply elem_of_add. by right.
Qed.

Lemma receive_fragment q s i p t :
  receiving q s -> (i < n)%nat -> i ∉ q -> sealed TunData a (send_counter a + Z.of_nat i) (slot_of i) p ->
  tst_feed_now t < dl <= tst_feed_now t + REASSEMBLY_DEADLINE -> peek g from (tst_now t) lim = true ->
  exists s', tun_server_turn t (TIRecv (Ok (p, from))) s = (Ret (), s') /\ ts_current_sid s' = Some sid /\
    (exists e', sm_sessions (ts_manager s') !! sid = Some e' /\ se_peer e' = from) /\
    if (S (size q) =? n)%nat then ts_log s' = ts_log s ++ [TunWrote ip]
    else receiving ({[ i ]} ∪ q) s' /\ ts_log s' = ts_log s.
Proof.
  intros Hrc Hi Hni Hp Ht Hpk. destruct (receiving_accepts q s i Hrc Hi Hni) as (e & d & He & Hst & Hpair & Hok & Href & Hacc).
  destruct (rc_gate _ _ Hrc) as [Eg El].
  destruct (server_accepts TunData (tst_draws t) (tst_now t) p from (ts_manager s) e a (send_counter a + Z.of_nat i) (slot_of i))
    as (w' & Hst' & _ & Ew & Eh); try done; [by right|lia|apply length_fragment_slot|by rewrite Eg, El|].
  set (r0 := reasm_or_new sid (ts_reasms s)) in *.
  assert ((feed r0 (slot_of i) (tst_feed_now t)).1 <> DroppedCap) as Hroom.
  { apply feed_has_room; [done|done|done|]. destruct (decide (q = ∅)) as [->|Hne]; [left; by apply Hrc|right].
    destruct (rc_reasm _ _ Hrc) as [_ Hfl]. fold r0 in Hfl. destruct (r_entries r0 !! id) as [en|]; [|done].
    exists en. split; [done|]. destruct Hfl. lia. }
  pose proof (feed_fragment ip id n Hfrag Hid dl q r0 i (tst_feed_now t) (rc_reasm _ _ Hrc) Hi (proj1 Ht)
    ltac:(unfold r0; rewrite (rc_deadline _ _ Hrc); lia) Hroom) as Hf.
  rewrite bool_decide_false in Hf by done.
  destruct (feed_config r0 (slot_of i) (tst_feed_now t)) as (_ & _ & Hdl).
  destruct (feed r0 (slot_of i) (tst_feed_now t)) as [out r1] eqn:Ef. cbn [fst snd] in *.
  set (m1 := sm_map_sessions _ _) in Eh.
  assert (exists e', sm_sessions m1 !! sid = Some e' /\ se_peer e' = from) as Hpeer
    by (eexists; split; [apply lookup_insert_eq|done]).
  set (l' := match out with Complete x => ts_log s ++ [TunWrote ip] | _ => ts_log s end).
  exists (mkTunServer m1 (<[sid := r1]> (ts_reasms s)) (Some sid) (ts_ctr s) l').
  assert (tun_server_turn t (TIRecv (Ok (p, from))) s =
    (Ret (), mkTunServer m1 (<[sid := r1]> (ts_reasms s)) (Some sid) (ts_ctr s) l')) as ->.
  { cbn [tun_server_turn tun_server_recv]. unfold ts_call, attempt, zoom, mbind, M_bind. rewrite Eh. cbv beta iota.
    unfold on_tun_data, mbind, M_bind, get, modify. cbn [ip_msg_type ip_payload]. rewrite bool_decide_true by done.
    tun_fields. fold r0. rewrite Ef. subst l'. tun_fields. destruct (S (size q) =? n)%nat.
    - destruct Hf as [-> _]. by rewrite bool_decide_true.
    - by destruct Hf as [-> _]. }
  split; [done|]. split; [done|]. split; [done|]. subst l'. destruct (S (size q) =? n)%nat.
  - by destruct Hf as [-> _].
  - destruct Hf as [-> Hfl]. split; [|done].
    assert (reasm_or_new sid (<[sid := r1]> (ts_reasms s)) = r1) as Er by (unfold reasm_or_new; by rewrite lookup_insert_eq).
    split; tun_fields; rewrite ?Er.
    + exists (mkSessionEntry w' from (tst_now t) (se_established_at e)), d. split; [apply lookup_insert_eq|].
      cbn [se_session]. rewrite Ew. split; [done|]. split; [exact Hpair|]. by split.
    + done.
    + rewrite Hdl. apply Hrc.
    + intros E. exfalso. assert (i ∈ ({[ i ]} ∪ q : gset nat)) as Hin by (apply elem_of_add; by left).
      rewrite E in Hin. by apply elem_of_empty in Hin.
    + by split.
Qed.

(** All of them, in whatever order they come. *)
Lemma receive_all arrivals q s :
  receiving q s -> (size q + length arrivals = n)%nat -> arrivals <> [] -> NoDup arrivals.*2.*1 ->
  Forall (fun x => let '(t, (i, p)) := x in (i < n)%nat /\ (i ∉ q) /\
    sealed TunData a (send_counter a + Z.of_nat i) (slot_of i) p /\
    tst_feed_now t < dl <= tst_feed_now t + REASSEMBLY_DEADLINE /\ peek g from (tst_now t) lim = true) arrivals ->
  exists s', tun_server_loop ((fun x => (x.1, TIRecv (Ok (x.2.2, from)))) <$> arrivals) s = (Ret (), s') /\
    ts_current_sid s' = Some sid /\ (exists e', sm_sessions (ts_manager s') !! sid = Some e' /\ se_peer e' = from) /\
    ts_log s' = ts_log s ++ [TunWrote ip].
Proof.
  unfold tun_server_loop. revert q s. induction arrivals as [|[t [i p]] arrivals IH]; intros q s Hrc Hsz Hne Hnd Hall; [done|].
  apply Forall_cons in Hall as [(Hi & Hni & Hp & Ht & Hpk) Hall]. cbn [fmap list_fmap] in Hnd |- *.
  apply NoDup_cons in Hnd as [Hfirst Hnd]. cbn [length] in Hsz. cbn [for_each fst snd].
  destruct (receive_fragment q s i p t Hrc Hi Hni Hp Ht Hpk) as (s1 & E & Hc & Hpeer & Hlast).
  unfold mbind, M_bind. rewrite E. destruct arrivals as [|x arrivals].
  - cbn [length] in Hsz. replace (S (size q) =? n)%nat with true in Hlast by (symmetry; apply Nat.eqb_eq; lia).
    exists s1. done.
  - replace (S (size q) =? n)%nat with false in Hlast by (symmetry; apply Nat.eqb_neq; cbn [length] in Hsz; lia).
    destruct Hlast as [Hrc1 El]. destruct (IH ({[ i ]} ∪ q) s1) as (s' & E' & H1 & H2 & H3); try done.
    + rewrite size_add by done. lia.
    + rewrite Forall_forall in Hall |- *. intros [t' [i' p']] Hin.
      destruct (Hall _ Hin) as (Hi' & Hni' & Hp' & Ht' & Hpk'). split; [done|]. split; [|done].
      rewrite elem_of_add. intros [->|?]; [|done]. apply Hfirst.
      apply list_elem_of_fmap. exists (i, p'). split; [done|]. apply list_elem_of_fmap. by exists (t', (i, p')).
    + exists s'. split; [exact E'|]. split; [done|]. split; [done|]. by rewrite H3, El.
Qed.

End Receive.

End Delivery.

(** Packets of a list without repetitions, each with its position. *)
Lemma index_all {A B} (l : list B) (arrivals : list (A * B)) :
  (forall x, x ∈ arrivals.*2 -> x ∈ l) -> NoDup arrivals.*2 ->
  exists indexed : list (A * (nat * B)), arrivals = (fun x => (x.1, x.2.2)) <$> indexed /\
    NoDup indexed.*2.*1 /\ Forall (fun x => l !! x.2.1 = Some x.2.2) indexed.
Proof.
  induction arrivals as [|[t p] arrivals IH]; intros Hin Hnd; [by exists []; repeat constructor|].
  rewrite fmap_cons in Hin, Hnd. apply NoDup_cons in Hnd as [Hp Hnd]. cbn [snd] in *.
  destruct IH as (indexed & -> & Hnd' & Hall); [intros x Hx; apply Hin; by right|done|].
  destruct (proj1 (list_elem_of_lookup _ _) (Hin p ltac:(by left))) as [i Hi].
  exists ((t, (i, p)) :: indexed). split; [done|]. split; [|by constructor].
  cbn [fmap list_fmap fst snd]. constructor; [|done]. intros (y & -> & Hy)%list_elem_of_fmap.
  apply list_elem_of_fmap in Hy as (x & -> & Hx). rewrite Forall_forall in Hall. specialize (Hall x Hx) as Hl.
  rewrite Hl in Hi. injection Hi as <-. apply Hp, list_elem_of_fmap. exists (x.1, x.2.2). split; [done|].
  apply list_elem_of_fmap. by exists x.
Qed.

(** The client holds a session [w] whose server end is in the server's table and
    has accepted nothing but earlier packets; no reassembly is under way. *)
Record linked {P : Primitives} (c : TunClient) (s : TunServer) (w : WireSession) : Prop := {
  lk_session : cm_session (tc_manager c) = Some w;
  lk_live : ws_live (ws_session_id w) w;
  lk_server : exists e d, sm_sessions (ts_manager s) !! ws_session_id w = Some e /\
    ws_state (se_session e) = Established /\ paired (ws_cipher w) (ws_cipher (se_session e)) /\
    refines (replay (ws_cipher (se_session e))) d /\
    forall k, k ∈ d_accepted d -> k < send_counter (ws_cipher w);
  lk_reasm : reasm_or_new (ws_session_id w) (ts_reasms s) = Reassembler_new REASSEMBLY_DEADLINE }.

(** The client's half: one datagram per fragment, each sealed under its own
    counter. *)
Lemma client_packet_sealed {P : Primitives} {L : PrimitivesLaws P} t c w ip len :
  cm_session (tc_manager c) = Some w -> ws_live (ws_session_id w) w ->
  send_counter (ws_cipher w) + MAX_FRAG_COUNT <= 2 ^ 60 ->
  is_boundary_dropped ip = false -> validate_ip_packet ip = Ok len ->
  exists n pkts c',
    fragmentable ip n /\
    tun_client_turn t (TIPacket ip) c = (Ret (), c') /\
    tc_log c' = tc_log c ++ ((fun p => TunSent p (cm_peer (tc_manager c))) <$> pkts) /\
    length pkts = n /\ NoDup pkts /\
    forall i p, pkts !! i = Some p -> (i < n)%nat /\
      sealed TunData (ws_cipher w) (send_counter (ws_cipher w) + Z.of_nat i) (fragment_slot ip (tc_ctr c) (crc32 ip) n i) p.
Proof.
  intros Hw Hl Hc Hb Hv.
  destruct (fragment_ip_packet_ok ip (tc_ctr c) len Hv) as (n & Hfr & Hslots).
  destruct (fragment_count_bounds ip n Hfr) as (Hn1 & Hn2 & _).
  pose proof Hl as (_ & _ & Eid & Hwf). assert (0 <= send_counter (ws_cipher w)) as Hc0 by apply Hwf.
  set (slots := fragment_slot ip (tc_ctr c) (crc32 ip) n <$> seq 0 n) in Hslots.
  assert (length slots = n) as Hlen by (unfold slots; by rewrite length_fmap, length_seq).
  destruct (client_slots_sealed t slots (tc_next_id c) w Hw Hl) as (pkts & c' & E & El & Hpl & Hseal).
  { unfold MAX_PACKET_NONCE, umax. lia. }
  { apply Forall_fmap, Forall_true. intros i. apply length_fragment_slot. }
  assert (forall i p, pkts !! i = Some p -> (i < n)%nat /\
    sealed TunData (ws_cipher w) (send_counter (ws_cipher w) + Z.of_nat i) (fragment_slot ip (tc_ctr c) (crc32 ip) n i) p) as Hpk.
  { intros i p Hp. pose proof (lookup_lt_Some _ _ _ Hp) as Hi. rewrite Hpl, Hlen in Hi. split; [done|].
    destruct (Hseal i (fragment_slot ip (tc_ctr c) (crc32 ip) n i)) as (p' & Hp' & Hs).
    - unfold slots. rewrite list_lookup_fmap, lookup_seq_lt by done. done.
    - by rewrite Hp in Hp'; injection Hp' as ->. }
  exists n, pkts, c'. split; [done|]. split.
  { cbn [tun_client_turn]. unfold tun_client_packet, validate_inner. rewrite Hb, Hv. cbn [is_ok negb].
    unfold mbind, M_bind, get, modify. by rewrite Hslots. }
  split; [exact El|]. split; [lia|]. split; [|exact Hpk].
  apply NoDup_alt. intros i j p Hi Hj. destruct (Hpk i p Hi) as [Hi1 Hi2], (Hpk j p Hj) as [Hj1 Hj2].
  apply sealed_counter in Hi2, Hj2; [|apply Hwf|lia|apply Hwf|lia]. rewrite Hi2 in Hj2. injection Hj2. lia.
Qed.

(** C5: Delivery from device to device. When client and server share a session, a
    packet read from the client's TUN device that the boundary filter and the
    server's policy admit is sent as datagrams of that session, and whatever
    order they reach the server in, from whatever address the server does not
    throttle, within the reassembly deadline, the server writes exactly that
    packet to its TUN device, once, answers to that address from then on, and
    routes return traffic to the session. *)
Theorem tun_packet_delivery {P : Primitives} {L : PrimitivesLaws P} t c s w ip :
  linked c s w -> send_counter (ws_cipher w) + MAX_FRAG_COUNT <= 2 ^ 60 -> in_range 64 (tc_ctr c) ->
  is_boundary_dropped ip = false -> validate_inner_packet ip ClientAssignment_default = Allow ->
  exists pkts c',
    tun_client_turn t (TIPacket ip) c = (Ret (), c') /\
    tc_log c' = tc_log c ++ ((fun p => TunSent p (cm_peer (tc_manager c))) <$> pkts) /\
    forall from start (arrivals : list (TunServerTurn * WirePacket)),
      arrivals.*2 ≡ₚ pkts ->
      Forall (fun x => start <= tst_feed_now x.1 < start + REASSEMBLY_DEADLINE /\
        peek (sm_fail_gate (ts_manager s)) from (tst_now x.1) (sm_limits (ts_manager s)) = true) arrivals ->
      exists s', tun_server_loop ((fun x => (x.1, TIRecv (Ok (x.2, from)))) <$> arrivals) s = (Ret (), s') /\
        ts_log s' = ts_log s ++ [TunWrote ip] /\ ts_current_sid s' = Some (ws_session_id w) /\
        exists e', sm_sessions (ts_manager s') !! ws_session_id w = Some e' /\ se_peer e' = from.
Proof.
  intros [Hw Hl (e & d & He & Hst & Hpair & Href & Hacc) Hr] Hc Hid Hb Ha.
  assert (exists len, validate_ip_packet ip = Ok len) as [len Hv].
  { unfold validate_inner_packet in Ha. destruct (validate_ip_packet ip) as [len|]; [by exists len|done]. }
  destruct (client_packet_sealed t c w ip len Hw Hl Hc Hb Hv) as (n & pkts & c' & Hfr & E & El & Hpl & Hnd & Hpk).
  pose proof Hl as (_ & _ & Eid & Hwf). assert (0 <= send_counter (ws_cipher w)) as Hc0 by apply Hwf.
  destruct (fragment_count_bounds ip n Hfr) as (Hn1 & Hn2 & _).
  exists pkts, c'. split; [exact E|]. split; [exact El|]. intros from start arrivals Hperm Hall.
  assert (forall x, x ∈ arrivals.*2 -> x ∈ pkts) as Hin by (intros x; by rewrite Hperm).
  destruct (index_all pkts arrivals Hin) as (indexed & -> & Hnd' & Hix); [by rewrite Hperm|].
  assert (length indexed = n) as Hli.
  { apply Permutation_length in Hperm. rewrite !length_fmap in Hperm. lia. }
  rewrite <- Eid in *.
  destruct (receive_all ip (tc_ctr c) n (ws_cipher w) (start + REASSEMBLY_DEADLINE) (sm_fail_gate (ts_manager s))
    (sm_limits (ts_manager s)) from Hfr Hid (proj1 Hwf) ltac:(lia) Ha indexed ∅ s) as (s' & E' & H1 & H2 & H3).
  - split; try done.
    + exists e, d. split; [done|]. split; [done|]. split; [done|]. split; [done|]. intros k Hk. left. by apply Hacc.
    + rewrite Hr. split; [intros i Hi; by apply elem_of_empty in Hi|]. cbn. by rewrite lookup_empty.
    + by rewrite Hr.
  - rewrite size_empty. lia.
  - intros ->. cbn in Hli. lia.
  - done.
  - rewrite Forall_fmap in Hall. rewrite Forall_forall in Hall, Hix |- *. intros [ti [i p]] Hx.
    destruct (Hpk i p (Hix _ Hx)) as [Hi Hs]. destruct (Hall _ Hx) as [Ht Hg]. cbn [fst snd compose] in *.
    split; [done|]. split; [by apply not_elem_of_empty|]. split; [done|]. split; [lia|done].
  - exists s'. rewrite <- list_fmap_compose. split; [exact E'|]. done.
Qed.

Module DeliverySample.

(** A UDP packet of 1300 bytes from the client's address to 93.184.216.34:9. *)
Definition ip : bytes :=
  [x45; x00] ++ be_bytes 2 1300 ++ [x00; x00; x00; x00; x40; x11; x00; x00; x0a; x4d; x00; x02; x5d; xb8; xd8; x22;
   x10; x00; x00; x09] ++ zeros 1276.

Definition server : TunServer := tun_server_init ManagerSample.manager1.

(** What [linked] asks of a client and a server that just started, as a check. *)
Definition check (c : TunClient) (s : TunServer) : bool :=
  match cm_session (tc_manager c) with
  | Some w =>
      match sm_sessions (ts_manager s) !! ws_session_id w with
      | Some e =>
          bool_decide (ws_state w = Established) && bool_decide (ws_state (se_session e) = Established) &&
          fresh_ends (ws_cipher w) (ws_cipher (se_session e)) &&
          (send_counter (ws_cipher w) + MAX_FRAG_COUNT <=? 2 ^ 60)
      | None => false
      end
  | None => false
  end.

End DeliverySample.

Lemma delivery_check_linked c s :
  DeliverySample.check c s = true -> cm_wf (tc_manager c) -> ts_reasms s = ∅ ->
  exists w, linked c s w /\ send_counter (ws_cipher w) + MAX_FRAG_COUNT <= 2 ^ 60.
Proof.
  unfold DeliverySample.check. intros H Hwf Hre. destruct (cm_session (tc_manager c)) as [w|] eqn:Hw; [|done]. exists w.
  destruct (sm_sessions (ts_manager s) !! ws_session_id w) as [e|] eqn:He; [|done].
  rewrite !andb_true_iff, !bool_decide_eq_true in H. destruct H as [[[H1 H2] H3] H4].
  apply fresh_ends_ok in H3 as [Hp Href].
  pose proof (cw_session _ Hwf) as Hs. rewrite Hw in Hs. destruct Hs as ((_ & [Hl|Hl]) & _); [|congruence].
  split; [|lia]. split; [done|done| |unfold reasm_or_new; by rewrite Hre, lookup_empty].
  exists e, Detector_new. repeat (split; [done|]). intros k Hk. by apply elem_of_empty in Hk.
Qed.

Lemma tun_packet_delivery_witness : exists c w pkts c' s',
  cm_session (tc_manager c) = Some w /\
  tun_client_turn TunSample.at_client (TIPacket DeliverySample.ip) c = (Ret (), c') /\
  tun_server_loop ((fun p => (TunSample.at_server, TIRecv (Ok (p, Sample.client_addr)))) <$> reverse pkts)
    DeliverySample.server = (Ret (), s') /\
  ts_log s' = [TunWrote DeliverySample.ip].
Proof.
  assert (match ClientSessionManager_new Sample.client_cfg SessionLimits_default with
          | Ok m => DeliverySample.check (tun_client_init (ClientSample.confirmed_from m)) DeliverySample.server | Err _ => false end = true)
    as H by (vm_compute; reflexivity).
  destruct (ClientSessionManager_new Sample.client_cfg SessionLimits_default) as [m|] eqn:E; [|discriminate H].
  pose proof (client_sample_reaches m E) as Hr. apply cm_reaches_wf in Hr as [Hwf _].
  destruct (delivery_check_linked _ _ H Hwf eq_refl) as (w & Hlk & Hc).
  destruct (tun_packet_delivery TunSample.at_client (tun_client_init (ClientSample.confirmed_from m))
    DeliverySample.server w DeliverySample.ip Hlk Hc) as (pkts & c' & H1 & _ & H2).
  - vm_compute. split; congruence.
  - vm_compute. reflexivity.
  - vm_compute. reflexivity.
  - destruct (H2 Sample.client_addr 0 ((fun p => (TunSample.at_server, p)) <$> reverse pkts)) as (s' & H3 & H4 & _).
    + rewrite <- list_fmap_compose. rewrite (list_fmap_ext _ id) by done. rewrite list_fmap_id. apply reverse_Permutation.
    + apply Forall_fmap, Forall_true. intros p. split; vm_compute; [split; congruence|reflexivity].
    + exists (tun_client_init (ClientSample.confirmed_from m)), w, pkts, c', s'.
      rewrite <- list_fmap_compose in H3. exact (conj (lk_session _ _ _ Hlk) (conj H1 (conj H3 H4))).
Defined.
