(* ===== verification/ForwardOk.v ===== *)
(** * The forwarding backend is confined and bounded

    Theorems on [Forward]: the egress policy decides exactly a list of CIDR
    prefixes and is covered by the TUN policy of [PacketPolicy]; under every run
    the pool stays within its caps and nothing leaves for a denied destination
    or a session that did not ask; closing a session releases its sockets; what
    the reply reader delivers. *)

From S2P Require Import Prelude Bytes Net IpAddr Oldest Errors Codec PacketPolicy Drivers Relay Forward.

Local Open Scope Z_scope.

Import Egress.

(** ** The egress policy *)

Definition host4 (a b c d : Z) : Z * Z := (Ipv4Addr_new a b c d, 32).

(** 0/8, 127/8, 224/4, the limited broadcast and the IPv4 metadata hosts. *)
Definition EGRESS_DENIED_V4 : list (Z * Z) :=
  [v4_net 0 0 8; v4_net 127 0 8; v4_net 224 0 4; host4 255 255 255 255;
   host4 169 254 169 254; host4 100 100 100 200].

(** ff00::/8 and the IPv6 metadata hosts; [::] and [::1] are in 0/8 as
    IPv4-compatible addresses. *)
Definition EGRESS_DENIED_V6 : list (Z * Z) :=
  [v6_net 0xFF00 0 8; (Ipv6Addr_new 0xFD00 0x0EC2 0 0 0 0 0 0x0254, 128);
   (Ipv6Addr_new 0xFD20 0x00CE 0 0 0 0 0 0x0254, 128)].

Definition egress_denied (dst : IpAddr) : Prop :=
  match canonical_ip dst with
  | IpV4 a => in_prefixes 32 EGRESS_DENIED_V4 a
  | IpV6 a => in_prefixes 128 EGRESS_DENIED_V6 a
  end.

#[local] Ltac Zify.zify_post_hook ::= Z.to_euclidean_division_equations.

Lemma host_prefix w n a : in_prefix w n w a <-> a = n.
Proof. unfold in_prefix. rewrite Z.sub_diag. by rewrite !Z.div_1_r. Qed.

Lemma deny_ipv4_spec a :
  in_range 32 a -> deny_ipv4 a DenyUnsafe = None <-> ~ in_prefixes 32 EGRESS_DENIED_V4 a.
Proof.
  intros Ha. unfold in_prefixes, EGRESS_DENIED_V4, host4. rewrite !Exists_cons, Exists_nil.
  cbn [fst snd v4_net]. rewrite !host_prefix. unfold in_prefix.
  unfold deny_ipv4, v4_is_loopback, v4_is_multicast, v4_is_broadcast. rewrite bool_decide_true by done.
  destruct (v4_split a Ha) as (o0 & o1 & r & H0 & H1 & Hr & Ea & -> & _ & E24 & _ & _ & _ & E28).
  change (32 - 8) with 24. change (32 - 4) with 28. rewrite E24, E28. clear E24 E28 Ha. rewrite andb_true_r.
  unfold Ipv4Addr_new. eval_divs.
  assert (16 * (o0 / 16) <= o0 < 16 * (o0 / 16) + 16) as Hq by lia.
  revert Hq. generalize (o0 / 16). intros q Hq.
  subst a. clear -H0 H1 Hr Hq. repeat case_match; simplify_res; (split; [try done|intros Hn; try done; destruct Hn; lia]). all: lia.
Qed.

Lemma embedded_ipv4_spec a :
  in_range 128 a -> match embedded_ipv4 a with
  | Some v => canonical_ip (IpV6 a) = IpV4 v /\ in_range 32 v
  | None => canonical_ip (IpV6 a) = IpV6 a /\ 2 ^ 32 <= a
  end.
Proof.
  intros Ha. pose proof (canonical_mapped a Ha) as Hc. unfold embedded_ipv4.
  destruct (to_ipv4_mapped a) as [v|]; [done|]. rewrite leading_segments_zero by done. rewrite Hc.
  unfold in_range in *. destruct (Z.ltb_spec a (2 ^ 32)); case_decide; try lia.
  - rewrite low_segments_v4 by lia. split; [done|lia].
  - done.
Qed.

(** No IPv4-embedded address is multicast. *)
Lemma embedded_not_multicast a v :
  in_range 128 a -> canonical_ip (IpV6 a) = IpV4 v -> ~ in_prefix 128 (0xFF00 * 2 ^ 112) 8 a.
Proof.
  unfold in_range, canonical_ip, in_prefix. intros Ha Hc Hp.
  change (0xFF00 * 2 ^ 112 / 2 ^ (128 - 8)) with 255 in Hp. change (128 - 8) with 120 in Hp.
  assert (2 ^ 127 <= a) as Hbig.
  { pose proof (Z.mul_div_le a (2 ^ 120) ltac:(lia)) as Hx. rewrite Hp in Hx. lia. }
  case_decide as Hm; [|case_decide; [lia|done]].
  pose proof (Z.div_mod a (2 ^ 32) ltac:(lia)). pose proof (Z.mod_pos_bound a (2 ^ 32) ltac:(lia)).
  rewrite Hm in *. lia.
Qed.

Lemma deny_ipv6_spec a :
  in_range 128 a -> deny_ipv6 a DenyUnsafe = None <-> ~ egress_denied (IpV6 a).
Proof.
  intros Ha. pose proof (embedded_ipv4_spec a Ha) as He.
  unfold deny_ipv6, v6_is_loopback, v6_is_unspecified, V6_LOCALHOST.
  rewrite v6_is_multicast_prefix, bool_decide_true by done.
  assert (egress_denied (IpV6 1) /\ egress_denied (IpV6 0)) as [D1 D0].
  { by split; apply Exists_cons_hd. }
  destruct (Z.eqb_spec a (Ipv6Addr_new 0xFD00 0x0EC2 0 0 0 0 0 0x0254)) as [->|N1].
  { split; [discriminate|]. intros []. apply Exists_cons_tl, Exists_cons_hd. by apply host_prefix. }
  destruct (Z.eqb_spec a (Ipv6Addr_new 0xFD20 0x00CE 0 0 0 0 0 0x0254)) as [->|N2].
  { split; [discriminate|]. intros []. apply Exists_cons_tl, Exists_cons_tl, Exists_cons_hd. by apply host_prefix. }
  destruct (Z.eqb_spec a 1) as [->|]; [split; [done|by intros []]|].
  destruct (Z.eqb_spec a 0) as [->|]; [split; [done|by intros []]|].
  unfold egress_denied. destruct (embedded_ipv4 a) as [v|]; destruct He as [Hc Hv].
  - rewrite bool_decide_false by (by apply (embedded_not_multicast a v)).
    rewrite Hc. by apply deny_ipv4_spec.
  - rewrite Hc. unfold in_prefixes, EGRESS_DENIED_V6. rewrite !Exists_cons, Exists_nil.
    cbn [fst snd v6_net]. rewrite !host_prefix. case_bool_decide; split; intros; try discriminate; tauto.
Qed.

(** C20: The production policy lets a destination through exactly when it has a port
    and the host it names, in whichever family it is written, is outside the
    denied prefixes. *)
Theorem egress_exact dest :
  SocketAddr_wf dest ->
  deny_reason dest DenyUnsafe = None <-> addr_port dest <> 0 /\ ~ egress_denied (addr_ip dest).
Proof.
  intros Hw. unfold deny_reason. destruct (Z.eqb_spec (addr_port dest) 0); [naive_solver|].
  destruct dest as [ip port|ip port fl sc]; destruct Hw as [Hip _]; cbn [addr_ip].
  - rewrite (deny_ipv4_spec ip Hip). naive_solver.
  - rewrite (deny_ipv6_spec ip Hip). naive_solver.
Qed.

(** The diagnostic policy re-opens loopback and nothing else. *)
Lemma allow_loopback_relaxes dest :
  deny_reason dest AllowLoopback = deny_reason dest DenyUnsafe \/
  (deny_reason dest DenyUnsafe = Some V4Loopback \/ deny_reason dest DenyUnsafe = Some V6Loopback) /\
  deny_reason dest AllowLoopback = None.
Proof.
  assert (forall a, deny_ipv4 a AllowLoopback = deny_ipv4 a DenyUnsafe \/
    deny_ipv4 a DenyUnsafe = Some V4Loopback /\ deny_ipv4 a AllowLoopback = None) as H4.
  { intros a. unfold deny_ipv4. rewrite (bool_decide_true (DenyUnsafe = DenyUnsafe)), (bool_decide_false (AllowLoopback = DenyUnsafe)) by done.
    rewrite andb_true_r, andb_false_r. repeat (case_match; [by left|]).
    destruct (v4_is_loopback a) eqn:El; [|by left]. right. split; [done|].
    unfold v4_is_loopback, v4_is_multicast, v4_is_broadcast, octet4 in *.
    apply Z.eqb_eq in El. rewrite El. simpl. case_match eqn:Eb; [|done].
    apply Z.eqb_eq in Eb. subst a. vm_compute in El. done. }
  unfold deny_reason. case_match; [by left|]. case_match; [destruct (H4 a); naive_solver|].
  unfold deny_ipv6. rewrite (bool_decide_true (DenyUnsafe = DenyUnsafe)), (bool_decide_false (AllowLoopback = DenyUnsafe)) by done.
  repeat (case_match; [first [by left | by right; eauto]|]). case_match; [|by left].
  destruct (H4 z); naive_solver.
Qed.

(** What the relay path refuses, the TUN path refuses too. *)
Theorem tun_policy_covers_egress dst :
  IpAddr_wf dst -> egress_denied dst -> is_denied_destination dst = true.
Proof.
  intros Hw Hd. apply is_denied_destination_spec; [done|].
  assert (forall a, in_range 32 a -> in_prefixes 32 EGRESS_DENIED_V4 a -> in_prefixes 32 TUN_DENIED_V4 a) as H4.
  { intros a Ha. unfold in_prefixes, EGRESS_DENIED_V4, TUN_DENIED_V4, host4. rewrite !Exists_cons, !Exists_nil.
    cbn [fst snd v4_net]. rewrite !host_prefix. unfold in_prefix.
    destruct (v4_split a Ha) as (o0 & o1 & r & H0 & H1 & Hr & Ea & _ & _ & E24 & E22 & E16 & E29 & E28).
    change (32 - 8) with 24. change (32 - 10) with 22. change (32 - 16) with 16. change (32 - 3) with 29.
    change (32 - 4) with 28. rewrite E24, E22, E16, E29, E28. clear E24 E22 E16 E29 E28 Ha.
    unfold Ipv4Addr_new. eval_divs. lia. }
  assert (forall a, in_prefixes 128 EGRESS_DENIED_V6 a -> in_prefixes 128 TUN_DENIED_V6 a) as H6.
  { intros a. unfold in_prefixes, EGRESS_DENIED_V6, TUN_DENIED_V6. rewrite !Exists_cons, !Exists_nil. tauto. }
  unfold egress_denied, tun_denied in *.
  assert (IpAddr_wf (canonical_ip dst)) as Hc.
  { destruct dst as [a|a]; [done|]. pose proof (canonical_mapped a Hw) as Hm. unfold IpAddr_wf in Hw.
    destruct (to_ipv4_mapped a); [by destruct Hm as [-> ?]|]. rewrite Hm. unfold in_range in *.
    case_decide; unfold IpAddr_wf, in_range; lia. }
  destruct (canonical_ip dst); eauto.
Qed.

(** ** Dropping entries *)

Section Pool.
Context {Ord : IterOrder PoolKey ForwardEntry}.

(** [f'] differs from [f] only by entries dropped, with their readers aborted. *)
Definition dropped_from (f f' : Forwarder) : Prop :=
  fw_echo f' = fw_echo f /\ fw_policy f' = fw_policy f /\ fw_guard f' = fw_guard f /\
  fw_sockets f' ⊆ fw_sockets f /\
  exists keys, fw_log f' = fw_log f ++ (FwdAborted <$> keys).

Lemma dropped_from_refl f : dropped_from f f.
Proof. split_and!; try done. exists []. by rewrite app_nil_r. Qed.

Lemma dropped_from_trans f1 f2 f3 :
  dropped_from f1 f2 -> dropped_from f2 f3 -> dropped_from f1 f3.
Proof.
  intros (A1 & A2 & A3 & A4 & k1 & A5) (B1 & B2 & B3 & B4 & k2 & B5).
  split_and!; try congruence; [by etrans|]. exists (k1 ++ k2). by rewrite B5, A5, fmap_app, app_assoc.
Qed.

Lemma drop_entry_spec key f :
  dropped_from f (drop_entry key f) /\ fw_sockets (drop_entry key f) = delete key (fw_sockets f).
Proof.
  unfold drop_entry. destruct (fw_sockets f !! key) as [e|] eqn:E.
  - split; [|done]. split_and!; try done; [apply delete_subseteq|]. by exists [key].
  - split; [apply dropped_from_refl|]. by rewrite delete_id.
Qed.

Lemma drop_entries_spec keys f :
  dropped_from f (drop_entries keys f) /\
  forall k, fw_sockets (drop_entries keys f) !! k = if decide (k ∈ keys) then None else fw_sockets f !! k.
Proof.
  unfold drop_entries. revert f. induction keys as [|key keys IH]; intros f; simpl.
  - split; [apply dropped_from_refl|]. done.
  - destruct (drop_entry_spec key f) as [Hd Hs]. destruct (IH (drop_entry key f)) as [Hd' Hs'].
    split; [by eapply dropped_from_trans|]. intros k. rewrite Hs', Hs.
    destruct (decide (k = key)) as [->|Hne].
    + rewrite lookup_delete_eq. repeat case_decide; (done || set_solver).
    + rewrite lookup_delete_ne by done. repeat case_decide; (done || set_solver).
Qed.

(** Everything older than [IDLE_TTL] goes, everything else stays. *)
Lemma prune_idle_spec now f :
  dropped_from f (prune_idle now f) /\
  forall k, fw_sockets (prune_idle now f) !! k =
    (e ← fw_sockets f !! k; if decide (IDLE_TTL < duration_since now (fe_last_use e)) then None else Some e).
Proof.
  unfold prune_idle. set (keys := _ <$> _). destruct (drop_entries_spec keys f) as [Hd Hs].
  split; [done|]. intros k. rewrite Hs.
  assert (k ∈ keys <-> exists e, fw_sockets f !! k = Some e /\ IDLE_TTL < duration_since now (fe_last_use e)) as Hk.
  { unfold keys. rewrite list_elem_of_fmap. setoid_rewrite list_elem_of_filter.
    setoid_rewrite iteration_perm. split.
    - intros ([k' e] & -> & Hlt & Hin). apply elem_of_map_to_list in Hin. by exists e.
    - intros (e & He & Hlt). exists (k, e). by rewrite elem_of_map_to_list. }
  destruct (fw_sockets f !! k) as [e|] eqn:E; simpl; repeat case_decide; try done; naive_solver.
Qed.

Lemma evict_session_pool fuel sid f :
  dropped_from f (evict_session fuel sid f) /\
  fw_sockets (evict_session fuel sid f) =
    evict_over fe_last_use fuel (of_session sid) (PER_SESSION_CAP - 1) (fw_sockets f).
Proof.
  revert f. induction fuel as [|fuel IH]; intros f; [split; [apply dropped_from_refl|done]|].
  cbn [evict_session evict_over]. set (c := candidates (of_session sid) (fw_sockets f)).
  replace (length c <=? PER_SESSION_CAP - 1)%nat with (negb (PER_SESSION_CAP <=? length c)%nat)
    by (unfold PER_SESSION_CAP; destruct (Nat.leb_spec 128 (length c)), (Nat.leb_spec (length c) (128 - 1)); done || lia).
  destruct (_ <=? _)%nat; [|split; [apply dropped_from_refl|done]]. cbn [negb].
  destruct (oldest_of fe_last_use c) as [k|]; [|split; [apply dropped_from_refl|done]].
  destruct (drop_entry_spec k f) as [Hd Hs]. destruct (IH (drop_entry k f)) as [Hd' Hs'].
  split; [by eapply dropped_from_trans|]. by rewrite Hs', Hs.
Qed.

(** ** The invariant *)

Definition in_caps (m : gmap PoolKey ForwardEntry) : Prop :=
  (size m <= GLOBAL_CAP)%nat /\ forall sid, (count (of_session sid) m <= PER_SESSION_CAP)%nat.

Lemma in_caps_sub m1 m2 : m1 ⊆ m2 -> in_caps m2 -> in_caps m1.
Proof.
  intros Hs [Hg Hc]. split; [pose proof (map_subseteq_size _ _ Hs); lia|].
  intros sid. pose proof (count_mono (of_session sid) _ _ Hs). specialize (Hc sid). lia.
Qed.

Lemma in_caps_update m k e e' : in_caps m -> m !! k = Some e -> in_caps (<[k := e']> m).
Proof.
  intros [Hg Hc] Hk. split; [by rewrite map_size_insert_Some by eauto|]. intros sid.
  unfold count in *. destruct (of_session sid k) eqn:Ek.
  - rewrite map_filter_insert_True, map_size_insert_Some; [apply Hc| |done].
    exists e. by apply map_lookup_filter_Some.
  - rewrite map_filter_insert_False by (cbn; congruence). rewrite map_filter_delete.
    etrans; [apply map_subseteq_size, delete_subseteq|apply Hc].
Qed.

(** ** Confinement *)

(** Session [sid] asked for [datagram] to go to [dest], in one of the slots
    handled so far. *)
Definition asked (hist : list (bytes * bytes)) (sid : bytes) (dest : SocketAddr) (datagram : bytes) : Prop :=
  exists slot, (sid, slot) ∈ hist /\ decode_relay slot = Ok (dest, datagram).

Definition permitted (echo : bool) (policy : EgressPolicy) (hist : list (bytes * bytes)) (key : PoolKey) : Prop :=
  echo = false /\ deny_reason key.2 policy = None /\ exists dg, asked hist key.1 key.2 dg.

Definition effect_ok (echo : bool) (policy : EgressPolicy) (hist : list (bytes * bytes)) (e : FwdEffect) : Prop :=
  match e with
  | FwdOpened key => permitted echo policy hist key
  | FwdSent key dg => permitted echo policy hist key /\ asked hist key.1 key.2 dg
  | FwdCommand c =>
      (length (sac_payload c) <= PAYLOAD_LEN)%nat /\
      exists dest p, decode_relay (sac_payload c) = Ok (dest, p) /\ deny_reason dest policy = None /\
        if echo then asked hist (sac_sid c) dest p else exists dg, asked hist (sac_sid c) dest dg
  | FwdAborted _ => True
  | FwdLogged count => should_log count = true
  end.

Record fw_ok (hist : list (bytes * bytes)) (f : Forwarder) : Prop := {
  fo_caps : in_caps (fw_sockets f);
  fo_pool : forall key e, fw_sockets f !! key = Some e -> permitted (fw_echo f) (fw_policy f) hist key;
  fo_log : Forall (effect_ok (fw_echo f) (fw_policy f) hist) (fw_log f) }.

Lemma asked_mono hist hist' sid dest dg :
  hist ⊆ hist' -> asked hist sid dest dg -> asked hist' sid dest dg.
Proof. intros Hs (slot & Hin & Hd). exists slot. split; [by apply Hs|done]. Qed.

Lemma fw_ok_mono hist hist' f : hist ⊆ hist' -> fw_ok hist f -> fw_ok hist' f.
Proof.
  intros Hs [Hc Hp Hl].
  assert (forall key, permitted (fw_echo f) (fw_policy f) hist key ->
    permitted (fw_echo f) (fw_policy f) hist' key) as Hperm.
  { intros key (He & Hd & dg & Hk). split_and!; try done. exists dg. by eapply asked_mono. }
  split; [done|eauto|]. eapply Forall_impl; [exact Hl|]. intros [c| | | |]; simpl; try done; [|by auto|].
  - intros (Hlen & dest & p & Hd & Hn & Hask). split; [done|]. exists dest, p. split_and!; try done.
    destruct (fw_echo f); [by eapply asked_mono|]. destruct Hask as [dg Hask]. exists dg. by eapply asked_mono.
  - intros [Hk Hask]. split; [by apply Hperm|by eapply asked_mono].
Qed.

Lemma fw_ok_dropped hist f f' : fw_ok hist f -> dropped_from f f' -> fw_ok hist f'.
Proof.
  intros [Hc Hp Hl] (H1 & H2 & _ & H4 & keys & H5). split.
  - by eapply in_caps_sub.
  - intros key e Hk. rewrite H1, H2. apply (Hp key e). by eapply lookup_weaken.
  - rewrite H1, H2, H5. apply Forall_app. split; [done|]. apply Forall_fmap, Forall_true. done.
Qed.

Lemma fw_ok_emit hist f e :
  fw_ok hist f -> effect_ok (fw_echo f) (fw_policy f) hist e -> fw_ok hist (fw_emit e f).
Proof.
  intros [Hc Hp Hl] He. split; [done|done|]. simpl. apply Forall_app. by split; [|apply Forall_singleton].
Qed.

Lemma fw_ok_guard hist f g : fw_ok hist f -> fw_ok hist (fw_set_guard g f).
Proof. by intros [Hc Hp Hl]. Qed.

Lemma fw_ok_log hist f count : fw_ok hist f -> fw_ok hist (log_count count f).
Proof. unfold log_count. intros H. case_match; [by apply fw_ok_emit|done]. Qed.

Lemma fw_ok_failure hist f : fw_ok hist f -> fw_ok hist (fw_record_failure f).
Proof. intros H. unfold fw_record_failure. case_match. by apply fw_ok_log, fw_ok_guard. Qed.

Lemma fw_ok_touch hist f key e e' :
  fw_ok hist f -> fw_sockets f !! key = Some e ->
  fw_ok hist (fw_set_sockets (<[key := e']> (fw_sockets f)) f).
Proof.
  intros [Hc Hp Hl] Hk. split; simpl; [by eapply in_caps_update| |done].
  intros k x. destruct (decide (k = key)) as [->|Hne]; [by eauto|].
  rewrite lookup_insert_ne by done. eauto.
Qed.

(** Room for one more entry: below the global cap and below the session's. *)
Definition has_room (sid : bytes) (m : gmap PoolKey ForwardEntry) : Prop :=
  (size m < GLOBAL_CAP)%nat /\ (count (of_session sid) m < PER_SESSION_CAP)%nat.

(** The eviction part of [prune_and_insert] makes room. *)
Lemma prune_and_insert_room io key f :
  in_caps (fw_sockets f) -> exists f', dropped_from f f' /\ has_room key.1 (fw_sockets f') /\
    prune_and_insert io key f =
      if negb (fi_bind io) then fw_record_failure f'
      else if negb (fi_connect io) then fw_record_failure f'
      else fw_emit (FwdOpened key)
        (fw_set_sockets (<[key := mkForwardEntry true (fi_now_insert io)]> (fw_sockets f')) f').
Proof.
  intros Hc. unfold prune_and_insert. destruct (prune_idle_spec (fi_now_prune io) f) as [Hd1 _].
  set (f1 := prune_idle _ f) in *. assert (in_caps (fw_sockets f1)) as Hc1.
  { eapply in_caps_sub; [|exact Hc]. by destruct Hd1 as (_ & _ & _ & ? & _). }
  match goal with |- context [evict_session _ _ ?x] => set (f2 := x) end.
  assert (dropped_from f1 f2 /\ (size (fw_sockets f2) < GLOBAL_CAP)%nat) as [Hd2 Hs2].
  { unfold f2. destruct (Nat.leb_spec GLOBAL_CAP (size (fw_sockets f1))) as [Hge|Hlt];
      [|split; [apply dropped_from_refl|done]].
    destruct (oldest_of_all fe_last_use (fw_sockets f1)) as (k & e & -> & Hk).
    { intros E. rewrite E, map_size_empty in Hge. unfold GLOBAL_CAP in Hge. lia. }
    destruct (drop_entry_spec k f1) as [Hd ->]. split; [done|].
    rewrite map_size_delete_Some by eauto. destruct Hc1 as [Hg _]. unfold GLOBAL_CAP in *. lia. }
  destruct (evict_session_pool (size (fw_sockets f2)) key.1 f2) as [Hd3 Hs3].
  set (f3 := evict_session _ _ f2) in *.
  exists f3. split; [exact (dropped_from_trans _ _ _ Hd1 (dropped_from_trans _ _ _ Hd2 Hd3))|]. split; [|done].
  destruct (evict_over_spec fe_last_use (of_session key.1) (PER_SESSION_CAP - 1)
    (size (fw_sockets f2)) (fw_sockets f2)) as (Hsub & Hcount & _).
  { pose proof (count_le_size (of_session key.1) (fw_sockets f2)). lia. }
  rewrite <- Hs3 in Hsub, Hcount. pose proof (map_subseteq_size _ _ Hsub).
  split; [lia|]. unfold PER_SESSION_CAP in *. lia.
Qed.

Lemma in_caps_insert m key e :
  in_caps m -> has_room key.1 m -> in_caps (<[key := e]> m).
Proof.
  intros [Hg Hc] [Hr1 Hr2]. split.
  - rewrite map_size_insert. case_match; simpl; lia.
  - intros sid. pose proof (count_insert_le (of_session sid) m key e) as Hi.
    unfold of_session in Hi at 2. case_bool_decide as Es; [subst sid; lia|]. specialize (Hc sid). lia.
Qed.

Lemma prune_and_insert_ok hist io key f :
  fw_ok hist f -> permitted (fw_echo f) (fw_policy f) hist key -> fw_ok hist (prune_and_insert io key f).
Proof.
  intros Hok Hp. destruct (prune_and_insert_room io key f (fo_caps _ _ Hok)) as (f' & Hd & Hr & ->).
  pose proof (fw_ok_dropped _ _ _ Hok Hd) as Hok'. destruct Hd as (E1 & E2 & _).
  rewrite <- E1, <- E2 in Hp. repeat (case_match; [by apply fw_ok_failure|]).
  apply fw_ok_emit; [|done]. destruct Hok' as [Hc Hpool Hl]. split; simpl; [by apply in_caps_insert| |done].
  intros k x. destruct (decide (k = key)) as [->|Hne]; [done|]. rewrite lookup_insert_ne by done. eauto.
Qed.

Lemma prune_and_insert_same io key f :
  in_caps (fw_sockets f) ->
  fw_echo (prune_and_insert io key f) = fw_echo f /\ fw_policy (prune_and_insert io key f) = fw_policy f.
Proof.
  intros Hc. destruct (prune_and_insert_room io key f Hc) as (f' & (E1 & E2 & _) & _ & ->).
  unfold fw_record_failure, log_count. repeat case_match; simpl; done.
Qed.

Lemma fw_handle_ok hist io sid slot f :
  fw_ok hist f -> fw_ok ((sid, slot) :: hist) (fw_handle io sid slot f).
Proof.
  intros Hok. apply (fw_ok_mono _ ((sid, slot) :: hist)) in Hok; [|set_solver].
  unfold fw_handle. destruct (prune_idle_spec (fi_now_handle io) f) as [Hd _].
  apply (fw_ok_dropped _ _ (prune_idle (fi_now_handle io) f)) in Hok; [|done]. clear Hd.
  set (f1 := prune_idle _ f) in *. clearbody f1. clear f.
  destruct (decode_relay slot) as [[dest dg]|] eqn:Edec; [|done].
  assert (asked ((sid, slot) :: hist) sid dest dg) as Hask by (exists slot; split; [set_solver|done]).
  destruct (deny_reason dest (fw_policy f1)) eqn:Eden.
  { case_match. by apply fw_ok_log, fw_ok_guard. }
  destruct (fw_echo f1) eqn:Eecho.
  { destruct (encode_relay dest dg) as [reply|] eqn:Eenc; [|done]. case_match; [|done].
    apply fw_ok_emit; [done|]. simpl. split; [by eapply encode_relay_length|].
    exists dest, dg. rewrite Eecho. split_and!; try done.
    apply decode_relay_frame in Edec as [Hr _]. by apply encode_relay_unpadded. }
  assert (permitted (fw_echo f1) (fw_policy f1) ((sid, slot) :: hist) (sid, dest)) as Hperm.
  { rewrite Eecho. split_and!; eauto. }
  match goal with |- context [fw_sockets ?x !! (sid, dest)] => set (f2 := x) end.
  assert (fw_ok ((sid, slot) :: hist) f2 /\ fw_echo f2 = fw_echo f1 /\ fw_policy f2 = fw_policy f1)
    as (Hok2 & E1 & E2).
  { unfold f2. case_match; [done|]. split; [by apply prune_and_insert_ok|].
    by apply prune_and_insert_same, (fo_caps _ _ Hok). }
  destruct (fw_sockets f2 !! (sid, dest)) as [e|] eqn:Ek; [|done].
  pose proof (fw_ok_touch _ _ _ _ (mkForwardEntry (fe_reader_runs e) (fi_now_use io)) Hok2 Ek) as Hok3.
  case_match; [|by apply fw_ok_failure]. apply fw_ok_emit; [done|]. simpl. rewrite E1, E2. done.
Qed.

Lemma reply_reader_ok hist key recv open f :
  fw_ok hist f -> fw_ok hist (reply_reader key recv open f).
Proof.
  intros Hok. unfold reply_reader. destruct (fw_sockets f !! key) as [e|] eqn:Ek; [|done].
  case_match; [|done]. pose proof (fw_ok_touch _ _ _ _ (mkForwardEntry false (fe_last_use e)) Hok Ek).
  destruct recv as [dgram|]; [|done]. destruct (encode_relay _ _) as [payload|] eqn:Eenc; [|done].
  case_match; [|done]. apply fw_ok_emit; [done|]. simpl. split; [by eapply encode_relay_length|].
  destruct (fo_pool _ _ Hok key e Ek) as (Ee & Hd & dg & Hask).
  exists key.2, (take MAX_DATAGRAM_V6 dgram). rewrite Ee. split_and!; try done; [|by exists dg].
  destruct Hask as (slot & _ & Hs). apply decode_relay_frame in Hs as [Hr _]. by apply encode_relay_unpadded.
Qed.

(** The slots handed to the backend in a run, newest first. *)
Fixpoint handled (steps : list FwdStep) (hist : list (bytes * bytes)) : list (bytes * bytes) :=
  match steps with
  | [] => hist
  | StepHandle _ sid slot :: steps => handled steps ((sid, slot) :: hist)
  | _ :: steps => handled steps hist
  end.

Lemma fw_handle_same hist io sid slot f :
  fw_ok hist f ->
  fw_echo (fw_handle io sid slot f) = fw_echo f /\ fw_policy (fw_handle io sid slot f) = fw_policy f.
Proof.
  intros Hok. unfold fw_handle. destruct (prune_idle_spec (fi_now_handle io) f) as [Hd _].
  pose proof (fw_ok_dropped _ _ _ Hok Hd) as Hok1. destruct Hd as (<- & <- & _).
  set (f1 := prune_idle _ f) in *. clearbody f1. clear Hok f.
  destruct (decode_relay slot) as [[dest dg]|]; [|done].
  case_match; [unfold log_count; repeat case_match; done|]. case_match; [repeat case_match; done|].
  destruct (prune_and_insert_same io (sid, dest) f1 (fo_caps _ _ Hok1)) as [E1 E2].
  match goal with |- context [fw_sockets ?x !! (sid, dest)] => set (f2 := x) end.
  assert (fw_echo f2 = fw_echo f1 /\ fw_policy f2 = fw_policy f1) as [F1 F2]
    by (unfold f2; case_match; done).
  clearbody f2. unfold fw_record_failure, log_count. repeat case_match; simpl; split; congruence.
Qed.

Lemma fwd_step_ok hist st f :
  fw_ok hist f ->
  fw_ok (handled [st] hist) (fwd_step st f) /\
  fw_echo (fwd_step st f) = fw_echo f /\ fw_policy (fwd_step st f) = fw_policy f.
Proof.
  intros Hok. destruct st as [io sid slot|sid|key recv open|]; simpl.
  - split; [by apply fw_handle_ok|by eapply fw_handle_same].
  - unfold on_session_closed. set (keys := _ <$> _). destruct (drop_entries_spec keys f) as [Hd _].
    split; [by eapply fw_ok_dropped|]. by destruct Hd as (? & ? & _).
  - split; [by apply reply_reader_ok|]. unfold reply_reader. repeat case_match; done.
  - unfold shutdown. set (keys := _ <$> _). destruct (drop_entries_spec keys f) as [Hd _].
    split; [by eapply fw_ok_dropped|]. by destruct Hd as (? & ? & _).
Qed.

Lemma fwd_run_ok steps : forall hist f,
  fw_ok hist f -> fw_ok (handled steps hist) (fwd_run steps f) /\
    fw_echo (fwd_run steps f) = fw_echo f /\ fw_policy (fwd_run steps f) = fw_policy f.
Proof.
  unfold fwd_run. induction steps as [|st steps IH]; intros hist f Hok; [done|].
  destruct (fwd_step_ok hist st f Hok) as (Hok' & E1 & E2).
  destruct (IH _ _ Hok') as (Hok'' & E1' & E2'). cbn [fold_left]. split_and!; [|congruence|congruence].
  by destruct st.
Qed.

End Pool.

(** C18: Under every run of the backend: at most [GLOBAL_CAP] sockets and
    [PER_SESSION_CAP] per session; every socket, every datagram sent and every
    command returned belongs to a session that asked for that destination and
    to a destination the policy admits; echo mode opens no socket; a returned
    frame fits the slot. *)
Theorem forwarder_confined {Ord : IterOrder PoolKey ForwardEntry} echo policy steps :
  let f := fwd_run steps (Forwarder_new_with_policy echo policy) in
  let hist := handled steps [] in
  (size (fw_sockets f) <= GLOBAL_CAP)%nat /\
  (forall sid, (size (filter (fun kv => of_session sid kv.1 = true) (fw_sockets f)) <= PER_SESSION_CAP)%nat) /\
  (forall key e, fw_sockets f !! key = Some e -> permitted echo policy hist key) /\
  Forall (effect_ok echo policy hist) (fw_log f).
Proof.
  intros f hist. destruct (fwd_run_ok steps [] (Forwarder_new_with_policy echo policy)) as (Hok & E1 & E2).
  { split; [|done|by constructor]. split; [by apply Nat.le_0_l|]. intros sid. by apply Nat.le_0_l. }
  destruct Hok as [[Hg Hc] Hp Hl]. rewrite E1, E2 in *. done.
Qed.

(** Closing a session drops exactly its sockets; every frame handled first
    drops exactly the sockets idle for more than [IDLE_TTL]; shutdown drops all. *)
Theorem forwarder_releases {Ord : IterOrder PoolKey ForwardEntry} f sid now :
  (forall k, fw_sockets (on_session_closed sid f) !! k =
     if decide (k.1 = sid) then None else fw_sockets f !! k) /\
  (forall k, fw_sockets (prune_idle now f) !! k =
     (e ← fw_sockets f !! k;
      if decide (IDLE_TTL < duration_since now (fe_last_use e)) then None else Some e)) /\
  fw_sockets (shutdown f) = ∅.
Proof.
  split_and!.
  - intros k. unfold on_session_closed. rewrite (proj2 (drop_entries_spec _ f)).
    assert (k ∈ fst <$> candidates (of_session sid) (fw_sockets f) <-> k.1 = sid /\ is_Some (fw_sockets f !! k)) as Hk.
    { rewrite list_elem_of_fmap. split.
      - intros ([k' e] & -> & Hin). apply elem_of_candidates in Hin as [Hs He].
        apply bool_decide_eq_true in Hs. eauto.
      - intros [Hs [e He]]. exists (k, e). split; [done|]. apply elem_of_candidates. split; [|done].
        by apply bool_decide_eq_true. }
    destruct (fw_sockets f !! k) as [e|] eqn:E; repeat case_decide; try done; naive_solver.
  - apply prune_idle_spec.
  - apply map_eq. intros k. rewrite lookup_empty. unfold shutdown. rewrite (proj2 (drop_entries_spec _ f)).
    case_decide as Hk; [done|]. destruct (fw_sockets f !! k) as [e|] eqn:E; [|done]. destruct Hk.
    apply list_elem_of_fmap. exists (k, e). split; [done|].
    rewrite iteration_perm. by apply elem_of_map_to_list.
Qed.

(** What a running reader returns for a datagram: one frame for its session,
    which decodes to its destination and the first [MAX_DATAGRAM_V6] bytes. An
    IPv4 reply between the two capacities could be framed whole and is cut. *)
Theorem reply_reader_delivers f key e dgram pad :
  fw_sockets f !! key = Some e -> fe_reader_runs e = true -> relayable key.2 ->
  (exists frame, reply_reader key (Some dgram) true f =
      fw_emit (FwdCommand (mkServerAppCommand key.1 frame)) f /\
    decode_relay (frame ++ pad) = Ok (key.2, take MAX_DATAGRAM_V6 dgram)) /\
  ((MAX_DATAGRAM_V6 < length dgram)%nat -> (length dgram <= relay_max key.2)%nat ->
   is_ok (encode_relay key.2 dgram) = true /\ take MAX_DATAGRAM_V6 dgram <> dgram).
Proof.
  intros He Hr Hd. split.
  - unfold reply_reader. rewrite He, Hr.
    assert (length (take MAX_DATAGRAM_V6 dgram) <= relay_max key.2)%nat as Hlen.
    { rewrite length_take. destruct key.2; unfold relay_max, relay_family, snd;
        unfold MAX_DATAGRAM_V4, MAX_DATAGRAM_V6, HDR_LEN_V4, HDR_LEN_V6; lia. }
    pose proof (encode_relay_ok _ _ Hlen) as Henc. rewrite Henc. eexists. split; [done|].
    by apply encode_relay_decodes.
  - intros Hgt Hle. rewrite encode_relay_ok by done. split; [done|].
    intros Hx. apply (f_equal length) in Hx. rewrite length_take in Hx. lia.
Qed.

(** A reader that ended on a socket error is not replaced: the session's next
    datagram for that destination is sent on the same socket, no socket is
    opened, and every later reply is lost until the entry is dropped. *)
Theorem dead_reader_keeps_entry {Ord : IterOrder PoolKey ForwardEntry} f io key e slot datagram :
  fw_sockets f !! key = Some e -> fe_reader_runs e = true ->
  fw_echo f = false -> decode_relay slot = Ok (key.2, datagram) ->
  deny_reason key.2 (fw_policy f) = None ->
  duration_since (fi_now_handle io) (fe_last_use e) <= IDLE_TTL -> fi_send io = true ->
  let f1 := reply_reader key None true f in
  let f2 := fw_handle io key.1 slot f1 in
  (exists idle, fw_log f2 = fw_log f ++ (FwdAborted <$> idle) ++ [FwdSent key datagram]) /\
  fw_sockets f2 !! key = Some (mkForwardEntry false (fi_now_use io)) /\
  forall recv open, reply_reader key recv open f2 = f2.
Proof.
  intros He Hr Hecho Hdec Hden Hage Hsend f1 f2.
  assert (f1 = fw_set_sockets (<[key := mkForwardEntry false (fe_last_use e)]> (fw_sockets f)) f) as Hf1.
  { unfold f1, reply_reader. by rewrite He, Hr. }
  destruct (prune_idle_spec (fi_now_handle io) f1) as [(E1 & E2 & _ & _ & idle & E5) Hs].
  assert (fw_sockets (prune_idle (fi_now_handle io) f1) !! key = Some (mkForwardEntry false (fe_last_use e))) as Hk.
  { rewrite Hs, Hf1. simpl. rewrite lookup_insert_eq. cbn [mbind option_bind fe_last_use].
    by rewrite decide_False by lia. }
  assert (fw_echo f1 = false /\ fw_policy f1 = fw_policy f /\ fw_log f1 = fw_log f) as (F1 & F2 & F3)
    by (rewrite Hf1; done).
  unfold f2, fw_handle. rewrite Hdec, E2, F2, Hden, E1, F1. destruct key as [sid dest]. cbn [fst snd] in *.
  rewrite Hk. cbn [fe_reader_runs]. rewrite Hk, Hsend. split_and!.
  - exists idle. simpl. rewrite E5, F3. by rewrite <- app_assoc.
  - simpl. by rewrite lookup_insert_eq.
  - intros recv open. unfold reply_reader. simpl. by rewrite lookup_insert_eq.
Qed.

(** ** Sample runs *)

Module ForwardSample.

Definition dest : SocketAddr := SocketAddrV4 (Ipv4Addr_new 192 0 2 7) 5353.
Definition sid : bytes := replicate 8 x01.
Definition slot : bytes :=
  match encode_relay dest [x2a] with Ok f => f ++ zeros 16 | Err _ => [] end.
Definition io : FwdIO := mkFwdIO 0 0 0 0 true true true true.
Definition io2 : FwdIO := mkFwdIO (from_secs 5) 0 0 (from_secs 5) true true true true.
Definition pooled : Forwarder :=
  fwd_run (Ord := map_order) [StepHandle io sid slot] (Forwarder_new false).
Definition mapped_metadata : Z := 0xFFFF * 2 ^ 32 + Ipv4Addr_new 169 254 169 254.

End ForwardSample.

Lemma egress_exact_witness :
  deny_reason ForwardSample.dest DenyUnsafe = None /\
  ~ egress_denied (addr_ip ForwardSample.dest) /\
  deny_reason (SocketAddrV6 ForwardSample.mapped_metadata 80 0 0) DenyUnsafe = Some MetadataImdsV4.
Proof.
  assert (deny_reason ForwardSample.dest DenyUnsafe = None) as H by reflexivity.
  split; [exact H|]. split; [|reflexivity].
  apply (egress_exact ForwardSample.dest); [|exact H].
  unfold ForwardSample.dest, SocketAddr_wf, in_range, Ipv4Addr_new. lia.
Defined.

Lemma tun_policy_covers_egress_witness :
  is_denied_destination (IpV6 ForwardSample.mapped_metadata) = true.
Proof.
  apply (tun_policy_covers_egress (IpV6 ForwardSample.mapped_metadata)).
  - unfold IpAddr_wf, in_range, ForwardSample.mapped_metadata, Ipv4Addr_new. lia.
  - unfold egress_denied.
    change (canonical_ip (IpV6 ForwardSample.mapped_metadata)) with (IpV4 (Ipv4Addr_new 169 254 169 254)).
    do 4 apply Exists_cons_tl. apply Exists_cons_hd. reflexivity.
Defined.

Lemma reply_reader_delivers_witness :
  exists frame, reply_reader (ForwardSample.sid, ForwardSample.dest) (Some [x07; x00]) true ForwardSample.pooled =
      fw_emit (FwdCommand (mkServerAppCommand ForwardSample.sid frame)) ForwardSample.pooled /\
    decode_relay (frame ++ [x00; x00]) = Ok (ForwardSample.dest, [x07; x00]).
Proof.
  destruct (reply_reader_delivers ForwardSample.pooled (ForwardSample.sid, ForwardSample.dest)
    (mkForwardEntry true 0) [x07; x00] [x00; x00]) as [H _].
  - vm_compute. reflexivity.
  - reflexivity.
  - unfold relayable, ForwardSample.dest, snd, in_range, Ipv4Addr_new. lia.
  - exact H.
Defined.

Lemma dead_reader_keeps_entry_witness :
  let f1 := reply_reader (ForwardSample.sid, ForwardSample.dest) None true ForwardSample.pooled in
  let f2 := fw_handle (Ord := map_order) ForwardSample.io2 ForwardSample.sid ForwardSample.slot f1 in
  reply_reader (ForwardSample.sid, ForwardSample.dest) (Some [x07]) true f2 = f2.
Proof.
  destruct (dead_reader_keeps_entry (Ord := map_order) ForwardSample.pooled ForwardSample.io2
    (ForwardSample.sid, ForwardSample.dest) (mkForwardEntry true 0) ForwardSample.slot [x2a]) as (_ & _ & H).
  - vm_compute. reflexivity.
  - reflexivity.
  - reflexivity.
  - reflexivity.
  - reflexivity.
  - vm_compute. discriminate.
  - reflexivity.
  - exact (H (Some [x07]) true).
Defined.
