(* ===== verification/Files.v ===== *)
(** * Text, paths and files

    What the provisioning code uses of [std::str], [std::path] and [std::fs]. A
    [str] is its list of Unicode scalar values; a path is its list of
    components; the file system maps resolved paths to files. Links are not
    modelled: two paths name the same file when they resolve to the same
    components. *)

From S2P Require Import Prelude Bytes Crypto.
From stdpp Require Import strings.

Local Open Scope Z_scope.

(** ** Text *)

Abbreviation text := (list Z).

(** An ASCII literal. *)
Definition text_of (s : string) : text := b2z <$> b_str s.

(** UTF-8, for [str::as_bytes] and [str::len]. *)
Definition utf8 (c : Z) : bytes :=
  if c <? 0x80 then [z2b c]
  else if c <? 0x800 then [z2b (0xC0 + c / 64); z2b (0x80 + c mod 64)]
  else if c <? 0x10000 then
    [z2b (0xE0 + c / 4096); z2b (0x80 + c / 64 mod 64); z2b (0x80 + c mod 64)]
  else
    [z2b (0xF0 + c / 262144); z2b (0x80 + c / 4096 mod 64); z2b (0x80 + c / 64 mod 64);
     z2b (0x80 + c mod 64)].

Definition str_bytes (t : text) : bytes := t ≫= utf8.

(** [char::is_whitespace]: the [White_Space] property. *)
Definition is_whitespace (c : Z) : bool :=
  ((9 <=? c) && (c <=? 13)) || (c =? 32) || (c =? 0x85) || (c =? 0xA0) || (c =? 0x1680)
  || ((0x2000 <=? c) && (c <=? 0x200A)) || (c =? 0x2028) || (c =? 0x2029) || (c =? 0x202F)
  || (c =? 0x205F) || (c =? 0x3000).

Fixpoint trim_start (t : text) : text :=
  match t with
  | c :: t' => if is_whitespace c then trim_start t' else t
  | [] => []
  end.

Definition trim (t : text) : text := reverse (trim_start (reverse (trim_start t))).

(** A line without its terminator: [strip_suffix('\r')]. The line is given
    reversed. *)
Definition end_line (rev_line : text) : text :=
  match rev_line with
  | 13 :: l => reverse l
  | l => reverse l
  end.

(** [str::lines]; [cur] is the current line, reversed. *)
Fixpoint lines_from (cur : text) (t : text) : list text :=
  match t with
  | [] => match cur with [] => [] | _ => [reverse cur] end
  | c :: t => if c =? 10 then end_line cur :: lines_from [] t else lines_from (c :: cur) t
  end.

Definition lines (t : text) : list text := lines_from [] t.

(** ** Paths *)

Inductive Component := RootDir | CurDir | ParentDir | Normal (name : text).

Global Instance Component_eq_dec : EqDecision Component.
Proof. solve_decision. Defined.

Global Instance Component_countable : Countable Component :=
  inj_countable'
    (fun c => match c with
              | RootDir => inl 0 | CurDir => inl 1 | ParentDir => inl 2 | Normal n => inr n end)
    (fun x => match x with
              | inl 0 => RootDir | inl 1 => CurDir | inl _ => ParentDir | inr n => Normal n end)
    ltac:(by intros []).

Abbreviation Path := (list Component).

Definition is_absolute (p : Path) : bool :=
  match p with RootDir :: _ => true | _ => false end.

(** [Path::parent] and [Path::file_name]. *)
Definition parent (p : Path) : option Path :=
  match last p with
  | None | Some RootDir => None
  | Some _ => Some (take (length p - 1) p)
  end.

Definition file_name (p : Path) : option text :=
  match last p with Some (Normal n) => Some n | _ => None end.

(** [PathBuf::pop]. *)
Definition path_pop (p : Path) : Path := default p (parent p).

(** [cwd.join(p)]. *)
Definition path_join (cwd p : Path) : Path := if is_absolute p then p else cwd ++ p.

(** ** Files *)

(** A file that is valid UTF-8, or one that is not. *)
Inductive FileData := TextFile (t : text) | BinaryFile.

Record Fs := mkFs { fs_cwd : Path; fs_files : gmap Path FileData }.

Definition fs_update (f : gmap Path FileData -> gmap Path FileData) (s : Fs) : Fs :=
  mkFs (fs_cwd s) (f (fs_files s)).

(** ** Lemmas on lines *)

Definition newline (l : text) : text := l ++ [10].

(** A line that [lines] gives back as it is. *)
Definition line_ok (l : text) : Prop := Forall (fun c => c <> 10) l /\ last l <> Some 13.

Lemma end_line_ok l : last l <> Some 13 -> end_line (reverse l) = l.
Proof.
  intros Hl. unfold end_line. destruct (reverse l) as [|c r] eqn:E.
  - apply (f_equal reverse) in E. by rewrite reverse_involutive in E.
  - assert (l = reverse r ++ [c]) as Hr.
    { rewrite <- (reverse_involutive l), E. by rewrite reverse_cons. }
    subst l. rewrite last_snoc in Hl. rewrite reverse_cons.
    repeat (case_match; try done).
Qed.

Lemma lines_from_line l cur t :
  Forall (fun c => c <> 10) l -> lines_from cur (l ++ 10 :: t) = end_line (reverse l ++ cur) :: lines_from [] t.
Proof.
  revert cur. induction l as [|c l IH]; intros cur Hl; simpl; [done|].
  apply Forall_cons in Hl as [Hc Hl]. destruct (Z.eqb_spec c 10); [done|].
  rewrite IH by done. rewrite reverse_cons, <- app_assoc. done.
Qed.

Lemma lines_newline ls :
  Forall line_ok ls -> lines (ls ≫= newline) = ls.
Proof.
  unfold lines. induction ls as [|l ls IH]; intros Hl; [done|].
  apply Forall_cons in Hl as [[H1 H2] Hl]. cbn [mbind list_bind]. unfold newline at 1.
  rewrite <- app_assoc. cbn [app]. rewrite lines_from_line, (app_nil_r (reverse l)), (end_line_ok l H2) by done.
  f_equal. by apply IH.
Qed.

(** Text without blanks at its ends. *)
Lemma trim_id t :
  (forall c, head t = Some c -> is_whitespace c = false) ->
  (forall c, last t = Some c -> is_whitespace c = false) -> trim t = t.
Proof.
  intros Hh Hl. unfold trim. assert (trim_start t = t) as ->.
  { destruct t as [|c t]; [done|]. simpl. by rewrite (Hh c). }
  destruct t as [|c t' _] using rev_ind; [done|].
  rewrite last_snoc in Hl. rewrite reverse_snoc. simpl. rewrite (Hl c) by done.
  by rewrite reverse_cons, reverse_involutive.
Qed.
