(* ===== verification/Identity.v ===== *)
(** * Provisioning files and key generation

    [pq-tunnel-bin/src/identity.rs] and [pq-tunnel-bin/src/keygen.rs]: the
    versioned text format of identities, public keys and rosters, the atomic
    writer, the hot-swappable roster, and the [keygen] command. Error messages
    are constructors ([HeaderReason], [HexReason]); zeroization has no effect on
    values and is not modelled. [cfg!(windows)] is false. *)

From S2P Require Import Prelude Bytes Errors Crypto HandshakeMsg HandshakeServer Files.
From stdpp Require Import strings pretty.

Local Open Scope Z_scope.

Definition SEED_BYTES : nat := 32.
Definition MAX_ROSTER_SIZE : nat := DEFAULT_MAX_ROSTER_SIZE.
Definition MAGIC : text := text_of "PQTI".
Definition FORMAT_VERSION : Z := 1.

Inductive KeyType := Identity | PublicKey | Roster.

Definition KeyType_as_str (k : KeyType) : text :=
  match k with
  | Identity => text_of "identity"
  | PublicKey => text_of "public-key"
  | Roster => text_of "roster"
  end.

(** ** Errors *)

Inductive HexReason := OddLength | InvalidHexCharacter (c : byte).

Inductive HeaderReason :=
| ExpectedHeader
| MagicLine (got : text)
| UnsupportedVersion (got : text)
| ExpectedOnePayload (n : nat).

Inductive IdentityError :=
| IdRead (path : Path)
| IdWrite (path : Path)
| BadLength (path : Path) (expected got : nat)
| BadHex (path : Path) (reason : HexReason)
| BadPublicKey (path : Path) (reason : CryptoError)
| EmptyRoster (path : Path)
| RosterTooLarge (path : Path) (got max : nat)
| Exists_ (path : Path)
| BadHeader (path : Path) (reason : HeaderReason)
| BadType (path : Path) (expected got : text).

(** ** Hexadecimal *)

Definition hex_digit (b : byte) : result HexReason Z :=
  let c := b2z b in
  if (48 <=? c) && (c <=? 57) then Ok (c - 48)
  else if (97 <=? c) && (c <=? 102) then Ok (c - 97 + 10)
  else if (65 <=? c) && (c <=? 70) then Ok (c - 65 + 10)
  else Err (InvalidHexCharacter b).

Fixpoint decode_pairs (l : bytes) : result HexReason bytes :=
  match l with
  | a :: b :: l =>
      hi ← hex_digit a;
      lo ← hex_digit b;
      out ← decode_pairs l;
      Ok (z2b (Z.lor (Z.shiftl hi 4) lo) :: out)
  | _ => Ok []
  end.

Definition decode_hex (s : text) : result HexReason bytes :=
  let b := str_bytes s in
  if negb (length b mod 2 =? 0)%nat then Err OddLength else decode_pairs b.

Definition HEX : text := text_of "0123456789abcdef".

Definition encode_hex (b : bytes) : text :=
  b ≫= fun x => [HEX !!! Z.to_nat (Z.shiftr (b2z x) 4); HEX !!! Z.to_nat (Z.land (b2z x) 0x0f)].

Definition version_line : text := text_of "version: " ++ text_of (pretty FORMAT_VERSION).
Definition type_line (k : KeyType) : text := text_of "type: " ++ KeyType_as_str k.

Definition write_header (out : text) (k : KeyType) : text :=
  out ++ MAGIC ++ [10] ++ version_line ++ [10] ++ type_line k ++ [10].

(** ** Paths and the file system *)

(** [keygen::normalize]. *)
Definition normalize (cwd p : Path) : Path :=
  fold_left (fun out c =>
    match c with
    | RootDir => [RootDir]
    | CurDir => out
    | ParentDir => path_pop out
    | Normal n => out ++ [Normal n]
    end) (path_join cwd p) [].

(** The file a path names. *)
Definition fs_key (s : Fs) (p : Path) : Path := normalize (fs_cwd s) p.
Definition fs_lookup (s : Fs) (p : Path) : option FileData := fs_files s !! fs_key s p.

(** [fs::read_to_string]. *)
Definition read_to_string (s : Fs) (p : Path) : result IdentityError text :=
  match fs_lookup s p with
  | Some (TextFile t) => Ok t
  | _ => Err (IdRead p)
  end.

(** ** Reading *)

Definition payload_line (l : text) : bool :=
  negb (length l =? 0)%nat && negb (bool_decide (head l = Some 35)).

Definition read_payload_lines (s : Fs) (path : Path) (expected : KeyType)
    : result IdentityError (list text) :=
  raw ← read_to_string s path;
  let ls := filter (fun l => payload_line l = true) (trim <$> lines raw) in
  match ls with
  | l0 :: l1 :: l2 :: rest =>
      if negb (bool_decide (l0 = MAGIC)) then Err (BadHeader path (MagicLine l0))
      else if negb (bool_decide (l1 = version_line)) then Err (BadHeader path (UnsupportedVersion l1))
      else if negb (bool_decide (l2 = type_line expected)) then
        Err (BadType path (KeyType_as_str expected) l2)
      else Ok rest
  | _ => Err (BadHeader path ExpectedHeader)
  end.

Fixpoint decode_blobs (path : Path) (blob_len : nat) (ls : list text)
    : result IdentityError (list bytes) :=
  match ls with
  | [] => Ok []
  | line :: ls =>
      blob ← map_err (BadHex path) (decode_hex line);
      if negb (blob_len =? 0)%nat && negb (length blob =? blob_len)%nat
      then Err (BadLength path blob_len (length blob))
      else blobs ← decode_blobs path blob_len ls; Ok (blob :: blobs)
  end.

Definition parse_blobs (s : Fs) (path : Path) (expected : KeyType) (blob_len : nat)
    (max_payloads : option nat) : result IdentityError (list bytes) :=
  ls ← read_payload_lines s path expected;
  _ ← match max_payloads with
      | Some max =>
          if (max <? length ls)%nat then Err (RosterTooLarge path (length ls) max) else Ok ()
      | None => Ok ()
      end;
  blobs ← decode_blobs path blob_len ls;
  match expected with
  | Identity | PublicKey =>
      if negb (length blobs =? 1)%nat then Err (BadHeader path (ExpectedOnePayload (length blobs)))
      else Ok blobs
  | Roster => match blobs with [] => Err (EmptyRoster path) | _ => Ok blobs end
  end.

(** ** Writing *)

(** Where a write can fail. *)
Inductive WriteFault := CreateFails | WriteFails | RenameFails.

Definition tmp_path (pid : text) (path : Path) : Path :=
  let dir := default [CurDir] (parent path) in
  let name := default (text_of "pqti") (file_name path) in
  dir ++ [Normal (text_of "." ++ name ++ text_of "." ++ pid ++ text_of ".tmp")].

(** Create, write and rename a temporary file; remove it on failure. *)
Definition write_atomic (pid : text) (fault : option WriteFault) (path : Path) (content : text) (s : Fs)
    : result IdentityError () * Fs :=
  let tmp := fs_key s (tmp_path pid path) in
  match fault with
  | None => (Ok (), fs_update (fun m => <[fs_key s path := TextFile content]> (delete tmp m)) s)
  | Some _ => (Err (IdWrite path), fs_update (delete tmp) s)
  end.

(** [create_new]: the name is reserved with an empty file; [fault] is any other
    failure of the call. *)
Definition ensure_missing (fault : bool) (path : Path) (s : Fs) : result IdentityError () * Fs :=
  if fault then (Err (IdWrite path), s)
  else match fs_lookup s path with
  | Some _ => (Err (Exists_ path), s)
  | None => (Ok (), fs_update (insert (fs_key s path) (TextFile [])) s)
  end.

Section Keys.
Context {P : Primitives}.

Definition load_identity (s : Fs) (path : Path) : result IdentityError MlDsaKeypair :=
  blobs ← parse_blobs s path Identity SEED_BYTES None;
  Ok (MlDsaKeypair_from_seed (blobs !!! 0%nat)).

Definition identity_content (kp : MlDsaKeypair) : text :=
  write_header [] Identity ++ encode_hex (MlDsaKeypair_to_seed kp) ++ [10].

Definition save_identity (pid : text) (fault : option WriteFault) (path : Path) (kp : MlDsaKeypair) (s : Fs)
    : result IdentityError () * Fs := write_atomic pid fault path (identity_content kp) s.

Definition load_public_key (s : Fs) (path : Path) : result IdentityError VerifyingKey :=
  blobs ← parse_blobs s path PublicKey ML_DSA_65_PUBLIC_KEY_BYTES None;
  map_err (BadPublicKey path) (MlDsaPublicKey_from_bytes (blobs !!! 0%nat)).

Definition public_key_content (key : VerifyingKey) : text :=
  write_header [] PublicKey ++ encode_hex (MlDsaPublicKey_encode key) ++ [10].

Definition save_public_key (pid : text) (fault : option WriteFault) (path : Path) (key : VerifyingKey) (s : Fs)
    : result IdentityError () * Fs := write_atomic pid fault path (public_key_content key) s.

Fixpoint decode_keys (path : Path) (blobs : list bytes) : result IdentityError (list VerifyingKey) :=
  match blobs with
  | [] => Ok []
  | blob :: blobs =>
      key ← map_err (BadPublicKey path) (MlDsaPublicKey_from_bytes blob);
      keys ← decode_keys path blobs;
      Ok (key :: keys)
  end.

Definition load_roster_with_limit (s : Fs) (path : Path) (max_roster_size : nat)
    : result IdentityError (list VerifyingKey) :=
  blobs ← parse_blobs s path Roster ML_DSA_65_PUBLIC_KEY_BYTES (Some max_roster_size);
  decode_keys path blobs.

Definition load_roster (s : Fs) (path : Path) : result IdentityError (list VerifyingKey) :=
  load_roster_with_limit s path MAX_ROSTER_SIZE.

Definition roster_content (keys : list VerifyingKey) : text :=
  write_header [] Roster ++ (keys ≫= fun key => encode_hex (MlDsaPublicKey_encode key) ++ [10]).

Definition save_roster (pid : text) (fault : option WriteFault) (path : Path) (keys : list VerifyingKey) (s : Fs)
    : result IdentityError () * Fs :=
  if (length keys =? 0)%nat then (Err (EmptyRoster path), s)
  else if (MAX_ROSTER_SIZE <? length keys)%nat
  then (Err (RosterTooLarge path (length keys) MAX_ROSTER_SIZE), s)
  else write_atomic pid fault path (roster_content keys) s.

Definition append_roster (pid : text) (fault : option WriteFault) (path : Path) (key : VerifyingKey) (s : Fs)
    : result IdentityError () * Fs :=
  match (if bool_decide (is_Some (fs_lookup s path)) then load_roster s path else Ok []) with
  | Err e => (Err e, s)
  | Ok keys =>
      if existsb (fun k => bool_decide (MlDsaPublicKey_encode k = MlDsaPublicKey_encode key)) keys
      then save_roster pid fault path keys s
      else if (MAX_ROSTER_SIZE <=? length keys)%nat
      then (Err (RosterTooLarge path (length keys + 1) MAX_ROSTER_SIZE), s)
      else
        match MlDsaPublicKey_from_bytes (MlDsaPublicKey_encode key) with
        | Err e => (Err (BadPublicKey path e), s)
        | Ok copy => save_roster pid fault path (keys ++ [copy]) s
        end
  end.

Definition fingerprint (key : VerifyingKey) : text :=
  encode_hex (slice 0 16 (sha256_digest (MlDsaPublicKey_encode key))).

(** ** The hot-swappable roster *)

Record RosterHandle := mkRosterHandle {
  rh_path : Path;
  rh_current : list VerifyingKey;
  rh_max_roster_size : nat }.

Definition RosterHandle_load_with_limit (s : Fs) (path : Path) (max_roster_size : nat)
    : result IdentityError RosterHandle :=
  roster ← load_roster_with_limit s path max_roster_size;
  Ok (mkRosterHandle path roster max_roster_size).

Definition RosterHandle_load (s : Fs) (path : Path) : result IdentityError RosterHandle :=
  RosterHandle_load_with_limit s path MAX_ROSTER_SIZE.

Definition RosterHandle_reload (s : Fs) (h : RosterHandle) : result IdentityError nat * RosterHandle :=
  match load_roster_with_limit s (rh_path h) (rh_max_roster_size h) with
  | Err e => (Err e, h)
  | Ok parsed =>
      if (length parsed =? 0)%nat then (Err (EmptyRoster (rh_path h)), h)
      else (Ok (length parsed), mkRosterHandle (rh_path h) parsed (rh_max_roster_size h))
  end.

(** ** [keygen] *)

Record KeygenArgs := mkKeygenArgs {
  ka_identity : Path;
  ka_public_key : Path;
  ka_append_roster : option Path;
  ka_force : bool }.

Inductive KeygenError :=
| SameFile (a b : Path)
| KeygenIdentity (e : IdentityError).

(** [Ok] when the two outputs are different files. *)
Definition check_distinct (s : Fs) (a b : Path) : result KeygenError () :=
  if bool_decide (fs_key s a = fs_key s b) then Err (SameFile a b) else Ok ().

(** Run a step on the file system, stopping at the first error. *)
Definition then_fs {A} (r : result IdentityError A * Fs) (k : Fs -> result KeygenError () * Fs)
    : result KeygenError () * Fs :=
  match r with
  | (Ok _, s) => k s
  | (Err e, s) => (Err (KeygenIdentity e), s)
  end.

(** [seed] is the draw of the key generation; [g1], [g2] are the faults of the two
    reservations and [f1], [f2], [f3] those of the three writes. Key generation itself cannot fail. *)
Definition keygen_run (pid : text) (seed : bytes) (g1 g2 : bool) (f1 f2 f3 : option WriteFault) (args : KeygenArgs)
    (s : Fs) : result KeygenError () * Fs :=
  match
    (_ ← check_distinct s (ka_identity args) (ka_public_key args);
     match ka_append_roster args with
     | Some roster_path =>
         _ ← check_distinct s (ka_identity args) roster_path;
         check_distinct s (ka_public_key args) roster_path
     | None => Ok ()
     end)
  with
  | Err e => (Err e, s)
  | Ok _ =>
      let generate := fun s =>
        let keypair := MlDsaKeypair_from_seed seed in
        then_fs (save_identity pid f1 (ka_identity args) keypair s) (fun s =>
        let public := dsa_public keypair in
        then_fs (save_public_key pid f2 (ka_public_key args) public s) (fun s =>
        match ka_append_roster args with
        | Some roster_path =>
            then_fs (append_roster pid f3 roster_path public s) (fun s => (Ok (), s))
        | None => (Ok (), s)
        end)) in
      if ka_force args then generate s
      else then_fs (ensure_missing g1 (ka_identity args) s) (fun s =>
           then_fs (ensure_missing g2 (ka_public_key args) s) generate)
  end.

End Keys.
