(* ===== verification/Setup.v ===== *)
(** * Start-up

    [pq-tunnel-bin/src/lib.rs] (the arguments and the policies built from them)
    and the part of [v2_server.rs], [v2_client.rs], [tun/server.rs] and
    [tun/client.rs] that turns arguments and provisioning files into a session
    manager; the application task of [v2_server.rs] that feeds the forwarder.
    Opening sockets and devices and configuring the network are an outcome the
    set-up functions take as an argument. *)

From S2P Require Import Prelude Bytes Errors Codec Replay Crypto Scheduler Net IpAddr HandshakeMsg HandshakeClient HandshakeServer SessionCommon ServerManager ClientManager Drivers Oldest Relay Forward Files Identity.
From stdpp Require Import strings.

Local Open Scope Z_scope.

(** ** Policies *)

Definition MAX_COVER_MBPS : Z := umax 64 / 1000000.
Definition MAX_COVER_MBPS_PACING : Z := MAX_COVER_RATE_BPS / 1000000.

Inductive CoverArgError :=
| CoverZero
| CoverOverflow (mbps : Z)
| CoverUnschedulable (mbps : Z).

Definition cover_policy_from_args (no_cover : bool) (mbps : Z) : result CoverArgError CoverPolicy :=
  if no_cover then Ok (mkCoverPolicy false (interval CoverPolicy_default))
  else if mbps =? 0 then Err CoverZero
  else
    match checked_mul 64 mbps 1000000 with
    | None => Err (CoverOverflow mbps)
    | Some bps =>
        if MAX_COVER_RATE_BPS <? bps then Err (CoverUnschedulable mbps)
        else Ok (mkCoverPolicy true (interval_from_rate_bps bps))
    end.

Definition lifetime_cap_from_secs (secs : Z) : option Duration :=
  if secs =? 0 then None else Some (from_secs secs).

(** ** Arguments *)

Record ServerArgs := mkServerArgs {
  sa_identity : option Path;
  sa_roster : option Path;
  sa_echo : bool;
  sa_cover_mbps : Z;
  sa_no_cover : bool;
  sa_max_roster_size : nat;
  sa_lifetime_cap_secs : Z;
  sa_tun : bool }.

Record ClientArgs := mkClientArgs {
  ca_remote : SocketAddr;
  ca_identity : option Path;
  ca_server_key : option Path;
  ca_cover_mbps : Z;
  ca_no_cover : bool;
  ca_lifetime_cap_secs : Z;
  ca_tun : bool }.

Inductive SetupError :=
| MissingFlag (flag : string)
| SetupIdentity (e : IdentityError)
| SetupCover (e : CoverArgError)
| SetupManager (e : ManagerError)
| SetupIo
| RelayNotLoopback (local : SocketAddr).

(** [..SessionLimits::default()] with the given lifetime cap. *)
Definition limits_with_cap (max_sessions : nat) (secs : Z) : SessionLimits :=
  mkSessionLimits max_sessions (sl_idle_timeout SessionLimits_default) (lifetime_cap_from_secs secs)
    (sl_confirm_timeout SessionLimits_default) (sl_liveness_probe_interval SessionLimits_default)
    (sl_liveness_rounds SessionLimits_default) (sl_handshake_timeout SessionLimits_default)
    (sl_fail_burst SessionLimits_default) (sl_fail_window SessionLimits_default)
    (sl_max_fail_buckets SessionLimits_default) (sl_slot_interval SessionLimits_default).

Section Setup.
Context {P : Primitives}.

(** ** The relay-mode server and client *)

(** [io] is the outcome of binding the socket. *)
Definition v2_server_setup (fs : Fs) (args : ServerArgs) (now : Instant) (io : bool)
    : result SetupError (ServerSessionManager * CoverPolicy) :=
  identity_path ← ok_or (sa_identity args) (MissingFlag "--identity");
  roster_path ← ok_or (sa_roster args) (MissingFlag "--roster");
  keypair ← map_err SetupIdentity (load_identity fs identity_path);
  roster ← map_err SetupIdentity (load_roster_with_limit fs roster_path (sa_max_roster_size args));
  let cfg := with_roster_limit keypair roster (sa_max_roster_size args) in
  cover ← map_err SetupCover (cover_policy_from_args (sa_no_cover args) (sa_cover_mbps args));
  let limits := limits_with_cap (sl_max_sessions SessionLimits_default) (sa_lifetime_cap_secs args) in
  manager ← map_err SetupManager (ServerSessionManager_new cfg limits now);
  if io then Ok (manager, cover) else Err SetupIo.

Definition v2_client_setup (fs : Fs) (args : ClientArgs) (io : bool)
    : result SetupError (ClientSessionManager * CoverPolicy) :=
  identity_path ← ok_or (ca_identity args) (MissingFlag "--identity");
  server_key_path ← ok_or (ca_server_key args) (MissingFlag "--server-key");
  keypair ← map_err SetupIdentity (load_identity fs identity_path);
  server_key ← map_err SetupIdentity (load_public_key fs server_key_path);
  let cfg := ClientConfig_new (ca_remote args) keypair server_key in
  cover ← map_err SetupCover (cover_policy_from_args (ca_no_cover args) (ca_cover_mbps args));
  let limits := limits_with_cap (sl_max_sessions SessionLimits_default) (ca_lifetime_cap_secs args) in
  manager ← map_err SetupManager (ClientSessionManager_new cfg limits);
  if io then Ok (manager, cover) else Err SetupIo.

(** [local.ip().is_loopback()], on the address the relay socket got. *)
Definition relay_bind_check (local : SocketAddr) : result SetupError () :=
  if match addr_ip local with IpV4 a => v4_is_loopback a | IpV6 a => v6_is_loopback a end
  then Ok () else Err (RelayNotLoopback local).

(** ** TUN mode *)

(** [io] is the outcome of binding, opening the device and [enable_networking];
    the cover arguments are looked at after it. *)
Definition tun_server_setup (fs : Fs) (args : ServerArgs) (now : Instant) (io : bool)
    : result SetupError (ServerSessionManager * CoverPolicy) :=
  keypair ← match sa_identity args with
            | Some path => map_err SetupIdentity (load_identity fs path)
            | None => Err (MissingFlag "--identity")
            end;
  roster ← match sa_roster args with
           | Some path => map_err SetupIdentity (load_roster fs path)
           | None => Ok []
           end;
  let cfg := with_roster_limit keypair roster (sa_max_roster_size args) in
  let limits := limits_with_cap 1 (sa_lifetime_cap_secs args) in
  manager ← map_err SetupManager (ServerSessionManager_new cfg limits now);
  _ ← (if io then Ok () else Err SetupIo);
  cover ← map_err SetupCover (cover_policy_from_args (sa_no_cover args) (sa_cover_mbps args));
  Ok (manager, cover).

Definition tun_client_setup (fs : Fs) (remote : SocketAddr) (identity_path server_key_path : Path)
    (lifetime_cap_secs : Z) (io : bool) : result SetupError ClientSessionManager :=
  keypair ← map_err SetupIdentity (load_identity fs identity_path);
  server_key ← map_err SetupIdentity (load_public_key fs server_key_path);
  let cfg := ClientConfig_new remote keypair server_key in
  let limits := limits_with_cap (sl_max_sessions SessionLimits_default) lifetime_cap_secs in
  manager ← map_err SetupManager (ClientSessionManager_new cfg limits);
  if io then Ok manager else Err SetupIo.

(** ** Dispatch on the subcommand, with the [tun] feature on or off *)

Definition main_server (feature_tun : bool) (fs : Fs) (args : ServerArgs) (now : Instant) (io : bool)
    : result SetupError (ServerSessionManager * CoverPolicy) :=
  if feature_tun && sa_tun args then tun_server_setup fs args now io
  else v2_server_setup fs args now io.

Definition main_client (feature_tun : bool) (fs : Fs) (args : ClientArgs) (io : bool)
    : result SetupError ClientSessionManager :=
  if feature_tun && ca_tun args then
    identity ← ok_or (ca_identity args) (MissingFlag "--identity");
    server_key ← ok_or (ca_server_key args) (MissingFlag "--server-key");
    tun_client_setup fs (ca_remote args) identity server_key (ca_lifetime_cap_secs args) io
  else
    r ← v2_client_setup fs args io;
    Ok r.1.

End Setup.

(** ** The application task of the server *)

Section App.
Context {Ord : IterOrder PoolKey ForwardEntry}.

Record AppTask := mkAppTask {
  at_forwarder : Forwarder;
  at_total_handshakes : Z;
  at_active_sessions : Z }.

(** One notification; [fetch_add] and [fetch_sub] wrap. *)
Definition app_on_notification (io : FwdIO) (n : ManagerNotification) (a : AppTask) : AppTask :=
  match n with
  | NData sid inner =>
      mkAppTask (fw_handle io sid (ip_payload inner) (at_forwarder a)) (at_total_handshakes a) (at_active_sessions a)
  | NEstablished _ _ =>
      mkAppTask (at_forwarder a) (wrap 64 (at_total_handshakes a + 1)) (wrap 64 (at_active_sessions a + 1))
  | NClosed sid _ =>
      mkAppTask (on_session_closed sid (at_forwarder a)) (at_total_handshakes a) (wrapping_sub 64 (at_active_sessions a) 1)
  | NReady _ | NOutboundDropped _ => a
  end.

(** The task: its notifications until the channel closes, then [shutdown]. The
    reply readers run beside it, as steps of [fwd_run]. *)
Definition app_task (echo : bool) (ns : list (FwdIO * ManagerNotification)) : AppTask :=
  let a := fold_left (fun a x => app_on_notification x.1 x.2 a) ns (mkAppTask (Forwarder_new echo) 0 0) in
  mkAppTask (shutdown (at_forwarder a)) (at_total_handshakes a) (at_active_sessions a).

End App.
