(* ===== verification/IdentityOk.v ===== *)
(** * Provisioning is faithful and fails closed

    Theorems on [Identity]: what is saved loads back, a roster file only ever
    grows by the appended key, the published roster is never empty or over its
    limit, [keygen] without [--force] replaces nothing, and the empty identity
    file it can leave behind. *)

From S2P Require Import Prelude Bytes Errors Crypto HandshakeMsg HandshakeServer Files Identity.
From stdpp Require Import strings pretty.

Local Open Scope Z_scope.

(** The documented facts of the [ml-dsa] crate's seeds. *)
Class SeedLaws (P : Primitives) : Prop := {
  seed_length : forall sk, length (sk_to_seed sk) = SEED_BYTES;
  seed_roundtrip : forall sk, sk_from_seed (sk_to_seed sk) = sk }.

#[global] Instance toy_seed_laws : SeedLaws Toy.toy_primitives.
Proof. split; [|done]. intros sk. reflexivity. Qed.

(** ** Hexadecimal *)

Lemma encode_hex_cons x b : encode_hex (x :: b) = encode_hex [x] ++ encode_hex b.
Proof. done. Qed.

Lemma str_bytes_app a b : str_bytes (a ++ b) = str_bytes a ++ str_bytes b.
Proof. unfold str_bytes. apply bind_app. Qed.

Lemma hex_byte x l :
  decode_pairs (str_bytes (encode_hex [x]) ++ l) = (out ← decode_pairs l; Ok (x :: out)) /\
  length (str_bytes (encode_hex [x])) = 2%nat.
Proof. destruct x; split; reflexivity. Qed.

Lemma hex_roundtrip b : decode_hex (encode_hex b) = Ok b.
Proof.
  assert (decode_pairs (str_bytes (encode_hex b)) = Ok b /\
          (length (str_bytes (encode_hex b)) = 2 * length b)%nat) as [Hd Hl].
  { induction b as [|x b [IH1 IH2]]; [done|]. rewrite encode_hex_cons, str_bytes_app.
    destruct (hex_byte x (str_bytes (encode_hex b))) as [-> Hx]. rewrite IH1, length_app, Hx, IH2.
    split; [done|]. simpl. lia. }
  unfold decode_hex. rewrite Hl, Nat.mul_comm, Nat.Div0.mod_mul. done.
Qed.

(** Characters that survive the line discipline wherever they stand. *)
Definition plain (c : Z) : Prop := is_whitespace c = false /\ c <> 35.

Lemma encode_hex_plain b : Forall plain (encode_hex b).
Proof.
  induction b as [|x b IH]; [constructor|]. rewrite encode_hex_cons. apply Forall_app. split; [|done].
  destruct x; repeat constructor; done.
Qed.

Lemma encode_hex_nonempty b : b <> [] -> encode_hex b <> [].
Proof. by destruct b. Qed.

(** ** The line discipline *)

Definition kept (l : text) : Prop := line_ok l /\ trim l = l /\ payload_line l = true.

Lemma plain_kept l : l <> [] -> Forall plain l -> kept l.
Proof.
  intros Hne Hl.
  assert (forall c, c ∈ l -> is_whitespace c = false /\ c <> 35 /\ c <> 10 /\ c <> 13) as Hc.
  { rewrite Forall_forall in Hl. intros c Hin. destruct (Hl c Hin) as [Hw Hh].
    split_and!; try done; intros ->; done. }
  split_and!.
  - split; [apply Forall_forall; intros c Hin; by apply Hc|].
    intros Hx%last_Some_elem_of. by destruct (Hc _ Hx) as (_ & _ & _ & ?).
  - apply trim_id; intros c Hx.
    + apply Hc. destruct l; [done|]. injection Hx as ->. set_solver.
    + apply Hc. by apply last_Some_elem_of.
  - unfold payload_line. destruct l as [|c l]; [done|]. simpl.
    rewrite bool_decide_false; [done|]. intros [= ->]. destruct (Hc 35) as (_ & ? & _); [set_solver|done].
Qed.

Lemma kept_lines ls :
  Forall kept ls -> filter (fun l => payload_line l = true) (trim <$> lines (ls ≫= newline)) = ls.
Proof.
  intros Hl. rewrite lines_newline by (eapply Forall_impl; [done|]; by intros l [? _]).
  induction Hl as [|l ls (H1 & H2 & H3) Hl IH]; [done|]. rewrite fmap_cons, filter_cons, H2, H3.
  rewrite decide_True by done. by rewrite IH.
Qed.

(** The text of a provisioning file with payload lines [ls]. *)
Definition file_text (k : KeyType) (ls : list text) : text :=
  write_header [] k ++ (ls ≫= newline).

Lemma header_lines k ls :
  file_text k ls = ([MAGIC; version_line; type_line k] ++ ls) ≫= newline.
Proof.
  unfold file_text. rewrite bind_app. f_equal. unfold write_header.
  generalize version_line (type_line k). intros v t. cbn [mbind list_bind]. unfold newline. by rewrite <- !app_assoc, app_nil_r.
Qed.

Lemma header_kept k : Forall kept [MAGIC; version_line; type_line k].
Proof.
  assert (forall l, forallb (fun c => negb (c =? 10)) l = true -> last l <> Some 13 ->
    trim l = l -> payload_line l = true -> kept l) as Hk.
  { intros l H1 H2 H3 H4. split_and!; try done. split; [|done]. apply Forall_forall. intros c Hc.
    rewrite forallb_forall in H1. specialize (H1 c). rewrite <- list_elem_of_In in H1. specialize (H1 Hc). lia. }
  do 3 (apply Forall_cons; split; [apply Hk; destruct k; vm_compute; congruence|]). constructor.
Qed.

Lemma read_file_text s path k ls :
  fs_lookup s path = Some (TextFile (file_text k ls)) -> Forall kept ls ->
  read_payload_lines s path k = Ok ls.
Proof.
  intros Hf Hk. unfold read_payload_lines, read_to_string. rewrite Hf. cbn [mbind result_bind].
  rewrite header_lines, kept_lines by (apply Forall_app; split; [apply header_kept|done]).
  cbn [app]. by rewrite !bool_decide_true by done.
Qed.

(** ** Loading what was saved *)

Lemma decode_blobs_hex path n blobs :
  Forall (fun b => length b = n) blobs -> decode_blobs path n (encode_hex <$> blobs) = Ok blobs.
Proof.
  induction 1 as [|b blobs Hb _ IH]; [done|]. cbn [fmap list_fmap decode_blobs].
  rewrite hex_roundtrip. cbn [map_err mbind result_bind]. rewrite Hb, Nat.eqb_refl, andb_false_r.
  fold (encode_hex <$> blobs). by rewrite IH.
Qed.

Lemma parse_file_text s path k n blobs max :
  fs_lookup s path = Some (TextFile (file_text k (encode_hex <$> blobs))) ->
  (0 < n)%nat -> Forall (fun b => length b = n) blobs -> blobs <> [] ->
  match max with Some m => (length blobs <= m)%nat | None => True end ->
  (k <> Roster -> length blobs = 1%nat) ->
  parse_blobs s path k n max = Ok blobs.
Proof.
  intros Hf Hn Hb Hne Hmax Hone. unfold parse_blobs. erewrite read_file_text; [|done|].
  2:{ apply Forall_fmap. eapply Forall_impl; [exact Hb|]. intros b Hl. apply plain_kept; [|apply encode_hex_plain].
      apply encode_hex_nonempty. intros ->. simpl in Hl. lia. }
  cbn [mbind result_bind]. rewrite length_fmap.
  assert (match max with
          | Some m => if (m <? length blobs)%nat then Err (RosterTooLarge path (length blobs) m) else Ok ()
          | None => Ok ()
          end = (Ok () : result IdentityError ())) as ->.
  { destruct max as [m|]; [|done]. by rewrite (proj2 (Nat.ltb_ge _ _) Hmax). }
  rewrite decode_blobs_hex by done. cbn [mbind result_bind]. destruct k.
  - by rewrite Hone.
  - by rewrite Hone.
  - by destruct blobs.
Qed.

Section Laws.
Context {P : Primitives} {L : PrimitivesLaws P} {SL : SeedLaws P}.

Lemma identity_text kp : identity_content kp = file_text Identity (encode_hex <$> [MlDsaKeypair_to_seed kp]).
Proof. unfold identity_content, file_text, newline. cbn [fmap list_fmap mbind list_bind]. by rewrite app_nil_r. Qed.

Lemma public_key_text key :
  public_key_content key = file_text PublicKey (encode_hex <$> [MlDsaPublicKey_encode key]).
Proof. unfold public_key_content, file_text, newline. cbn [fmap list_fmap mbind list_bind]. by rewrite app_nil_r. Qed.

Lemma roster_text keys :
  roster_content keys = file_text Roster (encode_hex <$> (MlDsaPublicKey_encode <$> keys)).
Proof.
  unfold roster_content, file_text. f_equal. induction keys as [|key keys IH]; [done|].
  rewrite !fmap_cons. cbn [mbind list_bind]. unfold newline at 1. by rewrite IH.
Qed.

Lemma load_identity_text s path kp :
  fs_lookup s path = Some (TextFile (identity_content kp)) ->
  load_identity s path = Ok (MlDsaKeypair_from_seed (MlDsaKeypair_to_seed kp)).
Proof.
  rewrite identity_text. intros Hf. unfold load_identity.
  rewrite (parse_file_text _ _ _ SEED_BYTES [MlDsaKeypair_to_seed kp]); try done.
  - unfold SEED_BYTES. lia.
  - apply Forall_singleton. apply seed_length.
Qed.

Lemma key_from_encoding key : MlDsaPublicKey_from_bytes (MlDsaPublicKey_encode key) = Ok key.
Proof.
  unfold MlDsaPublicKey_from_bytes, MlDsaPublicKey_encode. rewrite vk_length, Nat.eqb_refl. simpl.
  by rewrite vk_roundtrip.
Qed.

Lemma load_public_key_text s path key :
  fs_lookup s path = Some (TextFile (public_key_content key)) -> load_public_key s path = Ok key.
Proof.
  rewrite public_key_text. intros Hf. unfold load_public_key.
  rewrite (parse_file_text _ _ _ ML_DSA_65_PUBLIC_KEY_BYTES [MlDsaPublicKey_encode key]); try done.
  - cbn [mbind result_bind lookup_total list_lookup_total]. by rewrite key_from_encoding.
  - unfold ML_DSA_65_PUBLIC_KEY_BYTES. lia.
  - apply Forall_singleton. apply vk_length.
Qed.

Lemma load_roster_text s path keys max :
  fs_lookup s path = Some (TextFile (roster_content keys)) ->
  keys <> [] -> (length keys <= max)%nat -> load_roster_with_limit s path max = Ok keys.
Proof.
  rewrite roster_text. intros Hf Hne Hmax. unfold load_roster_with_limit.
  rewrite (parse_file_text _ _ _ ML_DSA_65_PUBLIC_KEY_BYTES (MlDsaPublicKey_encode <$> keys)); try done.
  - cbn [mbind result_bind]. clear -L. induction keys as [|key keys IH]; [done|].
    cbn [fmap list_fmap decode_keys]. rewrite key_from_encoding. cbn [map_err mbind result_bind].
    fold (MlDsaPublicKey_encode <$> keys). by rewrite IH.
  - unfold ML_DSA_65_PUBLIC_KEY_BYTES. lia.
  - apply Forall_fmap, Forall_true. intros key. apply vk_length.
  - by destruct keys.
  - by rewrite length_fmap.
Qed.

(** What loads as a roster is neither empty nor over the limit. *)
Lemma decode_keys_length path blobs keys :
  decode_keys path blobs = Ok keys -> length keys = length blobs.
Proof.
  revert keys. induction blobs as [|b blobs IH]; intros keys H; simpl in H; [by simplify_res|].
  apply bind_ok in H as (key & _ & H). apply bind_ok in H as (rest & Hr & H). simplify_res.
  simpl. by rewrite (IH rest).
Qed.

Lemma decode_blobs_length path n ls blobs :
  decode_blobs path n ls = Ok blobs -> length blobs = length ls.
Proof.
  revert blobs. induction ls as [|l ls IH]; intros blobs H; simpl in H; [by simplify_res|].
  apply bind_ok in H as (b & _ & H). case_match; [done|]. apply bind_ok in H as (rest & Hr & H). simplify_res.
  simpl. by rewrite (IH rest).
Qed.

Lemma load_roster_bounds s path max keys :
  load_roster_with_limit s path max = Ok keys -> keys <> [] /\ (length keys <= max)%nat.
Proof.
  unfold load_roster_with_limit, parse_blobs. intros H. apply bind_ok in H as (blobs & Hb & Hk).
  apply bind_ok in Hb as (ls & _ & Hb). apply bind_ok in Hb as ([] & Hm & Hb).
  apply bind_ok in Hb as (blobs' & Hd & Hb). apply decode_blobs_length in Hd.
  apply decode_keys_length in Hk. destruct (Nat.ltb_spec max (length ls)); [done|].
  destruct blobs'; [done|]. simplify_res. simpl in *. split; [by destruct keys|lia].
Qed.

(** ** Paths *)

(** A path that names a file in a directory. *)
Definition file_path (p : Path) : Prop := exists dir n, p = dir ++ [Normal n].

Lemma normalize_snoc cwd dir n : normalize cwd (dir ++ [Normal n]) = normalize cwd dir ++ [Normal n].
Proof.
  unfold normalize, path_join.
  assert (is_absolute (dir ++ [Normal n]) = is_absolute dir) as -> by (by destruct dir as [|[]]).
  case_match; [by rewrite fold_left_app|]. by rewrite app_assoc, fold_left_app.
Qed.

(** The temporary file is never the file itself. *)
Lemma tmp_path_ne s pid p : file_path p -> fs_key s (tmp_path pid p) <> fs_key s p.
Proof.
  intros (dir & n & ->). unfold fs_key, tmp_path, parent, file_name. rewrite last_snoc.
  cbn [default from_option id]. rewrite length_app, Nat.add_sub, take_app_length. cbn [default].
  rewrite !normalize_snoc. intros H. apply app_inj_tail in H as [_ H]. injection H as H.
  apply (f_equal length) in H. simpl in H. rewrite !length_app in H. simpl in H. lia.
Qed.

Lemma write_atomic_spec pid fault path content s r s' :
  write_atomic pid fault path content s = (r, s') -> file_path path ->
  fs_cwd s' = fs_cwd s /\
  (forall k, k <> fs_key s path -> k <> fs_key s (tmp_path pid path) -> fs_files s' !! k = fs_files s !! k) /\
  (is_ok r = true <-> fault = None) /\
  fs_lookup s' path = if is_ok r then Some (TextFile content) else fs_lookup s path.
Proof.
  unfold write_atomic, fs_lookup. intros H Hp. pose proof (tmp_path_ne s pid path Hp) as Hne.
  destruct fault; injection H as <- <-; unfold fs_update, fs_key in *; simpl; split_and!; try done.
  - intros k H1 H2. by rewrite lookup_delete_ne.
  - by rewrite lookup_delete_ne.
  - intros k H1 H2. by rewrite lookup_insert_ne, lookup_delete_ne.
  - by rewrite lookup_insert_eq.
Qed.

(** ** The roster file *)

Lemma save_roster_spec pid fault path keys s r s' :
  save_roster pid fault path keys s = (r, s') -> file_path path ->
  fs_cwd s' = fs_cwd s /\
  (forall k, k <> fs_key s path -> k <> fs_key s (tmp_path pid path) -> fs_files s' !! k = fs_files s !! k) /\
  fs_lookup s' path = (if is_ok r then Some (TextFile (roster_content keys)) else fs_lookup s path) /\
  (is_ok r = true <-> fault = None /\ keys <> [] /\ (length keys <= MAX_ROSTER_SIZE)%nat).
Proof.
  unfold save_roster. intros H Hp. destruct (Nat.eqb_spec (length keys) 0) as [E0|E0].
  { injection H as <- <-. split_and!; try done. split; [done|]. intros (_ & Hn & _).
    by apply length_zero_iff_nil in E0. }
  destruct (Nat.ltb_spec MAX_ROSTER_SIZE (length keys)).
  { injection H as <- <-. split_and!; try done. split; [done|]. intros (_ & _ & ?). lia. }
  destruct (write_atomic_spec _ _ _ _ _ _ _ H Hp) as (H1 & H2 & H3 & H4). split_and!; try done.
  rewrite H3. split; [|tauto]. intros ->. split_and!; [done| |lia]. by intros ->.
Qed.

(** Appending to a roster file either leaves it as it was and reports an error,
    or leaves a file that loads as the old keys with the new one added once. *)
Theorem append_roster_exact pid fault path key s r s' :
  append_roster pid fault path key s = (r, s') -> file_path path ->
  (is_ok r = false -> fs_lookup s' path = fs_lookup s path) /\
  (is_ok r = true -> exists old,
     (fs_lookup s path = None /\ old = [] \/ load_roster s path = Ok old) /\
     load_roster s' path = Ok (if decide (MlDsaPublicKey_encode key ∈ MlDsaPublicKey_encode <$> old)
                               then old else old ++ [key])).
Proof.
  unfold append_roster. intros H Hp.
  destruct (if bool_decide (is_Some (fs_lookup s path)) then load_roster s path else Ok []) as [keys|e] eqn:Eold.
  2:{ injection H as <- <-. done. }
  assert (fs_lookup s path = None /\ keys = [] \/ load_roster s path = Ok keys) as Hold.
  { case_bool_decide as Hs; [by right|]. left. simplify_res. split; [|done].
    by destruct (fs_lookup s path); [destruct Hs|]. }
  set (dup := existsb _ keys) in H.
  assert (dup = bool_decide (MlDsaPublicKey_encode key ∈ MlDsaPublicKey_encode <$> keys)) as Hdup.
  { apply eq_true_iff_eq. unfold dup. rewrite existsb_exists, bool_decide_eq_true, list_elem_of_fmap.
    setoid_rewrite list_elem_of_In. setoid_rewrite bool_decide_eq_true. naive_solver. }
  assert (forall ks r s', save_roster pid fault path ks s = (r, s') ->
    (is_ok r = false -> fs_lookup s' path = fs_lookup s path) /\
    (is_ok r = true -> load_roster s' path = Ok ks)) as Hsave.
  { clear -Hp L. intros ks r s' H. destruct (save_roster_spec _ _ _ _ _ _ _ H Hp) as (_ & _ & Hl & Hok).
    split; intros Hr; rewrite Hr in Hl; [done|]. apply Hok in Hr as (_ & Hn & Hm).
    by apply load_roster_text. }
  destruct dup.
  - destruct (Hsave _ _ _ H) as [H1 H2]. split; [done|]. intros Hr. exists keys. split; [done|].
    symmetry in Hdup. apply bool_decide_eq_true in Hdup. rewrite decide_True by done. auto.
  - destruct (Nat.leb_spec MAX_ROSTER_SIZE (length keys)); [by injection H as <- <-|].
    rewrite key_from_encoding in H. destruct (Hsave _ _ _ H) as [H1 H2]. split; [done|]. intros Hr.
    exists keys. split; [done|]. symmetry in Hdup. apply bool_decide_eq_false in Hdup.
    rewrite decide_False by done. auto.
Qed.

(** ** The published roster *)

(** The roster a reader should see: the last file state that loaded. *)
Definition last_loaded (path : Path) (max : nat) (cur : list VerifyingKey) (states : list Fs)
    : list VerifyingKey :=
  fold_left (fun cur s => match load_roster_with_limit s path max with Ok ks => ks | Err _ => cur end)
    states cur.

(** C34: Whatever happens to the file between reloads, the published roster is the
    last one that loaded whole; it is never empty and never over the limit. *)
Theorem roster_handle_fail_closed s0 path max h states :
  RosterHandle_load_with_limit s0 path max = Ok h ->
  let h' := fold_left (fun h s => (RosterHandle_reload s h).2) states h in
  rh_current h' = last_loaded path max (rh_current h) states /\
  rh_current h' <> [] /\ (length (rh_current h') <= max)%nat.
Proof.
  intros Hload. apply bind_ok in Hload as (keys & Hk & Hh). simplify_res.
  apply load_roster_bounds in Hk. cbn [rh_current]. revert keys Hk.
  induction states as [|s states IH]; intros keys Hk; [done|]. cbn [fold_left last_loaded].
  unfold RosterHandle_reload at 2 4 6, last_loaded. cbn [fold_left rh_path rh_max_roster_size].
  destruct (load_roster_with_limit s path max) as [ks|] eqn:E; [|by apply IH].
  apply load_roster_bounds in E as Hb. destruct (Nat.eqb_spec (length ks) 0) as [E0|];
    [by apply length_zero_iff_nil in E0; destruct Hb|]. by apply IH.
Qed.

(** ** [keygen] *)

(** The keys [keygen] may write: a path and its temporary file. *)
Definition writes (s : Fs) (pid : text) (p k : Path) : Prop :=
  k = fs_key s p \/ k = fs_key s (tmp_path pid p).

(** A step that touches at most the files of [p]. *)
Definition only_touches (pid : text) (p : Path) (s s' : Fs) : Prop :=
  fs_cwd s' = fs_cwd s /\ forall k, ~ writes s pid p k -> fs_files s' !! k = fs_files s !! k.

Lemma write_atomic_touches pid fault path content s :
  file_path path -> only_touches pid path s (write_atomic pid fault path content s).2.
Proof.
  intros Hp. destruct (write_atomic pid fault path content s) as [r s'] eqn:E.
  destruct (write_atomic_spec _ _ _ _ _ _ _ E Hp) as (H1 & H2 & _). split; [done|].
  intros k Hk. unfold writes in Hk. apply H2; tauto.
Qed.

Lemma append_roster_touches pid fault path key s :
  file_path path -> only_touches pid path s (append_roster pid fault path key s).2.
Proof.
  intros Hp. assert (forall keys, only_touches pid path s (save_roster pid fault path keys s).2) as Hs.
  { intros keys. unfold save_roster. repeat (case_match; [done|]). by apply write_atomic_touches. }
  unfold append_roster. repeat (case_match; try done).
Qed.

Lemma ensure_missing_spec g path s :
  let '(r, s') := ensure_missing g path s in
  fs_cwd s' = fs_cwd s /\
  ((is_ok r = true -> fs_lookup s path = None) /\ (g = false -> fs_lookup s path = None -> is_ok r = true)) /\
  (forall k d, fs_files s !! k = Some d -> fs_files s' !! k = Some d) /\
  (is_ok r = true -> fs_lookup s' path = Some (TextFile [])) /\ (is_ok r = false -> s' = s).
Proof.
  unfold ensure_missing. destruct g; [by split_and!|]. destruct (fs_lookup s path) as [d0|] eqn:E; [by split_and!|].
  split_and!; try done.
  - intros k d Hk. unfold fs_update. simpl. rewrite lookup_insert_ne; [done|].
    intros <-. unfold fs_lookup in E. congruence.
  - intros _. unfold fs_lookup, fs_key, fs_update. simpl. by rewrite lookup_insert_eq.
Qed.

(** Membership in a short list of paths. *)
Ltac in_list := repeat first [apply list_elem_of_here | apply list_elem_of_further].

(** The outputs of a [keygen] command. *)
Definition outputs (args : KeygenArgs) : list Path :=
  ka_identity args :: ka_public_key args :: option_list (ka_append_roster args).

(** The part after the no-clobber guard. *)
Definition keygen_generate (pid : text) (seed : bytes) (f1 f2 f3 : option WriteFault) (args : KeygenArgs)
    (s : Fs) : result KeygenError () * Fs :=
  let keypair := MlDsaKeypair_from_seed seed in
  then_fs (save_identity pid f1 (ka_identity args) keypair s) (fun s =>
  let public := dsa_public keypair in
  then_fs (save_public_key pid f2 (ka_public_key args) public s) (fun s =>
  match ka_append_roster args with
  | Some roster_path => then_fs (append_roster pid f3 roster_path public s) (fun s => (Ok (), s))
  | None => (Ok (), s)
  end)).

Lemma only_touches_writes pid p s s' q k : only_touches pid p s s' -> writes s' pid q k <-> writes s pid q k.
Proof. intros [Hc _]. unfold writes, fs_key. by rewrite Hc. Qed.

(** Generation touches nothing but the outputs and their temporary files. *)
Lemma keygen_generate_touches pid seed f1 f2 f3 args s k :
  Forall file_path (outputs args) -> (forall p, p ∈ outputs args -> ~ writes s pid p k) ->
  fs_files (keygen_generate pid seed f1 f2 f3 args s).2 !! k = fs_files s !! k.
Proof.
  intros Hp Hk. unfold outputs in *. apply Forall_cons in Hp as [Hp1 Hp]. apply Forall_cons in Hp as [Hp2 Hp3].
  unfold keygen_generate, save_identity, save_public_key.
  pose proof (write_atomic_touches pid f1 _ (identity_content (MlDsaKeypair_from_seed seed)) s Hp1) as T1.
  destruct (write_atomic pid f1 _ _ s) as [[[]|e] s1]; simpl in *; (assert (fs_files s1 !! k = fs_files s !! k) as K1
    by (apply T1, Hk, list_elem_of_here)); [|done].
  pose proof (write_atomic_touches pid f2 _ (public_key_content (dsa_public (MlDsaKeypair_from_seed seed))) s1 Hp2) as T2.
  destruct (write_atomic pid f2 _ _ s1) as [[[]|e] s2]; simpl in *; (assert (fs_files s2 !! k = fs_files s !! k) as K2
    by (rewrite <- K1; apply T2; rewrite (only_touches_writes _ _ _ _ _ _ T1); apply Hk; in_list)); [|done].
  destruct (ka_append_roster args) as [rp|]; [|done]. simpl in *. rewrite Forall_singleton in Hp3.
  pose proof (append_roster_touches pid f3 rp (dsa_public (MlDsaKeypair_from_seed seed)) s2 Hp3) as T3.
  assert (fs_files (append_roster pid f3 rp (dsa_public (MlDsaKeypair_from_seed seed)) s2).2 !! k = fs_files s !! k) as K3.
  { rewrite <- K2. apply T3. rewrite (only_touches_writes _ _ _ _ _ _ T2), (only_touches_writes _ _ _ _ _ _ T1).
    apply Hk. in_list. }
  destruct (append_roster _ _ _ _ _) as [[[]|e] s3]; done.
Qed.

(** The command as guard and generation. *)
Definition distinct_outputs (s : Fs) (args : KeygenArgs) : Prop :=
  NoDup (fs_key s <$> outputs args).

Lemma keygen_run_eq pid seed g1 g2 f1 f2 f3 args s :
  keygen_run pid seed g1 g2 f1 f2 f3 args s =
    match (_ ← check_distinct s (ka_identity args) (ka_public_key args);
           match ka_append_roster args with
           | Some roster_path =>
               _ ← check_distinct s (ka_identity args) roster_path;
               check_distinct s (ka_public_key args) roster_path
           | None => Ok ()
           end) with
    | Err e => (Err e, s)
    | Ok _ =>
        if ka_force args then keygen_generate pid seed f1 f2 f3 args s
        else then_fs (ensure_missing g1 (ka_identity args) s) (fun s =>
             then_fs (ensure_missing g2 (ka_public_key args) s) (keygen_generate pid seed f1 f2 f3 args))
    end.
Proof. done. Qed.

Lemma check_distinct_ok s a b : check_distinct s a b = Ok () <-> fs_key s a <> fs_key s b.
Proof. unfold check_distinct. case_bool_decide; naive_solver. Qed.

(** Without [--force] no file that exists is replaced, whatever fails on the
    way: only the roster asked for and temporary files are written over. *)
Theorem keygen_no_clobber pid seed g1 g2 f1 f2 f3 args s k d :
  ka_force args = false -> Forall file_path (outputs args) ->
  fs_files s !! k = Some d ->
  (forall p, p ∈ outputs args -> k <> fs_key s (tmp_path pid p)) ->
  (forall rp, ka_append_roster args = Some rp -> k <> fs_key s rp) ->
  fs_files (keygen_run pid seed g1 g2 f1 f2 f3 args s).2 !! k = Some d.
Proof.
  intros Hforce Hp Hk Htmp Hros. rewrite keygen_run_eq, Hforce.
  case_match; [|done].
  pose proof (ensure_missing_spec g1 (ka_identity args) s) as M1.
  destruct (ensure_missing g1 (ka_identity args) s) as [[[]|e] s1]; destruct M1 as (C1 & O1 & K1 & _ & S1);
    [|simpl; by rewrite S1].
  pose proof (ensure_missing_spec g2 (ka_public_key args) s1) as M2. cbn [then_fs].
  destruct (ensure_missing g2 (ka_public_key args) s1) as [[[]|e] s2]; destruct M2 as (C2 & O2 & K2 & _ & S2);
    [|simpl; rewrite S2 by done; eauto].
  cbn [then_fs]. rewrite keygen_generate_touches; [eauto|done|].
  intros p Hin. unfold writes, fs_key. rewrite C2, C1. fold (fs_key s p) (fs_key s (tmp_path pid p)).
  intros [Hx|Hx]; [|by eapply Htmp]. subst k.
  apply elem_of_cons in Hin as [->|Hin].
  { destruct O1 as [O1 _]. specialize (O1 eq_refl). unfold fs_lookup in O1. congruence. }
  apply elem_of_cons in Hin as [->|Hin].
  { destruct O2 as [O2 _]. specialize (O2 eq_refl). unfold fs_lookup, fs_key in O2. rewrite C1 in O2.
    fold (fs_key s (ka_public_key args)) in O2. apply K1 in Hk. congruence. }
  destruct (ka_append_roster args) as [rp|]; simpl in Hin; [|by apply elem_of_nil in Hin].
  apply list_elem_of_singleton in Hin as ->. by eapply Hros.
Qed.

(** When the public-key file exists and the identity does not, a run without
    [--force] fails and leaves an empty identity file, which neither loads nor
    lets the command be repeated. *)
Theorem keygen_leaves_empty_identity pid seed f1 f2 f3 args s :
  ka_force args = false -> fs_lookup s (ka_identity args) = None ->
  is_Some (fs_lookup s (ka_public_key args)) ->
  (forall rp, ka_append_roster args = Some rp ->
     fs_key s (ka_identity args) <> fs_key s rp /\ fs_key s (ka_public_key args) <> fs_key s rp) ->
  let '(r, s') := keygen_run pid seed false false f1 f2 f3 args s in
  r = Err (KeygenIdentity (Exists_ (ka_public_key args))) /\
  fs_lookup s' (ka_identity args) = Some (TextFile []) /\
  load_identity s' (ka_identity args) = Err (BadHeader (ka_identity args) ExpectedHeader) /\
  (keygen_run pid seed false false f1 f2 f3 args s').1 = Err (KeygenIdentity (Exists_ (ka_identity args))).
Proof.
  intros Hforce Hid [d Hpub] Hros.
  assert (fs_key s (ka_identity args) <> fs_key s (ka_public_key args)) as Hne.
  { intros E. unfold fs_lookup in *. congruence. }
  assert (forall s', fs_cwd s' = fs_cwd s ->
    (_ ← check_distinct s' (ka_identity args) (ka_public_key args);
     match ka_append_roster args with
     | Some roster_path =>
         _ ← check_distinct s' (ka_identity args) roster_path;
         check_distinct s' (ka_public_key args) roster_path
     | None => Ok ()
     end) = Ok ()) as Hdist.
  { intros s' Hc. unfold fs_key in *. rewrite (proj2 (check_distinct_ok s' _ _)) by (unfold fs_key; by rewrite Hc).
    cbn [mbind result_bind]. destruct (ka_append_roster args) as [rp|]; [|done].
    destruct (Hros rp eq_refl) as [H1 H2].
    rewrite (proj2 (check_distinct_ok s' _ _)) by (unfold fs_key; by rewrite Hc). cbn [mbind result_bind].
    by rewrite (proj2 (check_distinct_ok s' _ _)) by (unfold fs_key; by rewrite Hc). }
  pose proof (ensure_missing_spec false (ka_identity args) s) as M1.
  rewrite keygen_run_eq, Hdist, Hforce by done.
  destruct (ensure_missing false (ka_identity args) s) as [[[]|e] s1]; destruct M1 as (C1 & O1 & K1 & N1 & _).
  2:{ destruct O1 as [_ O1]. specialize (O1 eq_refl Hid). done. }
  assert (fs_lookup s1 (ka_public_key args) = Some d) as Hpub1.
  { unfold fs_lookup, fs_key in *. rewrite C1. by apply K1. }
  specialize (N1 eq_refl). cbn [then_fs]. unfold ensure_missing. rewrite Hpub1. cbn [then_fs].
  split_and!; [done|done| |].
  - unfold load_identity, parse_blobs, read_payload_lines, read_to_string. by rewrite N1.
  - rewrite keygen_run_eq, Hdist, Hforce by done. unfold ensure_missing. by rewrite N1.
Qed.

(** Loading depends only on the file. *)
Lemma load_roster_ext s s' p max :
  fs_lookup s p = fs_lookup s' p -> load_roster_with_limit s p max = load_roster_with_limit s' p max.
Proof.
  intros H. unfold load_roster_with_limit, parse_blobs, read_payload_lines, read_to_string. by rewrite H.
Qed.

(** No output is another output or a temporary file. *)
Definition separate (s : Fs) (pid : text) (args : KeygenArgs) : Prop :=
  forall p q, p ∈ outputs args -> q ∈ outputs args ->
    fs_key s (tmp_path pid p) <> fs_key s q /\ (p <> q -> fs_key s p <> fs_key s q).

Lemma only_touches_lookup pid p s s' q :
  only_touches pid p s s' -> fs_key s q <> fs_key s p -> fs_key s q <> fs_key s (tmp_path pid p) ->
  fs_lookup s' q = fs_lookup s q.
Proof.
  intros [Hc Hk] H1 H2. unfold fs_lookup. replace (fs_key s' q) with (fs_key s q) by (unfold fs_key; by rewrite Hc).
  apply Hk. unfold writes. tauto.
Qed.

Definition roster_grown (s s' : Fs) (rp : Path) (key : VerifyingKey) : Prop :=
  exists old, (fs_lookup s rp = None /\ old = [] \/ load_roster s rp = Ok old) /\
    load_roster s' rp = Ok (if decide (MlDsaPublicKey_encode key ∈ MlDsaPublicKey_encode <$> old)
                            then old else old ++ [key]).

Definition provisioned (seed : bytes) (args : KeygenArgs) (s s' : Fs) : Prop :=
  let keypair := MlDsaKeypair_from_seed seed in
  load_identity s' (ka_identity args) = Ok keypair /\
  load_public_key s' (ka_public_key args) = Ok (dsa_public keypair) /\
  forall rp, ka_append_roster args = Some rp -> roster_grown s s' rp (dsa_public keypair).

Lemma seed_restores seed :
  MlDsaKeypair_from_seed (MlDsaKeypair_to_seed (MlDsaKeypair_from_seed seed)) = MlDsaKeypair_from_seed seed.
Proof. unfold MlDsaKeypair_from_seed, MlDsaKeypair_to_seed. simpl. by rewrite seed_roundtrip. Qed.

(** The two key files, written one after the other. *)
Lemma keys_saved pid f1 f2 id pk kp s s1 s2 :
  file_path id -> file_path pk -> fs_key s id <> fs_key s pk -> fs_key s id <> fs_key s (tmp_path pid pk) ->
  write_atomic pid f1 id (identity_content kp) s = (Ok (), s1) ->
  write_atomic pid f2 pk (public_key_content (dsa_public kp)) s1 = (Ok (), s2) ->
  (forall p, fs_key s2 p = fs_key s p) /\ fs_lookup s2 id = Some (TextFile (identity_content kp)) /\
  fs_lookup s2 pk = Some (TextFile (public_key_content (dsa_public kp))) /\
  forall q, (forall p, p ∈ [id; pk] -> fs_key s q <> fs_key s p /\ fs_key s q <> fs_key s (tmp_path pid p)) ->
    fs_lookup s2 q = fs_lookup s q.
Proof.
  intros Hp1 Hp2 Hne Hnt W1 W2.
  pose proof (write_atomic_touches pid f1 id (identity_content kp) s Hp1) as T1. rewrite W1 in T1. cbn [snd] in T1.
  pose proof (write_atomic_touches pid f2 pk (public_key_content (dsa_public kp)) s1 Hp2) as T2. rewrite W2 in T2. cbn [snd] in T2.
  apply write_atomic_spec in W1 as (_ & _ & _ & L1); [|done]. apply write_atomic_spec in W2 as (_ & _ & _ & L2); [|done].
  assert (forall p, fs_key s1 p = fs_key s p) as K1 by (intros p; unfold fs_key; by destruct T1 as [-> _]).
  assert (forall p, fs_key s2 p = fs_key s p) as K2 by (intros p; rewrite <- K1; unfold fs_key; by destruct T2 as [-> _]).
  split; [done|]. split; [|split; [done|]].
  - by rewrite (only_touches_lookup _ _ _ _ _ T2), L1 by (rewrite !K1; congruence).
  - intros q Hq. destruct (Hq id), (Hq pk); try in_list.
    rewrite (only_touches_lookup _ _ _ _ _ T2), (only_touches_lookup _ _ _ _ _ T1); rewrite ?K1; congruence.
Qed.

Lemma separate_keys s pid args p q :
  separate s pid args -> p ∈ outputs args -> q ∈ outputs args ->
  fs_key s q <> fs_key s (tmp_path pid p) /\ (p <> q -> fs_key s q <> fs_key s p).
Proof. intros Hs Hp Hq. destruct (Hs p q Hp Hq) as [H1 H2]. split; [congruence|]. intros Hne. specialize (H2 Hne). congruence. Qed.

Lemma keygen_generate_ok pid seed f1 f2 f3 args s s' :
  keygen_generate pid seed f1 f2 f3 args s = (Ok (), s') ->
  Forall file_path (outputs args) -> separate s pid args -> NoDup (outputs args) ->
  provisioned seed args s s'.
Proof.
  intros Hrun Hp Hsep Hnd. pose proof (fun p q => separate_keys s pid args p q Hsep) as Hkeys. unfold outputs in *.
  unfold keygen_generate, save_identity, save_public_key in Hrun. unfold provisioned.
  set (id := ka_identity args) in *. set (pk := ka_public_key args) in *. set (kp := MlDsaKeypair_from_seed seed) in *.
  apply Forall_cons in Hp as [Hp1 Hp]. apply Forall_cons in Hp as [Hp2 Hp3].
  rewrite !NoDup_cons in Hnd. destruct Hnd as (N1 & N2 & _).
  assert (id <> pk) as Hid by (intros E; apply N1; rewrite E; in_list).
  destruct (write_atomic pid f1 id _ s) as [[[]|] s1] eqn:W1; [|done]. cbn [then_fs] in Hrun.
  destruct (write_atomic pid f2 pk _ s1) as [[[]|] s2] eqn:W2; [|done]. cbn [then_fs] in Hrun.
  destruct (keys_saved pid f1 f2 id pk kp s s1 s2) as (K2 & L1 & L2 & Hother); try done.
  { apply (Hkeys pk id); [in_list|in_list|congruence]. }
  { apply (Hkeys pk id); in_list. }
  destruct (ka_append_roster args) as [rp|] eqn:Er.
  2:{ injection Hrun as <-. split_and!; [|by apply load_public_key_text|done].
      rewrite (load_identity_text _ _ _ L1). f_equal. apply seed_restores. }
  simpl in Hp3. rewrite Forall_singleton in Hp3. cbn [option_list] in *.
  assert (id <> rp /\ pk <> rp) as [Hir Hpr] by (split; intros E; [apply N1|apply N2]; rewrite E; in_list).
  pose proof (append_roster_touches pid f3 rp (dsa_public kp) s2 Hp3) as T3.
  destruct (append_roster pid f3 rp (dsa_public kp) s2) as [r3 s3] eqn:W3. cbn [snd] in T3.
  apply append_roster_exact in W3 as [_ W3]; [|done]. destruct r3 as [[]|]; [|done]. cbn [then_fs] in Hrun.
  injection Hrun as <-. destruct (W3 eq_refl) as (old & Hold & Hnew).
  assert (forall q, q ∈ [id; pk] -> fs_lookup s3 q = fs_lookup s2 q) as Hkept.
  { intros q Hq. assert (q <> rp) by set_solver.
    rewrite (only_touches_lookup _ _ _ _ _ T3); [done|rewrite !K2..]; apply (Hkeys rp q); first [congruence | set_solver]. }
  split_and!.
  - rewrite (load_identity_text _ _ kp); [f_equal; apply seed_restores|]. by rewrite Hkept by in_list.
  - apply load_public_key_text. by rewrite Hkept by in_list.
  - intros rp' [= <-]. exists old. split; [|done]. unfold load_roster in *.
    assert (fs_lookup s2 rp = fs_lookup s rp) as Lrp.
    { apply Hother. intros p Hi. split; apply (Hkeys p rp); set_solver. }
    rewrite <- Lrp, <- (load_roster_ext s2 s rp) by done. done.
Qed.

Lemma NoDup_fmap_inj_on {A B} (f : A -> B) l x y :
  NoDup (f <$> l) -> x ∈ l -> y ∈ l -> f x = f y -> x = y.
Proof.
  induction l as [|z l IH]; intros Hn Hx Hy E; [by apply elem_of_nil in Hx|].
  rewrite fmap_cons in Hn. apply NoDup_cons in Hn as [Hz Hn].
  apply elem_of_cons in Hx as [->|Hx], Hy as [->|Hy]; try done.
  - destruct Hz. apply list_elem_of_fmap. eauto.
  - destruct Hz. apply list_elem_of_fmap. exists x. by rewrite E.
  - by apply IH.
Qed.

Lemma checks_distinct s args :
  (_ ← check_distinct s (ka_identity args) (ka_public_key args);
   match ka_append_roster args with
   | Some roster_path =>
       _ ← check_distinct s (ka_identity args) roster_path;
       check_distinct s (ka_public_key args) roster_path
   | None => Ok ()
   end) = Ok () -> distinct_outputs s args.
Proof.
  intros H. unfold distinct_outputs, outputs. apply bind_ok in H as ([] & H1%check_distinct_ok & H).
  destruct (ka_append_roster args) as [rp|]; simpl.
  - apply bind_ok in H as ([] & H2%check_distinct_ok & H3%check_distinct_ok).
    rewrite !NoDup_cons, !not_elem_of_cons.
    split_and!; try done; try apply not_elem_of_nil. apply NoDup_nil_2.
  - rewrite !NoDup_cons, !not_elem_of_cons.
    split_and!; try done; try apply not_elem_of_nil. apply NoDup_nil_2.
Qed.

Lemma ensure_missing_other g path s q :
  fs_key s q <> fs_key s path -> fs_lookup (ensure_missing g path s).2 q = fs_lookup s q.
Proof.
  intros Hne. unfold ensure_missing. destruct g; [done|]. case_match; [done|]. unfold fs_lookup, fs_key, fs_update in *. simpl.
  by rewrite lookup_insert_ne.
Qed.

(** C33: After a successful [keygen] the identity file restores the generated key
    pair, the public-key file its public key, and the roster file loads as the
    keys it held before with the new key added once. *)
Theorem keygen_provisions pid seed g1 g2 f1 f2 f3 args s s' :
  keygen_run pid seed g1 g2 f1 f2 f3 args s = (Ok (), s') ->
  Forall file_path (outputs args) ->
  (forall p q, p ∈ outputs args -> q ∈ outputs args -> fs_key s (tmp_path pid p) <> fs_key s q) ->
  provisioned seed args s s'.
Proof.
  rewrite keygen_run_eq. intros Hrun Hp Htmp.
  destruct (_ ← check_distinct s (ka_identity args) (ka_public_key args); _) as [[]|] eqn:Ed; [|done].
  apply checks_distinct in Ed. unfold distinct_outputs in Ed.
  assert (separate s pid args) as Hsep.
  { intros p q Hi Hj. split; [by apply Htmp|]. intros Hne E. apply Hne.
    by apply (NoDup_fmap_inj_on (fs_key s) (outputs args)). }
  assert (NoDup (outputs args)) as Hnd by (by eapply NoDup_fmap_1).
  destruct (ka_force args); [by eapply keygen_generate_ok|].
  pose proof (ensure_missing_spec g1 (ka_identity args) s) as M1.
  assert (forall q, fs_key s q <> fs_key s (ka_identity args) -> _) as O1 by exact (ensure_missing_other g1 (ka_identity args) s).
  destruct (ensure_missing g1 (ka_identity args) s) as [[[]|] s1]; [|done]. destruct M1 as (C1 & _).
  cbn [then_fs snd] in *. pose proof (ensure_missing_spec g2 (ka_public_key args) s1) as M2.
  assert (forall q, fs_key s1 q <> fs_key s1 (ka_public_key args) -> _) as O2
    by exact (ensure_missing_other g2 (ka_public_key args) s1).
  destruct (ensure_missing g2 (ka_public_key args) s1) as [[[]|] s2]; [|done]. destruct M2 as (C2 & _).
  cbn [then_fs snd] in *.
  assert (forall p, fs_key s1 p = fs_key s p) as K1 by (intros p; unfold fs_key; by rewrite C1).
  assert (forall p, fs_key s2 p = fs_key s p) as K2 by (intros p; unfold fs_key; by rewrite C2, C1).
  assert (provisioned seed args s2 s') as (H1 & H2 & H3).
  { eapply keygen_generate_ok; [done|done| |done]. intros p q Hi Hj. rewrite !K2. by apply Hsep. }
  split_and!; [done|done|]. intros rp Er. destruct (H3 rp Er) as (old & Hold & Hnew). exists old. split; [|done].
  assert (fs_lookup s2 rp = fs_lookup s rp) as Hl.
  { unfold outputs in Ed. rewrite Er in Ed. simpl in Ed.
    rewrite !NoDup_cons, !not_elem_of_cons in Ed. destruct Ed as ((E1 & E2 & _) & (E3 & _) & _).
    rewrite O2 by (rewrite !K1; congruence). apply O1. congruence. }
  unfold load_roster in *. rewrite <- Hl, <- (load_roster_ext s2 s rp) by done. done.
Qed.

End Laws.

(** ** Sample runs *)

Module KeygenSample.

Definition at_root (n : string) : Path := [RootDir; Normal (text_of n)].
Definition pid : text := text_of "7".
Definition seed : bytes := x2a :: zeros 31.
Definition args : KeygenArgs :=
  mkKeygenArgs (at_root "id") (at_root "pk") (Some (at_root "roster")) false.
Definition k7 : @VerifyingKey Toy.toy_primitives := x07.
Definition k9 : @VerifyingKey Toy.toy_primitives := x09.
Definition empty_fs : Fs := mkFs [RootDir] ∅.
Definition pk_exists : Fs := mkFs [RootDir] {[ at_root "pk" := BinaryFile ]}.
Definition roster_fs : Fs :=
  mkFs [RootDir] {[ at_root "roster" := TextFile (roster_content (P := Toy.toy_primitives) [k7]) ]}.

End KeygenSample.

Import KeygenSample.

Lemma sample_file_paths : Forall file_path (outputs args).
Proof.
  repeat (apply Forall_cons; split; [by eexists [RootDir], _|]). apply Forall_nil_2.
Qed.

Lemma append_roster_exact_witness :
  load_roster (P := Toy.toy_primitives) (append_roster (P := Toy.toy_primitives) pid None (at_root "roster") k9 empty_fs).2
    (at_root "roster") = Ok [k9].
Proof.
  destruct (append_roster (P := Toy.toy_primitives) pid None (at_root "roster") k9 empty_fs) as [r s'] eqn:E.
  assert (is_ok r = true) as Hr.
  { change r with (r, s').1. rewrite <- E. vm_compute. reflexivity. }
  destruct (append_roster_exact (P := Toy.toy_primitives) pid None (at_root "roster") k9 empty_fs r s' E)
    as [_ H]; [by eexists [RootDir], _|].
  destruct (H Hr) as (old & [[_ ->] | Hold] & Hnew); [exact Hnew|].
  vm_compute in Hold. discriminate Hold.
Defined.

Lemma roster_handle_fail_closed_witness :
  let h := mkRosterHandle (P := Toy.toy_primitives) (at_root "roster") [k7] 64 in
  rh_current (fold_left (fun h s => (RosterHandle_reload s h).2) [empty_fs; pk_exists] h) = [k7].
Proof.
  destruct (roster_handle_fail_closed (P := Toy.toy_primitives) roster_fs (at_root "roster") 64
    (mkRosterHandle (at_root "roster") [k7] 64) [empty_fs; pk_exists]) as [H _].
  - unfold RosterHandle_load_with_limit. rewrite (load_roster_text _ _ [k7]); [reflexivity|reflexivity|done|simpl; lia].
  - exact H.
Defined.

Lemma keygen_no_clobber_witness :
  fs_files (keygen_run (P := Toy.toy_primitives) pid seed false false None None None args pk_exists).2 !! at_root "pk" =
  Some BinaryFile.
Proof.
  apply (keygen_no_clobber (P := Toy.toy_primitives) pid seed false false None None None args pk_exists (at_root "pk") BinaryFile).
  - reflexivity.
  - exact sample_file_paths.
  - reflexivity.
  - apply Forall_forall. repeat (apply Forall_cons; split; [vm_compute; discriminate|]). apply Forall_nil_2.
  - intros rp [= <-]. vm_compute. discriminate.
Defined.

Lemma keygen_leaves_empty_identity_witness :
  let '(r, s') := keygen_run (P := Toy.toy_primitives) pid seed false false None None None args pk_exists in
  fs_lookup s' (at_root "id") = Some (TextFile []) /\
  (keygen_run (P := Toy.toy_primitives) pid seed false false None None None args s').1 =
    Err (KeygenIdentity (Exists_ (at_root "id"))).
Proof.
  pose proof (keygen_leaves_empty_identity (P := Toy.toy_primitives) pid seed None None None args pk_exists
    eq_refl eq_refl ltac:(by eexists) ltac:(intros rp [= <-]; split; vm_compute; discriminate)) as H.
  destruct (keygen_run _ _ _ _ _ _ _) as [r s']. destruct H as (_ & H1 & _ & H2). split; assumption.
Defined.

Lemma keygen_provisions_witness :
  provisioned (P := Toy.toy_primitives) seed args empty_fs
    (keygen_run (P := Toy.toy_primitives) pid seed false false None None None args empty_fs).2.
Proof.
  destruct (keygen_run (P := Toy.toy_primitives) pid seed false false None None None args empty_fs) as [r s'] eqn:E.
  assert (is_ok r = true) as Hr.
  { change r with (r, s').1. rewrite <- E. vm_compute. reflexivity. }
  apply (keygen_provisions (P := Toy.toy_primitives) pid seed false false None None None args empty_fs s').
  - destruct r as [[]|]; [exact E|discriminate Hr].
  - exact sample_file_paths.
  - intros p q Hp Hq.
    assert (Forall (fun p => Forall (fun q => fs_key empty_fs (tmp_path pid p) <> fs_key empty_fs q)
      (outputs args)) (outputs args)) as H by (apply (bool_decide_unpack _); vm_compute; exact I).
    rewrite Forall_forall in H. specialize (H p Hp). rewrite Forall_forall in H. exact (H q Hq).
Defined.
