(* ===== verification/SetupOk.v ===== *)
(** * Theorems on start-up

    The cover policy the arguments give, when the two ends start and with which
    configuration, that provisioned ends agree, and that the application task is
    a run of the forwarder. *)

From S2P Require Import Prelude Bytes Errors Codec Replay Crypto Envelope WireSession Exec Scheduler Net IpAddr HandshakeMsg HandshakeClient HandshakeServer HandshakeSafety HandshakeRun SessionCommon ServerManager ClientManager Drivers Oldest Relay Forward Files Identity Setup IdentityOk.

Local Open Scope Z_scope.

(** ** Policies *)

(** The cover policy is exactly what was asked for: disabled only by
    [--no-cover], otherwise the rate in megabits, between 1 and 470, with an
    interval no shorter than the floor of the scheduler; every other rate, also
    one whose bit rate overflows, is refused. *)
Theorem cover_args_exact no_cover mbps policy :
  0 <= mbps ->
  cover_policy_from_args no_cover mbps = Ok policy <->
  (no_cover = true /\ policy = mkCoverPolicy false (interval CoverPolicy_default)) \/
  (no_cover = false /\ 1 <= mbps <= 470 /\
   policy = mkCoverPolicy true (10240 * 1000 / mbps) /\ MIN_COVER_INTERVAL_NANOS <= interval policy).
Proof.
  intros Hm. unfold cover_policy_from_args. destruct no_cover; [naive_solver congruence|].
  assert (MAX_COVER_RATE_BPS = 470544986) as Hr by (vm_compute; reflexivity).
  destruct (Z.eqb_spec mbps 0) as [->|Hz]; [split; [done|]; intros [[? _]|(_ & ? & _)]; [done|lia]|].
  unfold checked_mul, umax. destruct (Z.leb_spec (mbps * 1000000) (2 ^ 64 - 1)) as [Hle|Hgt].
  2:{ split; [done|]. intros [[? _]|(_ & ? & _)]; [done|lia]. }
  rewrite Hr. destruct (Z.ltb_spec 470544986 (mbps * 1000000)) as [Hlt|Hge].
  { split; [done|]. intros [[? _]|(_ & ? & _)]; [done|lia]. }
  assert (interval_from_rate_bps (mbps * 1000000) = 10240 * 1000 / mbps /\
          MIN_COVER_INTERVAL_NANOS <= 10240 * 1000 / mbps) as [Hi Hmin].
  { unfold interval_from_rate_bps, saturating_mul. rewrite (Z.max_l (mbps * 1000000) 1) by lia.
    replace (Z.min (umax 64) (Z.of_nat PACKET_SIZE * 8 * 1000000000)) with (10240 * 1000 * 1000000)
      by (vm_compute; reflexivity).
    rewrite Z.div_mul_cancel_r by lia. unfold MIN_COVER_INTERVAL_NANOS.
    assert (21762 <= 10240 * 1000 / mbps) by (apply Z.div_le_lower_bound; lia). lia. }
  rewrite Hi. split.
  - intros [= <-]. right. split; [done|]. split; [lia|]. by split.
  - intros [[? _]|(_ & _ & -> & _)]; done.
Qed.

Lemma cover_args_exact_witness :
  cover_policy_from_args false 470 = Ok (mkCoverPolicy true 21787).
Proof. apply (cover_args_exact false 470); [lia|]. right. repeat split; try done; vm_compute; discriminate. Defined.

(** One step of a chain of [?]. *)
Ltac binds := cbn [ok_or map_err mbind result_bind].

Section Setup.
Context {P : Primitives}.

Lemma limits_valid n secs : SessionLimits_validate (limits_with_cap n secs) = Ok ().
Proof. reflexivity. Qed.

(** The configuration of a loaded roster keeps all of it and is valid. *)
Lemma config_valid kp roster max :
  roster <> [] -> (length roster <= max)%nat ->
  ServerConfig_validate (with_roster_limit kp roster max) = Ok () /\
  sc_roster (with_roster_limit kp roster max) = roster.
Proof.
  intros Hne Hlen. unfold with_roster_limit. rewrite (proj2 (Nat.leb_le _ _) Hlen). split; [|done].
  unfold ServerConfig_validate. cbn [sc_version sc_roster sc_max_roster_size sc_with_roster].
  rewrite bool_decide_true by done. rewrite bool_decide_false by done. cbn [negb].
  by rewrite (proj2 (Nat.ltb_ge _ _) Hlen).
Qed.

Definition server_ready (cfg : ServerConfig) (limits : SessionLimits) (now : Instant) : ServerSessionManager :=
  mkServerSessionManager limits (ServerHandshake_new cfg now) ∅ (FailGate_new now) [] [].

(** The managers of the two ends of a tunnel, before any traffic. *)
Definition client_ready (cfg : ClientConfig) (limits : SessionLimits) (m : ClientSessionManager) : Prop :=
  ClientSessionManager_new cfg limits = Ok m /\ cm_cfg m = cfg /\ cm_limits m = limits.

Lemma manager_new_ok kp roster max n secs now :
  roster <> [] -> (length roster <= max)%nat ->
  ServerSessionManager_new (with_roster_limit kp roster max) (limits_with_cap n secs) now =
  Ok (server_ready (with_roster_limit kp roster max) (limits_with_cap n secs) now).
Proof.
  intros Hne Hlen. unfold ServerSessionManager_new. by rewrite (proj1 (config_valid kp roster max Hne Hlen)), limits_valid.
Qed.

Lemma client_new_ok addr kp key n secs :
  exists m, client_ready (ClientConfig_new addr kp key) (limits_with_cap n secs) m.
Proof.
  unfold client_ready, ClientSessionManager_new. cbn [cc_version ClientConfig_new].
  rewrite bool_decide_true by done. rewrite limits_valid. cbn [negb mbind result_bind].
  eexists. split; [reflexivity|done].
Qed.

(** What a loaded configuration looks like. *)
Definition server_config (kp : MlDsaKeypair) (roster : list VerifyingKey) (max : nat) : ServerConfig :=
  mkServerConfig PROTOCOL_VERSION kp roster max 64 (from_secs 30) 16 (from_secs 10).

Lemma loaded_config kp roster max :
  (length roster <= max)%nat -> with_roster_limit kp roster max = server_config kp roster max.
Proof. intros Hlen. unfold with_roster_limit. by rewrite (proj2 (Nat.leb_le _ _) Hlen). Qed.

Lemma ready_config kp roster max limits now :
  (length roster <= max)%nat ->
  sh_cfg (sm_hs (server_ready (server_config kp roster max) limits now)) = server_config kp roster max.
Proof.
  intros Hlen. unfold server_ready, ServerHandshake_new. cbn [sm_hs sh_cfg sc_max_roster_size sc_roster server_config].
  by rewrite (proj2 (Nat.ltb_ge _ _) Hlen).
Qed.

(** The relay-mode server starts exactly when both files are given and load, the
    cover arguments are accepted and the socket binds, and then with exactly the
    identity and the whole roster of the files: a non-empty roster within the
    limit, never a truncated one. *)
Theorem server_setup_exact fs args now io m cover :
  v2_server_setup fs args now io = Ok (m, cover) <->
  exists idp rp kp roster,
    sa_identity args = Some idp /\ sa_roster args = Some rp /\ load_identity fs idp = Ok kp /\
    load_roster_with_limit fs rp (sa_max_roster_size args) = Ok roster /\
    cover_policy_from_args (sa_no_cover args) (sa_cover_mbps args) = Ok cover /\ io = true /\
    m = server_ready (server_config kp roster (sa_max_roster_size args))
          (limits_with_cap 64 (sa_lifetime_cap_secs args)) now.
Proof.
  unfold v2_server_setup. split.
  - intros H. apply bind_ok in H as (idp & Hi & H). apply bind_ok in H as (rp & Hr & H).
    apply bind_ok in H as (kp & Hk & H). apply bind_ok in H as (roster & Hro & H).
    apply bind_ok in H as (c & Hc & H).
    destruct (sa_identity args) as [idp'|]; [|done]. injection Hi as ->.
    destruct (sa_roster args) as [rp'|]; [|done]. injection Hr as ->.
    destruct (load_identity fs idp) as [kp'|] eqn:Ek; [|done]. injection Hk as ->.
    destruct (load_roster_with_limit fs rp _) as [ro'|] eqn:Er; [|done]. injection Hro as ->.
    destruct (cover_policy_from_args _ _) as [c'|]; [|done]. injection Hc as ->.
    destruct (load_roster_bounds _ _ _ _ Er) as [Hne Hlen].
    change (sl_max_sessions SessionLimits_default) with 64%nat in H.
    rewrite (manager_new_ok kp roster _ _ _ now Hne Hlen) in H. cbn [map_err mbind result_bind] in H.
    destruct io; [|done]. injection H as <- <-. rewrite loaded_config by done. by exists idp, rp, kp, roster.
  - intros (idp & rp & kp & roster & -> & -> & Hk & Hro & Hc & -> & ->).
    destruct (load_roster_bounds _ _ _ _ Hro) as [Hne Hlen].
    binds. rewrite Hk. binds. rewrite Hro. binds. rewrite Hc. binds.
    change (sl_max_sessions SessionLimits_default) with 64%nat.
    rewrite (manager_new_ok kp roster _ _ _ now Hne Hlen), loaded_config by done. done.
Qed.

(** A TUN server refuses a roster of more than 64 keys whatever limit it was
    given, where the relay-mode server accepts it. *)
Theorem tun_setup_ignores_limit fs args now idp rp kp roster cover :
  sa_identity args = Some idp -> sa_roster args = Some rp -> load_identity fs idp = Ok kp ->
  load_roster_with_limit fs rp (sa_max_roster_size args) = Ok roster -> (64 < length roster)%nat ->
  cover_policy_from_args (sa_no_cover args) (sa_cover_mbps args) = Ok cover ->
  is_ok (v2_server_setup fs args now true) = true /\
  tun_server_setup fs args now true = Err (SetupIdentity (RosterTooLarge rp (length roster) 64)).
Proof.
  intros Hi Hr Hk Hro Hlen Hc. split.
  - destruct (v2_server_setup fs args now true) as [[m c]|e] eqn:E; [done|].
    assert (v2_server_setup fs args now true = Ok (server_ready (server_config kp roster (sa_max_roster_size args))
      (limits_with_cap 64 (sa_lifetime_cap_secs args)) now, cover)) as E' by (apply server_setup_exact; by exists idp, rp, kp, roster).
    by rewrite E in E'.
  - unfold tun_server_setup. rewrite Hi, Hr. binds. rewrite Hk. binds.
    assert (load_roster fs rp = Err (RosterTooLarge rp (length roster) 64)) as ->; [|done].
    unfold load_roster, load_roster_with_limit, parse_blobs in *. apply bind_ok in Hro as (blobs & Hb & Hd).
    apply bind_ok in Hb as (ls & Hls & Hb). apply bind_ok in Hb as ([] & _ & Hb).
    apply bind_ok in Hb as (blobs' & Hdb & Hb). rewrite Hls. cbn [mbind result_bind].
    assert (length ls = length roster) as ->.
    { rewrite <- (decode_blobs_length _ _ _ _ Hdb). rewrite (decode_keys_length _ _ _ Hd). by destruct blobs'; simplify_res. }
    change MAX_ROSTER_SIZE with 64%nat. by rewrite (proj2 (Nat.ltb_lt _ _) Hlen).
Qed.

(** C35: Provisioned ends match. When the roster the server loads holds the client's
    public key and the key file the client loads holds the server's, both ends
    start, and their configurations are those an honest handshake asks for. *)
Theorem provisioned_ends_match fss fsc sargs cargs now idps rps ks roster idpc pkc kc sc cc :
  sa_identity sargs = Some idps -> sa_roster sargs = Some rps ->
  load_identity fss idps = Ok ks -> load_roster_with_limit fss rps (sa_max_roster_size sargs) = Ok roster ->
  ca_identity cargs = Some idpc -> ca_server_key cargs = Some pkc ->
  load_identity fsc idpc = Ok kc -> load_public_key fsc pkc = Ok (dsa_public ks) ->
  dsa_public kc ∈ roster ->
  cover_policy_from_args (sa_no_cover sargs) (sa_cover_mbps sargs) = Ok sc ->
  cover_policy_from_args (ca_no_cover cargs) (ca_cover_mbps cargs) = Ok cc ->
  exists ms mc,
    v2_server_setup fss sargs now true = Ok (ms, sc) /\ v2_client_setup fsc cargs true = Ok (mc, cc) /\
    honest_configs (cm_cfg mc) (sh_cfg (sm_hs ms)) /\ cc_server_addr (cm_cfg mc) = ca_remote cargs.
Proof.
  intros His Hrs Hks Hro Hic Hpk Hkc Hsk Hin Hsc Hcc.
  destruct (load_roster_bounds _ _ _ _ Hro) as [Hne Hlen].
  destruct (client_new_ok (ca_remote cargs) kc (dsa_public ks) 64 (ca_lifetime_cap_secs cargs)) as (mc & Hmc & Ec & _).
  eexists _, mc. split; [apply server_setup_exact; by exists idps, rps, ks, roster|]. split.
  { unfold v2_client_setup. rewrite Hic, Hpk. binds. rewrite Hkc. binds. rewrite Hsk. binds. rewrite Hcc. binds. change (sl_max_sessions SessionLimits_default) with 64%nat.
    by rewrite Hmc. }
  assert (forall fs p k, load_identity fs p = Ok k -> dsa_public k = verifying_key (dsa_secret k)) as Hpub.
  { intros fs p k Hk. unfold load_identity in Hk. apply bind_ok in Hk as (b & _ & Hk). by injection Hk as <-. }
  rewrite Ec, ready_config by done. split; [|done]. split; cbn.
  - done.
  - done.
  - by apply (Hpub fss idps).
  - by rewrite <- (Hpub fsc idpc).
  - done.
  - lia.
  - lia.
Qed.

End Setup.

(** ** The application task *)

Section App.
Context {Ord : IterOrder PoolKey ForwardEntry}.

(** What a notification asks of the forwarder. *)
Definition notification_steps (x : FwdIO * ManagerNotification) : list FwdStep :=
  match x.2 with
  | NData sid inner => [StepHandle x.1 sid (ip_payload inner)]
  | NClosed sid _ => [StepClosed sid]
  | _ => []
  end.

Definition is_established (x : FwdIO * ManagerNotification) : bool :=
  match x.2 with NEstablished _ _ => true | _ => false end.
Definition is_closed (x : FwdIO * ManagerNotification) : bool :=
  match x.2 with NClosed _ _ => true | _ => false end.

Definition tally (f : FwdIO * ManagerNotification -> bool) (ns : list (FwdIO * ManagerNotification)) : Z :=
  Z.of_nat (length (filter (fun x => f x = true) ns)).

Lemma tally_cons f x ns : tally f (x :: ns) = (if f x then 1 else 0) + tally f ns.
Proof. unfold tally. rewrite filter_cons. destruct (f x); [rewrite decide_True by done; cbn; lia|by rewrite decide_False]. Qed.

Lemma wrap_add x y : wrap 64 (wrap 64 x + y) = wrap 64 (x + y).
Proof. apply Zplus_mod_idemp_l. Qed.

Lemma wrap64_range x : in_range 64 (wrap 64 x).
Proof. apply Z.mod_pos_bound. lia. Qed.

(** The application task of the server is a run of the forwarder over the data
    and the closures it was notified of, ended by a shutdown; its counters are
    the handshakes and, modulo 2^64, the handshakes less the closures. *)
Theorem app_task_exact echo ns :
  at_forwarder (app_task echo ns) = fwd_run ((ns ≫= notification_steps) ++ [StepShutdown]) (Forwarder_new echo) /\
  at_total_handshakes (app_task echo ns) = wrap 64 (tally is_established ns) /\
  at_active_sessions (app_task echo ns) = wrap 64 (tally is_established ns - tally is_closed ns).
Proof.
  set (a0 := mkAppTask (Forwarder_new echo) 0 0).
  assert (forall a, let a' := fold_left (fun a x => app_on_notification x.1 x.2 a) ns a in
    at_forwarder a' = fwd_run (ns ≫= notification_steps) (at_forwarder a) /\
    wrap 64 (at_total_handshakes a') = wrap 64 (at_total_handshakes a + tally is_established ns) /\
    wrap 64 (at_active_sessions a') = wrap 64 (at_active_sessions a + (tally is_established ns - tally is_closed ns)) /\
    (in_range 64 (at_total_handshakes a) -> in_range 64 (at_total_handshakes a')) /\
    (in_range 64 (at_active_sessions a) -> in_range 64 (at_active_sessions a'))) as Hrun.
  { clear a0. induction ns as [|[io n] ns IH]; intros a.
    { cbn. unfold tally. cbn. split; [done|]. split; [f_equal; lia|]. split; [f_equal; lia|]. done. }
    rewrite bind_cons. unfold fwd_run in *. rewrite fold_left_app, !tally_cons. cbn [fold_left fst snd].
    destruct (IH (app_on_notification io n a)) as (H1 & H2 & H3 & H4 & H5). clear IH.
    split; [rewrite H1; by destruct n|]. rewrite H2, H3.
    destruct n; cbn [app_on_notification is_established is_closed snd at_total_handshakes at_active_sessions] in *;
      unfold wrapping_sub in *; rewrite ?wrap_add;
      (split; [f_equal; lia|]; split; [f_equal; lia|]; split; auto using wrap64_range). }
  destruct (Hrun a0) as (H1 & H2 & H3 & H4 & H5). unfold app_task. fold a0. cbn [at_forwarder at_total_handshakes at_active_sessions].
  split; [unfold fwd_run in *; rewrite fold_left_app; cbn [fold_left fwd_step]; by rewrite H1|].
  cbn [at_total_handshakes at_active_sessions a0] in *.
  assert (forall x, in_range 64 x -> wrap 64 x = x) as Hid by (intros x Hx; by apply Z.mod_small).
  rewrite Hid in H2, H3 by (by apply H4 || by apply H5). by rewrite H2, H3.
Qed.

End App.

(** ** A provisioned pair *)

Module SetupSample.

Definition at_root (n : string) : Path := [RootDir; Normal (text_of n)].
Definition pid : text := text_of "7".
Definition server_seed : bytes := x2a :: zeros 31.
Definition client_seed : bytes := x2b :: zeros 31.

(** The server's keys, then the client's with its key added to the roster. *)
Definition fs : Fs :=
  let s1 := (keygen_run (P := Toy.toy_primitives) pid server_seed false false None None None
    (mkKeygenArgs (at_root "server.id") (at_root "server.pub") None false) (mkFs [RootDir] ∅)).2 in
  (keygen_run (P := Toy.toy_primitives) pid client_seed false false None None None
    (mkKeygenArgs (at_root "client.id") (at_root "client.pub") (Some (at_root "roster")) false) s1).2.

Definition server_args : ServerArgs :=
  mkServerArgs (Some (at_root "server.id")) (Some (at_root "roster")) false 2 false 64 86400 false.
Definition client_args : ClientArgs :=
  mkClientArgs Sample.server_addr (Some (at_root "client.id")) (Some (at_root "server.pub")) 2 false 86400 false.

(** What the two ends load, and that it matches. *)
Definition loads : bool :=
  match load_identity (P := Toy.toy_primitives) fs (at_root "server.id"),
        load_identity (P := Toy.toy_primitives) fs (at_root "client.id"),
        load_public_key (P := Toy.toy_primitives) fs (at_root "server.pub"),
        load_roster_with_limit (P := Toy.toy_primitives) fs (at_root "roster") 64 with
  | Ok ks, Ok kc, Ok pk, Ok [k] => bool_decide (pk = dsa_public ks :> byte) && bool_decide (k = dsa_public kc :> byte)
  | _, _, _, _ => false
  end.

Lemma loads_true : loads = true.
Proof. vm_compute. reflexivity. Qed.

End SetupSample.

Import SetupSample.

Lemma provisioned_ends_match_witness : exists ms mc sc cc,
  v2_server_setup (P := Toy.toy_primitives) fs server_args 0 true = Ok (ms, sc) /\
  v2_client_setup (P := Toy.toy_primitives) fs client_args true = Ok (mc, cc) /\
  honest_configs (cm_cfg mc) (sh_cfg (sm_hs ms)).
Proof.
  pose proof loads_true as H. unfold loads in H.
  destruct (load_identity (P := Toy.toy_primitives) fs (at_root "server.id")) as [ks|] eqn:Hks; [|discriminate H].
  destruct (load_identity (P := Toy.toy_primitives) fs (at_root "client.id")) as [kc|] eqn:Hkc; [|discriminate H].
  destruct (load_public_key (P := Toy.toy_primitives) fs (at_root "server.pub")) as [pk|] eqn:Hpk; [|discriminate H].
  destruct (load_roster_with_limit (P := Toy.toy_primitives) fs (at_root "roster") 64) as [[|k [|]]|] eqn:Hro;
    try discriminate H.
  apply andb_prop in H as [H1 H2]. apply bool_decide_eq_true in H1, H2. subst pk k.
  destruct (provisioned_ends_match (P := Toy.toy_primitives) fs fs server_args client_args 0 (at_root "server.id")
    (at_root "roster") ks [dsa_public kc] (at_root "client.id") (at_root "server.pub") kc
    (mkCoverPolicy true 5120000) (mkCoverPolicy true 5120000) eq_refl eq_refl Hks Hro
    eq_refl eq_refl Hkc Hpk) as (ms & mc & H1 & H2 & H3 & _).
  - left.
  - vm_compute. reflexivity.
  - vm_compute. reflexivity.
  - exists ms, mc, (mkCoverPolicy true 5120000), (mkCoverPolicy true 5120000). exact (conj H1 (conj H2 H3)).
Defined.
