(* ===== verification/RelayDelivery.v ===== *)
(** * Delivery of a relayed datagram and of its reply

    The relay mode from end to end: an application's datagram goes through
    [relay.rs], the client driver, the server driver and the application task
    into the forwarding backend, which sends the payload to its destination; a
    reply read there comes back the same way to the application. *)

From S2P Require Import Prelude Bytes Errors Codec Replay Crypto Envelope WireSession Scheduler Exec Net IpAddr HandshakeMsg HandshakeFrag HandshakeClient HandshakeServer HandshakeSafety HandshakeClientOk SessionCommon ServerManager ClientManager Drivers Oldest Relay Forward FailGateOk ServerManagerOk ClientManagerOk ClientManagerSafe DriversOk ForwardOk Channel Files Identity Setup.

Local Open Scope Z_scope.

(** ** The two drivers share a session *)

Section Relayed.
Context {P : Primitives} {L : PrimitivesLaws P}.

(** Client [c] and server [s] hold the two ends [w] and [e] of a session; neither
    has accepted a packet the other has yet to send. *)
Record joined (c : ClientDriver) (s : ServerDriver) (w : WireSession) (e : SessionEntry) : Prop := {
  jn_client : cm_session (cv_manager c) = Some w;
  jn_server : sm_sessions (sd_manager s) !! ws_session_id w = Some e;
  jn_live_c : ws_live (ws_session_id w) w;
  jn_live_s : ws_live (ws_session_id w) (se_session e);
  jn_paired : paired (ws_cipher w) (ws_cipher (se_session e));
  jn_up : behind (replay (ws_cipher (se_session e))) (send_counter (ws_cipher w));
  jn_down : behind (replay (ws_cipher w)) (send_counter (ws_cipher (se_session e)));
  jn_room : send_counter (ws_cipher w) < 2 ^ 60 /\ send_counter (ws_cipher (se_session e)) < 2 ^ 60 }.

Lemma paired_sym a b : paired a b -> paired b a.
Proof. intros (H1 & H2 & H3 & H4 & H5 & H6). by repeat split. Qed.

(** The confirmation signal at the head of a turn leaves the manager alone. *)
Lemma signal_ready_ok t c :
  io_ok (ct_io t) -> exists c1 es, client_signal_ready t c = (Ret (), c1) /\ cv_manager c1 = cv_manager c /\
    cv_log c1 = cv_log c ++ (Notified <$> es).
Proof.
  intros [_ Hn]. unfold client_signal_ready, mbind, M_bind, get. case_match.
  - unfold modify, arm_slot, notify. destruct (cm_session_id (cv_manager c)) as [sid|].
    + rewrite Hn. eexists _, [NReady sid]. done.
    + eexists _, []. split; [done|]. cbn. by rewrite app_nil_r.
  - exists c, []. split; [done|]. cbn. by rewrite app_nil_r.
Qed.

Lemma pad_payload_app msg :
  (length msg <= PAYLOAD_LEN)%nat -> pad_payload msg = msg ++ zeros (PAYLOAD_LEN - length msg).
Proof. apply write_at_zeros_0. Qed.

(** A payload handed to the client driver leaves as one packet of the session. *)
Lemma client_sends t c s w e msg :
  joined c s w e -> io_ok (ct_io t) -> (length msg <= PAYLOAD_LEN)%nat ->
  exists p c' w' es, client_turn t (CICmd (Some msg)) c = (Ret true, c') /\
    cv_log c' = cv_log c ++ (Notified <$> es) ++ [Sent p (cm_peer (cv_manager c))] /\
    cm_session (cv_manager c') = Some w' /\ ws_live (ws_session_id w) w' /\
    ws_cipher w' = set_send_counter (ws_cipher w) (send_counter (ws_cipher w) + 1) /\
    sealed Data (ws_cipher w) (send_counter (ws_cipher w)) (pad_payload msg) p.
Proof.
  intros Hj Hio Hl. destruct (signal_ready_ok t c Hio) as (c1 & es & E1 & Em & El).
  destruct (client_seals (ct_draws t) Data (pad_payload msg) (cv_manager c1) w) as (p & w' & E & Hl' & Ew & Hp).
  { rewrite Em. apply Hj. }
  { apply Hj. }
  { destruct (jn_room _ _ _ _ Hj). unfold MAX_PACKET_NONCE, umax. lia. }
  { by apply length_pad_payload. }
  set (c2 := cv_set_manager (cm_set_session (Some w') (cv_manager c1)) c1).
  exists p, (log_effect (Sent p (cm_peer (cv_manager c1))) c2), w', es. split; [|split; [|by split]].
  - unfold client_turn, mbind, M_bind. rewrite E1. unfold client_cmd_arm.
    unfold mbind, M_bind, try_client, client_app_outbound, get. unfold mbind, M_bind.
    rewrite (proj2 (Nat.ltb_ge _ _) Hl), bool_decide_false by (by rewrite Em, (jn_client _ _ _ _ Hj)).
    rewrite E. unfold send_to, try, mbind, M_bind, modify. by rewrite (proj1 Hio).
  - cbn. by rewrite El, Em, <- app_assoc.
Qed.

(** The packet reaches the application of the server, and renews the peer. *)
Lemma server_delivers t c s w e msg p from :
  joined c s w e -> io_ok (st_io t) -> (length msg <= PAYLOAD_LEN)%nat ->
  sealed Data (ws_cipher w) (send_counter (ws_cipher w)) (pad_payload msg) p ->
  peek (sm_fail_gate (sd_manager s)) from (st_now t) (sm_limits (sd_manager s)) = true ->
  exists s' e', server_turn t (SIRecv (Ok (p, from))) s = (Ret true, s') /\
    sd_log s' = sd_log s ++ [Notified (NData (ws_session_id w)
      (mkInnerPlaintext Data (send_direction (cs_role (ws_cipher w))) (pad_payload msg)))] /\
    sm_sessions (sd_manager s') !! ws_session_id w = Some e' /\ se_peer e' = from /\
    ws_live (ws_session_id w) (se_session e') /\
    ws_cipher (se_session e') = set_replay (ws_cipher (se_session e))
      (accept (replay (ws_cipher (se_session e))) (send_counter (ws_cipher w))).2.
Proof.
  intros [Hcs Hss Hlc Hls Hp Hu _ [Hr _]] Hio Hl Hsl Hpk.
  pose proof Hlc as (_ & _ & Ei & Hwf). pose proof Hls as (Hst & Eis & Ecs & Hwfs).
  assert (0 <= send_counter (ws_cipher w)) by apply Hwf.
  destruct (server_accepts Data (st_draws t) (st_now t) p from (sd_manager s) e (ws_cipher w)
    (send_counter (ws_cipher w)) (pad_payload msg)) as (w' & Hst' & Ei' & Ew & Eh); try done.
  { by left. }
  { apply Hwf. }
  { by apply length_pad_payload. }
  { by rewrite Ei. }
  { by apply behind_accepts. }
  rewrite Ei in Eh. set (e' := mkSessionEntry w' from (st_now t) (se_established_at e)) in *.
  eexists _, e'. split.
  { unfold server_turn, server_recv_arm, on_manager, zoom, mbind, M_bind, modify.
    change (sd_manager (sd_set_reset_noticed false s)) with (sd_manager s). rewrite Eh.
    unfold server_on_event, notify. rewrite (proj2 Hio). reflexivity. }
  split; [done|]. split; [apply lookup_insert_eq|]. split; [done|]. split; [|exact Ew].
  change (se_session e') with w'. split; [done|]. split; [by rewrite Ei'|]. rewrite Ew. by split.
Qed.

(** The way back: a command of the application leaves as one packet to the
    session's current peer. *)
Lemma server_sends t c s w e msg :
  joined c s w e -> io_ok (st_io t) -> (length msg <= PAYLOAD_LEN)%nat ->
  exists p s' w', server_turn t (SICmd (Some (mkServerAppCommand (ws_session_id w) msg))) s = (Ret true, s') /\
    sd_log s' = sd_log s ++ [Sent p (se_peer e)] /\
    sm_sessions (sd_manager s') !! ws_session_id w = Some (entry_set_session w' e) /\ ws_live (ws_session_id w) w' /\
    ws_cipher w' = set_send_counter (ws_cipher (se_session e)) (send_counter (ws_cipher (se_session e)) + 1) /\
    sealed Data (ws_cipher (se_session e)) (send_counter (ws_cipher (se_session e))) (pad_payload msg) p.
Proof.
  intros Hj Hio Hl. destruct (jn_room _ _ _ _ Hj) as [_ Hr].
  destruct (server_seals Data (pad_payload msg) (sd_manager s) (ws_session_id w) e) as (p & w' & E & Hl' & Ew & Hp).
  { apply Hj. }
  { apply Hj. }
  { unfold MAX_PACKET_NONCE, umax. lia. }
  { by apply length_pad_payload. }
  eexists p, _, w'. split.
  { unfold server_turn, server_cmd_arm, server_app_outbound. cbn [sac_sid sac_payload].
    rewrite (proj2 (Nat.ltb_ge _ _) Hl), E. unfold send_to, try, mbind, M_bind, modify. rewrite (proj1 Hio). reflexivity. }
  split; [done|]. split; [apply lookup_insert_eq|]. by split.
Qed.

(** The packet reaches the relay of the client, and confirms the session. *)
Lemma client_delivers t c s w e msg p from :
  joined c s w e -> io_ok (ct_io t) -> (length msg <= PAYLOAD_LEN)%nat ->
  sealed Data (ws_cipher (se_session e)) (send_counter (ws_cipher (se_session e))) (pad_payload msg) p ->
  exists c' w' es, client_turn t (CIRecv (Ok (p, from))) c = (Ret true, c') /\
    cv_log c' = cv_log c ++ (Notified <$> es) ++ [Notified (NData (ws_session_id w)
      (mkInnerPlaintext Data (send_direction (cs_role (ws_cipher (se_session e)))) (pad_payload msg)))] /\
    cm_session (cv_manager c') = Some w' /\ ws_live (ws_session_id w) w' /\
    ws_cipher w' = set_replay (ws_cipher w)
      (accept (replay (ws_cipher w)) (send_counter (ws_cipher (se_session e)))).2.
Proof.
  intros [Hcs Hss Hlc Hls Hp _ Hd [_ Hr]] Hio Hl Hsl.
  pose proof Hls as (_ & _ & Ecs & Hwfs). assert (0 <= send_counter (ws_cipher (se_session e))) by apply Hwfs.
  destruct (signal_ready_ok t c Hio) as (c1 & es & E1 & Em & El).
  set (c2 := cv_set_reset_noticed false c1).
  destruct (client_accepts Data (ct_draws t) p from (cv_manager c2) w (ws_cipher (se_session e))
    (send_counter (ws_cipher (se_session e))) (pad_payload msg)) as (w' & Hl' & Ew & Eh); try done.
  { by left. }
  { by apply paired_sym. }
  { apply Hwfs. }
  { by apply length_pad_payload. }
  { change (cv_manager c2) with (cv_manager c1). by rewrite Em. }
  { by rewrite Ecs. }
  { by apply behind_accepts. }
  rewrite Ecs in Eh, Hl'.
  assert (forall b, exists c3, (s0 ← get;
    (if b && is_unconfirmed (cv_manager s0) then arm_retransmit t else mret ());;
    arm_slot t cover_owns;; (mret true : M ClientDriver ManagerError bool))
     (log_effect (Notified (NData (ws_session_id w) (mkInnerPlaintext Data
        (send_direction (cs_role (ws_cipher (se_session e)))) (pad_payload msg))))
        (cv_set_manager (cm_confirm from (cm_set_session (Some w') (cv_manager c2))) c2)) = (Ret true, c3) /\
    cv_log c3 = cv_log c1 ++ [Notified (NData (ws_session_id w) (mkInnerPlaintext Data
        (send_direction (cs_role (ws_cipher (se_session e)))) (pad_payload msg)))] /\
    cm_session (cv_manager c3) = Some w') as Htail.
  { intros b. unfold mbind, M_bind, get, arm_retransmit, arm_slot, modify. destruct (b && _); eexists; (split; [reflexivity|split; reflexivity]). }
  destruct (Htail (negb (is_unconfirmed (cv_manager c2)))) as (c3 & E3 & L3 & S3).
  exists c3, w', es. split; [|split; [by rewrite L3, El, <- app_assoc|by split]].
  unfold client_turn, mbind, M_bind. rewrite E1. unfold client_recv_arm, mbind, M_bind, modify, get at 1.
  fold c2. unfold on_client, zoom. rewrite Eh. unfold client_on_datagram_event, notify. rewrite (proj2 Hio). exact E3.
Qed.

End Relayed.

(** ** The forwarding backend *)

Definition io_works (io : FwdIO) : Prop := fi_bind io = true /\ fi_connect io = true /\ fi_send io = true.

(** Effects on the pool, none of them a datagram. *)
Definition pool_change (e : FwdEffect) : Prop :=
  match e with FwdAborted _ | FwdOpened _ => True | _ => False end.

Lemma pool_change_aborted keys : Forall pool_change (FwdAborted <$> keys).
Proof. apply Forall_fmap, Forall_true. done. Qed.

Lemma fw_handle_sends {Ord : IterOrder PoolKey ForwardEntry} io sid slot f dest d :
  in_caps (fw_sockets f) -> fw_echo f = false -> io_works io ->
  decode_relay slot = Ok (dest, d) -> Egress.deny_reason dest (fw_policy f) = None ->
  exists es, fw_log (fw_handle io sid slot f) = fw_log f ++ es ++ [FwdSent (sid, dest) d] /\ Forall pool_change es.
Proof.
  intros Hc He (Hb & Hcn & Hs) Hd Hden. unfold fw_handle.
  destruct (prune_idle_spec (fi_now_handle io) f) as [(E1 & E2 & _ & Hsub & k1 & El) _].
  set (f1 := prune_idle _ f) in *. rewrite Hd, E2, Hden, E1, He.
  destruct (fw_sockets f1 !! (sid, dest)) as [en|] eqn:En.
  - rewrite En, Hs. exists (FwdAborted <$> k1). cbn. rewrite El, <- app_assoc. split; [done|apply pool_change_aborted].
  - destruct (prune_and_insert_room io (sid, dest) f1) as (f2 & (_ & _ & _ & _ & k2 & El2) & _ & ->);
      [by eapply in_caps_sub|].
    rewrite Hb, Hcn. cbn [negb fw_emit fw_set_sockets fw_sockets]. rewrite lookup_insert_eq, Hs.
    exists ((FwdAborted <$> k1) ++ (FwdAborted <$> k2) ++ [FwdOpened (sid, dest)]). cbn. rewrite El2, El, <- !app_assoc.
    split; [done|]. rewrite !Forall_app. split; [apply pool_change_aborted|]. split; [apply pool_change_aborted|].
    by repeat constructor.
Qed.

(** ** The theorems *)

Section Delivery.
Context {P : Primitives} {L : PrimitivesLaws P}.
Context {FwdOrd : IterOrder PoolKey ForwardEntry} {RelayOrd : IterOrder SocketAddr (SocketAddr * Instant)}.

(** C3: A relayed datagram is delivered. When client and server share a session, a
    framed datagram an application hands to the relay leaves the client as one
    packet; from whatever address the server does not throttle it reaches the
    application task, and the backend sends exactly the payload to the
    destination named in the frame, if the egress policy admits it. Replies go
    to that address from then on, and the ends still share the session. *)
Theorem relay_query_delivered t t' io c s w e a rs dgram src now dest payload from :
  joined c s w e -> send_counter (ws_cipher w) + 1 < 2 ^ 60 -> io_ok (ct_io t) -> io_ok (st_io t') ->
  peek (sm_fail_gate (sd_manager s)) from (st_now t') (sm_limits (sd_manager s)) = true ->
  decode_relay (take PAYLOAD_LEN dgram) = Ok (dest, payload) ->
  in_caps (fw_sockets (at_forwarder a)) -> fw_echo (at_forwarder a) = false ->
  Egress.deny_reason dest (fw_policy (at_forwarder a)) = None -> io_works io ->
  exists msg p inner c' s' w' e' es fes,
    (app_to_tunnel (Ok (dgram, src)) now true rs).1 = [ToTunnel msg] /\
    client_turn t (CICmd (Some msg)) c = (Ret true, c') /\
    cv_log c' = cv_log c ++ (Notified <$> es) ++ [Sent p (cm_peer (cv_manager c))] /\
    server_turn t' (SIRecv (Ok (p, from))) s = (Ret true, s') /\
    sd_log s' = sd_log s ++ [Notified (NData (ws_session_id w) inner)] /\
    fw_log (at_forwarder (app_on_notification io (NData (ws_session_id w) inner) a)) =
      fw_log (at_forwarder a) ++ fes ++ [FwdSent (ws_session_id w, dest) payload] /\ Forall pool_change fes /\
    joined c' s' w' e' /\ se_peer e' = from.
Proof.
  intros Hj Hroom Hio Hio' Hpk Hdec Hcaps Hecho Hden Hw. set (msg := take PAYLOAD_LEN dgram) in *.
  assert (length msg <= PAYLOAD_LEN)%nat as Hl by (unfold msg; rewrite length_take; lia).
  destruct (client_sends t c s w e msg Hj Hio Hl) as (p & c' & w' & es & Ec & Lc & Sc & Hlw & Ew & Hp).
  destruct (server_delivers t' c s w e msg p from Hj Hio' Hl Hp Hpk) as (s' & e' & Es & Ls & Ss & Pe & Hle & Ee).
  set (inner := mkInnerPlaintext Data (send_direction (cs_role (ws_cipher w))) (pad_payload msg)) in *.
  destruct (fw_handle_sends io (ws_session_id w) (ip_payload inner) (at_forwarder a) dest payload) as (fes & Lf & Hf); try done.
  { cbn [ip_payload inner]. rewrite pad_payload_app by done. by apply decode_relay_pad. }
  exists msg, p, inner, c', s', w', e', es, fes. split.
  { unfold app_to_tunnel. fold msg. by rewrite Hdec. }
  do 6 (split; [done|]). split; [|done].
  pose proof Hlw as (_ & Ei & _). destruct Hj as [Hj1 Hj2 Hj3 Hj4 Hj5 Hj6 Hj7 [Hj8 Hj9]].
  split; rewrite ?Ei; try done; rewrite ?Ew, ?Ee; cbn [set_send_counter send_counter set_replay]; try done.
  by apply behind_accepts.
Qed.

(** C4: And so is its reply. A datagram the reader of that destination receives, no
    longer than an IPv6 frame carries, is framed for its session, leaves the
    server as one packet to the session's peer, and reaches the client's relay,
    which hands a frame with exactly that destination and datagram to the
    application endpoint bound to the destination. *)
Theorem relay_reply_delivered t t' c s w e f rs dest en reply src now from :
  joined c s w e -> send_counter (ws_cipher (se_session e)) + 1 < 2 ^ 60 -> io_ok (ct_io t) -> io_ok (st_io t') ->
  fw_sockets f !! (ws_session_id w, dest) = Some en -> fe_reader_runs en = true -> relayable dest ->
  (length reply <= MAX_DATAGRAM_V6)%nat -> fst <$> prune_bindings now (rs_bindings rs) !! dest = Some src ->
  exists frame p inner c' s' w' e' es,
    reply_reader (ws_session_id w, dest) (Some reply) true f =
      fw_emit (FwdCommand (mkServerAppCommand (ws_session_id w) frame)) f /\
    server_turn t' (SICmd (Some (mkServerAppCommand (ws_session_id w) frame))) s = (Ret true, s') /\
    sd_log s' = sd_log s ++ [Sent p (se_peer e)] /\
    client_turn t (CIRecv (Ok (p, from))) c = (Ret true, c') /\
    cv_log c' = cv_log c ++ (Notified <$> es) ++ [Notified (NData (ws_session_id w) inner)] /\
    (tunnel_to_app (Some (NData (ws_session_id w) inner)) now rs).1 = [ToApp frame src] /\
    decode_relay frame = Ok (dest, reply) /\ joined c' s' w' e'.
Proof.
  intros Hj Hroom Hio Hio' Hen Hrun Hdest Hlen Hbind.
  assert (exists frame, encode_relay dest reply = Ok frame) as [frame Hfr].
  { eexists. apply encode_relay_ok. destruct dest; unfold relay_max, relay_family, snd;
      unfold MAX_DATAGRAM_V4, MAX_DATAGRAM_V6, HDR_LEN_V4, HDR_LEN_V6 in *; lia. }
  pose proof (encode_relay_length _ _ _ Hfr) as Hl.
  destruct (server_sends t' c s w e frame Hj Hio' Hl) as (p & s' & we & Es & Ls & Ss & Hle & Ee & Hp).
  destruct (client_delivers t c s w e frame p from Hj Hio Hl Hp) as (c' & w' & es & Ec & Lc & Sc & Hlw & Ew).
  set (inner := mkInnerPlaintext Data _ (pad_payload frame)) in *.
  exists frame, p, inner, c', s', w', (entry_set_session we e), es. split.
  { unfold reply_reader. rewrite Hen, Hrun, take_ge by done. cbn [fst snd]. by rewrite Hfr. }
  do 4 (split; [done|]). split.
  { unfold tunnel_to_app. cbn [ip_payload inner]. rewrite pad_payload_app by done.
    rewrite (encode_relay_decodes dest reply frame) by done. by rewrite Hfr, Hbind. }
  split; [by apply encode_relay_unpadded|].
  pose proof Hlw as (_ & Ei & _). destruct Hj as [Hj1 Hj2 Hj3 Hj4 Hj5 Hj6 Hj7 [Hj8 Hj9]].
  split; rewrite ?Ei; cbn [se_session entry_set_session]; try done; rewrite ?Ew, ?Ee;
    cbn [set_send_counter send_counter set_replay replay]; try done.
  by apply behind_accepts.
Qed.

End Delivery.

Module RelayedSample.

Definition dest : SocketAddr := SocketAddrV4 (Ipv4Addr_new 192 0 2 7) 5353.
Definition app : SocketAddr := SocketAddrV4 (Ipv4Addr_new 127 0 0 1) 40000.
Definition query : bytes := [FAMILY_IPV4; xc0; x00; x02; x07; x14; xe9; x00; x02; x68; x69].

Definition driver_io : DriverIO := mkDriverIO (fun _ _ => Ok ()) (fun _ => true).
Definition fwd_io : FwdIO := mkFwdIO 0 0 0 0 true true true true.

Definition at_server : ServerTurn :=
  mkServerTurn (from_secs 1) (Sample.draws 1) (fun _ => Ok (zeros PAYLOAD_LEN)) driver_io.
Definition at_client : ClientTurn := DriverSample.turn 1 1.

(** The client that sent its M3, and the server that completed the handshake. *)
Definition client (m : ClientSessionManager) : ClientDriver :=
  client_driver_init at_client (ClientSample.prepared_from m) CoverPolicy_default.
Definition server : ServerDriver := server_driver_init ManagerSample.manager1 CoverPolicy_default.

Definition task : AppTask := mkAppTask (Forwarder_new false) 0 0.

Definition relay : RelayState := mkRelayState (<[dest := (app, 0)]> ∅) false true true.
Definition pool (w : WireSession) : Forwarder :=
  fw_set_sockets {[ (ws_session_id w, dest) := mkForwardEntry true 0 ]} (Forwarder_new false).

(** What [joined] asks of them, as a check. *)
Definition check (c : ClientDriver) (s : ServerDriver) : bool :=
  match cm_session (cv_manager c) with
  | Some w =>
      match sm_sessions (sd_manager s) !! ws_session_id w with
      | Some e =>
          let a := ws_cipher w in
          let b := ws_cipher (se_session e) in
          bool_decide (ws_state w = Established) && fresh_ends a b && fresh_ends b a &&
          (send_counter a + 1 <? 2 ^ 60) && (send_counter b + 1 <? 2 ^ 60)
      | None => false
      end
  | None => false
  end.

End RelayedSample.

Lemma relayed_check_joined c s :
  RelayedSample.check c s = true -> cm_wf (cv_manager c) -> manager_wf (sd_manager s) ->
  exists w e, joined c s w e /\ send_counter (ws_cipher w) + 1 < 2 ^ 60 /\ send_counter (ws_cipher (se_session e)) + 1 < 2 ^ 60.
Proof.
  unfold RelayedSample.check. intros H Hwc Hws. destruct (cm_session (cv_manager c)) as [w|] eqn:Hw; [|done].
  destruct (sm_sessions (sd_manager s) !! ws_session_id w) as [e|] eqn:He; [|done]. exists w, e. cbv zeta in H.
  rewrite !andb_true_iff, !bool_decide_eq_true, !Z.ltb_lt in H. destruct H as [[[[H1 H2] H3] H4] H5].
  apply fresh_ends_ok in H2 as [Hp Hr1]. apply fresh_ends_ok in H3 as [_ Hr2].
  pose proof (cw_session _ Hwc) as Hs. rewrite Hw in Hs. destruct Hs as ((_ & [Hl|Hl]) & _); [|congruence].
  destruct (mw_sessions _ Hws _ _ He) as [_ Hle]. split; [|by split].
  split; try done; [by apply behind_new|by apply behind_new|lia].
Qed.

Lemma relayed_sample_joined : exists m w e,
  joined (RelayedSample.client m) RelayedSample.server w e /\
  send_counter (ws_cipher w) + 1 < 2 ^ 60 /\ send_counter (ws_cipher (se_session e)) + 1 < 2 ^ 60.
Proof.
  assert (match ClientSessionManager_new Sample.client_cfg SessionLimits_default with
          | Ok m => RelayedSample.check (RelayedSample.client m) RelayedSample.server | Err _ => false end = true)
    as H by (vm_compute; reflexivity).
  destruct (ClientSessionManager_new Sample.client_cfg SessionLimits_default) as [m|] eqn:E; [|discriminate H].
  exists m. apply (relayed_check_joined (RelayedSample.client m) RelayedSample.server H).
  - unfold RelayedSample.client, client_driver_init. cbn [cv_manager].
    exact (proj1 (cm_reaches_wf _ _ _ (client_prepared_reaches m E))).
  - unfold RelayedSample.server, server_driver_init. cbn [sd_manager].
    apply (manager_reaches_wf Sample.server_cfg SessionLimits_default 0 ManagerSample.manager1);
      [vm_compute; discriminate|vm_compute; discriminate|apply manager_sample_reaches].
Qed.

Lemma relay_query_delivered_witness : exists c w p c' s' inner,
  cm_session (cv_manager c) = Some w /\
  client_turn RelayedSample.at_client (CICmd (Some RelayedSample.query)) c = (Ret true, c') /\
  server_turn RelayedSample.at_server (SIRecv (Ok (p, Sample.client_addr))) RelayedSample.server = (Ret true, s') /\
  exists fes, fw_log (at_forwarder (app_on_notification (Ord := map_order) RelayedSample.fwd_io
    (NData (ws_session_id w) inner) RelayedSample.task)) =
    fes ++ [FwdSent (ws_session_id w, RelayedSample.dest) [x68; x69]].
Proof.
  destruct relayed_sample_joined as (m & w & e & Hj & Hc & _).
  destruct (relay_query_delivered (FwdOrd := map_order) (RelayOrd := map_order) RelayedSample.at_client
    RelayedSample.at_server RelayedSample.fwd_io (RelayedSample.client m) RelayedSample.server w e RelayedSample.task
    RelayState_new RelayedSample.query RelayedSample.app 0 RelayedSample.dest [x68; x69] Sample.client_addr Hj Hc)
    as (msg & p & inner & c' & s' & w' & e' & es & fes & Ha & H1 & _ & H2 & _ & H3 & _).
  - split; reflexivity.
  - split; reflexivity.
  - vm_compute. reflexivity.
  - vm_compute. reflexivity.
  - split; [vm_compute; lia|]. intros sid. vm_compute. lia.
  - reflexivity.
  - vm_compute. reflexivity.
  - split; [reflexivity|split; reflexivity].
  - assert (msg = RelayedSample.query) as -> by (vm_compute in Ha; injection Ha as <-; reflexivity).
    exists (RelayedSample.client m), w, p, c', s', inner.
    exact (conj (jn_client _ _ _ _ Hj) (conj H1 (conj H2 (ex_intro _ fes H3)))).
Defined.

Lemma relay_reply_delivered_witness : exists c w frame p s' c' inner,
  cm_session (cv_manager c) = Some w /\
  server_turn RelayedSample.at_server (SICmd (Some (mkServerAppCommand (ws_session_id w) frame))) RelayedSample.server =
    (Ret true, s') /\
  client_turn RelayedSample.at_client (CIRecv (Ok (p, Sample.server_addr))) c = (Ret true, c') /\
  (tunnel_to_app (Ord := map_order) (Some (NData (ws_session_id w) inner)) 5 RelayedSample.relay).1 =
    [ToApp frame RelayedSample.app] /\
  decode_relay frame = Ok (RelayedSample.dest, [x79; x6f]).
Proof.
  destruct relayed_sample_joined as (m & w & e & Hj & _ & Hc).
  destruct (relay_reply_delivered (RelayOrd := map_order) RelayedSample.at_client RelayedSample.at_server
    (RelayedSample.client m) RelayedSample.server w e (RelayedSample.pool w) RelayedSample.relay RelayedSample.dest
    (mkForwardEntry true 0) [x79; x6f] RelayedSample.app 5 Sample.server_addr Hj Hc)
    as (frame & p & inner & c' & s' & w' & e' & es & _ & H1 & _ & H2 & _ & H3 & H4 & _).
  - split; reflexivity.
  - split; reflexivity.
  - apply lookup_singleton_eq.
  - reflexivity.
  - split; split; vm_compute; congruence.
  - vm_compute. lia.
  - vm_compute. reflexivity.
  - exists (RelayedSample.client m), w, frame, p, s', c', inner.
    exact (conj (jn_client _ _ _ _ Hj) (conj H1 (conj H2 (conj H3 H4)))).
Defined.
