(* ===== verification/Udp.v ===== *)
(** * The UDP transport

    [pq-tunnel-core/src/udp.rs] and its [HandshakeTransport] implementation in
    [pq-tunnel-core/src/handshake_v2.rs]. The operating system is a datagram
    service: [recv_from] copies a datagram into the caller's buffer and either
    truncates what does not fit or, on Windows, fails with [WSAEMSGSIZE]. The
    theorems compose the transport with the drivers of both session managers, so
    that they speak of the raw datagrams an attacker can send, and of every result
    the socket, the application channel and the random source can give. *)

From S2P Require Import Prelude Bytes Errors Codec Replay Crypto Envelope WireSession Scheduler Exec Net HandshakeMsg HandshakeFrag HandshakeClient HandshakeServer HandshakeSafety HandshakeClientOk SessionCommon ServerManager ClientManager Drivers FailGateOk ServerManagerOk ClientManagerOk ClientManagerSafe IpAddr Conform DriversOk.
From stdpp Require Import strings.

Local Open Scope nat_scope.

(** ** The socket *)

Inductive ErrorKind := KConnectionReset | KConnectionRefused | KOther.

Record IoError := mkIoError {
  ioe_kind : ErrorKind;
  ioe_raw_os_error : option Z;
  ioe_text : string }.

Definition WSAEMSGSIZE : Z := 10040%Z.

(** What the kernel hands to [recv_from] next. *)
Inductive SocketEvent :=
| Arrived (datagram : bytes) (from : SocketAddr)
| SocketFailed (e : IoError).

(** [socket.recv_from(&mut buf)] for a buffer of [cap] zeros. *)
Definition recv_from (windows : bool) (cap : nat) (ev : SocketEvent)
    : result IoError (nat * bytes * SocketAddr) :=
  match ev with
  | SocketFailed e => Err e
  | Arrived d from =>
      if (cap <? length d) && windows then Err (mkIoError KOther (Some WSAEMSGSIZE) "message too long")
      else
        let n := Nat.min cap (length d) in
        Ok (n, write_at 0 (take n d) (zeros cap), from)
  end.

(** ** [UdpTransport] *)

Inductive UdpError :=
| Ue_Io (e : IoError)
| Ue_NoPeer
| Ue_WrongSize (expected got : nat).

Definition is_recoverable_reset (e : UdpError) : bool :=
  match e with
  | Ue_Io e => match ioe_kind e with KConnectionReset | KConnectionRefused => true | KOther => false end
  | _ => false
  end.

(** [to_string()], from the [thiserror] attributes. *)
Definition UdpError_display (e : UdpError) : string :=
  match e with
  | Ue_Io e => String.append "udp io: " (ioe_text e)
  | Ue_NoPeer => "no remote peer configured"
  | Ue_WrongSize expected got =>
      String.append "datagram size mismatch: expected "
        (String.append (pretty.pretty expected) (String.append ", got " (pretty.pretty got)))
  end.

(** The socket is the local address it was bound to. *)
Record UdpTransport := mkUdpTransport {
  ut_socket : SocketAddr;
  ut_peer : option SocketAddr }.

Section Transport.
(** [UdpSocket::bind]: the address obtained, or an error; [socket.send_to]: the
    number of bytes written. *)
Variable os_bind : SocketAddr -> result IoError SocketAddr.
Variable os_send_to : bytes -> SocketAddr -> result IoError nat.

Definition UdpTransport_bind (addr : SocketAddr) : result IoError UdpTransport :=
  socket ← os_bind addr;
  Ok (mkUdpTransport socket None).

Definition UdpTransport_connect (remote : SocketAddr) : result IoError UdpTransport :=
  socket ← os_bind match remote with
                   | SocketAddrV4 _ _ => SocketAddrV4 (Ipv4Addr_new 0 0 0 0) 0
                   | SocketAddrV6 _ _ _ _ => SocketAddrV6 0 0 0 0
                   end;
  Ok (mkUdpTransport socket (Some remote)).

Definition set_peer (peer : SocketAddr) (t : UdpTransport) : UdpTransport :=
  mkUdpTransport (ut_socket t) (Some peer).

Definition udp_send_to (packet : WirePacket) (peer : SocketAddr) : result UdpError () :=
  n ← map_err Ue_Io (os_send_to (as_bytes packet) peer);
  if negb (n =? PACKET_SIZE) then Err (Ue_WrongSize PACKET_SIZE n) else Ok ().

Definition udp_send (t : UdpTransport) (packet : WirePacket) : result UdpError () :=
  peer ← ok_or (ut_peer t) Ue_NoPeer;
  udp_send_to packet peer.

Definition transport_send_to (packet : WirePacket) (peer : SocketAddr) : result HandshakeV2Error () :=
  map_err (fun e => HS_Transport (UdpError_display e)) (udp_send_to packet peer).

End Transport.

(** [recv], with its [expect]. *)
Definition udp_recv (windows : bool) (ev : SocketEvent) : exec UdpError (WirePacket * SocketAddr) :=
  match recv_from windows (PACKET_SIZE + 1) ev with
  | Err e =>
      if bool_decide (ioe_raw_os_error e = Some WSAEMSGSIZE)
      then Fail (Ue_WrongSize PACKET_SIZE (PACKET_SIZE + 1))
      else Fail (Ue_Io e)
  | Ok (n, buf, from) =>
      if negb (n =? PACKET_SIZE) then Fail (Ue_WrongSize PACKET_SIZE n)
      else
        match WirePacket_from_bytes (slice 0 PACKET_SIZE buf) with
        | Ok packet => Ret (packet, from)
        | Err _ => Panic "exactly PACKET_SIZE bytes always parses"
        end
  end.

Definition transport_recv (windows : bool) (ev : SocketEvent)
    : exec HandshakeV2Error (WirePacket * SocketAddr) :=
  match udp_recv windows ev with
  | Ret v => Ret v
  | Fail (Ue_WrongSize _ _) => Fail HS_DatagramRejected
  | Fail e => if is_recoverable_reset e then Fail HS_TransportReset else Fail (HS_Transport (UdpError_display e))
  | Panic p => Panic p
  end.

(** ** The drivers on a UDP socket *)

(** What a driver's receive arm makes of a socket event. *)
Definition on_socket {S} (windows : bool) (ev : SocketEvent)
    (arm : result HandshakeV2Error (WirePacket * SocketAddr) -> M S ManagerError bool) : M S ManagerError bool :=
  match transport_recv windows ev with
  | Ret v => arm (Ok v)
  | Fail e => arm (Err e)
  | Panic p => fun s => (Panic p, s)
  end.

Inductive udp_input (I : Type) :=
| Socket (ev : SocketEvent)
| Arm (i : I).

Arguments Socket {I} ev.
Arguments Arm {I} i.

Definition udp_io (os_send_to : bytes -> SocketAddr -> result IoError nat) (open : ManagerNotification -> bool)
    : DriverIO :=
  mkDriverIO (transport_send_to os_send_to) open.

(** The loop of a driver whose turns are [turn] and whose receive arm is
    [SIRecv] or [CIRecv]. *)
Section Loop.
Context {S T I : Type}.
Variable recv : result HandshakeV2Error (WirePacket * SocketAddr) -> I.
Variable turn : T -> I -> M S ManagerError bool.

Definition udp_turn (windows : bool) (t : T) (i : udp_input I) : M S ManagerError bool :=
  match i with
  | Socket ev => on_socket windows ev (fun r => turn t (recv r))
  | Arm i => turn t i
  end.

Fixpoint udp_loop (windows : bool) (turns : list (T * udp_input I)) : M S ManagerError bool :=
  match turns with
  | [] => mret true
  | (t, i) :: turns => go ← udp_turn windows t i; if go : bool then udp_loop windows turns else mret false
  end.

End Loop.

Definition udp_server_loop {P : Primitives} := udp_loop SIRecv (server_turn (P := P)).
Definition udp_client_loop {P : Primitives} := udp_loop CIRecv (client_turn (P := P)).

(** ** What the transport makes of a socket event *)

Lemma recv_buffer n cap (d : bytes) :
  n <= cap -> n <= length d -> slice 0 n (write_at 0 (take n d) (zeros cap)) = take n d.
Proof.
  intros H1 H2. assert (length (take n d) = n) as El by (rewrite length_take; lia).
  pose proof (slice_write_at_same 0 (take n d) (zeros cap)) as H. rewrite El in H. apply H.
  rewrite length_zeros. lia.
Qed.

Lemma transport_recv_datagram windows d from :
  transport_recv windows (Arrived d from) =
  if length d =? PACKET_SIZE then Ret (mkWirePacket d, from) else Fail HS_DatagramRejected.
Proof.
  unfold transport_recv, udp_recv, recv_from. destruct (Nat.eqb_spec (length d) PACKET_SIZE) as [E|E].
  - replace (PACKET_SIZE + 1 <? length d) with false by (symmetry; apply Nat.ltb_ge; lia).
    replace (Nat.min (PACKET_SIZE + 1) (length d)) with PACKET_SIZE by lia. cbn [andb].
    rewrite Nat.eqb_refl. cbn [negb]. rewrite recv_buffer by lia. rewrite take_ge by lia.
    unfold WirePacket_from_bytes. rewrite E, Nat.eqb_refl. done.
  - destruct ((PACKET_SIZE + 1 <? length d) && windows); [done|].
    by rewrite (proj2 (Nat.eqb_neq (Nat.min (PACKET_SIZE + 1) (length d)) PACKET_SIZE)) by lia.
Qed.

(** The socket errors a driver outlives. *)
Definition survivable (e : IoError) : bool :=
  bool_decide (ioe_raw_os_error e = Some WSAEMSGSIZE) || is_recoverable_reset (Ue_Io e).

Lemma transport_recv_error windows e :
  transport_recv windows (SocketFailed e) =
  Fail (if bool_decide (ioe_raw_os_error e = Some WSAEMSGSIZE) then HS_DatagramRejected
        else if is_recoverable_reset (Ue_Io e) then HS_TransportReset
        else HS_Transport (UdpError_display (Ue_Io e))).
Proof. unfold transport_recv, udp_recv, recv_from. case_bool_decide; [done|]. by case_match. Qed.

(** The transport never panics, so a socket event is one input of the receive
    arm. *)
Definition received (windows : bool) (ev : SocketEvent) : result HandshakeV2Error (WirePacket * SocketAddr) :=
  match transport_recv windows ev with Ret v => Ok v | Fail e => Err e | Panic p => Err (HS_Transport p) end.

Definition as_input {I} (recv : result HandshakeV2Error (WirePacket * SocketAddr) -> I) (windows : bool)
    (i : udp_input I) : I :=
  match i with Socket ev => recv (received windows ev) | Arm i => i end.

Lemma transport_recv_no_panic windows ev p : transport_recv windows ev <> Panic p.
Proof.
  destruct ev as [d from|e]; [rewrite transport_recv_datagram; by case_match|by rewrite transport_recv_error].
Qed.

Lemma udp_turn_input {S T I} recv (turn : T -> I -> M S ManagerError bool) windows t i :
  udp_turn recv turn windows t i = turn t (as_input recv windows i).
Proof.
  destruct i as [ev|i]; [|done]. cbn [udp_turn as_input]. unfold on_socket, received.
  destruct (transport_recv windows ev) eqn:E; try done. by apply transport_recv_no_panic in E.
Qed.

Definition inputs {T I} recv (windows : bool) : list (T * udp_input I) -> list (T * I) :=
  fmap (fun ti => (ti.1, as_input recv windows ti.2)).

Lemma udp_server_loop_inputs {P : Primitives} windows turns s :
  udp_server_loop windows turns s = server_driver_loop (inputs SIRecv windows turns) s.
Proof.
  revert s. induction turns as [|[t i] turns IH]; intros s; [done|].
  unfold udp_server_loop. cbn [udp_loop inputs fmap list_fmap server_driver_loop fst snd].
  rewrite udp_turn_input. unfold mbind, M_bind. destruct (server_turn t _ s) as [[[]|e|p] s']; try done. apply IH.
Qed.

Lemma udp_client_loop_inputs {P : Primitives} windows turns s :
  udp_client_loop windows turns s = client_driver_loop (inputs CIRecv windows turns) s.
Proof.
  revert s. induction turns as [|[t i] turns IH]; intros s; [done|].
  unfold udp_client_loop. cbn [udp_loop inputs fmap list_fmap client_driver_loop fst snd].
  rewrite udp_turn_input. unfold mbind, M_bind. destruct (client_turn t _ s) as [[[]|e|p] s']; try done. apply IH.
Qed.

(** What the receive arm can be given: a well-formed packet, one of the two errors
    a driver skips, or the text of a socket error it does not outlive. *)
Lemma received_cases windows ev :
  match received windows ev with
  | Ok (pkt, _) => WirePacket_wf pkt
  | Err e => fatal_recv e = true -> exists err, ev = SocketFailed err /\ survivable err = false /\
      e = HS_Transport (UdpError_display (Ue_Io err))
  end.
Proof.
  unfold received. destruct ev as [d from|e].
  - rewrite transport_recv_datagram. by destruct (Nat.eqb_spec (length d) PACKET_SIZE).
  - rewrite transport_recv_error. case_bool_decide as Hw; [done|].
    destruct (is_recoverable_reset (Ue_Io e)) eqn:Hr; [done|]. intros _. exists e. split; [done|]. split; [|done].
    unfold survivable. by rewrite bool_decide_false, Hr.
Qed.

(** ** What the environment can end a driver with *)

(** A send of a packet that failed, or that wrote another number of bytes. *)
Definition send_fault (os_send_to : bytes -> SocketAddr -> result IoError nat) (e : ManagerError) : Prop :=
  exists d a u, length d = PACKET_SIZE /\ e = ME_Handshake (HS_Transport (UdpError_display u)) /\
    match os_send_to d a with
    | Err io => u = Ue_Io io
    | Ok n => n <> PACKET_SIZE /\ u = Ue_WrongSize PACKET_SIZE n
    end.

(** A turn of a driver on a UDP socket: it sends through [udp_io], for whatever
    results of the system call and of the application channel. *)
Definition on_udp (io : DriverIO) : Prop := exists os_send_to open, io = udp_io os_send_to open.

Definition udp_io_fault (io : DriverIO) (e : ManagerError) : Prop :=
  exists os_send_to open, io = udp_io os_send_to open /\
    (send_fault os_send_to e \/ (e = ME_AppClosed /\ exists n, open n = false)).

Lemma on_udp_fault io e : on_udp io -> io_fault io e -> udp_io_fault io e.
Proof.
  intros (os_send_to & open & ->) Hf. exists os_send_to, open. split; [done|].
  destruct Hf as [(p & a & e' & Hp & H & ->)|Hf]; [left|by right].
  cbn [io_send udp_io] in H. unfold transport_send_to, udp_send_to in H.
  destruct (os_send_to (as_bytes p) a) as [n|io] eqn:E; cbn [map_err mbind result_bind] in H.
  - destruct (Nat.eqb_spec n PACKET_SIZE) as [|Hn]; cbn in H; [done|]. injection H as <-.
    exists (as_bytes p), a, (Ue_WrongSize PACKET_SIZE n). by rewrite E.
  - injection H as <-. exists (as_bytes p), a, (Ue_Io io). by rewrite E.
Qed.

(** A socket error other than a reset or an oversized datagram. *)
Definition udp_recv_fault {I} (i : udp_input I) (e : ManagerError) : Prop :=
  exists err, i = Socket (SocketFailed err) /\ survivable err = false /\
    e = ME_Handshake (HS_Transport (UdpError_display (Ue_Io err))).

Definition udp_server_fault {P : Primitives} (t : ServerTurn) (i : udp_input server_input) (e : ManagerError) : Prop :=
  udp_io_fault (st_io t) e \/ udp_recv_fault i e \/
  (i = Arm SICover /\ exists sid msg, st_fill t sid = Err msg /\ e = cover_fault msg).

(** What a server turn on a UDP socket is: its receive arm is fed by the socket,
    and the random source fills the whole payload when it answers. *)
Definition udp_server_typed {P : Primitives} (t : ServerTurn) (i : udp_input server_input) : Prop :=
  on_udp (st_io t) /\ (forall sid f, st_fill t sid = Ok f -> length f = PAYLOAD_LEN) /\
  match i with Arm (SIRecv _) => False | _ => True end.

Lemma udp_server_turn_typed {P : Primitives} windows t i :
  udp_server_typed t i -> server_turn_typed t (as_input SIRecv windows i).
Proof.
  intros (_ & Hf & Hi). split; [done|]. destruct i as [ev|i]; [|by destruct i as [r| | |]].
  cbn [as_input]. pose proof (received_cases windows ev). by case_match.
Qed.

Lemma udp_server_fault_of {P : Primitives} windows t i e :
  udp_server_typed t i -> server_fault t (as_input SIRecv windows i) e -> udp_server_fault t i e.
Proof.
  intros (Hio & _ & Hi) [Hf|[(e' & Hr & Hf & ->)|(Hc & Hf)]].
  - left. by apply on_udp_fault.
  - right. left. destruct i as [ev|i]; [|cbn in Hr; by subst i]. cbn in Hr. injection Hr as Hr.
    pose proof (received_cases windows ev) as Hev. rewrite Hr in Hev.
    destruct (Hev Hf) as (err & -> & Hs & ->). by exists err.
  - right. right. destruct i as [ev|i]; [done|]. cbn in Hc. by subst i.
Qed.

Lemma arm_input {T I} recv windows (turns : list (T * udp_input I)) j :
  (forall r, recv r <> j) -> Exists (fun ti => ti.2 = j) (inputs recv windows turns) ->
  Exists (fun ti => ti.2 = Arm j) turns.
Proof.
  intros Hr H. apply Exists_fmap in H. eapply Exists_impl; [exact H|].
  intros [t [ev|i]] Ei; cbn in Ei |- *; [by destruct (Hr _ Ei)|by subst].
Qed.

(** What a run of the server driver on a UDP socket with a well-formed manager
    comes to. *)
Lemma udp_server_loop_ends {P : Primitives} {L : PrimitivesLaws P} m cover windows turns :
  manager_wf m -> sm_typed m -> Forall (fun ti => udp_server_typed ti.1 ti.2) turns ->
  match (udp_server_loop windows turns (server_driver_init m cover)).1 with
  | Ret b => b = false -> Exists (fun ti => ti.2 = Arm (SICmd None)) turns
  | Fail e => Exists (fun ti => udp_server_fault ti.1 ti.2 e) turns
  | Panic _ => False
  end.
Proof.
  intros Hwf Hty Hok. rewrite udp_server_loop_inputs.
  pose proof (server_loop_wp (inputs SIRecv windows turns) (server_driver_init m cover) Hwf Hty) as Hw. unfold wp in Hw.
  assert (Forall (fun ti => server_turn_typed ti.1 ti.2) (inputs SIRecv windows turns)) as Ht.
  { apply Forall_fmap. eapply Forall_impl; [exact Hok|]. intros [t i] Hi. by apply udp_server_turn_typed. }
  specialize (Hw Ht). destruct (server_driver_loop _ _) as [[b|e|p] s']; [| |done]; cbn [fst snd] in Hw |- *.
  - intros Hb. by apply (arm_input SIRecv windows), Hw.
  - apply Exists_fmap, Exists_exists in Hw as (ti & Hin & Hf). apply Exists_exists. exists ti. split; [done|].
    rewrite Forall_forall in Hok. by apply (udp_server_fault_of windows), Hf; apply Hok.
Qed.

(** The server on a UDP socket outlives the network. Whatever bytes arrive in
    datagrams of whatever length, from whatever address, truncated by the
    receive buffer or refused by the platform, with peer resets, commands, ticks
    and cover deadlines between them, no turn of the server driver panics; it ends
    when the application closes its side, or with the error of a send, a receive,
    the application channel or the random source that failed. *)
Theorem udp_server_survives {P : Primitives} {L : PrimitivesLaws P} cfg limits start m cover windows turns :
  (0 <= sc_rate_limit_burst cfg)%Z -> (0 <= sl_max_fail_buckets limits)%Z ->
  manager_reaches cfg limits start m -> Forall (fun ti => udp_server_typed ti.1 ti.2) turns ->
  match (udp_server_loop windows turns (server_driver_init m cover)).1 with
  | Ret b => b = false -> Exists (fun ti => ti.2 = Arm (SICmd None)) turns
  | Fail e => Exists (fun ti => udp_server_fault ti.1 ti.2 e) turns
  | Panic _ => False
  end.
Proof.
  intros Hb Hf Hr Hok. destruct (manager_reaches_wf _ _ _ _ Hb Hf Hr) as [Hwf _].
  apply udp_server_loop_ends; [done|by eapply manager_reaches_typed|done].
Qed.

Module UdpSample.

Definition os_send_to (d : bytes) (a : SocketAddr) : result IoError nat := Ok (length d).

Definition at_server : ServerTurn :=
  mkServerTurn (from_secs 1) (Sample.draws 1) (fun _ => Ok (zeros PAYLOAD_LEN)) (udp_io os_send_to (fun _ => true)).

Definition at_client (t k : Z) : ClientTurn :=
  let c := DriverSample.turn t k in
  mkClientTurn (ct_now c) (ct_slot_now c) (ct_draws c) (ct_rearm c) (ct_jitter c) (ct_fill c)
    (udp_io os_send_to (fun _ => true)).

(** A datagram too long for the buffer, one too short, and a vanished peer. *)
Definition noise : list SocketEvent :=
  [Arrived (zeros 3000) Sample.client_addr; Arrived [] Sample.client_addr;
   SocketFailed (mkIoError KConnectionRefused (Some 111%Z) "connection refused")].

Definition server_turns : list (ServerTurn * udp_input server_input) :=
  ((fun ev => (at_server, Socket ev)) <$> noise) ++
  [(at_server, Socket (Arrived (as_bytes ManagerSample.data_packet) Sample.client_addr));
   (at_server, Arm SITick); (at_server, Arm SICover)].

Definition client_turns : list (ClientTurn * udp_input client_input) :=
  ((fun ev => (at_client 2 2, Socket ev)) <$> noise) ++
  [(at_client 3 3, Arm CIRetransmit); (at_client 4 4, Arm (CICmd None))].

End UdpSample.

Lemma sample_server_turns : Forall (fun ti => udp_server_typed ti.1 ti.2) UdpSample.server_turns.
Proof.
  repeat (apply Forall_cons; split; [split; [eexists _, _; reflexivity|split; [|exact I]; intros sid f [= <-]; apply length_zeros]|]).
  apply Forall_nil. exact I.
Qed.

(** A socket that sends whole datagrams and an application that listens give no
    error. *)
Lemma sample_io_fault e : ~ udp_io_fault (udp_io UdpSample.os_send_to (fun _ => true)) e.
Proof.
  intros (os & open & E & Hf). injection E as Es Eo. destruct Hf as [(d & a & u & Hd & _ & Hf)|(_ & n & Hn)]; [|by subst].
  assert (transport_send_to os (mkWirePacket d) a = Ok ()) as Ho.
  { rewrite <- Es. unfold transport_send_to, udp_send_to, UdpSample.os_send_to. cbn [as_bytes map_err mbind result_bind].
    by rewrite Hd, Nat.eqb_refl. }
  unfold transport_send_to, udp_send_to in Ho. cbn [as_bytes] in Ho. destruct (os d a) as [n|io]; cbn in Ho; [|done].
  destruct Hf as [Hn _]. by rewrite (proj2 (Nat.eqb_neq _ _) Hn) in Ho.
Qed.

Lemma sample_server_no_fault e : ~ Exists (fun ti => udp_server_fault ti.1 ti.2 e) UdpSample.server_turns.
Proof.
  intros H. repeat (apply Exists_cons in H as [H|H]); try by apply Exists_nil in H.
  all: destruct H as [H|[(err & H & Hs & _)|(H & sid & msg & Hf & _)]]; try discriminate H; try discriminate Hf;
    try exact (sample_io_fault _ H). injection H as <-. discriminate Hs.
Qed.

Lemma udp_server_survives_witness : exists b,
  (udp_server_loop true UdpSample.server_turns (server_driver_init ManagerSample.manager1 CoverPolicy_default)).1 = Ret b.
Proof.
  pose proof (udp_server_survives Sample.server_cfg SessionLimits_default 0 ManagerSample.manager1 CoverPolicy_default
    true UdpSample.server_turns) as H.
  assert (0 <= sc_rate_limit_burst Sample.server_cfg)%Z as H1 by (vm_compute; discriminate).
  assert (0 <= sl_max_fail_buckets SessionLimits_default)%Z as H2 by (vm_compute; discriminate).
  specialize (H H1 H2 manager_sample_reaches sample_server_turns).
  destruct (udp_server_loop true UdpSample.server_turns _).1 as [b|e|p]; [by exists b| |contradiction].
  by apply sample_server_no_fault in H.
Defined.

(** The errors the environment of a client turn can cause, and what such a turn is. *)
Definition udp_client_fault {P : Primitives} (t : ClientTurn) (i : udp_input client_input) (e : ManagerError) : Prop :=
  udp_io_fault (ct_io t) e \/ udp_recv_fault i e \/
  (i = Arm CICover /\ exists msg, ct_fill t = Err msg /\ e = cover_fault msg).

Definition udp_client_typed {P : Primitives} (t : ClientTurn) (i : udp_input client_input) : Prop :=
  turn_ok t /\ on_udp (ct_io t) /\ match i with Arm (CIRecv _) => False | _ => True end.

Lemma udp_client_fault_of {P : Primitives} windows t i e :
  udp_client_typed t i -> client_fault t (as_input CIRecv windows i) e -> udp_client_fault t i e.
Proof.
  intros (_ & Hio & Hi) [Hf|[(e' & Hr & Hf & ->)|(Hc & Hf)]].
  - left. by apply on_udp_fault.
  - right. left. destruct i as [ev|i]; [|cbn in Hr; by subst i]. cbn in Hr. injection Hr as Hr.
    pose proof (received_cases windows ev) as Hev. rewrite Hr in Hev.
    destruct (Hev Hf) as (err & -> & Hs & ->). by exists err.
  - right. right. destruct i as [ev|i]; [done|]. cbn in Hc. by subst i.
Qed.

(** C15: The client on a UDP socket outlives the network: on any datagrams of any
    length from anyone, with peer resets, application payloads, timers, slots
    and cover deadlines between them, and whatever each send, receive,
    notification and draw of randomness returns, the loop never panics, and it
    ends only when the application closes its side, with the error of a send that
    failed or was cut short, of a receive that failed other than by a reset or an
    oversized datagram, of an application that no longer listens or of a random
    source that failed at a cover deadline, in a turn where that happened, or
    with the state error of a session out of nonces. *)
Theorem udp_client_survives {P : Primitives} {L : PrimitivesLaws P} cfg limits s windows turns :
  driver_reaches cfg limits s -> Forall (fun ti => udp_client_typed ti.1 ti.2) turns ->
  match udp_client_loop windows turns s with
  | (Ret b, s') => b = false -> Exists (fun ti => ti.2 = Arm (CICmd None)) turns
  | (Fail e, s') => Exists (fun ti => udp_client_fault ti.1 ti.2 e) turns \/
      (e = ME_Session wrong_state /\ stuck (cv_manager s'))
  | (Panic _, _) => False
  end.
Proof.
  intros Hr Hok. rewrite udp_client_loop_inputs.
  pose proof (client_loop_wp (inputs CIRecv windows turns) s (driver_reaches_wf _ _ _ Hr)) as Hw.
  assert (Forall (fun ti => turn_ok ti.1) (inputs CIRecv windows turns)) as Ht.
  { apply Forall_fmap. eapply Forall_impl; [exact Hok|]. by intros [t i] [Ht _]. }
  specialize (Hw Ht). unfold wp in Hw. destruct (client_driver_loop _ s) as [[b|e|p] s']; cbn [fst snd] in Hw;
    destruct Hw as [H1 H2]; [| |done].
  - intros ->. by apply (arm_input CIRecv windows), H2.
  - destruct H1 as [H1|H1]; [left|by right].
    apply Exists_fmap, Exists_exists in H1 as (ti & Hin & Hf). apply Exists_exists. exists ti. split; [done|].
    rewrite Forall_forall in Hok. by apply (udp_client_fault_of windows), Hf; apply Hok.
Qed.

Lemma sample_client_turns : Forall (fun ti => udp_client_typed ti.1 ti.2) UdpSample.client_turns.
Proof.
  repeat (apply Forall_cons; split; [split; [apply sample_turn_ok|split; [eexists _, _; reflexivity|exact I]]|]).
  apply Forall_nil. exact I.
Qed.

Lemma sample_client_no_fault e : ~ Exists (fun ti => udp_client_fault ti.1 ti.2 e) UdpSample.client_turns.
Proof.
  intros H. repeat (apply Exists_cons in H as [H|H]); try by apply Exists_nil in H.
  all: destruct H as [H|[(err & H & Hs & _)|(H & msg & Hf & _)]]; try discriminate H; try discriminate Hf;
    try exact (sample_io_fault _ H). injection H as <-. discriminate Hs.
Qed.

Lemma udp_client_survives_witness : exists s, driver_reaches Sample.client_cfg SessionLimits_default s /\
  match udp_client_loop false UdpSample.client_turns s with
  | (Ret b, _) => True | (Fail e, s') => e = ME_Session wrong_state /\ stuck (cv_manager s') | (Panic _, _) => False end.
Proof.
  destruct driver_sample as (s & Hr & _). exists s. split; [exact Hr|].
  pose proof (udp_client_survives Sample.client_cfg SessionLimits_default s false
    UdpSample.client_turns Hr sample_client_turns) as H.
  destruct (udp_client_loop _ _ s) as [[b|e|p] s']; [exact I| |exact H].
  destruct H as [H|H]; [|exact H]. by apply sample_client_no_fault in H.
Defined.

(** Each kind of socket event, at the server: a datagram of exactly
    [PACKET_SIZE] bytes reaches the manager unchanged with its source, noise of
    any other length leaves the driver as it was, a reset is noted, and any
    other socket error ends the driver with its text. *)
Theorem udp_server_recv_exact {P : Primitives} windows t s :
  (forall d from, length d = PACKET_SIZE ->
     udp_turn SIRecv server_turn windows t (Socket (Arrived d from)) s =
     server_turn t (SIRecv (Ok (mkWirePacket d, from))) s) /\
  (forall d from, length d <> PACKET_SIZE ->
     udp_turn SIRecv server_turn windows t (Socket (Arrived d from)) s = (Ret true, s)) /\
  (forall e, ioe_raw_os_error e <> Some WSAEMSGSIZE -> is_recoverable_reset (Ue_Io e) = true ->
     udp_turn SIRecv server_turn windows t (Socket (SocketFailed e)) s = (Ret true, sd_set_reset_noticed true s)) /\
  (forall e, survivable e = false ->
     udp_turn SIRecv server_turn windows t (Socket (SocketFailed e)) s =
     (Fail (ME_Handshake (HS_Transport (UdpError_display (Ue_Io e)))), s)).
Proof.
  cbn [udp_turn]. unfold on_socket. split_and!.
  - intros d from Hd. rewrite transport_recv_datagram, Hd, Nat.eqb_refl. done.
  - intros d from Hd. rewrite transport_recv_datagram. by rewrite (proj2 (Nat.eqb_neq _ _) Hd).
  - intros e Hw Hr. rewrite transport_recv_error, bool_decide_false, Hr by done. done.
  - intros e Hs. rewrite transport_recv_error. unfold survivable in Hs. case_bool_decide; [done|].
    cbn [orb] in Hs. by rewrite Hs.
Qed.

(** A packet the transport sends is the datagram the other end receives. *)
Theorem udp_roundtrip windows packet from :
  WirePacket_wf packet -> transport_recv windows (Arrived (as_bytes packet) from) = Ret (packet, from).
Proof.
  intros Hw. rewrite transport_recv_datagram. unfold WirePacket_wf in Hw. rewrite Hw, Nat.eqb_refl. by destruct packet.
Qed.
