(* ===== verification/OsNet.v ===== *)
(** * Host networking

    [pq-tunnel-bin/src/tun/os_net.rs] and the set-up functions of
    [tun/client.rs] and [tun/server.rs] that run its commands: command lists as
    the strings the code builds, and their execution against a shell whose
    answer may depend on everything it ran before. The journal, the kill switch
    and the Windows lists are modelled as written; nothing in the binary calls
    them. *)

From S2P Require Import Prelude Bytes Errors Codec Exec Net IpAddr Dataplane PacketPolicy.
From stdpp Require Import strings pretty.
From Stdlib Require Import Ascii.

Local Open Scope string_scope.
Local Open Scope list_scope.

(** [format!] with its pieces in a list. *)
Definition fmt (pieces : list string) : string := foldr String.append EmptyString pieces.

Definition is_empty (s : string) : bool := bool_decide (s = EmptyString).

(** [str::contains] for one character. *)
Fixpoint contains (c : ascii) (s : string) : bool :=
  match s with
  | EmptyString => false
  | String a s => bool_decide (a = c) || contains c s
  end.

Definition colon : ascii := ":"%char.

(** ** [Display] of addresses *)

Definition v4_to_string (a : Z) : string :=
  fmt [pretty (octet4 0 a); "."; pretty (octet4 1 a); "."; pretty (octet4 2 a); "."; pretty (octet4 3 a)]%Z.

Definition hex_char (d : Z) : ascii :=
  ascii_of_nat (Z.to_nat (if (d <? 10)%Z then 48 + d else 87 + d)).

(** [{:x}] of a [u16]: no leading zeros. *)
Definition hex_u16 (n : Z) : string :=
  let d i := Z.land (Z.shiftr n (4 * i)) 15 in
  let digits := (if (n <? 4096)%Z then [] else [d 3%Z]) ++ (if (n <? 256)%Z then [] else [d 2%Z]) ++
                (if (n <? 16)%Z then [] else [d 1%Z]) ++ [d 0%Z] in
  String.string_of_list_ascii (hex_char <$> digits).

(** [fmt_subslice]: the segments with colons between them. *)
Definition fmt_subslice (segs : list Z) : string := String.concat ":" (hex_u16 <$> segs).

(** The first longest run of zero segments, as start and length. *)
Definition zero_run (segs : list Z) : nat * nat :=
  let step '(longest, current) '(i, s) :=
    if (s =? 0)%Z then
      let current := (if (current.2 =? 0)%nat then i else current.1, S current.2) in
      (if (longest.2 <? current.2)%nat then current else longest, current)
    else (longest, (0, 0)) in
  (fold_left step (zip (seq 0 (length segs)) segs) ((0, 0), (0, 0))).1.

Definition segments (a : Z) : list Z := (fun i => segment6 i a) <$> [0; 1; 2; 3; 4; 5; 6; 7]%Z.

Definition v6_to_string (a : Z) : string :=
  match to_ipv4_mapped a with
  | Some v4 => fmt ["::ffff:"; v4_to_string v4]
  | None =>
      let segs := segments a in
      let '(start, len) := zero_run segs in
      if (1 <? len)%nat then fmt [fmt_subslice (take start segs); "::"; fmt_subslice (drop (start + len) segs)]
      else fmt_subslice segs
  end.

Definition ip_to_string (ip : IpAddr) : string :=
  match ip with IpV4 a => v4_to_string a | IpV6 a => v6_to_string a end.

(** ** Command lists *)

Definition when {A} (b : bool) (l : list A) : list A := if b then l else [].

Definition bypass_v4 (server_v4 phys_iface : string) (gateway : option string) : string :=
  match gateway with
  | Some gw => fmt ["ip route replace "; server_v4; "/32 via "; gw; " dev "; phys_iface]
  | None => fmt ["ip route replace "; server_v4; "/32 dev "; phys_iface]
  end.

Definition bypass_v6 (server_v6 phys_iface : string) (gateway : option string) : string :=
  match gateway with
  | Some gw => fmt ["ip -6 route replace "; server_v6; "/128 via "; gw; " dev "; phys_iface]
  | None => fmt ["ip -6 route replace "; server_v6; "/128 dev "; phys_iface]
  end.

Definition rule_v4 (server_v4 : string) : string :=
  fmt ["ip rule add priority 100 to "; server_v4; "/32 lookup main"].
Definition rule_v6 (server_v6 : string) : string :=
  fmt ["ip -6 rule add priority 100 to "; server_v6; "/128 lookup main"].

Definition linux_install_routes_with_gateway (server_v4 server_v6 tun_iface phys_iface : string)
    (gateway_v4 gateway_v6 : option string) : list string :=
  [fmt ["ip link set dev "; tun_iface; " up"];
   fmt ["ip addr add 10.77.0.2/32 dev "; tun_iface];
   fmt ["ip -6 addr add fd00:77::2/128 dev "; tun_iface]] ++
  when (negb (is_empty server_v4)) [bypass_v4 server_v4 phys_iface gateway_v4] ++
  when (negb (is_empty server_v6)) [bypass_v6 server_v6 phys_iface gateway_v6] ++
  [fmt ["ip route add default dev "; tun_iface; " table 100"];
   fmt ["ip -6 route add default dev "; tun_iface; " table 100"]] ++
  when (negb (is_empty server_v4)) [rule_v4 server_v4] ++
  when (negb (is_empty server_v6)) [rule_v6 server_v6] ++
  ["ip rule add priority 200 lookup 100";
   "ip -6 rule add priority 200 lookup 100";
   "ip rule add priority 101 table main suppress_prefixlength 0"].

Definition linux_install_routes (server_v4 server_v6 tun_iface phys_iface : string) : list string :=
  linux_install_routes_with_gateway server_v4 server_v6 tun_iface phys_iface None None.

Definition linux_teardown_routes (tun_iface server_v4 server_v6 : string) : list string :=
  ["ip rule del priority 200"; "ip -6 rule del priority 200"; "ip rule del priority 101"] ++
  when (negb (is_empty server_v4)) [fmt ["ip rule del priority 100 to "; server_v4; "/32 lookup main"]] ++
  when (negb (is_empty server_v6)) [fmt ["ip -6 rule del priority 100 to "; server_v6; "/128 lookup main"]] ++
  [fmt ["ip route del default dev "; tun_iface; " table 100"];
   fmt ["ip -6 route del default dev "; tun_iface; " table 100"]] ++
  when (negb (is_empty server_v4)) [fmt ["ip route del "; server_v4; "/32"]] ++
  when (negb (is_empty server_v6)) [fmt ["ip -6 route del "; server_v6; "/128"]] ++
  [fmt ["ip addr del 10.77.0.2/32 dev "; tun_iface];
   fmt ["ip -6 addr del fd00:77::2/128 dev "; tun_iface];
   fmt ["ip link set dev "; tun_iface; " down"]].

Definition linux_dns_apply (iface dns : string) : list string :=
  [fmt ["resolvectl dns "; iface; " "; dns]; fmt ["resolvectl domain "; iface; " ~."]].
Definition linux_dns_revert (iface : string) : list string := [fmt ["resolvectl revert "; iface]].

Definition linux_killswitch_install (server_v4 server_v6 : string) : list string :=
  ["ip rule add priority 110 blackhole"] ++
  when (negb (is_empty server_v4)) [rule_v4 server_v4] ++
  when (negb (is_empty server_v6)) [rule_v6 server_v6].
Definition linux_killswitch_remove : list string := ["ip rule del priority 110"].

Definition linux_server_install (tun_iface client_v4_cidr client_v6_cidr : string) : list string :=
  [fmt ["ip link set dev "; tun_iface; " up"]] ++
  when (negb (is_empty client_v4_cidr)) [fmt ["ip addr add "; client_v4_cidr; " dev "; tun_iface]] ++
  when (negb (is_empty client_v6_cidr)) [fmt ["ip -6 addr add "; client_v6_cidr; " dev "; tun_iface]] ++
  [fmt ["ip route add 10.77.0.2/32 dev "; tun_iface];
   fmt ["ip -6 route add fd00:77::2/128 dev "; tun_iface]].

Definition linux_server_teardown (tun_iface client_v4_cidr client_v6_cidr : string) : list string :=
  when (negb (is_empty client_v4_cidr)) [fmt ["ip addr del "; client_v4_cidr; " dev "; tun_iface]] ++
  when (negb (is_empty client_v6_cidr)) [fmt ["ip -6 addr del "; client_v6_cidr; " dev "; tun_iface]] ++
  [fmt ["ip link set dev "; tun_iface; " down"]].

Definition linux_enable_forwarding : list string :=
  ["sysctl -w net.ipv4.ip_forward=1"; "sysctl -w net.ipv6.conf.all.forwarding=1"].
Definition linux_disable_forwarding : list string :=
  ["sysctl -w net.ipv4.ip_forward=0"; "sysctl -w net.ipv6.conf.all.forwarding=0"].

Definition linux_nat_install (subnet : string) : list string :=
  when (negb (is_empty subnet)) [fmt ["iptables -t nat -A POSTROUTING -s "; subnet; " -j MASQUERADE"]].
Definition linux_nat_install_ipv6 (subnet : string) : list string :=
  when (negb (is_empty subnet)) [fmt ["ip6tables -t nat -A POSTROUTING -s "; subnet; " -j MASQUERADE"]].
Definition linux_nat_remove (subnet : string) : list string :=
  when (negb (is_empty subnet)) [fmt ["iptables -t nat -D POSTROUTING -s "; subnet; " -j MASQUERADE"]].
Definition linux_nat_remove_ipv6 (subnet : string) : list string :=
  when (negb (is_empty subnet)) [fmt ["ip6tables -t nat -D POSTROUTING -s "; subnet; " -j MASQUERADE"]].

(** The Windows command lists. *)

Definition quoted (s : string) : string :=
  let q := String (ascii_of_nat 34) EmptyString in fmt [q; s; q].

Definition windows_route (prefix : string) (idx : Z) (next_hop metric : string) : string :=
  fmt ["New-NetRoute -DestinationPrefix "; quoted prefix; " -InterfaceIndex "; pretty idx;
       " -NextHop "; next_hop; " -RouteMetric "; metric; " -PolicyStore ActiveStore"].

Definition windows_install_routes (server_v4 server_v6 : string) (tun_idx phys_idx : Z)
    (phys_gw : string) : list string :=
  when (negb (is_empty server_v4)) [windows_route (fmt [server_v4; "/32"]) phys_idx phys_gw "1"] ++
  when (negb (is_empty server_v6)) [windows_route (fmt [server_v6; "/128"]) phys_idx phys_gw "1"] ++
  [windows_route "0.0.0.0/0" tun_idx "0.0.0.0" "0";
   windows_route "::/0" tun_idx "::" "0";
   fmt ["Set-NetIPInterface -InterfaceIndex "; pretty tun_idx; " -InterfaceMetric 1"]].

Definition windows_dns_apply (iface_idx : Z) (dns : string) : list string :=
  [fmt ["Set-DnsClientServerAddress -InterfaceIndex "; pretty iface_idx; " -ServerAddresses "; dns]].
Definition windows_dns_revert (iface_idx : Z) : list string :=
  [fmt ["Set-DnsClientServerAddress -InterfaceIndex "; pretty iface_idx; " -ResetServerAddresses"]].

Definition windows_killswitch_install (server_v4 : string) (server_port : Z) : list string :=
  ["Set-NetFirewallProfile -Profile Domain,Private,Public -DefaultOutboundAction Block";
   fmt ["New-NetFirewallRule -DisplayName "; quoted "pq-tunnel-server";
        " -Direction Outbound -RemoteAddress "; server_v4; " -Protocol UDP -RemotePort ";
        pretty server_port; " -Action Allow"]].
Definition windows_killswitch_remove : list string :=
  [fmt ["Remove-NetFirewallRule -DisplayName "; quoted "pq-tunnel-server"];
   "Set-NetFirewallProfile -Profile Domain,Private,Public -DefaultOutboundAction Allow"].

(** ** The journal *)

Inductive JournalEntry :=
| JRoute (family : Z) (dst iface : string) (metric : Z)
| JRule (family priority : Z) (spec : string)
| JDns (iface : string) (previous : list string)
| JFirewallRule (name : string)
| JInterfaceAddress (iface addr : string)
| JKillSwitch (level : Z).

Definition rollback_entry (e : JournalEntry) : string :=
  match e with
  | JRoute family dst iface _ =>
      if (family =? 6)%Z then fmt ["ip -6 route del "; dst; " dev "; iface; "  # remove route"]
      else fmt ["ip route del "; dst; " dev "; iface; "  # remove route"]
  | JRule family priority _ =>
      if (family =? 6)%Z then fmt ["ip -6 rule del priority "; pretty priority; "  # remove rule"]
      else fmt ["ip rule del priority "; pretty priority; "  # remove rule"]
  | JDns iface _ => fmt ["resolvectl revert "; iface; "  # revert dns"]
  | JFirewallRule name => fmt ["iptables -D INPUT -m comment --comment "; name; " 2>/dev/null || true"]
  | JInterfaceAddress iface addr =>
      if contains colon addr then fmt ["ip -6 addr del "; addr; " dev "; iface]
      else fmt ["ip addr del "; addr; " dev "; iface]
  | JKillSwitch level => fmt ["remove killswitch level "; pretty level]
  end.

Definition Journal_record (e : JournalEntry) (entries : list JournalEntry) : list JournalEntry := entries ++ [e].

Definition rollback_plan (entries : list JournalEntry) : list string :=
  rollback_entry <$> rev entries.

Definition reconcile_stale_routes (existing_default_ifaces live_ifaces : list Z) : list Z :=
  filter (fun i => i ∉ live_ifaces) existing_default_ifaces.

Definition ip_ok (pkt : bytes) : bool := validate_inner pkt.

Definition source_ok (pkt : bytes) : bool :=
  match extract_src_ip pkt with
  | Some src => source_allowed src ClientAssignment_default
  | None => false
  end.

(** ** Running commands *)

Inductive Outcome := Succeeded | Exited | NotSpawned.

Global Instance Outcome_eq_dec : EqDecision Outcome.
Proof. solve_decision. Defined.

(** The commands attempted so far, with what came of them. *)
Definition ShellLog : Type := list (string * Outcome).

Inductive NetError :=
| CommandFailed (cmd : string) (o : Outcome)
| RouteGetFailed (o : Outcome)
| NoPhysicalInterface
| RefusingToStart.

(** The answer of [ip route get]: its exit, and what it printed. *)
Record RouteGet := mkRouteGet { rg_outcome : Outcome; rg_stdout : string }.

(** The [dev] and [via] words of the output, the last of each winning. *)
Fixpoint scan_route (tokens : list string) (iface gateway : option string) : option string * option string :=
  match tokens with
  | [] => (iface, gateway)
  | w :: rest =>
      match rest with
      | x :: rest' =>
          if bool_decide (w = "dev") then scan_route rest' (Some x) gateway
          else if bool_decide (w = "via") then scan_route rest' iface (Some x)
          else scan_route rest iface gateway
      | [] => (iface, gateway)
      end
  end.

Section Shell.
Variable sh : ShellLog -> string -> Outcome.
Variable ip_route_get : string -> string -> RouteGet.

Abbreviation Sh := (M ShellLog NetError).

Definition run_command (cmd : string) : Sh () := fun log =>
  let o := sh log cmd in
  (if bool_decide (o = Succeeded) then Ret () else Fail (CommandFailed cmd o), log ++ [(cmd, o)]).

Definition run_commands (cmds : list string) : Sh () := for_each run_command cmds.

Fixpoint run_with_rollback (setup teardown : list string) : Sh () :=
  match setup with
  | [] => mret ()
  | c :: setup =>
      r ← attempt (run_command c);
      match r with
      | Ok _ => run_with_rollback setup teardown
      | Err e =>
          for_each (fun t => _ ← attempt (run_command t); mret ()) teardown;;
          try id (Err e)
      end
  end.

Definition discover_physical_route (remote : string) : result NetError (string * option string) :=
  let family := if contains colon remote then "-6" else "-4" in
  let out := ip_route_get family remote in
  if negb (bool_decide (rg_outcome out = Succeeded)) then Err (RouteGetFailed (rg_outcome out))
  else
    match scan_route (String.words (rg_stdout out)) None None with
    | (Some i, gateway) => Ok (i, gateway)
    | (None, _) => Err NoPhysicalInterface
    end.

(** The addresses of the server by family, one of them empty. *)
Definition server_strings (remote : SocketAddr) : string * string :=
  match addr_ip remote with
  | IpV4 a => (v4_to_string a, EmptyString)
  | IpV6 a => (EmptyString, v6_to_string a)
  end.

Definition is_ipv4 (remote : SocketAddr) : bool :=
  match addr_ip remote with IpV4 _ => true | IpV6 _ => false end.

Definition install_networking (linux : bool) (remote : SocketAddr) : Sh () :=
  if linux then
    r ← try id (discover_physical_route (ip_to_string (addr_ip remote)));
    let '(phys_iface, gateway) := r in
    let '(server_v4, server_v6) := server_strings remote in
    let '(gw_v4, gw_v6) := if is_ipv4 remote then (gateway, None) else (None, gateway) in
    run_commands (linux_install_routes_with_gateway server_v4 server_v6 "pqtun0" phys_iface gw_v4 gw_v6)
  else try id (Err RefusingToStart).

Definition uninstall_networking (linux : bool) (remote : SocketAddr) : Sh () :=
  if linux then
    let '(server_v4, server_v6) := server_strings remote in
    for_each (fun c => _ ← attempt (run_command c); mret ()) (linux_teardown_routes "pqtun0" server_v4 server_v6)
  else mret ().

Definition enable_networking (linux : bool) : Sh () :=
  if linux then
    run_commands (linux_server_install "pqtun0" "10.77.0.1/32" "fd00:77::1/128");;
    run_commands linux_enable_forwarding;;
    run_commands (linux_nat_install "10.77.0.0/24");;
    run_commands (linux_nat_install_ipv6 "fd00:77::/64")
  else try id (Err RefusingToStart).

End Shell.

(** ** Display, checked against known renderings *)

Example display_samples :
  ip_to_string (IpV4 (Ipv4Addr_new 10 77 0 2)) = "10.77.0.2" /\
  ip_to_string (IpV6 0) = "::" /\ ip_to_string (IpV6 1) = "::1" /\
  ip_to_string (IpV6 (Ipv6Addr_new 0xfd00 0x77 0 0 0 0 0 2)) = "fd00:77::2" /\
  ip_to_string (IpV6 (Ipv6Addr_new 0x2001 0xdb8 0 0 1 0 0 1)) = "2001:db8::1:0:0:1" /\
  ip_to_string (IpV6 (Ipv6Addr_new 0x2001 0 0x10 0xabcd 0 1 0 1)) = "2001:0:10:abcd:0:1:0:1" /\
  ip_to_string (IpV6 (Ipv6Addr_new 0 0 0 0 0 0xffff 0x0102 0x0304)) = "::ffff:1.2.3.4".
Proof. vm_compute. split_and!; reflexivity. Qed.

Lemma append_nonempty x c s : String.append x (String c s) <> EmptyString.
Proof. by destruct x. Qed.

Lemma contains_app c x y : contains c (String.append x y) = contains c x || contains c y.
Proof.
  induction x as [|a x IH]; [done|]. change (String.append (String a x) y) with (String a (String.append x y)).
  cbn [contains]. by rewrite IH, orb_assoc.
Qed.

(** The decimal form of an octet has no colon: all of them, checked. *)
Lemma octet_no_colon i a : contains colon (pretty (octet4 i a)) = false.
Proof.
  assert (forallb (fun o => negb (contains colon (pretty (Z.of_nat o)))) (seq 0 256) = true) as H by (vm_compute; reflexivity).
  rewrite forallb_forall in H. assert (0 <= octet4 i a < 256)%Z as Hr.
  { unfold octet4. change 255%Z with (Z.ones 8). rewrite Z.land_ones by lia. by apply Z.mod_pos_bound. }
  specialize (H (Z.to_nat (octet4 i a))). rewrite Z2Nat.id in H by lia.
  destruct (contains _ _); [|done]. discriminate H. apply in_seq. lia.
Qed.

Lemma v4_no_colon a : contains colon (v4_to_string a) = false.
Proof. unfold v4_to_string, fmt. cbn [foldr]. rewrite !contains_app, !octet_no_colon. done. Qed.

Lemma v6_has_colon a : contains colon (v6_to_string a) = true.
Proof.
  unfold v6_to_string, fmt. case_match; [done|]. destruct (zero_run (segments a)) as [start len].
  destruct (1 <? len)%nat.
  - cbn [foldr]. rewrite !contains_app. by rewrite orb_true_r.
  - unfold fmt_subslice, segments. cbn -[hex_u16 segment6 contains colon String.append].
    rewrite contains_app. cbn [String.append]. by rewrite orb_true_r.
Qed.

Lemma server_strings_nonempty remote :
  match addr_ip remote with
  | IpV4 a => server_strings remote = (v4_to_string a, EmptyString) /\ is_empty (v4_to_string a) = false
  | IpV6 a => server_strings remote = (EmptyString, v6_to_string a) /\ is_empty (v6_to_string a) = false
  end.
Proof.
  unfold server_strings. destruct (addr_ip remote); (split; [done|]); unfold is_empty; apply bool_decide_false.
  - apply append_nonempty.
  - intros E. pose proof (v6_has_colon a) as H. by rewrite E in H.
Qed.

(** ** Execution *)

Section ShellOk.
Variable sh : ShellLog -> string -> Outcome.

Definition all_ran (cmds : list string) : ShellLog := (fun c => (c, Succeeded)) <$> cmds.

(** [run_commands] stops at the first failure and reports it. *)
Lemma run_commands_exact cmds log :
  run_commands sh cmds log = (Ret (), log ++ all_ran cmds) \/
  exists pre c post o, cmds = pre ++ c :: post /\ o <> Succeeded /\
    run_commands sh cmds log = (Fail (CommandFailed c o), log ++ all_ran pre ++ [(c, o)]).
Proof.
  unfold run_commands. revert log. induction cmds as [|c cmds IH]; intros log; cbn [for_each].
  { left. unfold all_ran. cbn. by rewrite app_nil_r. }
  unfold mbind, M_bind, run_command at 1 3. case_bool_decide as E.
  - destruct (IH (log ++ [(c, sh log c)])) as [H|(pre & c' & post & o & -> & Ho & H)]; rewrite E in *.
    + left. rewrite H. unfold all_ran. cbn [fmap list_fmap]. by rewrite <- app_assoc.
    + right. exists (c :: pre), c', post, o. split; [done|]. split; [done|]. rewrite H. unfold all_ran.
      cbn [fmap list_fmap]. by rewrite <- !app_assoc.
  - right. by exists [], c, cmds, (sh log c).
Qed.

Lemma attempt_command c log :
  attempt (run_command sh c) log =
  (Ret (if bool_decide (sh log c = Succeeded) then Ok () else Err (CommandFailed c (sh log c))), log ++ [(c, sh log c)]).
Proof. unfold attempt, run_command. by case_bool_decide. Qed.

(** Whatever its commands answer, a best-effort list runs whole. *)
Lemma best_effort_runs cmds log :
  exists os, length os = length cmds /\
    for_each (fun c => _ ← attempt (run_command sh c); mret ()) cmds log = (Ret (), log ++ zip cmds os).
Proof.
  revert log. induction cmds as [|c cmds IH]; intros log; cbn [for_each].
  { exists []. cbn. by rewrite app_nil_r. }
  destruct (IH (log ++ [(c, sh log c)])) as (os & Hl & H). exists (sh log c :: os). cbn [length zip]. split; [by rewrite Hl|].
  unfold mbind, M_bind in *. rewrite attempt_command. cbn [mret M_ret]. rewrite H. by rewrite <- app_assoc.
Qed.

(** [run_with_rollback]: either every command of the set-up ran, or those before
    the first failure did, and then the whole tear-down was attempted. *)
Theorem run_with_rollback_exact setup teardown log :
  run_with_rollback sh setup teardown log = (Ret (), log ++ all_ran setup) \/
  exists pre c post o os, setup = pre ++ c :: post /\ o <> Succeeded /\ length os = length teardown /\
    run_with_rollback sh setup teardown log =
    (Fail (CommandFailed c o), log ++ all_ran pre ++ [(c, o)] ++ zip teardown os).
Proof.
  revert log. induction setup as [|c setup IH]; intros log; cbn [run_with_rollback].
  { left. unfold all_ran. cbn. by rewrite app_nil_r. }
  unfold mbind, M_bind. rewrite attempt_command. case_bool_decide as E.
  - destruct (IH (log ++ [(c, sh log c)])) as [H|(pre & c' & post & o & os & -> & Ho & Hl & H)]; rewrite E in *.
    + left. rewrite H. unfold all_ran. cbn [fmap list_fmap]. by rewrite <- app_assoc.
    + right. exists (c :: pre), c', post, o, os. rewrite H. unfold all_ran. cbn [fmap list_fmap].
      by rewrite <- !app_assoc.
  - right. destruct (best_effort_runs teardown (log ++ [(c, sh log c)])) as (os & Hl & H).
    exists [], c, setup, (sh log c), os. split; [done|]. split; [done|]. split; [done|].
    unfold mbind, M_bind in H. rewrite H. cbn [try id app]. by rewrite <- app_assoc.
Qed.

Definition tunnel_rules : list string :=
  ["ip rule add priority 200 lookup 100"; "ip -6 rule add priority 200 lookup 100"].

(** A command attempted means that every command before its first place ran. *)
Lemma attempted_after cmds pre rest log cmd o :
  cmds = pre ++ rest -> (cmd ∉ pre) -> (cmd, o) ∈ (run_commands sh cmds log).2 -> (forall o', (cmd, o') ∉ log) ->
  forall c, c ∈ pre -> (c, Succeeded) ∈ (run_commands sh cmds log).2.
Proof.
  intros -> Hpre Hin Hlog c Hc. destruct (run_commands_exact (pre ++ rest) log) as [E|(p & c' & q & o' & Es & Ho & E)];
    rewrite E in *; cbn [snd] in *.
  - apply elem_of_app. right. apply list_elem_of_fmap. exists c. split; [done|]. apply elem_of_app. by left.
  - apply elem_of_app. right. apply elem_of_app. left. apply list_elem_of_fmap. exists c. split; [done|].
    assert (exists q', p = pre ++ q') as [q' ->]; [|apply elem_of_app; by left].
    assert (cmd ∈ p ++ [c']) as Hm.
    { rewrite !elem_of_app, list_elem_of_singleton in Hin. destruct Hin as [Hin|[Hin|Hin]]; [by apply Hlog in Hin| |].
      - apply list_elem_of_fmap in Hin as (x & [= -> ->] & Hx). apply elem_of_app. by left.
      - injection Hin as -> ->. apply elem_of_app. right. by apply list_elem_of_singleton. }
    clear -Es Hpre Hm. revert p Es Hm. induction pre as [|x pre IH]; intros p Es Hm; [by exists p|].
    destruct p as [|y p].
    + cbn in Es. injection Es as -> _. cbn in Hm. apply list_elem_of_singleton in Hm. subst. destruct Hpre. by left.
    + cbn in Es. injection Es as -> Es. destruct (IH ltac:(by intros ?; apply Hpre; right) p Es) as [q' ->]; [|by exists q'].
      cbn in Hm. apply elem_of_cons in Hm as [->|Hm]; [destruct Hpre; by left|done].
Qed.

End ShellOk.

(** The commands before the rules that divert traffic into the tunnel. *)
Definition before_rules (server_v4 server_v6 tun_iface phys_iface : string) (gw_v4 gw_v6 : option string)
    : list string :=
  [fmt ["ip link set dev "; tun_iface; " up"];
   fmt ["ip addr add 10.77.0.2/32 dev "; tun_iface];
   fmt ["ip -6 addr add fd00:77::2/128 dev "; tun_iface]] ++
  when (negb (is_empty server_v4)) [bypass_v4 server_v4 phys_iface gw_v4] ++
  when (negb (is_empty server_v6)) [bypass_v6 server_v6 phys_iface gw_v6] ++
  [fmt ["ip route add default dev "; tun_iface; " table 100"];
   fmt ["ip -6 route add default dev "; tun_iface; " table 100"]] ++
  when (negb (is_empty server_v4)) [rule_v4 server_v4] ++
  when (negb (is_empty server_v6)) [rule_v6 server_v6].

Lemma install_split v4 v6 tun phys g4 g6 :
  linux_install_routes_with_gateway v4 v6 tun phys g4 g6 =
  before_rules v4 v6 tun phys g4 g6 ++
  (tunnel_rules ++ ["ip rule add priority 101 table main suppress_prefixlength 0"]).
Proof. unfold linux_install_routes_with_gateway, before_rules. by rewrite <- !app_assoc. Qed.

(** Two commands that differ in their fixed leading words. *)
Ltac differ :=
  repeat match goal with g : option string |- _ => destruct g end;
  vm_compute; discriminate.

Lemma rules_come_last v4 v6 tun phys g4 g6 cmd :
  cmd ∈ tunnel_rules -> cmd ∉ before_rules v4 v6 tun phys g4 g6.
Proof.
  intros Hc. enough (Forall (fun c => cmd <> c) (before_rules v4 v6 tun phys g4 g6)) as H.
  { intros Hi. rewrite Forall_forall in H. by apply (H cmd Hi). }
  unfold tunnel_rules in Hc. rewrite !elem_of_cons in Hc. unfold before_rules, when.
  destruct (negb (is_empty v4)), (negb (is_empty v6)); destruct Hc as [->|[->|Hc%elem_of_nil]]; try done;
    cbn [app]; repeat constructor; differ.
Qed.

(** C36: The tunnel never swallows its own packets. At whatever command the client's
    network set-up stops, and whatever the shell answered, a rule that diverts
    traffic into the tunnel was attempted only after the route and the rule that
    keep the server reachable outside it succeeded, for the family of the
    server's address and over the interface and gateway that were discovered. *)
Theorem install_bypass_first sh ip_route_get remote r log cmd o :
  install_networking sh ip_route_get true remote [] = (r, log) -> cmd ∈ tunnel_rules -> (cmd, o) ∈ log ->
  exists phys gw,
    discover_physical_route ip_route_get (ip_to_string (addr_ip remote)) = Ok (phys, gw) /\
    match addr_ip remote with
    | IpV4 a => (bypass_v4 (v4_to_string a) phys gw, Succeeded) ∈ log /\ (rule_v4 (v4_to_string a), Succeeded) ∈ log
    | IpV6 a => (bypass_v6 (v6_to_string a) phys gw, Succeeded) ∈ log /\ (rule_v6 (v6_to_string a), Succeeded) ∈ log
    end.
Proof.
  unfold install_networking, mbind, M_bind, try. destruct (discover_physical_route _ _) as [[phys gw]|e]; cycle 1.
  { intros [= <- <-] _ Hi. by apply elem_of_nil in Hi. }
  pose proof (server_strings_nonempty remote) as Hs. unfold is_ipv4. intros Hrun Hc Hi. exists phys, gw. split; [done|].
  destruct (addr_ip remote) as [a|a]; destruct Hs as [Es Hne]; rewrite Es in Hrun.
  all: match type of Hrun with run_commands _ ?cmds _ = _ =>
    pose proof (attempted_after sh cmds _ _ [] cmd o (install_split _ _ _ _ _ _) (rules_come_last _ _ _ _ _ _ cmd Hc)) as H end.
  all: rewrite Hrun in H; cbn [snd] in H; specialize (H Hi ltac:(by intros o' ?%elem_of_nil)).
  all: split; apply H; unfold before_rules; rewrite Hne; change (is_empty EmptyString) with true; cbn [negb when app];
    rewrite !elem_of_cons; repeat (first [left; reflexivity|right]).
Qed.

Module OsNetSample.

(** The shell refuses the second rule of the tunnel. *)
Definition sh (log : ShellLog) (cmd : string) : Outcome :=
  if bool_decide (cmd = "ip -6 rule add priority 200 lookup 100") then Exited else Succeeded.

Definition ip_route_get (family remote : string) : RouteGet :=
  mkRouteGet Succeeded (fmt [remote; " via 192.168.1.1 dev eth0 src 192.168.1.20 uid 0 cache"]).

Definition remote : SocketAddr := SocketAddrV4 (Ipv4Addr_new 203 0 113 9) 5000.

End OsNetSample.

Lemma install_bypass_first_witness :
  exists log, install_networking OsNetSample.sh OsNetSample.ip_route_get true OsNetSample.remote [] =
    (Fail (CommandFailed "ip -6 rule add priority 200 lookup 100" Exited), log) /\
  (("ip route replace 203.0.113.9/32 via 192.168.1.1 dev eth0", Succeeded) ∈ log).
Proof.
  destruct (install_networking OsNetSample.sh OsNetSample.ip_route_get true OsNetSample.remote []) as [r log] eqn:E.
  destruct (install_bypass_first OsNetSample.sh OsNetSample.ip_route_get OsNetSample.remote r log
    "ip rule add priority 200 lookup 100" Succeeded E) as (phys & gw & Hd & H & _).
  - left.
  - vm_compute in E. injection E as <- <-. repeat (first [left|right]).
  - exists log. vm_compute in E. vm_compute in Hd. injection Hd as <- <-. injection E as <- <-.
    split; [reflexivity|]. exact H.
Defined.

(** A failed set-up is left as it is: nothing the client's set-up runs undoes
    what it did before the failure. *)
Theorem install_leaves_partial_setup sh ip_route_get remote e log :
  install_networking sh ip_route_get true remote [] = (Fail e, log) ->
  log = [] \/ exists phys g4 g6 pre c post o, e = CommandFailed c o /\ log = all_ran pre ++ [(c, o)] /\
    linux_install_routes_with_gateway (server_strings remote).1 (server_strings remote).2 "pqtun0" phys g4 g6 =
    pre ++ c :: post.
Proof.
  unfold install_networking, mbind, M_bind, try. destruct (discover_physical_route _ _) as [[phys gw]|e']; cycle 1.
  { intros [= _ <-]. by left. }
  destruct (server_strings remote) as [v4 v6]. destruct (if is_ipv4 remote then _ else _) as [g4 g6].
  intros H. right. destruct (run_commands_exact sh (linux_install_routes_with_gateway v4 v6 "pqtun0" phys g4 g6) [])
    as [E|(pre & c & post & o & Es & Ho & E)]; rewrite E in H; [done|].
  injection H as <- <-. by exists phys, g4, g6, pre, c, post, o.
Qed.

(** The plan undoes the latest mutation first. *)
Lemma rollback_plan_app j1 j2 : rollback_plan (j1 ++ j2) = rollback_plan j2 ++ rollback_plan j1.
Proof. unfold rollback_plan. by rewrite rev_app_distr, fmap_app. Qed.
