(* ===== verification/Ledger.v ===== *)
(** * The session ledger

    The notifications the server driver gives to its application, accounted
    against the manager's session table: at every moment the identifiers
    reported established are those reported closed, those still in the table and
    those whose closing is queued, each as often. Each operation of the manager
    is shown to keep these books; the driver then keeps them over its log, and
    the application task's session counter follows. *)

From S2P Require Import Prelude Bytes Errors Codec Replay Crypto Envelope WireSession Exec Scheduler Net IpAddr HandshakeMsg HandshakeClient HandshakeServer SessionCommon ServerManager ClientManager Drivers Oldest Relay Forward Files Identity Setup HandshakeSafety FailGateOk ServerManagerOk.

Local Open Scope Z_scope.

Definition opened_sid (ev : ManagerEvent) : option bytes :=
  match ev with EvEstablished sid _ => Some sid | _ => None end.

Definition closed_sid (ev : ManagerEvent) : option bytes :=
  match ev with EvClosed sid _ => Some sid | _ => None end.

(** ** The keys of a table, up to order *)

Section Keys.
Context {V : Type}.
Implicit Types s : gmap bytes V.

Definition keys s : list bytes := (map_to_list s).*1.

Lemma keys_insert_fresh s i x : s !! i = None -> keys (<[i := x]> s) ≡ₚ i :: keys s.
Proof. intros H. unfold keys. by rewrite map_to_list_insert by done. Qed.

Lemma keys_delete s i x : s !! i = Some x -> keys s ≡ₚ i :: keys (delete i s).
Proof. intros H. unfold keys. by rewrite <- (map_to_list_delete s i x H). Qed.

Lemma keys_insert_same s i x y : s !! i = Some y -> keys (<[i := x]> s) ≡ₚ keys s.
Proof.
  intros H. rewrite <- insert_delete_eq, keys_insert_fresh by apply lookup_delete_eq. by rewrite (keys_delete s i y H).
Qed.

End Keys.

Section Manager.
Context {P : Primitives}.
Implicit Types m : ServerSessionManager.

(** Sessions established whose closing was not reported yet. *)
Definition live m : list bytes := keys (sm_sessions m) ++ omap closed_sid (sm_pending_closed m).

Definition closing m : Prop := Forall (fun ev => is_Some (closed_sid ev)) (sm_pending_closed m).

Definition books m (evs : list ManagerEvent) m' : Prop :=
  closing m -> closing m' /\ omap opened_sid evs ++ live m ≡ₚ omap closed_sid evs ++ live m'.

Lemma books_same m m' :
  keys (sm_sessions m') ≡ₚ keys (sm_sessions m) -> sm_pending_closed m' = sm_pending_closed m -> books m [] m'.
Proof. intros E1 E2 H. unfold closing, live in *. rewrite E2, E1. done. Qed.

Lemma books_trans m1 e1 m2 e2 m3 : books m1 e1 m2 -> books m2 e2 m3 -> books m1 (e1 ++ e2) m3.
Proof.
  intros H1 H2 Hc. destruct (H1 Hc) as [Hc2 E1]. destruct (H2 Hc2) as [Hc3 E2]. split; [done|].
  rewrite !omap_app, <- !app_assoc.
  rewrite (Permutation_app_comm (omap opened_sid e1)), <- app_assoc, (Permutation_app_comm (live m1)), E1.
  rewrite (Permutation_app_comm (omap closed_sid e1)), app_assoc, E2. by rewrite Permutation_app_comm.
Qed.

Lemma books_update m sid e e' :
  sm_sessions m !! sid = Some e -> books m [] (sm_map_sessions (<[sid := e']>) m).
Proof. intros H. apply books_same; [|done]. cbn. by eapply keys_insert_same. Qed.

Lemma books_close m sid e r :
  sm_sessions m !! sid = Some e -> books m [EvClosed sid r] (sm_map_sessions (delete sid) m).
Proof. intros H Hc. split; [exact Hc|]. unfold live. cbn. by rewrite (keys_delete _ _ _ H). Qed.

Lemma books_queue m sid e r :
  sm_sessions m !! sid = Some e ->
  books m [] (sm_map_closed (fun q => q ++ [EvClosed sid r]) (sm_map_sessions (delete sid) m)).
Proof.
  intros H Hc. split.
  - apply Forall_app. split; [exact Hc|]. by repeat constructor.
  - unfold live. cbn. rewrite omap_app, (keys_delete _ _ _ H). cbn. rewrite app_assoc.
    by rewrite <- Permutation_cons_append.
Qed.

Lemma books_open m sid e from :
  sm_sessions m !! sid = None -> books m [EvEstablished sid from] (sm_map_sessions (<[sid := e]>) m).
Proof. intros H Hc. split; [exact Hc|]. unfold live. cbn. by rewrite keys_insert_fresh. Qed.

(** A computation that keeps the books, also when it fails. *)
Definition books_post m (r : exec ManagerError ManagerEvent) m' : Prop :=
  match r with Ret ev => books m [ev] m' | Fail _ => books m [] m' | Panic _ => True end.

Lemma books_post_after m m1 (r : exec ManagerError ManagerEvent) m2 :
  books m [] m1 -> books_post m1 r m2 -> books_post m r m2.
Proof.
  intros H1. destruct r as [ev|e|p]; cbn; [| |done]; intros H2; by apply (books_trans m [] m1 _ m2).
Qed.

Definition opens_none {A} (r : exec ManagerError ManagerEvent) (m : A) : Prop :=
  match r with Ret ev => opened_sid ev = None | _ => True end.

Lemma send_books m sid e (f : WireSession -> result SessionError WirePacket * WireSession) :
  sm_sessions m !! sid = Some e ->
  wp (r ← with_session sid f e; send_result sid (se_peer e) r) m (fun r m' => books_post m r m' /\ opens_none r m').
Proof.
  intros He. wp_steps. unfold with_session, send_result. destruct (f (se_session e)) as [r w]. wp_steps.
  pose proof (books_update m sid e (entry_set_session w e) He) as Hu.
  destruct r as [p|[]]; wp_steps; try exact (conj Hu eq_refl); try (apply wp_try; [done|]; intros; exact (conj Hu I)).
  split; [|done]. apply (books_trans m [] _ [_] _ Hu). eapply books_close. apply lookup_insert_eq.
Qed.

Lemma complete_books m o from now : wp (on_handshake_complete o from now) m (books_post m).
Proof.
  unfold on_handshake_complete. wp_steps. case_bool_decide as Hex; [wp_steps; by apply books_same|].
  apply eq_None_not_Some in Hex. wp_steps.
  assert (forall m1 w, books m [] m1 -> sm_sessions m1 !! ho_session_id o = None ->
    books m [EvEstablished (ho_session_id o) from] (sm_map_sessions (<[ho_session_id o := w]>) m1)) as Hopen
    by (intros m1 w Hb Hn; apply (books_trans m [] m1 [_]); [done|by apply books_open]).
  assert (books m [] m) as Hsame by (by apply books_same).
  case_match; cycle 1.
  { wp_steps. apply wp_try; [|by intros]. intros w _. wp_steps. by apply Hopen. }
  pose proof (stalest_spec (sm_sessions m)) as Hst. destruct (stalest (sm_sessions m)) as [k|]; cycle 1.
  { wp_steps. apply wp_try; [|by intros]. intros w _. wp_steps. by apply Hopen. }
  destruct Hst as (e & He & _). pose proof (books_queue m k e Capacity He) as Hq. wp_steps.
  apply wp_try; [|by intros]. intros w _. wp_steps. apply Hopen; [done|].
  cbn. rewrite lookup_delete_ne; [done|]. intros ->. by rewrite Hex in He.
Qed.

Lemma control_books m sid inner : wp (on_control_message sid inner) m (books_post m).
Proof.
  unfold on_control_message. wp_steps. case_bool_decide; [|wp_steps; by apply books_same].
  destruct (sm_sessions m !! sid) as [e|] eqn:He; [|wp_steps; by apply books_same].
  eapply wp_mono; [by apply send_books|]. by intros r m' [Hb _].
Qed.

Lemma data_books m pkt from now : wp (server_on_data_packet pkt from now) m (books_post m).
Proof.
  unfold server_on_data_packet. wp_steps. set (sid := slice _ _ _).
  destruct (sm_sessions m !! sid) as [e|] eqn:He; [|wp_steps; by apply books_same].
  case_match; [wp_steps; by apply books_same|]. destruct (WireSession_decrypt _ _) as [[inner|err] w]; wp_steps.
  - set (e1 := mkSessionEntry w from now (se_established_at e)).
    pose proof (books_update m sid e e1 He) as Hu.
    destruct (ip_msg_type inner); wp_steps; try exact Hu.
    + eapply wp_mono; [apply control_books|]. intros r m2. by apply books_post_after.
    + apply (books_trans m [] _ [_] _ Hu). eapply books_close. apply lookup_insert_eq.
  - pose proof (books_update m sid e (entry_set_session w e) He) as Hu.
    destruct (classify_error err) as [[]|]; wp_steps; try exact Hu; try (apply wp_try; [done|]; intros; exact Hu).
    apply (books_trans m [] _ [_] _ Hu). eapply books_close. apply lookup_insert_eq.
Qed.

Lemma handle_books m d now pkt from : wp (server_manager_handle d now pkt from) m (books_post m).
Proof.
  unfold server_manager_handle. case_match; [|apply data_books]. wp_steps. unfold wp, map_fail, zoom.
  destruct (server_handle_datagram d pkt from (sm_hs m)) as [[ev|e|p] hs]; cbn [fst snd]; [| |done];
    [|by apply books_same].
  assert (books m [] (sm_set_hs hs m)) as Hu by (by apply books_same).
  destruct ev as [packets peer|o|]; [exact Hu| |exact Hu].
  pose proof (complete_books (sm_set_hs hs m) o from now) as Hw. unfold wp in Hw.
  destruct (on_handshake_complete o from now _) as [r m2]. cbn [fst snd] in Hw |- *.
  by apply (books_post_after m _ _ _ Hu).
Qed.

Lemma outbound_books m sid payload :
  wp (server_app_outbound sid payload) m (fun r m' => books_post m r m' /\ opens_none r m').
Proof.
  assert (books m [] m) as Hsame by (by apply books_same).
  unfold server_app_outbound. case_match; [apply wp_try; [done|]; intros; by split|].
  unfold server_send_encrypted. wp_steps. destruct (sm_sessions m !! sid) as [e|] eqn:He; cbn [ok_or].
  - eapply wp_try_ok; [reflexivity|]. by apply send_books.
  - apply wp_try; [done|]. by intros.
Qed.

(** ** Lists of events *)

Definition opens_nothing (evs : list ManagerEvent) : Prop := Forall (fun ev => opened_sid ev = None) evs.

Lemma opens_nothing_omap evs : opens_nothing evs -> omap opened_sid evs = [].
Proof. induction 1 as [|ev evs E _ IH]; [done|]. cbn. by rewrite E. Qed.

Definition books_all m (r : exec ManagerError (list ManagerEvent)) m' : Prop :=
  match r with Ret evs => books m evs m' /\ opens_nothing evs | _ => True end.

Lemma cover_books m sid fill :
  wp (server_cover_packet sid fill) m (fun r m' => books_post m r m' /\ opens_none r m').
Proof.
  assert (books m [] m) as Hsame by (by apply books_same).
  unfold server_cover_packet. wp_steps. destruct (sm_sessions m !! sid) as [e|] eqn:He; cbn [ok_or].
  - eapply wp_try_ok; [reflexivity|]. by apply send_books.
  - apply wp_try; [done|]. by intros.
Qed.

Lemma cover_each_books sids fill m : wp (cover_each sids fill) m (books_all m).
Proof.
  revert m. induction sids as [|sid sids IH]; intros m; cbn [cover_each].
  { wp_steps. split; [by apply books_same|constructor]. }
  wp_steps. eapply wp_mono; [apply cover_books|]. intros [ev|e|p] m1; [|done|done]. intros [Hb Ho]. cbn [books_post opens_none] in *. wp_steps.
  eapply wp_mono; [apply IH|]. intros [evs|e|p] m2; [|done|done]. intros [Hbs Hos]. wp_steps.
  pose proof (books_trans _ _ _ _ _ Hb Hbs) as Ht. destruct ev; split; try exact Ht; try done; by constructor.
Qed.

Lemma retransmit_quiet now pcs :
  opens_nothing (retransmit_closes now pcs).1 /\ omap closed_sid (retransmit_closes now pcs).1 = [].
Proof.
  unfold retransmit_closes. cbn [fst]. induction pcs as [|pc pcs [IH1 IH2]]; [by split; [constructor|]|].
  cbn [fmap list_fmap concat fst]. rewrite omap_app, IH2. unfold opens_nothing. rewrite Forall_app.
  unfold retransmit_one at 1 3. repeat case_match; simplify_eq; cbn; repeat split; try done; by repeat constructor.
Qed.

(** Expiring sessions that are in the table, each once. *)
Lemma expire_books now l out m :
  NoDup l.*1 -> Forall (fun sr => is_Some (sm_sessions m !! sr.1)) l ->
  exists evs, (foldl (fun st sr => expire_session now sr st) (out, m) l).1 = out ++ evs /\ opens_nothing evs /\
    books m evs (foldl (fun st sr => expire_session now sr st) (out, m) l).2.
Proof.
  revert out m. induction l as [|[sid r] l IH]; intros out m Hnd Hall; cbn [foldl].
  { exists []. cbn. rewrite app_nil_r. split; [done|]. split; [constructor|by apply books_same]. }
  cbn [fmap list_fmap fst] in Hnd. apply NoDup_cons in Hnd as [Hni Hnd].
  apply Forall_cons in Hall as [[e He] Hall]. cbn [fst] in He.
  unfold expire_session at 2 4. rewrite He.
  destruct (begin_close_spec e now (sm_map_sessions (delete sid) m)) as [[pcs Em] Hev].
  destruct (begin_close e now (sm_map_sessions (delete sid) m)) as [close m1]. cbn [fst snd] in *. subst m1.
  set (first := match close with EvNone => [] | ev => [ev] end ++ [EvClosed sid r]).
  destruct (IH (out ++ first) (sm_map_closes (fun _ => pcs) (sm_map_sessions (delete sid) m)) Hnd) as (evs & E1 & Ho & Hb).
  { rewrite Forall_forall in Hall |- *. intros [sid' r'] Hin. cbn. rewrite lookup_delete_ne; [by apply (Hall (sid', r'))|].
    intros ->. apply Hni. apply list_elem_of_fmap. by exists (sid', r'). }
  exists (first ++ evs). rewrite E1, app_assoc. split; [done|]. split.
  - apply Forall_app. split; [|done]. subst first. destruct Hev as [->|[p ->]]; by repeat constructor.
  - apply (books_trans m first (sm_map_sessions (delete sid) m)); [|exact Hb].
    assert (books m [EvClosed sid r] (sm_map_sessions (delete sid) m)) as Hc by (by eapply books_close).
    subst first. destruct Hev as [->|[p ->]]; exact Hc.
Qed.

Lemma tick_books now m :
  closing m -> books m (server_tick now m).1 (server_tick now m).2 /\ opens_nothing (server_tick now m).1.
Proof.
  intros Hcl. unfold server_tick. fold (expired_list now m).
  destruct (expire_books now (expired_list now m) [] m) as (evs & E & Ho & Hb).
  { unfold expired_list. pose proof (NoDup_fst_map_to_list (sm_sessions m)) as Hnd. revert Hnd.
    generalize (map_to_list (sm_sessions m)). intros l. induction l as [|[k e] l IH]; [constructor|].
    cbn. intros [Hk Hnd]%NoDup_cons. destruct (expiry _ _ e) as [r|]; cbn; [|by apply IH]. constructor; [|by apply IH].
    intros ([k' r'] & -> & ([k2 e2] & Hin & Hx)%list_elem_of_omap)%list_elem_of_fmap. apply Hk. cbn in Hx.
    destruct (expiry _ _ e2); [|done]. injection Hx as -> _. apply list_elem_of_fmap. by exists (k', e2). }
  { apply Forall_forall. intros [sid r] Hin. apply elem_of_expired in Hin as (e & He & _). by exists e. }
  destruct (foldl _ _ (expired_list now m)) as [out m1]. cbn [fst snd app] in *. subst out.
  destruct (Hb Hcl) as [Hcl1 _].
  pose proof (retransmit_quiet now (sm_pending_closes (sm_map_closed (fun _ => []) m1))) as [Hr1 Hr2].
  destruct (retransmit_closes now _) as [closes pcs]. cbn [fst snd] in *.
  assert (opens_nothing (sm_pending_closed m1)) as Hp.
  { eapply Forall_impl; [exact Hcl1|]. intros ev [sid Hs]. by destruct ev. }
  split; [|unfold opens_nothing; by rewrite !Forall_app].
  rewrite <- app_assoc. apply (books_trans m evs m1); [exact Hb|]. intros _. split; [constructor|].
  rewrite !omap_app, Hr2, (opens_nothing_omap _ Hr1), (opens_nothing_omap _ Hp). unfold live. cbn.
  by rewrite !app_nil_r, Permutation_app_comm.
Qed.

End Manager.

(** ** The driver *)

Definition reported_open (e : effect) : option bytes :=
  match e with Notified (NEstablished sid _) => Some sid | _ => None end.

Definition reported_closed (e : effect) : option bytes :=
  match e with Notified (NClosed sid _) => Some sid | _ => None end.

Section Driver.
Context {P : Primitives}.

(** The books of the driver: its log against the manager's table. *)
Definition ledger (s : ServerDriver) : Prop :=
  closing (sd_manager s) /\
  omap reported_open (sd_log s) ≡ₚ omap reported_closed (sd_log s) ++ live (sd_manager s).

(** A step that only adds to the log reports of what it opened and closed. *)
Definition reports (evs : list ManagerEvent) (s s' : ServerDriver) : Prop :=
  sd_manager s' = sd_manager s /\
  exists es, sd_log s' = sd_log s ++ es /\ omap reported_open es = omap opened_sid evs /\
    omap reported_closed es = omap closed_sid evs.

Lemma reports_nil s s' : sd_manager s' = sd_manager s -> sd_log s' = sd_log s -> reports [] s s'.
Proof. intros E1 E2. split; [done|]. exists []. by rewrite app_nil_r. Qed.

Lemma reports_trans e1 e2 s1 s2 s3 : reports e1 s1 s2 -> reports e2 s2 s3 -> reports (e1 ++ e2) s1 s3.
Proof.
  intros (E1 & es1 & L1 & O1 & C1) (E2 & es2 & L2 & O2 & C2). split; [by rewrite E2|]. exists (es1 ++ es2).
  by rewrite L2, L1, !omap_app, O1, O2, C1, C2, app_assoc.
Qed.

Definition on_ret {A} (Q : ServerDriver -> Prop) (r : exec ManagerError A) (s : ServerDriver) : Prop :=
  match r with Ret _ => Q s | _ => True end.

Lemma send_reports io p peer ev s :
  opened_sid ev = None -> closed_sid ev = None -> wp (send_to io p peer) s (on_ret (reports [ev] s)).
Proof.
  intros E1 E2. unfold send_to. wp_steps. apply wp_try; [|done]. intros [] _. wp_steps. split; [done|].
  exists [Sent p peer]. cbn. by rewrite E1, E2.
Qed.

Lemma notify_reports io n ev s :
  reported_open (Notified n) = opened_sid ev -> reported_closed (Notified n) = closed_sid ev ->
  wp (notify io n) s (on_ret (reports [ev] s)).
Proof.
  intros E1 E2. unfold notify. case_match; [|by apply wp_try]. wp_steps. split; [done|].
  exists [Notified n]. cbn [omap list_omap]. by rewrite E1, E2.
Qed.

Lemma send_packets_reports io ps peer s : wp (send_packets io ps peer) s (on_ret (reports [] s)).
Proof.
  revert s. induction ps as [|p ps IH]; intros s; cbn [send_packets]; [wp_steps; by apply reports_nil|]. wp_steps.
  eapply wp_mono; [by apply (send_reports io p peer EvNone)|]. intros [[]|e|q] s1; [|done|done]. intros H1.
  eapply wp_mono; [apply IH|]. intros [[]|e|q] s2; [|done|done]. by apply (reports_trans [EvNone] []).
Qed.

Lemma on_event_reports t ev s : wp (server_on_event t ev) s (on_ret (reports [ev] s)).
Proof.
  destruct ev; cbn [server_on_event].
  - apply send_packets_reports.
  - by apply send_reports.
  - wp_steps. eapply wp_mono; [by apply (notify_reports _ _ (EvEstablished sid peer))|].
    intros [[]|e|p] s2; [|done|done]. by apply (reports_trans [] [_]), reports_nil.
  - by apply notify_reports.
  - by apply notify_reports.
  - wp_steps. by apply reports_nil.
  - wp_steps. by apply reports_nil.
Qed.

Lemma timed_events_reports t i evs s :
  opens_nothing evs -> wp (for_events (server_on_timed_event t) i evs) s (on_ret (reports evs s)).
Proof.
  intros Ho. revert i s. induction Ho as [|ev evs Ho _ IH]; intros i s; cbn [for_events]; [wp_steps; by apply reports_nil|].
  wp_steps. assert (wp (server_on_timed_event t i ev) s (on_ret (reports [ev] s))) as H1.
  { destruct ev; cbn [server_on_timed_event]; first [by apply send_reports|by apply notify_reports|
      wp_steps; by apply reports_nil|done]. }
  eapply wp_mono; [exact H1|]. intros [[]|e|p] s1; [|done|done]. intros Hr.
  eapply wp_mono; [apply IH|]. intros [[]|e|p] s2; [|done|done]. by apply (reports_trans [_] evs).
Qed.

(** A manager call and the reports of its events keep the ledger. *)
Lemma ledger_step s s1 s2 evs :
  ledger s -> sd_log s1 = sd_log s -> books (sd_manager s) evs (sd_manager s1) -> reports evs s1 s2 -> ledger s2.
Proof.
  intros [Hc Hl] El Hb (Em & es & Es & Ho & Hcl). destruct (Hb Hc) as [Hc1 Hp]. split; [by rewrite Em|].
  rewrite Em, Es, El, !omap_app, Ho, Hcl, Hl.
  rewrite <- app_assoc, (Permutation_app_comm (live _)), Hp, <- app_assoc. done.
Qed.

Lemma recv_ledger t r s : ledger s -> wp (server_recv_arm t r) s (on_ret ledger).
Proof.
  intros Hs. destruct r as [[pkt from]|e]; cbn [server_recv_arm]; cycle 1.
  { destruct e; first [apply wp_try; done|wp_steps; exact Hs]. }
  wp_steps. unfold on_manager. wp_steps. eapply wp_mono; [apply handle_books|].
  intros [ev|e|p] m1; [|done|done]. intros Hb. wp_steps.
  eapply wp_mono; [apply on_event_reports|]. intros [[]|e|p] s2; [|done|done]. intros Hr. wp_steps.
  by apply (ledger_step s (sd_set_manager m1 (sd_set_reset_noticed false s)) s2 [ev]).
Qed.

Lemma cmd_ledger t cmd s : ledger s -> wp (server_cmd_arm t cmd) s (on_ret ledger).
Proof.
  intros Hs. destruct cmd as [cmd|]; cbn [server_cmd_arm]; [|wp_steps; exact Hs].
  pose proof (outbound_books (sd_manager s) (sac_sid cmd) (sac_payload cmd)) as Hb. unfold wp in Hb. unfold wp at 1.
  destruct (server_app_outbound _ _ _) as [r m1]. cbn [fst snd] in Hb. destruct Hb as [Hb Ho].
  assert (forall evs, books (sd_manager s) evs m1 -> omap opened_sid evs = [] -> omap closed_sid evs = [] ->
    ledger (sd_set_manager m1 s)) as Hquiet.
  { intros evs H E1 E2. apply (ledger_step s (sd_set_manager m1 s) _ evs Hs); [done|exact H|]. split; [done|]. exists [].
    by rewrite app_nil_r, E1, E2. }
  assert (forall (f : M ServerDriver ManagerError ()) ev, books (sd_manager s) [ev] m1 ->
    wp f (sd_set_manager m1 s) (on_ret (reports [ev] (sd_set_manager m1 s))) ->
    wp (f;; mret true) (sd_set_manager m1 s) (on_ret ledger)) as Hstep.
  { intros f ev H Hf. wp_steps. eapply wp_mono; [exact Hf|]. intros [[]|e|p] s2; [|done|done]. intros Hr. wp_steps.
    by apply (ledger_step s (sd_set_manager m1 s) s2 [ev]). }
  destruct r as [[]|e|p]; cbn [books_post opens_none opened_sid] in Hb, Ho; try done.
  all: try (eapply Hquiet; [exact Hb|done|done]).
  - eapply Hstep; [exact Hb|by apply send_reports].
  - eapply Hstep; [exact Hb|by apply notify_reports].
  - assert (ledger (sd_set_manager m1 s)) as Hl by (by eapply (Hquiet [])). repeat case_match; done.
Qed.

Lemma tick_ledger t s : ledger s -> wp (server_tick_arm t) s (on_ret ledger).
Proof.
  intros Hs. unfold server_tick_arm, on_manager. wp_steps.
  destruct (tick_books (st_now t) (sd_manager s) (proj1 Hs)) as [Hb Ho].
  eapply wp_mono; [by apply timed_events_reports|]. intros [[]|e|p] s2; [|done|done]. intros Hr. wp_steps.
  by apply (ledger_step s (sd_set_manager (server_tick (st_now t) (sd_manager s)).2 s) s2
    (server_tick (st_now t) (sd_manager s)).1).
Qed.

Lemma cover_ledger t s : ledger s -> wp (server_cover_arm t) s (on_ret ledger).
Proof.
  intros Hs. unfold server_cover_arm. wp_steps. destruct (on_deadline _ _) as [due sched]. wp_steps.
  destruct due; wp_steps; [|exact Hs]. unfold on_manager, cover_packet_all. wp_steps.
  eapply wp_mono; [apply cover_each_books|]. intros [evs|e|p] m1; [|done|done]. intros [Hb Ho]. wp_steps.
  eapply wp_mono; [by apply timed_events_reports|]. intros [[]|e|p] s2; [|done|done]. intros Hr. wp_steps.
  assert (ledger s2) as Hl by (by apply (ledger_step s (sd_set_manager m1 (sd_set_sched sched s)) s2 evs)).
  by case_match.
Qed.

Lemma server_turn_ledger t i s : ledger s -> wp (server_turn t i) s (on_ret ledger).
Proof.
  intros Hs. destruct i; [by apply recv_ledger|by apply cmd_ledger|by apply tick_ledger|by apply cover_ledger].
Qed.

Lemma server_loop_ledger turns s : ledger s -> wp (server_driver_loop turns) s (on_ret ledger).
Proof.
  revert s. induction turns as [|[t i] turns IH]; intros s Hs; cbn [server_driver_loop]; [wp_steps; exact Hs|].
  wp_steps. eapply wp_mono; [by apply server_turn_ledger|]. intros [b|e|p] s1; [|done|done]. intros H1. cbn.
  destruct b; [by apply IH|wp_steps; exact H1].
Qed.

End Driver.

(** ** The application task *)

Definition notified (e : effect) : option ManagerNotification :=
  match e with Notified n => Some n | _ => None end.

(** What the session counter of the task makes of a log. *)
Lemma app_counts {Ord : IterOrder PoolKey ForwardEntry} (log : list effect) xs a :
  xs.*2 = omap notified log -> in_range 64 (at_active_sessions a) ->
  at_active_sessions (fold_left (fun a x => app_on_notification x.1 x.2 a) xs a) =
  wrap 64 (at_active_sessions a + Z.of_nat (length (omap reported_open log)) - Z.of_nat (length (omap reported_closed log))).
Proof.
  revert xs a. induction log as [|[p peer|n] log IH]; intros xs a Hx Ha; cbn [omap list_omap notified] in Hx.
  - destruct xs; [|done]. cbn. rewrite Z.add_0_r, Z.sub_0_r. symmetry. by apply wrap_small.
  - by apply (IH xs a Hx).
  - destruct xs as [|[io n'] xs]; [done|]. cbn in Hx. injection Hx as -> Hx. cbn [fold_left fst snd].
    rewrite IH; [|done|destruct n; try exact Ha; by apply wrap_range].
    destruct n; cbn [app_on_notification at_active_sessions omap list_omap reported_open reported_closed length];
      try reflexivity; unfold wrapping_sub, wrap.
    all: rewrite <- Z.add_sub_assoc, Zplus_mod_idemp_l; f_equal; lia.
Qed.

(** C17: The session ledger. Whatever the network, the application and the clock did,
    the identifiers the server driver reported established are, each as often,
    those it reported closed, those still in the session table and those whose
    closing is queued for the next tick: no session is closed twice or without
    having been opened, and none is forgotten. The session counter the
    application task publishes is therefore exact and never underflows. *)
Theorem session_ledger {P : Primitives} {Ord : IterOrder PoolKey ForwardEntry} cfg limits start m cover turns b s :
  ServerSessionManager_new cfg limits start = Ok m -> run_server_manager m cover turns = (Ret b, s) ->
  let table := sm_sessions (sd_manager s) in
  let queued := omap closed_sid (sm_pending_closed (sd_manager s)) in
  omap reported_open (sd_log s) ≡ₚ omap reported_closed (sd_log s) ++ keys table ++ queued /\
  forall echo xs, xs.*2 = omap notified (sd_log s) ->
    at_active_sessions (app_task echo xs) = wrap 64 (Z.of_nat (size table + length queued)).
Proof.
  intros Hm Hrun table queued.
  assert (sm_sessions m = ∅ /\ sm_pending_closed m = []) as [E1 E2].
  { unfold ServerSessionManager_new in Hm. apply bind_ok in Hm as (? & _ & Hm). apply bind_ok in Hm as (? & _ & Hm).
    by simplify_res. }
  assert (ledger (server_driver_init m cover)) as H0.
  { split; [unfold closing; cbn; rewrite E2; constructor|]. unfold live, keys. cbn. rewrite E1, E2.
    by rewrite map_to_list_empty. }
  pose proof (server_loop_ledger turns _ H0) as Hw. unfold run_server_manager in Hrun. unfold wp in Hw.
  rewrite Hrun in Hw. destruct Hw as [_ Hl]. split; [exact Hl|]. intros echo xs Hx. unfold app_task.
  cbn [at_active_sessions]. rewrite (app_counts (sd_log s)); [|done|split; done].
  cbn [at_active_sessions]. f_equal. apply Permutation_length in Hl. unfold live, keys in Hl.
  rewrite !length_app, length_fmap, length_map_to_list in Hl. cbn [snd] in Hl. unfold table, queued. lia.
Qed.

Module LedgerSample.

Definition turn : ServerTurn :=
  mkServerTurn (from_secs 1) (Sample.draws 1) (fun _ => Ok (zeros PAYLOAD_LEN))
    (mkDriverIO (fun _ _ => Ok ()) (fun _ => true)).

(** The sample handshake, datagram by datagram, then a tick. *)
Definition turns : list (ServerTurn * server_input) :=
  ((fun p => (turn, SIRecv (Ok (p, Sample.client_addr)))) <$>
     (default [] (ch_m1_frags <$> Sample.client) ++ [Sample.m3_packet])) ++ [(turn, SITick)].

Definition one_open {P : Primitives} (r : exec ManagerError bool * ServerDriver) : bool :=
  match r with
  | (Ret b, s) => (length (omap reported_open (sd_log s)) =? 1)%nat && (size (sm_sessions (sd_manager s)) =? 1)%nat
  | _ => false
  end.

End LedgerSample.

Lemma ledger_sample :
  LedgerSample.one_open (run_server_manager ManagerSample.manager0 CoverPolicy_default LedgerSample.turns) = true.
Proof. vm_compute. reflexivity. Qed.

Lemma session_ledger_witness : exists b s,
  run_server_manager ManagerSample.manager0 CoverPolicy_default LedgerSample.turns = (Ret b, s) /\
  length (omap reported_open (sd_log s)) = 1%nat /\ size (sm_sessions (sd_manager s)) = 1%nat /\
  omap reported_closed (sd_log s) ++ keys (sm_sessions (sd_manager s)) ++
    omap closed_sid (sm_pending_closed (sd_manager s)) ≡ₚ omap reported_open (sd_log s).
Proof.
  pose proof ledger_sample as Hc.
  destruct (run_server_manager ManagerSample.manager0 CoverPolicy_default LedgerSample.turns) as [[b|e|p] s] eqn:E;
    cbn [LedgerSample.one_open] in Hc; try discriminate Hc.
  apply andb_prop in Hc as [H1 H2]. exists b, s. split; [reflexivity|].
  split; [exact (proj1 (Nat.eqb_eq _ _) H1)|]. split; [exact (proj1 (Nat.eqb_eq _ _) H2)|].
  exact (Permutation_sym (proj1 (session_ledger (Ord := map_order) Sample.server_cfg SessionLimits_default 0 ManagerSample.manager0
    CoverPolicy_default LedgerSample.turns b s eq_refl E))).
Defined.
