(* ===== verification/Proxy.v ===== *)
(** * The SOCKS5 front end

    [pq-proxy/src/]: the SOCKS5 negotiation of one client connection and the two
    copy loops between the client and a tunnel connection. The crate is parked
    outside the workspace: [pq_tunnel_core::connect] and its connection no longer
    exist, so their results are arguments. The results of the socket calls are
    arguments too; the 256-byte buffer, which both reads share, and the bytes
    written to the client are the state. Logging is not modelled. *)

From S2P Require Import Prelude Bytes Exec IpAddr Files.
From stdpp Require Import strings.

Local Open Scope Z_scope.

(** ** [String::from_utf8_lossy]

    The ranges of the bytes that may follow a lead byte, [None] for a byte that
    cannot lead. *)
Definition utf8_follow (b : Z) : option (list (Z * Z)) :=
  let c := (0x80, 0xBF) in
  if b <? 0x80 then Some []
  else if b <? 0xC2 then None
  else if b <? 0xE0 then Some [c]
  else if b =? 0xE0 then Some [(0xA0, 0xBF); c]
  else if b =? 0xED then Some [(0x80, 0x9F); c]
  else if b <? 0xF0 then Some [c; c]
  else if b =? 0xF0 then Some [(0x90, 0xBF); c; c]
  else if b <? 0xF4 then Some [c; c; c]
  else if b =? 0xF4 then Some [(0x80, 0x8F); c; c]
  else None.

(** How many of the following bytes fit the ranges, and whether all ranges are
    met. *)
Fixpoint utf8_match (rs : list (Z * Z)) (l : bytes) : nat * bool :=
  match rs, l with
  | [], _ => (0%nat, true)
  | _ :: _, [] => (0%nat, false)
  | (lo, hi) :: rs, b :: l =>
      if (lo <=? b2z b) && (b2z b <=? hi)
      then let '(k, ok) := utf8_match rs l in (S k, ok)
      else (0%nat, false)
  end.

(** Each maximal invalid prefix becomes U+FFFD; every step consumes a byte, so
    the length of the input is enough fuel. *)
Fixpoint utf8_lossy_go (fuel : nat) (l : bytes) : bytes :=
  match fuel, l with
  | S fuel, b :: rest =>
      let '(k, ok) := match utf8_follow (b2z b) with
                      | Some rs => utf8_match rs rest
                      | None => (0%nat, false)
                      end in
      (if ok then b :: take k rest else [xef; xbf; xbd]) ++ utf8_lossy_go fuel (drop k rest)
  | _, _ => []
  end.

Definition from_utf8_lossy (l : bytes) : bytes := utf8_lossy_go (length l) l.

(** ** Errors ([error.rs]) *)

Inductive ProxyError :=
| PxTunnel (msg : string)
| PxIo (e : string)
| PxInvalidRequest (msg : string)
| PxHandshakeFailed (msg : string).

(** ** One connection *)

(** [buf] and what was written to the client. *)
Record ProxyState := mkProxyState { px_buf : bytes; px_written : bytes }.

(** What the two reads, the successive writes and [connect] return. *)
Record ProxyEnv := mkProxyEnv {
  pe_read1 : result string bytes;
  pe_read2 : result string bytes;
  pe_write1 : result string ();
  pe_write2 : result string ();
  pe_connect : result string () }.

Definition PROXY_BUF : nat := 256.

(** [client.read(&mut buf).await?]: at most the length of the buffer, at its
    front; the bytes behind stay. *)
Definition client_read (r : result string bytes) : M ProxyState ProxyError nat :=
  data ← try PxIo r;
  let data := take PROXY_BUF data in
  modify (fun s => mkProxyState (write_at 0 data (px_buf s)) (px_written s));;
  mret (length data).

(** [client.write_all(..).await?]; a failed write delivers nothing here. *)
Definition client_write (out : bytes) (r : result string ()) : M ProxyState ProxyError () :=
  try PxIo r;;
  modify (fun s => mkProxyState (px_buf s) (px_written s ++ out)).

(** [buf[i]] and [&buf[a..b]]. *)
Definition buf_at (i : nat) : M ProxyState ProxyError byte :=
  s ← get; expect "index out of bounds" (px_buf s !! i).

Definition buf_slice (a b : nat) : M ProxyState ProxyError bytes :=
  s ← get;
  expect "range end out of bounds"
    (if (b <=? length (px_buf s))%nat then Some (slice a b (px_buf s)) else None).

Definition reject {A} (e : ProxyError) : M ProxyState ProxyError A := fun s => (Fail e, s).

(** The greeting. *)
Definition negotiate (env : ProxyEnv) : M ProxyState ProxyError () :=
  n ← client_read (pe_read1 env);
  ver ← buf_at 0;
  if (n <? 3)%nat || negb (bool_decide (ver = x05)) then reject (PxInvalidRequest "not SOCKS5")
  else
    nm ← buf_at 1;
    methods ← buf_slice 2 (2 + Z.to_nat (b2z nm));
    if negb (bool_decide (x00 ∈ methods)) then
      client_write [x05; xff] (pe_write1 env);; reject (PxHandshakeFailed "no acceptable methods")
    else client_write [x05; x00] (pe_write1 env).

(** The host the request names, by address type. *)
Inductive ProxyHost :=
| HostV4 (ip : Z)
| HostDomain (host : bytes)
| HostV6 (ip : Z).

(** The CONNECT request: its host and port. *)
Definition parse_request (env : ProxyEnv) : M ProxyState ProxyError (ProxyHost * Z) :=
  n ← client_read (pe_read2 env);
  ver ← buf_at 0;
  cmd ← buf_at 1;
  if (n <? 4)%nat || negb (bool_decide (ver = x05)) || negb (bool_decide (cmd = x01))
  then reject (PxInvalidRequest "not CONNECT")
  else
    atyp ← buf_at 3;
    match atyp with
    | x01 =>
        if (n <? 7)%nat then reject (PxInvalidRequest "short IPv4")
        else
          ip ← buf_slice 4 8;
          port ← buf_slice 8 10;
          mret (HostV4 (be_val ip), be_val port)
    | x03 =>
        l ← buf_at 4;
        let len := Z.to_nat (b2z l) in
        if (n <? 5 + len + 2)%nat then reject (PxInvalidRequest "short domain")
        else
          host ← buf_slice 5 (5 + len);
          port ← buf_slice (5 + len) (7 + len);
          mret (HostDomain (from_utf8_lossy host), be_val port)
    | x06 =>
        if (n <? 19)%nat then reject (PxInvalidRequest "short IPv6")
        else
          ip ← buf_slice 4 20;
          port ← buf_slice 20 22;
          mret (HostV6 (be_val ip), be_val port)
    | _ => reject (PxInvalidRequest "unsupported atyp")
    end.

(** The reply; [host.len() as u8] keeps the low byte of the length. *)
Definition proxy_reply (host : ProxyHost) (port : Z) : bytes :=
  match host with
  | HostV4 _ => [x05; x00; x00; x01; x00; x00; x00; x00; x00; x00]
  | HostDomain h => [x05; x00; x00; x03; z2b (Z.of_nat (length h))] ++ h ++ be_bytes 2 port
  | HostV6 _ => [x05; x00; x00; x06] ++ zeros 16 ++ be_bytes 2 port
  end.

(** [handle_client] up to the copy loops; the value is the target it logged. *)
Definition handle_client (env : ProxyEnv) : M ProxyState ProxyError (ProxyHost * Z) :=
  negotiate env;;
  target ← parse_request env;
  try (fun e => PxTunnel ("connect failed: " +:+ e)) (pe_connect env);;
  client_write (proxy_reply target.1 target.2) (pe_write2 env);;
  mret target.

Definition proxy_start : ProxyState := mkProxyState (zeros PROXY_BUF) [].

(** ** The copy loops

    [tunnel_to_client] over what successive [read_datagram] and [write_all] calls
    return, and [client_to_tunnel] over [read] and [send_datagram]. The value is
    what was passed on. *)
Fixpoint tunnel_to_client (events : list (option bytes * bool)) : bytes :=
  match events with
  | (Some data, true) :: rest => data ++ tunnel_to_client rest
  | _ => []
  end.

Definition COPY_BUF : nat := 8192.

Fixpoint client_to_tunnel (events : list (option bytes * bool)) : list bytes :=
  match events with
  | (Some data, sent) :: rest =>
      match take COPY_BUF data with
      | [] => []
      | chunk => if sent then chunk :: client_to_tunnel rest else []
      end
  | _ => []
  end.

(** ** Lossy decoding *)

(** A Unicode scalar value. *)
Definition scalar (c : Z) : Prop := 0 <= c < 0xD800 \/ 0xE000 <= c < 0x110000.

Lemma utf8_match_ok rs tl rest :
  Forall2 (fun r b => r.1 <= b2z b <= r.2) rs tl -> utf8_match rs (tl ++ rest) = (length tl, true).
Proof.
  induction 1 as [|[lo hi] b rs tl Hb _ IH]; [done|]. cbn [utf8_match app fst snd length] in *.
  rewrite IH. by replace ((lo <=? b2z b) && (b2z b <=? hi)) with true by lia.
Qed.

(** The encoding of a scalar value is a lead byte and what it announces. *)
Lemma utf8_lead c : scalar c -> exists b tl,
  utf8 c = b :: tl /\
  from_option (fun rs => Forall2 (fun r b => r.1 <= b2z b <= r.2) rs tl) False
    (utf8_follow (b2z b)).
Proof.
  intros Hc. unfold scalar in Hc.
  assert (forall x, 0 <= x < 64 -> 0x80 <= b2z (z2b (0x80 + x)) <= 0xBF) as Hcont.
  { intros x Hx. rewrite b2z_z2b_small by lia. lia. }
  assert (forall x, 0 <= x mod 64 < 64) as Hmod by (intros; apply Z.mod_pos_bound; lia).
  unfold utf8. repeat case_match; do 2 eexists; (split; [reflexivity|]);
    rewrite b2z_z2b_small by lia; unfold utf8_follow; repeat (case_match; try lia);
    cbn [from_option]; repeat constructor; cbn [fst snd];
    try (apply Hcont, Hmod); rewrite b2z_z2b_small; lia.
Qed.

Lemma utf8_lossy_char c fuel rest :
  scalar c -> (length (utf8 c ++ rest) <= fuel)%nat ->
  exists fuel', (length rest <= fuel')%nat /\
    utf8_lossy_go fuel (utf8 c ++ rest) = utf8 c ++ utf8_lossy_go fuel' rest.
Proof.
  intros Hc Hf. destruct (utf8_lead c Hc) as (b & tl & E & Hm). rewrite E in *.
  destruct (utf8_follow (b2z b)) as [rs|] eqn:Hfo; [|done]. cbn [from_option] in Hm.
  cbn [app length] in Hf. rewrite length_app in Hf. destruct fuel as [|fuel]; [lia|].
  exists fuel. split; [lia|]. cbn [utf8_lossy_go app]. rewrite Hfo, utf8_match_ok by done.
  by rewrite take_app_length, drop_app_length.
Qed.

Lemma utf8_lossy_text t fuel :
  Forall scalar t -> (length (str_bytes t) <= fuel)%nat ->
  utf8_lossy_go fuel (str_bytes t) = str_bytes t.
Proof.
  unfold str_bytes. intros Ht. revert fuel.
  induction Ht as [|c t Hc _ IH]; intros fuel Hf; [by destruct fuel|].
  change ((c :: t) ≫= utf8) with (utf8 c ++ (t ≫= utf8)) in *.
  destruct (utf8_lossy_char c fuel _ Hc Hf) as (fuel' & Hf' & ->). by rewrite IH.
Qed.

(** Decoding is the identity on well-formed UTF-8. *)
Lemma from_utf8_lossy_text t : Forall scalar t -> from_utf8_lossy (str_bytes t) = str_bytes t.
Proof. intros Ht. by apply utf8_lossy_text. Qed.

(** ** The negotiation *)

Definition no_panic {E A} (r : exec E A) : Prop := forall p, r <> Panic p.

Lemma wp_client_read r s Q :
  (forall e, r = Err e -> Q (Fail (PxIo e)) s) ->
  (forall d, r = Ok d ->
    Q (Ret (length (take PROXY_BUF d)))
      (mkProxyState (write_at 0 (take PROXY_BUF d) (px_buf s)) (px_written s))) ->
  wp (client_read r) s Q.
Proof. intros He Ho. unfold client_read. wp_steps. apply wp_try; intros ? ->; wp_steps; auto. Qed.

Lemma wp_client_write out r s Q :
  (forall e, r = Err e -> Q (Fail (PxIo e)) s) ->
  (r = Ok () -> Q (Ret ()) (mkProxyState (px_buf s) (px_written s ++ out))) ->
  wp (client_write out r) s Q.
Proof. intros He Ho. unfold client_write. wp_steps. apply wp_try; intros [] ->; wp_steps; auto. Qed.

Lemma wp_reject {A} e s (Q : exec ProxyError A -> ProxyState -> Prop) :
  Q (Fail e) s -> wp (reject e) s Q.
Proof. done. Qed.

Lemma wp_buf_at i s Q :
  (i < length (px_buf s))%nat -> Q (Ret (byte_at i (px_buf s))) s -> wp (buf_at i) s Q.
Proof.
  intros Hi HQ. unfold buf_at. wp_steps. destruct (lookup_lt_is_Some_2 _ _ Hi) as [b Hb].
  apply (wp_expect _ _ b); [done|]. unfold byte_at in HQ. by rewrite Hb in HQ.
Qed.

Lemma wp_buf_slice a b s Q :
  (b <= length (px_buf s))%nat -> Q (Ret (slice a b (px_buf s))) s -> wp (buf_slice a b) s Q.
Proof.
  intros Hb HQ. unfold buf_slice. wp_steps. apply (wp_expect _ _ (slice a b (px_buf s))); [|done].
  by replace (b <=? _)%nat with true by lia.
Qed.

(** Steps over the buffer accesses of a buffer of [PROXY_BUF] bytes. *)
Ltac px_steps H :=
  wp_steps;
  repeat (first [apply wp_buf_at; [cbn [px_buf] in *; rewrite H; unfold PROXY_BUF in *; lia|]
                |apply wp_buf_slice; [cbn [px_buf] in *; rewrite H; unfold PROXY_BUF in *; lia|]]; wp_steps).

Lemma length_take_read (d : bytes) : (length (take PROXY_BUF d) <= PROXY_BUF)%nat.
Proof. rewrite length_take. lia. Qed.

Lemma length_read_into (d buf : bytes) :
  length buf = PROXY_BUF -> length (write_at 0 (take PROXY_BUF d) buf) = PROXY_BUF.
Proof. intros H. rewrite length_write_at; [done|]. pose proof (length_take_read d). lia. Qed.

(** The request parser indexes its buffer in range on every input. *)
Lemma parse_request_safe env s :
  length (px_buf s) = PROXY_BUF -> wp (parse_request env) s (fun r _ => no_panic r).
Proof.
  intros Hl. unfold parse_request. wp_steps. apply wp_client_read; intros x _; [done|]. cbv beta iota.
  pose proof (length_read_into x _ Hl) as Hb. pose proof (length_take_read x) as Hn.
  set (buf := write_at _ _ _) in *. set (n := length (take _ x)) in *. clearbody buf n.
  px_steps Hb. case_match; [by apply wp_reject|]. px_steps Hb.
  destruct (byte_at 3 _); try by apply wp_reject.
  - case_match; [by apply wp_reject|]. by px_steps Hb.
  - px_steps Hb. case_match; [by apply wp_reject|]. by px_steps Hb.
  - case_match; [by apply wp_reject|]. by px_steps Hb.
Qed.

Lemma byte_at_read i d buf :
  (i < length (take PROXY_BUF d))%nat ->
  byte_at i (write_at 0 (take PROXY_BUF d) buf) = byte_at i d.
Proof.
  intros Hi. unfold write_at. rewrite take_0, app_nil_l, byte_at_app_l by done.
  unfold byte_at. rewrite lookup_take_lt; [done|]. rewrite length_take in Hi. lia.
Qed.

(** A greeting that announces 255 methods. *)
Definition greeting_overruns (env : ProxyEnv) : Prop :=
  exists d, pe_read1 env = Ok d /\ (3 <= length d)%nat /\ byte_at 0 d = x05 /\ byte_at 1 d = xff.

Definition panics {E A} (r : exec E A) : Prop := exists p, r = Panic p.

Lemma no_panic_iff {E A} (r : exec E A) (C : Prop) : no_panic r -> ~ C -> panics r <-> C.
Proof. intros Hr HC. split; [intros [p Hp]; by destruct (Hr p)|done]. Qed.

Lemma negotiate_outcome env :
  wp (negotiate env) proxy_start
    (fun r s' => length (px_buf s') = PROXY_BUF /\ (panics r <-> greeting_overruns env)).
Proof.
  unfold negotiate. wp_steps. apply wp_client_read; intros d Hd.
  { split; [apply length_zeros|]. apply no_panic_iff; [done|]. intros (d' & H & _). congruence. }
  pose proof (length_read_into d (px_buf proxy_start) (length_zeros _)) as Hb.
  pose proof (byte_at_read 0 d (px_buf proxy_start)) as B0.
  pose proof (byte_at_read 1 d (px_buf proxy_start)) as B1.
  assert (forall d', pe_read1 env = Ok d' -> d' = d) as Hd' by congruence.
  set (buf := write_at _ _ _) in *. clearbody buf. rewrite length_take in *. unfold PROXY_BUF in *.
  px_steps Hb. cbn [px_buf].
  case_match eqn:Hc.
  { apply wp_reject. split; [done|]. apply no_panic_iff; [done|].
    intros (d' & ->%Hd' & Hl & H0 & _). rewrite B0, H0, bool_decide_eq_true_2 in Hc by (done || lia).
    lia. }
  px_steps Hb. cbn [px_buf].
  assert (byte_at 1 buf = byte_at 1 d) as E1 by (apply B1; lia).
  destruct (decide (byte_at 1 buf = xff)) as [Hff|Hff].
  - rewrite Hff. unfold buf_slice. wp_steps. unfold wp, expect. cbn [px_buf]. rewrite Hb. cbn.
    split; [done|]. split; [intros _|by eexists]. exists d. rewrite <- E1. repeat split; try done; [lia|].
    rewrite <- B0 by lia. destruct (bool_decide _) eqn:E; [by apply bool_decide_eq_true in E|lia].
  - assert (b2z (byte_at 1 buf) <> 255) as Hn by (intros E; apply Hff, b2z_inj; by rewrite E).
    pose proof (b2z_range (byte_at 1 buf)) as Hr.
    assert (~ greeting_overruns env) as Hno
      by (intros (d' & ->%Hd' & _ & _ & H1); rewrite <- E1 in H1; done).
    px_steps Hb. cbn [px_buf].
    case_match; wp_steps; apply wp_client_write; intros; wp_steps; try apply wp_reject;
      (split; [done|]; by apply no_panic_iff).
Qed.

(** The proxy task of a connection panics exactly on a greeting that announces
    255 methods: its method list ends one byte past the buffer. *)
Theorem handle_client_panic_exact env :
  panics (handle_client env proxy_start).1 <-> greeting_overruns env.
Proof.
  enough (wp (handle_client env) proxy_start (fun r _ => panics r <-> greeting_overruns env)) as H
    by exact H.
  unfold handle_client. apply wp_bind. eapply wp_mono; [apply negotiate_outcome|].
  intros [[]|e|p] s [Hl Hp];
    [|by rewrite <- Hp; split; intros [? ?]|by rewrite <- Hp; split; intros _; eexists].
  assert (~ greeting_overruns env) as Hno by (rewrite <- Hp; intros [? ?]; done).
  apply wp_bind. eapply wp_mono; [by apply parse_request_safe|].
  intros [t|e|p] s' Hr; [|by apply no_panic_iff..].
  wp_steps. apply wp_try; intros ? _; [|by apply no_panic_iff].
  wp_steps. apply wp_client_write; intros; wp_steps; by apply no_panic_iff.
Qed.

(** ** A well-formed domain request *)

Lemma parse_request_domain env s h port :
  length (px_buf s) = PROXY_BUF -> (length h <= 249)%nat -> 0 <= port < 2 ^ 16 ->
  pe_read2 env = Ok ([x05; x01; x00; x03; z2b (Z.of_nat (length h))] ++ h ++ be_bytes 2 port) ->
  wp (parse_request env) s (fun r s' =>
    r = Ret (HostDomain (from_utf8_lossy h), port) /\ px_written s' = px_written s).
Proof.
  intros Hl Hh Hp Hr. unfold parse_request. wp_steps.
  set (head := [x05; x01; x00; x03; z2b (Z.of_nat (length h))]) in *.
  apply wp_client_read; [congruence|]. intros d Hd'.
  assert (head ++ h ++ be_bytes 2 port = d) as Hd by congruence. clear Hd'.
  assert (length d = (7 + length h)%nat) as Hreq
    by (rewrite <- Hd, !length_app, length_be_bytes; cbn [length head]; lia).
  rewrite take_ge by (rewrite Hreq; unfold PROXY_BUF; lia).
  assert (length (write_at 0 d (px_buf s)) = PROXY_BUF) as Hb
    by (rewrite length_write_at; [done|rewrite Hl, Hreq; unfold PROXY_BUF; lia]).
  assert (exists tl, write_at 0 d (px_buf s) = head ++ h ++ be_bytes 2 port ++ tl) as [tl Etl].
  { eexists. unfold write_at. rewrite take_0, app_nil_l, <- Hd at 1. by rewrite <- !app_assoc. }
  set (buf := write_at _ _ _) in *. clearbody buf. rewrite Hreq.
  assert (byte_at 0 buf = x05 /\ byte_at 1 buf = x01 /\ byte_at 3 buf = x03) as (E0 & E1 & E3)
    by (by rewrite Etl).
  assert (Z.to_nat (b2z (byte_at 4 buf)) = length h) as E4.
  { rewrite Etl. change (byte_at 4 (head ++ _)) with (z2b (Z.of_nat (length h))).
    rewrite b2z_z2b_small; lia. }
  px_steps Hb. cbn [px_buf]. rewrite E0, E1, !bool_decide_eq_true_2 by done.
  replace (7 + length h <? 4)%nat with false by lia. cbn [orb negb].
  px_steps Hb. cbn [px_buf]. rewrite E3. px_steps Hb. cbn [px_buf]. rewrite E4.
  replace (7 + length h <? 5 + length h + 2)%nat with false by lia.
  px_steps Hb. cbn [px_buf]. split; [|done]. rewrite Etl.
  rewrite (slice_exact head h) by done. rewrite app_assoc.
  rewrite (slice_exact (head ++ h) (be_bytes 2 port)) 
    by (rewrite ?length_be_bytes, length_app; cbn [length head]; lia).
  by rewrite be_val_be_bytes_small.
Qed.

(** A CONNECT request for a domain name that arrives whole is answered with the
    name and the port it carries. *)
Theorem domain_request_roundtrip env host port :
  Forall scalar host -> (length (str_bytes host) <= 249)%nat -> 0 <= port < 2 ^ 16 ->
  pe_read1 env = Ok [x05; x01; x00] ->
  pe_read2 env = Ok ([x05; x01; x00; x03; z2b (Z.of_nat (length (str_bytes host)))]
                     ++ str_bytes host ++ be_bytes 2 port) ->
  pe_write1 env = Ok () -> pe_write2 env = Ok () -> pe_connect env = Ok () ->
  let h := str_bytes host in
  exists buf, handle_client env proxy_start =
    (Ret (HostDomain h, port),
     mkProxyState buf ([x05; x00] ++ [x05; x00; x00; x03; z2b (Z.of_nat (length h))]
                       ++ h ++ be_bytes 2 port)).
Proof.
  intros Hs Hl Hp Hr1 Hr2 Hw1 Hw2 Hc h. fold h in Hr2.
  pose proof (from_utf8_lossy_text host Hs) as Hlossy. fold h in Hlossy, Hl. clearbody h.
  assert (negotiate env proxy_start
    = (Ret (), mkProxyState ([x05; x01; x00] ++ zeros 253) [x05; x00])) as Hneg.
  { unfold negotiate, client_read, client_write, try, mbind, M_bind. rewrite Hr1, Hw1.
    vm_compute. reflexivity. }
  set (s1 := mkProxyState _ _) in Hneg.
  pose proof (parse_request_domain env s1 h port eq_refl Hl Hp Hr2) as Hreq. unfold wp in Hreq.
  unfold handle_client, mbind, M_bind. rewrite Hneg. rewrite Hlossy in Hreq.
  destruct (parse_request env s1) as [r s2]. cbn [fst snd] in Hreq. destruct Hreq as [-> Hw].
  unfold client_write, try, mbind, M_bind, modify. rewrite Hc, Hw2. eexists. cbn. by rewrite Hw.
Qed.

(** ** Inputs the parser accepts beyond the protocol *)

(** An IPv4 request of seven bytes is accepted, with the last byte of the address
    and the port taken from the greeting, which is still in the buffer. *)
Theorem short_ipv4_uses_greeting :
  let greeting := [x05; x08; x00; x01; x02; x03; x04; xaa; xbb; xcc] in
  let request := [x05; x01; x00; x01; x0a; x00; x00] in
  (handle_client (mkProxyEnv (Ok greeting) (Ok request) (Ok ()) (Ok ()) (Ok ())) proxy_start).1
    = Ret (HostV4 (be_val [x0a; x00; x00; xaa]), be_val [xbb; xcc]).
Proof. vm_compute. reflexivity. Qed.

(** A name that is not UTF-8 grows by the replacement characters, and the length
    byte of the reply no longer counts the name that follows it. *)
Theorem lossy_reply_length :
  let request := [x05; x01; x00; x03; x64] ++ replicate 100 xff ++ [x00; x50] in
  let env := mkProxyEnv (Ok [x05; x01; x00]) (Ok request) (Ok ()) (Ok ()) (Ok ()) in
  let reply := drop 2 (px_written (handle_client env proxy_start).2) in
  length reply = (5 + 300 + 2)%nat /\ b2z (byte_at 4 reply) = 44.
Proof. vm_compute. by split. Qed.

(** ** What the copy loops pass on *)

(** Every datagram to the tunnel is a non-empty chunk of one read of the client,
    in order, and while nothing fails every read is passed on. *)
Theorem client_to_tunnel_exact events :
  Forall (fun c => c <> [] /\ (length c <= COPY_BUF)%nat) (client_to_tunnel events) /\
  (forall reads, Forall (fun c => c <> [] /\ (length c <= COPY_BUF)%nat) reads ->
    client_to_tunnel (((fun c => (Some c, true)) <$> reads) ++ events)
      = reads ++ client_to_tunnel events).
Proof.
  split.
  - induction events as [|[[data|] sent] events IH]; cbn [client_to_tunnel]; [constructor| |constructor].
    destruct (take COPY_BUF data) as [|b c] eqn:E; [constructor|]. destruct sent; [|constructor].
    constructor; [|done]. split; [done|]. rewrite <- E, length_take. lia.
  - induction 1 as [|c reads [Hne Hl] _ IH]; [done|].
    cbn [fmap list_fmap app client_to_tunnel]. rewrite take_ge by done.
    destruct c; [done|]. by rewrite IH.
Qed.

(** The client receives the datagrams of the tunnel in order, up to the first
    failure of either side. *)
Theorem tunnel_to_client_exact datas rest :
  tunnel_to_client (((fun d => (Some d, true)) <$> datas) ++ rest)
    = concat datas ++ tunnel_to_client rest.
Proof.
  induction datas as [|d datas IH]; [done|]. cbn [fmap list_fmap app tunnel_to_client concat].
  rewrite IH. by rewrite app_assoc.
Qed.
