(* ===== verification/Shape.v ===== *)
(** * What an observer of the wire sees

    Besides the ciphertext, an observer sees the length of a datagram, its clear
    header, its destination and when it was sent. The theorems here say what
    these depend on: the envelope gives every message of a session the same
    appearance, and a slot of the client's cover schedule looks the same whether
    it carries a queued payload, a liveness probe or cover traffic. *)

From S2P Require Import Prelude Bytes Errors Codec Replay Crypto Envelope WireSession Exec Net HandshakeMsg HandshakeFrag HandshakeClient HandshakeServer HandshakeSafety HandshakeClientOk SessionCommon ServerManager ClientManager Scheduler Drivers FailGateOk ServerManagerOk ClientManagerOk ClientManagerSafe DriversOk Channel.

Local Open Scope Z_scope.

(** ** The appearance of a packet *)

(** The length and the clear header. *)
Definition shape (p : WirePacket) : nat * bytes := (length (as_bytes p), WirePacket_header_bytes p).

Definition same_shape (p q : WirePacket) : Prop := shape p = shape q.

#[export] Instance same_shape_equiv : Equivalence same_shape.
Proof. split; repeat intro; unfold same_shape in *; congruence. Qed.

(** What leaves the driver, up to the ciphertext. *)
Inductive same_effect : effect -> effect -> Prop :=
| same_sent p q a : same_shape p q -> same_effect (Sent p a) (Sent q a)
| same_notified n : same_effect (Notified n) (Notified n).

#[export] Instance same_effect_equiv : Equivalence same_effect.
Proof.
  split.
  - intros []; by constructor.
  - intros x y []; by constructor.
  - intros x y z H. destruct H; inversion 1; subst; constructor; by etrans.
Qed.

Section Shape.
Context {P : Primitives} {L : PrimitivesLaws P}.

(** The appearance of the next packet of a session: its identifier and counter
    determine it. *)
Definition session_shape (c : CipherSession) : nat * bytes :=
  (PACKET_SIZE, PacketHeader_encode (PacketHeader_new (cs_session_id c) (send_counter c))).

Lemma encrypt_shape c ty payload p c' :
  CipherSession_wf c -> encrypt c ty payload = (Ok p, c') -> shape p = session_shape c.
Proof.
  intros Hwf E. destruct (encrypt_exact c ty payload Hwf) as [Hok _]. rewrite E in Hok. cbn [fst is_ok] in Hok.
  symmetry in Hok. apply bool_decide_eq_true in Hok as [Hp Hc].
  destruct (encrypt_ok c ty payload Hwf Hp Hc) as (ct & E' & Hct & _). rewrite E in E'.
  set (h := PacketHeader_encode _) in E'. assert (p = mkWirePacket (h ++ ct)) as -> by congruence.
  assert (length (cs_session_id c) = SESSION_ID_LEN) as Hs by apply Hwf.
  pose proof (length_PacketHeader_encode (PacketHeader_new (cs_session_id c) (send_counter c)) Hs) as Hh.
  unfold shape, session_shape, WirePacket_header_bytes. cbn [as_bytes]. fold h in Hh |- *. clearbody h.
  rewrite slice_app_l by (rewrite Hh; done). rewrite length_app, Hct, <- Hh, slice_all, Hh. reflexivity.
Qed.

(** Two messages of the same size on two sessions with the same identifier and
    counter: both leave, looking alike, or both are refused for the same reason,
    and the counters advance alike. *)
Lemma encrypt_alike a b ty ty' payload payload' :
  CipherSession_wf a -> CipherSession_wf b -> length payload = length payload' ->
  cs_session_id a = cs_session_id b -> send_counter a = send_counter b ->
  shape <$> (encrypt a ty payload).1 = shape <$> (encrypt b ty' payload').1 /\
  exists n, (encrypt a ty payload).2 = set_send_counter a n /\ (encrypt b ty' payload').2 = set_send_counter b n.
Proof.
  intros Ha Hb Hlen Hid Hcnt.
  destruct (decide (length payload = PAYLOAD_LEN /\ send_counter a < MAX_PACKET_NONCE)) as [[Hp Hc]|Hno].
  - destruct (encrypt_ok a ty payload Ha Hp Hc) as (ct & E & _).
    destruct (encrypt_ok b ty' payload' Hb ltac:(congruence) ltac:(congruence)) as (ct' & E' & _).
    pose proof (encrypt_shape _ _ _ _ _ Ha E) as S. pose proof (encrypt_shape _ _ _ _ _ Hb E') as S'.
    rewrite E, E'. cbn [fst snd fmap result_fmap]. split; [|exists (send_counter a + 1); by rewrite Hcnt].
    by rewrite S, S'; unfold session_shape; rewrite Hid, Hcnt.
  - assert (forall c, set_send_counter c (send_counter c) = c) as Hset by by intros [].
    unfold encrypt, encrypt_traced, is_counter_exhausted. rewrite <- Hlen, <- Hcnt.
    destruct (Nat.eqb_spec (length payload) PAYLOAD_LEN); cbn [negb].
    + replace (MAX_PACKET_NONCE <=? send_counter a) with true by lia.
      split; [done|]. exists (send_counter a). by rewrite Hset, Hcnt, Hset.
    + split; [done|]. exists (send_counter a). by rewrite Hset, Hcnt, Hset.
Qed.

(** ** A slot of the client's cover schedule *)

(** A client driver whose confirmed session [w] is under way. *)
Record streaming (s : ClientDriver) (w : WireSession) : Prop := {
  str_ready : cv_was_ready s = true;
  str_session : cm_session (cv_manager s) = Some w;
  str_live : ws_live (ws_session_id w) w }.

(** A turn of a driver with a working socket and random source. *)
Definition slot_turn_ok (t : ClientTurn) : Prop :=
  io_ok (ct_io t) /\ exists f, ct_fill t = Ok f /\ length f = PAYLOAD_LEN.

Lemma live_self sid w : ws_live sid w -> ws_live (ws_session_id w) w.
Proof. intros (H1 & H2 & H3 & H4). by rewrite H2. Qed.

(** The packet [p] is the next one of [w], and [w'] the session after it. *)
Definition next_packet (w : WireSession) (p : WirePacket) (w' : WireSession) : Prop :=
  shape p = session_shape (ws_cipher w) /\ ws_live (ws_session_id w) w' /\
  ws_cipher w' = set_send_counter (ws_cipher w) (send_counter (ws_cipher w) + 1).

Lemma ws_encrypt_next w ty payload :
  ws_live (ws_session_id w) w -> send_counter (ws_cipher w) < MAX_PACKET_NONCE -> length payload = PAYLOAD_LEN ->
  exists p w', WireSession_encrypt w ty payload = (Ok p, w') /\ next_packet w p w'.
Proof.
  intros Hl Hc Hp. destruct (seal_ok ty payload w Hl Hc Hp) as (p & w' & E & Hl' & Ew & _).
  exists p, w'. split; [done|]. split; [|done]. pose proof Hl as (_ & _ & _ & Hwf).
  destruct (encrypt_ok (ws_cipher w) ty payload Hwf Hp Hc) as (ct & Ee & _).
  unfold WireSession_encrypt in E. rewrite (require_established_live _ w Hl), Ee in E. injection E as <- _.
  by apply encrypt_shape in Ee.
Qed.

Lemma padded_length x : length (write_at 0 (take PAYLOAD_LEN x) (zeros PAYLOAD_LEN)) = PAYLOAD_LEN.
Proof. rewrite length_write_at; rewrite length_zeros; [done|]. rewrite length_take. lia. Qed.

(** The manager [m'] after a slot that sent the next packet of [w]. *)
Definition slot_sent (m : ClientSessionManager) (w : WireSession) (p : WirePacket) (m' : ClientSessionManager) : Prop :=
  exists w', next_packet w p w' /\ cm_session m' = Some w' /\ cm_peer m' = cm_peer m.

Lemma take_probe_next now m w :
  cm_session m = Some w -> ws_live (ws_session_id w) w -> send_counter (ws_cipher w) < MAX_PACKET_NONCE ->
  (exists p m', take_probe now m = (Some (EvSendPacket p (cm_peer m)), m') /\ slot_sent m w p m') \/
  take_probe now m = (None, m).
Proof.
  intros Hw Hl Hc. unfold take_probe. destruct (cm_next_probe_at m) as [due|]; [|by right].
  destruct (now <? due); [by right|]. left.
  destruct (ws_encrypt_next w Handshake (control_payload PROBE) Hl Hc (length_control_payload _)) as (p & w' & E & Hn).
  unfold build_probe. cbn [cm_session cm_set_next_probe_at]. rewrite Hw, E. cbv iota beta.
  destruct (cm_ready _); (eexists p, _; split; [reflexivity|by exists w']).
Qed.

Lemma take_slot_next now d m w :
  cm_session m = Some w -> ws_live (ws_session_id w) w -> send_counter (ws_cipher w) < MAX_PACKET_NONCE ->
  (exists p m', take_slot now d m = (Some (EvSendPacket p (cm_peer m)), m') /\ slot_sent m w p m') \/
  (exists m', take_slot now d m = (None, m') /\ cm_session m' = Some w /\ cm_peer m' = cm_peer m).
Proof.
  intros Hw Hl Hc. unfold take_slot. rewrite Hw. case_match; [right; by exists m|].
  unfold take_queued_payload. destruct (expire_queued_spec now (clock d) m) as [(n & l & ->) _].
  cbn [cm_out_queue cm_set_last_drop_log cm_set_dropped_outbound cm_set_out_queue].
  destruct (live_queue now (cm_out_queue m)) as [|q rest].
  - set (m1 := cm_set_last_drop_log _ _).
    destruct (take_probe_next now m1 w Hw Hl Hc) as [(p & m' & -> & w' & Hn & Hs & Hp)| ->].
    + left. eexists p, _. split; [reflexivity|]. by exists w'.
    + right. by exists m1.
  - left. match goal with |- context [client_send_encrypted d Data ?x ?y] => set (m1 := y) end.
    destruct (ws_encrypt_next w Data _ Hl Hc (padded_length (qp_payload q))) as (p & w' & E & Hn).
    assert (cm_session m1 = Some w) as Hw1 by done.
    unfold client_send_encrypted, mbind, M_bind, get. rewrite Hw1, E.
    eexists p, _. split; [reflexivity|]. by exists w'.
Qed.

(** Whatever the slot finds in the queue and among the timers, its event is the
    next packet of the session. *)
Lemma slot_or_cover_next t s w :
  streaming s w -> slot_turn_ok t -> send_counter (ws_cipher w) < MAX_PACKET_NONCE ->
  exists p m', slot_or_cover t s = (Ret (Some (EvSendPacket p (cm_peer (cv_manager s)))), cv_set_manager m' s) /\
    slot_sent (cv_manager s) w p m'.
Proof.
  intros [_ Hw Hl] (_ & f & Hf & Hlf) Hc.
  unfold slot_or_cover, on_client, zoom, call, mbind, M_bind.
  destruct (take_slot_next (ct_slot_now t) (ct_draws t) (cv_manager s) w Hw Hl Hc) as
    [(p & m' & -> & Hs)|(m1 & -> & Hw1 & Hp1)]; cbn [fst snd]; [by exists p, m'|].
  destruct (ws_encrypt_next w Cover f Hl Hc Hlf) as (p & w' & E & Hn).
  unfold try_client, client_cover_packet, mbind, M_bind, get. cbn [cv_manager cv_set_manager].
  rewrite Hw1. unfold WireSession_cover. rewrite (require_established_live _ w Hl), Hf, E.
  cbn [fst snd modify]. exists p, (cm_set_session (Some w') m1). split; [by rewrite Hp1|]. by exists w'.
Qed.

(** One turn of the cover arm: nothing before the deadline, one packet at it. *)
Lemma cover_turn_next t s w :
  streaming s w -> slot_turn_ok t -> send_counter (ws_cipher w) < MAX_PACKET_NONCE ->
  exists s' w', client_turn t CICover s = (Ret true, s') /\ streaming s' w' /\
    cv_cover_sched s' = (on_deadline (cv_cover_sched s) (ct_now t)).2 /\
    cm_peer (cv_manager s') = cm_peer (cv_manager s) /\
    if (on_deadline (cv_cover_sched s) (ct_now t)).1
    then exists p, next_packet w p w' /\ cv_log s' = cv_log s ++ [Sent p (cm_peer (cv_manager s))]
    else w' = w /\ cv_log s' = cv_log s.
Proof.
  intros Hs Ht Hc. destruct Hs as [Hr Hw Hl].
  unfold client_turn, client_signal_ready, mbind, M_bind, get. rewrite Hr, andb_false_r.
  unfold client_cover_arm, mbind, M_bind, get, modify. cbn [mret M_ret].
  destruct (on_deadline (cv_cover_sched s) (ct_now t)) as [due sched]. cbn [fst snd].
  set (s1 := cv_set_sched sched s). destruct due.
  - destruct (slot_or_cover_next t s1 w) as (p & m' & E & w' & Hn & Hw' & Hp); [by split|done|done|].
    rewrite E. unfold client_on_slot_event, send_to, try, mbind, M_bind, modify.
    rewrite (proj1 (proj1 Ht)). eexists _, w'. split; [reflexivity|]. split; [|split; [done|split; [exact Hp|]]].
    + split; [done|done|]. destruct Hn as (_ & Hl' & _). by apply live_self in Hl'.
    + by exists p.
  - eexists _, w. split; [reflexivity|]. split; [by split|done].
Qed.

(** ** Two runs *)

(** Two drivers an observer cannot tell apart: the same identifier, counter,
    peer and schedule; their queues, timers and keys may differ. *)
Record alike (n : nat) (s1 s2 : ClientDriver) : Prop := {
  al_sched : cv_cover_sched s1 = cv_cover_sched s2;
  al_peer : cm_peer (cv_manager s1) = cm_peer (cv_manager s2);
  al_sessions : exists w1 w2, streaming s1 w1 /\ streaming s2 w2 /\
    cs_session_id (ws_cipher w1) = cs_session_id (ws_cipher w2) /\
    send_counter (ws_cipher w1) = send_counter (ws_cipher w2) /\
    send_counter (ws_cipher w1) + Z.of_nat n <= MAX_PACKET_NONCE }.

(** An observer that watches both sockets sees the same. *)
Definition same_log (l1 l2 : list effect) : Prop := Forall2 same_effect l1 l2.

Lemma cover_turn_alike n t1 t2 s1 s2 :
  alike (S n) s1 s2 -> slot_turn_ok t1 -> slot_turn_ok t2 -> ct_now t1 = ct_now t2 ->
  exists s1' s2' l1 l2, client_turn t1 CICover s1 = (Ret true, s1') /\ client_turn t2 CICover s2 = (Ret true, s2') /\
    alike n s1' s2' /\ cv_log s1' = cv_log s1 ++ l1 /\ cv_log s2' = cv_log s2 ++ l2 /\ same_log l1 l2 /\
    length l1 = if (on_deadline (cv_cover_sched s1) (ct_now t1)).1 then 1%nat else 0%nat.
Proof.
  intros [Hsch Hpeer (w1 & w2 & H1 & H2 & Hi & Hc & Hn)] Ht1 Ht2 Hnow.
  destruct (cover_turn_next t1 s1 w1 H1 Ht1 ltac:(lia)) as (s1' & w1' & E1 & Hs1 & Hd1 & Hp1 & Hl1).
  destruct (cover_turn_next t2 s2 w2 H2 Ht2 ltac:(lia)) as (s2' & w2' & E2 & Hs2 & Hd2 & Hp2 & Hl2).
  exists s1', s2'. rewrite <- Hsch, <- Hnow in Hd2, Hl2.
  destruct (on_deadline (cv_cover_sched s1) (ct_now t1)) as [due sched]; cbn [fst snd] in *.
  destruct due.
  - destruct Hl1 as (p1 & (S1 & _ & Ew1) & L1), Hl2 as (p2 & (S2 & _ & Ew2) & L2).
    exists [Sent p1 (cm_peer (cv_manager s1))], [Sent p2 (cm_peer (cv_manager s2))].
    do 2 (split; [done|]). split; [|split; [done|split; [done|split; [|done]]]].
    + split; [congruence|congruence|]. exists w1', w2'. rewrite Ew1, Ew2. cbn [cs_session_id send_counter set_send_counter].
      do 3 (split; [done|]). split; lia.
    + rewrite Hpeer. repeat constructor. unfold same_shape. rewrite S1, S2. unfold session_shape. by rewrite Hi, Hc.
  - destruct Hl1 as [-> L1], Hl2 as [-> L2]. exists [], []. rewrite !app_nil_r.
    do 2 (split; [done|]). split; [|by repeat split; try constructor].
    split; [congruence|congruence|]. exists w1, w2. do 4 (split; [done|]). lia.
Qed.

End Shape.

(** ** Concrete drivers for the witness *)

Module ShapeSample.

(** A confirmed client whose cover schedule runs, with nothing to send. *)
Definition quiet (m : ClientSessionManager) : ClientDriver :=
  let s := client_driver_init (DriverSample.turn 1 1) m CoverPolicy_default in
  cv_set_was_ready true (cv_set_sched (CoverScheduler_start (cv_cover_sched s) (from_secs 1)) s).

(** The same with a payload in its queue. *)
Definition busy (m : ClientSessionManager) : ClientDriver :=
  quiet (cm_set_out_queue [mkQueuedPayload (sample_payload x07) (from_secs 2)] m).

Definition turns : list (ClientTurn * ClientTurn) :=
  [(DriverSample.turn 2 2, DriverSample.turn 2 2); (DriverSample.turn 3 3, DriverSample.turn 3 3)].

Definition check (m : ClientSessionManager) : bool :=
  match cm_session m with
  | Some w => bool_decide (ws_state w = Established) && (send_counter (ws_cipher w) + 2 <=? MAX_PACKET_NONCE)
  | None => false
  end.

End ShapeSample.

Lemma shape_check_alike m :
  ShapeSample.check m = true -> cm_wf m -> alike 2 (ShapeSample.quiet m) (ShapeSample.busy m).
Proof.
  unfold ShapeSample.check. intros H Hwf. destruct (cm_session m) as [w|] eqn:Hw; [|done].
  rewrite andb_true_iff, bool_decide_eq_true, Z.leb_le in H. destruct H as [Hst Hc].
  pose proof (cw_session _ Hwf) as Hs. rewrite Hw in Hs. destruct Hs as ((_ & [Hl|Hl]) & _); [|congruence].
  split; [done|done|]. exists w, w. repeat split; try done; by apply Hl.
Qed.

Lemma shape_sample_alike : exists m, alike 2 (ShapeSample.quiet m) (ShapeSample.busy m).
Proof.
  assert (match ClientSessionManager_new Sample.client_cfg SessionLimits_default with
          | Ok m => ShapeSample.check (ClientSample.prepared_from m) | Err _ => false end = true)
    as H by (vm_compute; reflexivity).
  destruct (ClientSessionManager_new Sample.client_cfg SessionLimits_default) as [m|] eqn:E; [|discriminate H].
  exists (ClientSample.prepared_from m). apply (shape_check_alike _ H).
  exact (proj1 (cm_reaches_wf _ _ _ (client_prepared_reaches m E))).
Qed.

(** ** Properties *)

(** C24: The envelope hides what a session sends. Two sessions with the same
    identifier and send counter but any keys, nonce prefixes, roles and replay
    windows, given messages of whatever types (data, cover, probes, Close) and
    contents, of the same sizes position by position, yield packets of the same
    length and the same clear header at every position, or the same refusals, and
    their counters advance alike, nothing else of either changing. *)
Theorem envelope_oblivious {P : Primitives} {L : PrimitivesLaws P} a b msgs msgs' :
  CipherSession_wf a -> CipherSession_wf b ->
  cs_session_id a = cs_session_id b -> send_counter a = send_counter b ->
  Forall2 (fun m m' => length m.2 = length m'.2) msgs msgs' ->
  fmap (M := result CodecError) shape <$> (encrypt_all a msgs).1 =
    fmap (M := result CodecError) shape <$> (encrypt_all b msgs').1 /\
  exists n, (encrypt_all a msgs).2 = set_send_counter a n /\ (encrypt_all b msgs').2 = set_send_counter b n.
Proof.
  intros Ha Hb Hid Hcnt H. revert a b Ha Hb Hid Hcnt.
  induction H as [|[ty p] [ty' p'] msgs msgs' Hp _ IH]; intros a b Ha Hb Hid Hcnt.
  { split; [done|]. exists (send_counter a). cbn. split; [by destruct a|by rewrite Hcnt; destruct b]. }
  cbn [encrypt_all snd] in *.
  destruct (encrypt_alike a b ty ty' p p' Ha Hb Hp Hid Hcnt) as (He & n & Ea & Eb).
  pose proof (encrypt_exact a ty p Ha) as (_ & Ha1 & _). pose proof (encrypt_exact b ty' p' Hb) as (_ & Hb1 & _).
  destruct (encrypt a ty p) as [r a1]. destruct (encrypt b ty' p') as [r' b1]. cbn [fst snd] in *. subst a1 b1.
  destruct (IH _ _ Ha1 Hb1 Hid eq_refl) as (IHr & k & Ea & Eb).
  destruct (encrypt_all _ msgs) as [rs s2]. destruct (encrypt_all _ msgs') as [rs' s2']. cbn [fst snd] in *.
  split; [by rewrite !fmap_cons, He, IHr|]. exists k. by rewrite Ea, Eb.
Qed.

(** The other end of the sample tunnel, with keys of its own. *)
Lemma envelope_oblivious_witness :
  let other := mkCipherSession Server (zeros 8) (mkAeadKey (replicate 32 x03)) (mkAeadKey (replicate 32 x04))
    (replicate 4 x05) (replicate 4 x06) 0 ReplayWindow_new in
  fmap (M := result CodecError) shape <$> (encrypt_all (sample_end Client) [(Data, sample_payload x01); (Data, [x02])]).1 =
  fmap (M := result CodecError) shape <$> (encrypt_all other [(Cover, sample_payload x03); (Close, [x04])]).1.
Proof.
  intros other.
  apply (envelope_oblivious (sample_end Client) other [(Data, sample_payload x01); (Data, [x02])]
    [(Cover, sample_payload x03); (Close, [x04])] (sample_end_wf Client)).
  - repeat split; done.
  - reflexivity.
  - reflexivity.
  - constructor; [reflexivity|]. constructor; [reflexivity|constructor].
Defined.

(** C6: The cover schedule hides activity. Two clients with established sessions
    that agree on identifier, counter, peer and schedule, one with payloads
    queued or a probe due and the other with nothing to send, are driven through
    the same sequence of cover deadlines: at each of them both send nothing or
    both send one packet, to the same address, of the same length and header. *)
Theorem cover_slots_oblivious {P : Primitives} {L : PrimitivesLaws P} turns s1 s2 :
  alike (length turns) s1 s2 ->
  Forall (fun t => slot_turn_ok t.1 /\ slot_turn_ok t.2 /\ ct_now t.1 = ct_now t.2) turns ->
  exists s1' s2' l1 l2,
    client_driver_loop ((fun t => (t.1, CICover)) <$> turns) s1 = (Ret true, s1') /\
    client_driver_loop ((fun t => (t.2, CICover)) <$> turns) s2 = (Ret true, s2') /\
    cv_log s1' = cv_log s1 ++ l1 /\ cv_log s2' = cv_log s2 ++ l2 /\ same_log l1 l2.
Proof.
  revert s1 s2. induction turns as [|[t1 t2] turns IH]; intros s1 s2 Ha Ht.
  { exists s1, s2, [], []. rewrite !app_nil_r. repeat split. constructor. }
  apply Forall_cons in Ht as [(Ht1 & Ht2 & Hn) Ht]. cbn [fst snd length] in *.
  destruct (cover_turn_alike _ t1 t2 s1 s2 Ha Ht1 Ht2 Hn) as (s1' & s2' & l1 & l2 & E1 & E2 & Ha' & L1 & L2 & Hl & _).
  destruct (IH s1' s2' Ha' Ht) as (s1'' & s2'' & k1 & k2 & F1 & F2 & K1 & K2 & Hk).
  exists s1'', s2'', (l1 ++ k1), (l2 ++ k2). cbn [fmap list_fmap client_driver_loop fst snd].
  unfold mbind, M_bind. rewrite E1, E2. split; [exact F1|]. split; [exact F2|].
  rewrite K1, K2, L1, L2, <- !app_assoc. repeat split. by apply Forall2_app.
Qed.

Lemma cover_slots_oblivious_witness : exists m s1' s2' l1 l2,
  (client_driver_loop ((fun t => (t.1, CICover)) <$> ShapeSample.turns) (ShapeSample.quiet m)).2 = s1' /\
  (client_driver_loop ((fun t => (t.2, CICover)) <$> ShapeSample.turns) (ShapeSample.busy m)).2 = s2' /\
  cv_log s1' = l1 /\ cv_log s2' = l2 /\ same_log l1 l2.
Proof.
  destruct shape_sample_alike as [m Hm]. exists m.
  destruct (cover_slots_oblivious ShapeSample.turns (ShapeSample.quiet m) (ShapeSample.busy m) Hm)
    as (s1' & s2' & l1 & l2 & E1 & E2 & L1 & L2 & Hl).
  - repeat (apply Forall_cons; split;
      [split; [|split; [|reflexivity]]; (split; [apply sample_io_ok|exists (zeros PAYLOAD_LEN); split; [reflexivity|apply length_zeros]])|]);
      apply Forall_nil; exact I.
  - exists s1', s2', l1, l2. rewrite E1, E2. exact (conj eq_refl (conj eq_refl (conj L1 (conj L2 Hl)))).
Defined.
