(* ===== verification/ConformRun.v ===== *)
(** * Every datagram sent conforms

    The wire format of [Conform] carried through the drivers of both ends, on a UDP
    socket that delivers arbitrary bytes, and through the TUN drivers: whatever
    they are fed, every datagram they hand to their sockets is one the other end
    reads as a fragment of a message of the sender's side or as a data packet. *)

From S2P Require Import Prelude Bytes Errors Codec Replay Crypto Envelope WireSession Exec Net HandshakeMsg HandshakeFrag HandshakeClient HandshakeServer HandshakeSafety HandshakeClientOk SessionCommon ServerManager ClientManager Scheduler Drivers FailGateOk ServerManagerOk ClientManagerOk ClientManagerSafe DriversOk Udp Dataplane PacketPolicy TunDriver Conform.

Local Open Scope Z_scope.

(** ** The drivers *)

Definition effect_typed (ts : list byte) (e : effect) : Prop :=
  match e with Sent p _ => conforms ts p | Notified _ => True end.

Section Effects.
Context {S : Type} `{HasLog S} {I : S -> Prop} (ts : list byte).
Hypothesis Hlog : forall e s, effect_typed ts e -> I s -> I (log_effect e s).

Lemma send_to_typed io p a : conforms ts p -> typed I anything (send_to io p a).
Proof using Hlog. intros Hp. unfold send_to. typed_go. Qed.

Lemma send_packets_typed io ps a : Forall (conforms ts) ps -> typed I anything (send_packets io ps a).
Proof using Hlog.
  induction 1 as [|p ps Hp _ IH]; cbn [send_packets]; [by apply typed_ret|].
  eapply typed_bind; [by apply send_to_typed|]. by intros.
Qed.

Lemma notify_typed io n : typed I anything (notify io n).
Proof using Hlog. unfold notify. destruct (io_notify io n); [typed_step; by apply Hlog|typed_go]. Qed.


End Effects.

Section ServerDriver.
Context {P : Primitives}.

Definition sd_typed (s : ServerDriver) : Prop := sm_typed (sd_manager s) /\ Forall (effect_typed server_types) (sd_log s).

Lemma sd_log_typed e (s : ServerDriver) : effect_typed server_types e -> sd_typed s -> sd_typed (log_effect e s).
Proof. intros He [Hm Hl]. split; [done|]. apply Forall_app. by split; [|constructor]. Qed.

Lemma sd_send_typed io p a : conforms server_types p -> typed sd_typed anything (send_to io p a).
Proof. apply (send_to_typed server_types), sd_log_typed. Qed.
Lemma sd_sends_typed io ps a : Forall (conforms server_types) ps -> typed sd_typed anything (send_packets io ps a).
Proof. apply (send_packets_typed server_types), sd_log_typed. Qed.
Lemma sd_notify_typed io n : typed sd_typed anything (notify io n).
Proof. apply (notify_typed server_types), sd_log_typed. Qed.


#[local] Hint Resolve sd_send_typed sd_sends_typed sd_notify_typed : typed.



(** What the transport hands to a receive arm. *)
Definition recv_typed (r : result HandshakeV2Error (WirePacket * SocketAddr)) : Prop :=
  match r with Ok (pkt, _) => WirePacket_wf pkt | Err _ => True end.





End ServerDriver.

Section ClientDriver.
Context {P : Primitives}.

Definition cd_typed (s : ClientDriver) : Prop := cm_typed (cv_manager s) /\ Forall (effect_typed client_types) (cv_log s).

Lemma cd_log_typed e (s : ClientDriver) : effect_typed client_types e -> cd_typed s -> cd_typed (log_effect e s).
Proof. intros He [Hm Hl]. split; [done|]. apply Forall_app. by split; [|constructor]. Qed.

Lemma cd_send_typed io p a : conforms client_types p -> typed cd_typed anything (send_to io p a).
Proof. apply (send_to_typed client_types), cd_log_typed. Qed.
Lemma cd_sends_typed io ps a : Forall (conforms client_types) ps -> typed cd_typed anything (send_packets io ps a).
Proof. apply (send_packets_typed client_types), cd_log_typed. Qed.
Lemma cd_notify_typed io n : typed cd_typed anything (notify io n).
Proof. apply (notify_typed client_types), cd_log_typed. Qed.


Lemma try_client_typed {A} (R : A -> Prop) f :
  typed cm_typed R f -> typed cd_typed (fun r => forall a, r = Ok a -> R a) (try_client f).
Proof.
  intros H s [Hm Hl]. destruct (H _ Hm) as [H1 H2]. unfold try_client.
  destruct (f (cv_manager s)) as [[a|e|p] m']; cbn [fst snd] in *; (split; [done|]); intros ? [= <-]; [|done].
  intros ? [= <-]. by apply H2.
Qed.

Lemma arm_slot_typed t o : typed cd_typed anything (arm_slot t o).
Proof. apply typed_modify. by intros s []. Qed.
Lemma arm_retransmit_typed t : typed cd_typed anything (arm_retransmit t).
Proof. apply typed_modify. by intros s []. Qed.

#[local] Hint Resolve cd_send_typed cd_sends_typed cd_notify_typed arm_slot_typed arm_retransmit_typed : typed.

Section Turn.
Variable t : ClientTurn.
Hypothesis Ht : turn_ok t.

Lemma rearm_typed i : typed cd_typed anything (rearm_client t i).
Proof using Ht.
  unfold rearm_client. eapply typed_bind; [apply try_client_typed, cm_begin_handshake_typed, (proj1 (proj2 Ht))|].
  intros r Hr. destruct r as [ev|]; [|typed_go]. specialize (Hr _ eq_refl). destruct ev; cbn in Hr; typed_go.
Qed.

#[local] Hint Resolve rearm_typed : typed.

Lemma on_closed_typed i sid reason : typed cd_typed anything (on_closed t i sid reason).
Proof using Ht. unfold on_closed. typed_go. Qed.

#[local] Hint Resolve on_closed_typed : typed.







End Turn.


End ClientDriver.

(** ** The TUN drivers *)

Definition tun_effect_typed (ts : list byte) (e : TunEffect) : Prop :=
  match e with TunSent p _ => conforms ts p | _ => True end.

Definition tun_input_typed (i : tun_input) : Prop := match i with TIRecv r => recv_typed r | _ => True end.

Section Tun.
Context {P : Primitives}.

Definition ts_typed (s : TunServer) : Prop := sm_typed (ts_manager s) /\ Forall (tun_effect_typed server_types) (ts_log s).
Definition tc_typed (s : TunClient) : Prop := cm_typed (tc_manager s) /\ Forall (tun_effect_typed client_types) (tc_log s).

Lemma ts_emit_typed e s : tun_effect_typed server_types e -> ts_typed s -> ts_typed (ts_emit e s).
Proof. intros He [Hm Hl]. split; [done|]. apply Forall_app. by split; [|constructor]. Qed.
Lemma tc_emit_typed e s : tun_effect_typed client_types e -> tc_typed s -> tc_typed (tc_emit e s).
Proof. intros He [Hm Hl]. split; [done|]. apply Forall_app. by split; [|constructor]. Qed.

Lemma ts_send_typed a p : conforms server_types p -> typed ts_typed anything (ts_send a p).
Proof. intros Hp. apply typed_modify. intros s. by apply ts_emit_typed. Qed.
Lemma tc_send_typed a p : conforms client_types p -> typed tc_typed anything (tc_send a p).
Proof. intros Hp. apply typed_modify. intros s. by apply tc_emit_typed. Qed.
Lemma ts_wrote_typed pkt : typed (E := ManagerError) ts_typed anything (modify (ts_emit (TunWrote pkt))).
Proof. apply typed_modify. intros s. by apply ts_emit_typed. Qed.
Lemma tc_wrote_typed pkt : typed (E := ManagerError) tc_typed anything (modify (tc_emit (TunWrote pkt))).
Proof. apply typed_modify. intros s. by apply tc_emit_typed. Qed.

Lemma ts_sends_typed a ps : Forall (conforms server_types) ps -> typed ts_typed anything (for_each (ts_send a) ps).
Proof. apply typed_for_each. intros p. apply ts_send_typed. Qed.
Lemma tc_sends_typed a ps : Forall (conforms client_types) ps -> typed tc_typed anything (for_each (tc_send a) ps).
Proof. apply typed_for_each. intros p. apply tc_send_typed. Qed.

Lemma ts_zoom_typed {A} (R : A -> Prop) (f : M ServerSessionManager ManagerError A) :
  typed sm_typed R f -> typed ts_typed R (zoom ts_manager ts_set_manager f).
Proof. apply typed_zoom; [by intros s []|]. by intros s m []. Qed.
Lemma tc_zoom_typed {A} (R : A -> Prop) (f : M ClientSessionManager ManagerError A) :
  typed cm_typed R f -> typed tc_typed R (zoom tc_manager tc_set_manager f).
Proof. apply typed_zoom; [by intros s []|]. by intros s m []. Qed.

#[local] Hint Resolve ts_send_typed tc_send_typed ts_sends_typed tc_sends_typed ts_wrote_typed tc_wrote_typed : typed.

Lemma on_tun_established_typed sid : typed ts_typed anything (on_tun_established sid).
Proof. unfold on_tun_established. typed_go. Qed.
Lemma on_tun_closed_typed sid : typed ts_typed anything (on_tun_closed sid).
Proof. unfold on_tun_closed. typed_go. Qed.
Lemma on_tun_data_typed t sid inner : typed ts_typed anything (on_tun_data t sid inner).
Proof. unfold on_tun_data. typed_go. Qed.
Lemma on_client_tun_data_typed t inner : typed tc_typed anything (on_client_tun_data t inner).
Proof. unfold on_client_tun_data. typed_go. Qed.
Lemma tc_clear_typed : typed tc_typed anything tc_clear.
Proof. unfold tc_clear. typed_go. Qed.

#[local] Hint Resolve on_tun_established_typed on_tun_closed_typed on_tun_data_typed on_client_tun_data_typed
  tc_clear_typed : typed.

Lemma tun_server_turn_typed t i : tun_input_typed i -> typed ts_typed anything (tun_server_turn t i).
Proof.
  intros Hi. destruct i as [r|pkt|]; cbn [tun_server_turn tun_input_typed] in *.
  - unfold tun_server_recv. destruct r as [[pkt peer]|]; [|typed_go].
    eapply typed_bind; [apply typed_attempt, ts_zoom_typed; by apply server_manager_handle_typed|].
    intros r Hr. destruct r as [ev|]; [|typed_go]. specialize (Hr _ eq_refl). destruct ev; cbn in Hr; typed_go.
  - unfold tun_server_packet. typed_go. apply (typed_for_each anything); [|by apply Forall_true].
    intros slot _. unfold tun_server_slot.
    eapply typed_bind; [apply typed_attempt, ts_zoom_typed, server_tun_outbound_typed|].
    intros r Hr. destruct r as [ev|]; [|typed_go]. specialize (Hr _ eq_refl). destruct ev; cbn in Hr; typed_go.
  - unfold tun_server_tick.
    eapply (typed_bind (Forall (ev_typed server_types))); [apply ts_zoom_typed, typed_call; intros m; apply server_tick_typed|].
    intros evs Hevs. eapply typed_bind.
    { eapply typed_for_each; [|exact Hevs]. intros ev Hev. unfold tun_server_on_tick_event.
      destruct ev; cbn in Hev; typed_go. }
    intros _ _. eapply typed_bind; [apply typed_attempt, ts_zoom_typed, cover_packet_all_typed|].
    intros r Hr. destruct r as [cvs|]; [|typed_go]. eapply typed_for_each; [|by apply Hr].
    intros ev Hev. unfold tun_server_on_cover_event. destruct ev; cbn in Hev; typed_go.
Qed.

Lemma tun_client_turn_typed t i : typed tc_typed anything (tun_client_turn t i).
Proof.
  destruct i as [r|pkt|]; cbn [tun_client_turn].
  - unfold tun_client_recv. destruct r as [[pkt peer]|]; [|typed_go].
    eapply typed_bind; [apply typed_attempt, tc_zoom_typed, client_manager_handle_typed|].
    intros r Hr. destruct r as [ev|]; [|typed_go]. specialize (Hr _ eq_refl). destruct ev; cbn in Hr; typed_go.
  - unfold tun_client_packet. typed_go. apply (typed_for_each anything); [|by apply Forall_true].
    intros slot _. unfold tun_client_slot.
    eapply typed_bind; [apply typed_attempt, tc_zoom_typed, client_tun_outbound_typed|].
    intros r Hr. destruct r as [ev|]; [|typed_go]. specialize (Hr _ eq_refl). destruct ev; cbn in Hr; typed_go.
  - unfold tun_client_tick.
    eapply (typed_bind (Forall (ev_typed client_types))); [apply tc_zoom_typed, typed_call; intros m; apply client_tick_typed|].
    intros evs Hevs. eapply typed_bind.
    { eapply typed_for_each; [|exact Hevs]. intros ev Hev. unfold tun_client_on_tick_event.
      destruct ev; cbn in Hev; typed_go. }
    intros _ _. eapply typed_bind; [apply typed_attempt, tc_zoom_typed, client_cover_packet_typed|].
    intros r Hr. destruct r as [ev|]; [|typed_go]. specialize (Hr _ eq_refl). destruct ev; cbn in Hr; typed_go.
Qed.

Lemma tun_client_connect_typed send d : draws_ok d -> typed tc_typed anything (tun_client_connect send d).
Proof.
  intros Hd. unfold tun_client_connect. eapply typed_bind; [apply tc_zoom_typed; by apply cm_begin_handshake_typed|].
  intros ev Hev. destruct ev; cbn in Hev; try typed_go. eapply typed_for_each; [|exact Hev].
  intros p Hp. cbv beta. typed_go.
Qed.

End Tun.

(** ** Properties *)



(** The same holds of the TUN drivers, for whatever the socket, the device and
    the timer bring. *)
Theorem tun_datagrams_conform {P : Primitives} scfg slimits start sm sturns ccfg climits cm send d cturns :
  ServerSessionManager_new scfg slimits start = Ok sm -> Forall (fun ti => tun_input_typed ti.2) sturns ->
  ClientSessionManager_new ccfg climits = Ok cm -> draws_ok d ->
  (forall p a, TunSent p a ∈ ts_log (tun_server_loop sturns (tun_server_init sm)).2 -> conforms server_types p) /\
  (forall p a, TunSent p a ∈ tc_log (tun_client_run send d cm cturns).2 -> conforms client_types p).
Proof.
  intros Hs Hst Hc Hd.
  assert (ts_typed (tun_server_loop sturns (tun_server_init sm)).2) as [_ Hsl].
  { eapply (typed_for_each (I := ts_typed)); [|exact Hst|split; [by eapply new_server_typed|constructor]].
    intros [t i] Hi. by apply tun_server_turn_typed. }
  assert (tc_typed (tun_client_run send d cm cturns).2) as [_ Hcl].
  { unfold tun_client_run. eapply (typed_bind (I := tc_typed) anything anything); [by apply tun_client_connect_typed| |].
    - intros _ _. eapply (typed_for_each anything); [|by apply Forall_true]. intros [t i] _. apply tun_client_turn_typed.
    - split; [by eapply new_client_typed|constructor]. }
  split; intros p a Hin.
  - exact (proj1 (Forall_forall _ _) Hsl _ Hin).
  - exact (proj1 (Forall_forall _ _) Hcl _ Hin).
Qed.



