(* ===== verification/CoverClock.v ===== *)
(** * The cover clock on Windows

    Module [cover_clock] of [pq-tunnel-core/src/session_manager.rs]: on Windows
    the cover arm of the drivers waits on a high-resolution waitable timer, set to
    an absolute moment of the wall clock. The results of the system calls and the
    readings of the clocks are arguments; the calls made are logged.

    [SystemTime] on Windows counts intervals of 100 ns since 1601 in an [i64];
    the conversions below are those of the standard library for it. *)

From S2P Require Import Prelude Bytes Errors Codec Replay Crypto Envelope WireSession Exec Net HandshakeMsg HandshakeClient SessionCommon ClientManager Scheduler Drivers HandshakeServer HandshakeSafety HandshakeClientOk ServerManager ClientManagerOk DriversOk.

Local Open Scope Z_scope.

(** ** [SystemTime] *)

Definition NANOS_PER_SEC : Z := 1000000000.
Definition INTERVALS_PER_SEC : Z := 10000000.

(** Seconds from the FILETIME epoch to the Unix epoch. *)
Definition FILETIME_UNIX_OFFSET : Z := 11644473600.

Definition UNIX_EPOCH : Z := FILETIME_UNIX_OFFSET * INTERVALS_PER_SEC.

Definition i64_max : Z := 2 ^ 63 - 1.

Definition dur2intervals (d : Duration) : option Z :=
  let n := d / NANOS_PER_SEC * INTERVALS_PER_SEC + d mod NANOS_PER_SEC / 100 in
  if n <=? i64_max then Some n else None.

Definition system_time_add (t : Z) (d : Duration) : option Z :=
  n ← dur2intervals d; if t + n <=? i64_max then Some (t + n) else None.

Definition system_time_since (t earlier : Z) : result Duration Duration :=
  if earlier <=? t then Ok ((t - earlier) * 100) else Err ((earlier - t) * 100).

(** [as i64]. *)
Definition as_i64 (x : Z) : Z := if x <=? i64_max then x else x - 2 ^ 64.

(** ** The due time of a wait *)

Definition due_time (wall : Z) (remaining : Duration) : exec Empty_set Z :=
  match system_time_add wall remaining with
  | None => Panic "overflow when adding duration to instant"
  | Some unix =>
      let since_epoch := match system_time_since unix UNIX_EPOCH with Ok d => d | Err _ => 0 end in
      let secs := saturating_add 64 (since_epoch / NANOS_PER_SEC) FILETIME_UNIX_OFFSET in
      match checked_mul 64 secs 10000000 with
      | None => Panic "attempt to multiply with overflow"
      | Some t =>
          match checked_add 64 t (since_epoch mod NANOS_PER_SEC / 100) with
          | None => Panic "attempt to add with overflow"
          | Some ticks => Ret (as_i64 ticks)
          end
      end
  end.

(** ** The wait *)

Inductive os_call :=
| CreateWaitableTimerExW
| SetWaitableTimer (timer due : Z)
| WaitForSingleObject (timer : Z)
| CloseHandle (timer : Z)
| ThreadSleep (d : Duration).

(** What one wait reads, in this order: the monotonic clock, the new timer unless
    the handle is null, the wall clock, and whether arming the timer succeeded. *)
Record WinTurn := mkWinTurn {
  wt_now : Instant;
  wt_wall : Z;
  wt_timer : option Z;
  wt_armed : bool }.

Definition os (c : os_call) : M (list os_call) Empty_set () := modify (fun l => l ++ [c]).

Definition wait_until (w : WinTurn) (target : Instant) : M (list os_call) Empty_set () :=
  let remaining := duration_since target (wt_now w) in
  os CreateWaitableTimerExW;;
  match wt_timer w with
  | None => os (ThreadSleep remaining)
  | Some timer =>
      match due_time (wt_wall w) remaining with
      | Panic site => fun l => (Panic site, l)
      | Fail e => match e with end
      | Ret due =>
          os (SetWaitableTimer timer due);;
          if wt_armed w then os (WaitForSingleObject timer);; os (CloseHandle timer)
          else os (CloseHandle timer);; os (ThreadSleep remaining)
      end
  end.

(** The arm of the [select!]: it fires when the blocking wait for [target] ends,
    also by a panic, since the outcome of the task is discarded; the inert one
    never fires. *)
Inductive CoverSleep :=
| CoverSleep_deadline (target : Instant)
| CoverSleep_inert.

Definition windows_cover_sleep (s : CoverScheduler) : CoverSleep :=
  match next_deadline s with
  | Some d => CoverSleep_deadline d
  | None => CoverSleep_inert
  end.

(** ** When a timer is signalled

    A waitable timer with a positive due time is set to that moment of the wall
    clock; a negative one is relative. [wall_at] is the wall clock along the
    monotonic time line: a timer set from [from] on is due at [t], the first
    moment the wall clock shows [due]. When the system signals it and the waiting
    thread runs again is up to the system, at any later moment. *)

Definition due_at (wall_at : Instant -> Z) (due : Z) (from t : Instant) : Prop :=
  from <= t /\ due <= wall_at t /\ forall t', from <= t' < t -> wall_at t' < due.

(** A wall clock that stays [offset] ahead of the monotonic one. *)
Definition steady (offset : Z) (t : Instant) : Z := (t + offset) / 100.

(** ** Arithmetic *)

Lemma dur2intervals_div d : 0 <= d -> d / NANOS_PER_SEC * INTERVALS_PER_SEC + d mod NANOS_PER_SEC / 100 = d / 100.
Proof.
  intros H. unfold NANOS_PER_SEC, INTERVALS_PER_SEC.
  apply (Z.div_unique d 100 _ (d mod 1000000000 mod 100)).
  - left. apply Z.mod_pos_bound. lia.
  - pose proof (Z.div_mod d 1000000000). pose proof (Z.div_mod (d mod 1000000000) 100). lia.
Qed.

Lemma system_time_add_some t d :
  0 <= t -> 0 <= d -> t + d / 100 <= i64_max -> system_time_add t d = Some (t + d / 100).
Proof.
  intros Ht Hd Hr. unfold system_time_add, dur2intervals. rewrite dur2intervals_div by done.
  rewrite (proj2 (Z.leb_le (d / 100) i64_max)) by lia. cbn. by rewrite (proj2 (Z.leb_le _ _)).
Qed.

Lemma system_time_add_bound t d u : 0 <= t -> 0 <= d -> system_time_add t d = Some u -> u = t + d / 100 /\ 0 <= u <= i64_max.
Proof.
  intros Ht Hd. unfold system_time_add, dur2intervals. rewrite dur2intervals_div by done.
  assert (0 <= d / 100) by (apply Z.div_pos; lia).
  destruct (Z.leb_spec (d / 100) i64_max); cbn; [|done]. destruct (Z.leb_spec (t + d / 100) i64_max); [|done].
  intros [= <-]. lia.
Qed.

(** The ticks of a moment that lies [n] intervals after the Unix epoch. *)
Lemma ticks_since n :
  0 <= n -> (n * 100) / NANOS_PER_SEC * 10000000 + (n * 100) mod NANOS_PER_SEC / 100 = n.
Proof.
  intros H. pose proof (dur2intervals_div (n * 100)) as E. unfold INTERVALS_PER_SEC in E.
  rewrite E by lia. by rewrite Z.div_mul.
Qed.

(** Before the Unix epoch the due time is the epoch itself. *)
Lemma due_time_value wall remaining u :
  0 <= wall -> 0 <= remaining -> system_time_add wall remaining = Some u ->
  due_time wall remaining = Ret (Z.max UNIX_EPOCH u).
Proof.
  intros Hw Hr Hu. pose proof (system_time_add_bound _ _ _ Hw Hr Hu) as [_ Hb]. unfold due_time. rewrite Hu.
  assert (exists n, 0 <= n /\ UNIX_EPOCH + n = Z.max UNIX_EPOCH u /\
    match system_time_since u UNIX_EPOCH with Ok d => d | Err _ => 0 end = n * 100) as (n & Hn & En & ->).
  { unfold system_time_since. destruct (Z.leb_spec UNIX_EPOCH u); [exists (u - UNIX_EPOCH)|exists 0]; lia. }
  pose proof (ticks_since n Hn) as E.
  set (q := (n * 100) / NANOS_PER_SEC) in *. set (r := (n * 100) mod NANOS_PER_SEC / 100) in *.
  assert (0 <= q) by (apply Z.div_pos; unfold NANOS_PER_SEC; lia).
  assert (0 <= r) by (apply Z.div_pos; [apply Z.mod_pos_bound|]; unfold NANOS_PER_SEC; lia).
  unfold UNIX_EPOCH, FILETIME_UNIX_OFFSET, INTERVALS_PER_SEC, i64_max in *.
  unfold saturating_add, checked_mul, checked_add, as_i64, umax, i64_max.
  rewrite Z.min_r by lia. rewrite (proj2 (Z.leb_le _ _)) by lia. rewrite (proj2 (Z.leb_le _ _)) by lia.
  rewrite (proj2 (Z.leb_le _ _)) by lia. f_equal. lia.
Qed.

(** ** Properties of a wait *)

(** The timer a wait created is closed, once, as its last use, however the
    arming went; without a timer or when it cannot be armed the thread sleeps for
    the time that remains. *)
Theorem wait_until_exact w target u :
  0 <= wt_wall w -> system_time_add (wt_wall w) (duration_since target (wt_now w)) = Some u ->
  let remaining := duration_since target (wt_now w) in
  wait_until w target [] =
    (Ret (),
     match wt_timer w with
     | None => [CreateWaitableTimerExW; ThreadSleep remaining]
     | Some h =>
         CreateWaitableTimerExW :: SetWaitableTimer h (Z.max UNIX_EPOCH u) ::
         if wt_armed w then [WaitForSingleObject h; CloseHandle h] else [CloseHandle h; ThreadSleep remaining]
     end).
Proof.
  intros Hw Hu remaining. assert (0 <= remaining) by (unfold remaining, duration_since; lia).
  unfold wait_until. fold remaining. unfold mbind, M_bind, os, modify.
  destruct (wt_timer w) as [h|]; [|done]. rewrite (due_time_value _ _ _ Hw ltac:(done) Hu).
  by destruct (wt_armed w).
Qed.

(** The moment a timer that was set at [from] for [target] is due, on a wall clock
    that is moved back by [back] intervals while it waits. *)
Lemma due_window offset back from target due t :
  from <= target -> 0 <= back -> due = steady offset from + (target - from) / 100 ->
  due_at (fun t => steady offset t - back) due from t ->
  target + 100 * back - 199 < t /\ (t = from \/ t <= target + 100 * back).
Proof.
  intros Ht Hb -> (Hn & Hd & Hmin). unfold steady in *.
  pose proof (Z.div_mod (from + offset) 100). pose proof (Z.mod_pos_bound (from + offset) 100).
  pose proof (Z.div_mod (target - from) 100). pose proof (Z.mod_pos_bound (target - from) 100).
  pose proof (Z.div_mod (t + offset) 100). pose proof (Z.mod_pos_bound (t + offset) 100).
  split; [lia|]. destruct (Z.eq_dec t from) as [|Hne]; [by left|right].
  destruct (Z.le_gt_cases t (target + 100 * back)) as [|Hgt]; [done|exfalso].
  specialize (Hmin (target + 100 * back) ltac:(lia)). revert Hmin.
  pose proof (Z.div_mod (target + 100 * back + offset) 100). pose proof (Z.mod_pos_bound (target + 100 * back + offset) 100).
  lia.
Qed.

(** The same from the deadline: the time between the two clock readings is added
    to it, since what remains is computed at the first and counted from the
    second. *)
Lemma due_window_read offset now read d t :
  now <= read -> due_at (steady offset) (steady offset read + duration_since d now / 100) read t ->
  d + (read - now) - 199 < t <= Z.max read (d + (read - now)).
Proof.
  intros Hr Ht. unfold duration_since in Ht.
  assert (due_at (fun t => steady offset t - 0) (steady offset read + (read + Z.max 0 (d - now) - read) / 100) read t) as Hw.
  { replace (read + Z.max 0 (d - now) - read) with (Z.max 0 (d - now)) by lia.
    destruct Ht as (? & ? & Hm). split; [done|]. split; [lia|]. intros t' H'. specialize (Hm t' H'). lia. }
  destruct (due_window offset 0 read (read + Z.max 0 (d - now)) _ t ltac:(lia) ltac:(lia) eq_refl Hw). lia.
Qed.

(** An early wake of the client's cover arm sends nothing and arms the same
    deadline again. *)
Lemma cover_arm_early {P : Primitives} t s d :
  next (cv_cover_sched s) = Some d -> ct_now t < d -> enabled (policy (cv_cover_sched s)) = true ->
  client_cover_arm t s = (Ret true, cv_arm_cover (cv_set_sched (cv_cover_sched s) s)).
Proof.
  intros Hn Hlt He. unfold client_cover_arm, mbind, M_bind, get, modify, on_deadline. rewrite He, Hn. cbn [negb].
  by rewrite (proj2 (Z.leb_gt d (ct_now t))).
Qed.

(** The wait of the cover arm for deadline [d], begun at [now] and set on a wall
    clock that then shows [wall] and leaves room for the deadline. *)
Definition waits_for (wall now d due : Z) (h : Z) : Prop :=
  wait_until (mkWinTurn now wall (Some h) true) d [] =
    (Ret (), [CreateWaitableTimerExW; SetWaitableTimer h due; WaitForSingleObject h; CloseHandle h]) /\
  0 < due /\ due = wall + duration_since d now / 100.

Lemma waits_for_due wall now d h :
  UNIX_EPOCH <= wall -> wall + duration_since d now / 100 <= i64_max ->
  waits_for wall now d (wall + duration_since d now / 100) h.
Proof.
  intros Hw Hr. assert (0 < UNIX_EPOCH) by reflexivity.
  assert (0 <= duration_since d now / 100) by (apply Z.div_pos; unfold duration_since; lia).
  split; [|lia]. set (w := mkWinTurn now wall (Some h) true).
  pose proof (wait_until_exact w d (wall + duration_since d now / 100)) as E. cbn [wt_wall wt_now wt_timer wt_armed w] in E.
  rewrite E; [|lia|apply system_time_add_some; unfold duration_since in *; lia]. by rewrite Z.max_r by lia.
Qed.

(** C29: The cover clock of Windows against the schedule. For the deadline [d] the
    client's scheduler has armed, a wait that reads the monotonic clock at [now]
    and the wall clock at a later [read], with a timer that could be created and
    armed, sets it to a positive, hence absolute, due time, waits and closes it.
    While the wall clock keeps its distance to the monotonic one, the timer is
    due at the deadline plus the time between the two readings, to within 199 ns,
    or at once when that has passed. However late the system then wakes the
    thread, it wakes less than 199 ns before the deadline; when the driver reads
    its clock before the deadline it sends nothing, leaves the log as it was and
    arms the same deadline, so that no slot is lost or sent twice, and when it
    reads it at or after the deadline the slot is due and the next deadline is
    one interval after that reading, so that late wakes never bring slots closer
    together. *)
Theorem cover_clock_schedule {P : Primitives} offset now read h d (s : ClientDriver) :
  windows_cover_sleep (cv_cover_sched s) = CoverSleep_deadline d -> enabled (policy (cv_cover_sched s)) = true ->
  now <= read -> UNIX_EPOCH <= steady offset read ->
  steady offset read + duration_since d now / 100 <= i64_max ->
  exists due, waits_for (steady offset read) now d due h /\
    forall signal wake t, due_at (steady offset) due read signal -> signal <= wake -> wake <= ct_now t ->
      d + (read - now) - 199 < signal <= Z.max read (d + (read - now)) /\ d - 199 < wake /\
      if ct_now t <? d
      then exists s', client_cover_arm t s = (Ret true, s') /\ cv_log s' = cv_log s /\
        cv_manager s' = cv_manager s /\ cv_cover_arm s' = Some d
      else exists sched, on_deadline (cv_cover_sched s) (ct_now t) = (true, sched) /\
        windows_cover_sleep sched = CoverSleep_deadline (ct_now t + interval (policy (cv_cover_sched s))).
Proof.
  intros Hs He Hread Hw Hr. unfold windows_cover_sleep in Hs.
  destruct (next_deadline (cv_cover_sched s)) as [d'|] eqn:Hn; [|done]. injection Hs as ->.
  eexists. split; [by apply waits_for_due|]. intros signal wake t Hsig Hwake Hnow.
  pose proof (due_window_read _ _ _ _ _ Hread Hsig) as Hwin. split; [done|]. split; [lia|].
  destruct (Z.ltb_spec (ct_now t) d) as [Hlt|Hge].
  - rewrite (cover_arm_early t s d) by done. eexists. split; [done|].
    unfold cv_arm_cover, cv_set_sched, cover_sleep. cbn. done.
  - unfold on_deadline, next_deadline in *. rewrite He, Hn. cbn [negb].
    rewrite (proj2 (Z.leb_le d (ct_now t))) by lia. by eexists.
Qed.

(** Moving the wall clock back while a wait is in progress delays the wake by as
    much: the cover traffic stops for that long, because the due time is a moment
    of the wall clock. *)
Theorem cover_clock_stalls offset back now h d :
  now <= d -> 0 <= back -> UNIX_EPOCH <= steady offset now ->
  steady offset now + duration_since d now / 100 <= i64_max ->
  exists due, waits_for (steady offset now) now d due h /\
    forall signal, due_at (fun t => steady offset t - back) due now signal -> d + 100 * back - 199 < signal.
Proof.
  intros Hd Hb Hw Hr. eexists. split; [by apply waits_for_due|]. intros signal Hwk.
  unfold duration_since in Hwk. rewrite Z.max_r in Hwk by lia.
  by destruct (due_window offset back now d _ signal Hd Hb eq_refl Hwk).
Qed.

Module ClockSample.

(** The wall clock reads 50 ns into an interval when the wait begins. *)
Definition offset : Z := UNIX_EPOCH * 100 + 50.

Definition sched : CoverScheduler := CoverScheduler_start (CoverScheduler_new CoverPolicy_default) 0.

Definition woken : ClientTurn :=
  let t := DriverSample.turn 1 1 in
  mkClientTurn 5119950 (ct_slot_now t) (ct_draws t) (ct_rearm t) (ct_jitter t) (ct_fill t) (ct_io t).

End ClockSample.

Lemma sample_signal : due_at (steady ClockSample.offset) (UNIX_EPOCH + 51200) 0 5119950.
Proof.
  split; [lia|]. unfold steady, ClockSample.offset. split; [vm_compute; discriminate|].
  intros t' Ht. apply Z.div_lt_upper_bound; lia.
Qed.

(** A driver just before the wait. *)
Lemma sample_armed : exists s : ClientDriver, cv_cover_sched s = ClockSample.sched.
Proof. destruct driver_sample as (s & _). by exists (cv_set_sched ClockSample.sched s). Qed.

Lemma cover_clock_schedule_witness : exists s s' : ClientDriver,
  windows_cover_sleep (cv_cover_sched s) = CoverSleep_deadline 5120000 /\
  client_cover_arm ClockSample.woken s = (Ret true, s') /\ cv_cover_arm s' = Some 5120000.
Proof.
  destruct sample_armed as (s & Hs). exists s.
  destruct (cover_clock_schedule ClockSample.offset 0 0 7 5120000 s) as (due & (_ & _ & Hdue) & Hw).
  - rewrite Hs. reflexivity.
  - rewrite Hs. reflexivity.
  - lia.
  - vm_compute. discriminate.
  - vm_compute. discriminate.
  - destruct (Hw 5119950 5119950 ClockSample.woken) as (_ & _ & Hearly).
    + rewrite Hdue. exact sample_signal.
    + lia.
    + vm_compute. discriminate.
    + destruct Hearly as (s' & H1 & _ & _ & H2). exists s'. rewrite Hs. exact (conj eq_refl (conj H1 H2)).
Defined.
