(* ===== verification/TunDevice.v ===== *)
(** * The TUN device and its reader thread

    [pq-tunnel-bin/src/tun/device.rs] and the blocking reader that
    [tun/server.rs] and [tun/client.rs] start: it reads packets from the device
    into a fresh buffer and passes them to the driver over a channel. What the
    device returns is an argument; opening and configuring it is left to the
    [tun] crate. *)

From S2P Require Import Prelude Bytes Errors PacketPolicy Udp.

Local Open Scope nat_scope.

Definition TUN_BUF : nat := Z.to_nat 65535.

Lemma TUN_BUF_pos : 0 < TUN_BUF.
Proof. unfold TUN_BUF. lia. Qed.

Opaque TUN_BUF.

(** [dev.read(&mut buf)] on a buffer of [TUN_BUF] zeros: the next packet, cut to
    the buffer. *)
Definition device_read (r : result IoError bytes) : result IoError (nat * bytes) :=
  pkt ← r;
  let n := Nat.min TUN_BUF (length pkt) in
  Ok (n, write_at 0 (take n pkt) (zeros TUN_BUF)).

Definition read_packet (r : result IoError bytes) : result IoError bytes :=
  '(n, buf) ← device_read r;
  Ok (take n buf).

(** [self.dev.mtu().unwrap_or(INNER_MTU)]. *)
Definition device_mtu (mtu : result IoError Z) : Z :=
  match mtu with Ok m => m | Err _ => INNER_MTU end.

(** The reader thread over the results of its reads, each with whether the driver
    still receives: what it put into the channel, and whether it still runs. *)
Fixpoint tun_reader (reads : list (result IoError bytes * bool)) : list bytes * bool :=
  match reads with
  | [] => ([], true)
  | (r, rx_open) :: reads =>
      match device_read r with
      | Ok (n, buf) =>
          if 0 <? n then
            if rx_open then (take n buf :: (tun_reader reads).1, (tun_reader reads).2) else ([], false)
          else tun_reader reads
      | Err _ => ([], false)
      end
  end.

Lemma device_read_packet pkt :
  exists buf, device_read (Ok pkt) = Ok (Nat.min TUN_BUF (length pkt), buf) /\
    take (Nat.min TUN_BUF (length pkt)) buf = take TUN_BUF pkt.
Proof.
  eexists. split; [reflexivity|]. set (n := Nat.min TUN_BUF (length pkt)).
  assert (n <= TUN_BUF /\ n <= length pkt) as [H1 H2] by lia.
  pose proof (recv_buffer n TUN_BUF pkt H1 H2) as E. unfold slice in E. rewrite drop_0, Nat.sub_0_r in E. rewrite E.
  destruct (Nat.le_ge_cases (length pkt) TUN_BUF); [rewrite !take_ge by lia; done|by replace n with TUN_BUF by lia].
Qed.

(** The packets the device delivered before its first failure. *)
Fixpoint delivered (reads : list (result IoError bytes * bool)) : list bytes :=
  match reads with
  | (Ok pkt, _) :: reads => pkt :: delivered reads
  | _ => []
  end.

(** The reader passes on exactly the non-empty packets of the device, in order,
    each cut to the buffer, up to the first read that fails; after that the
    driver gets no packet from it any more, whatever the device delivers. *)
Theorem tun_reader_exact reads :
  Forall (fun x => x.2 = true) reads ->
  (tun_reader reads).1 = take TUN_BUF <$> filter (fun pkt => pkt <> []) (delivered reads) /\
  ((tun_reader reads).2 = false <-> Exists (fun x => is_ok x.1 = false) reads).
Proof.
  pose proof TUN_BUF_pos as Hbuf. induction 1 as [|[r rx] reads Hrx Hall [IH1 IH2]]; [split; [done|split; [done|by intros []%Exists_nil]]|].
  cbn [fst snd] in Hrx. subst rx. cbn [tun_reader delivered]. rewrite Exists_cons. cbn [fst].
  destruct r as [pkt|e]; [|split; [done|split; [by left|done]]].
  destruct (device_read_packet pkt) as (buf & -> & Eb). rewrite Eb. cbn [is_ok].
  destruct (Nat.ltb_spec 0 (Nat.min TUN_BUF (length pkt))) as [Hn|Hn]; cbn [fst snd].
  - rewrite filter_cons_True by (intros ->; cbn in Hn; lia). cbn. rewrite IH1, IH2.
    split; [done|]. by intuition.
  - assert (pkt = []) as -> by (destruct pkt; [done|cbn in Hn; lia]).
    rewrite filter_cons_False by (intros []; done). rewrite IH1, IH2. split; [done|]. by intuition.
Qed.

(** A packet that fits the buffer arrives whole. *)
Corollary tun_reader_whole reads :
  Forall (fun x => x.2 = true) reads ->
  Forall (fun pkt => pkt <> [] /\ length pkt <= TUN_BUF) (delivered reads) ->
  (tun_reader reads).1 = delivered reads.
Proof.
  intros Hrx Hall. rewrite (proj1 (tun_reader_exact reads Hrx)).
  induction Hall as [|pkt l [Hne Hl] Hall IH]; [done|].
  rewrite filter_cons_True by done. cbn. rewrite IH. by rewrite take_ge.
Qed.
