(* ===== verification/Process.v ===== *)
(** * How the processes of relay mode end

    The tail of [run] in [pq-tunnel-bin/src/v2_server.rs] and [v2_client.rs], and
    [run] in [relay.rs]: which tasks they wait for and what they return. A spawned
    task that panicked is seen as a join error by whoever awaits it. *)

From S2P Require Import Prelude Bytes Errors Codec Replay Crypto Envelope WireSession Exec Scheduler Net IpAddr HandshakeMsg HandshakeClient HandshakeServer HandshakeSafety HandshakeRun SessionCommon ServerManager ClientManager Drivers FailGateOk ServerManagerOk Conform DriversOk Oldest Relay Forward Files Identity Setup IdentityOk SetupOk Udp.
From stdpp Require Import strings.

Local Open Scope Z_scope.

Inductive joined (A : Type) :=
| Joined (a : A)
| JoinError.
Arguments Joined {A} a.
Arguments JoinError {A}.

(** The task of a driver: [None] while it runs. *)
Definition driver_task (r : exec ManagerError bool) : option (joined (result ManagerError ())) :=
  match r with
  | Ret true => None
  | Ret false => Some (Joined (Ok ()))
  | Fail e => Some (Joined (Err e))
  | Panic _ => Some JoinError
  end.

Inductive RunError :=
| RunSetup (e : SetupError)
| DriverFailed (e : ManagerError)
| DriverPanicked
| AppPanicked
| RelayAppPanicked
| RelayTunnelPanicked.

Definition driver_outcome (driver : joined (result ManagerError ())) : result RunError () :=
  match driver with
  | Joined (Ok _) => Ok ()
  | Joined (Err e) => Err (DriverFailed e)
  | JoinError => Err DriverPanicked
  end.

Definition v2_server_exit (app : joined ()) (driver : joined (result ManagerError ())) : result RunError () :=
  _ ← driver_outcome driver;
  match app with Joined _ => Ok () | JoinError => Err AppPanicked end.

(** [relay::run], once both its tasks ended. *)
Definition relay_exit (a b : joined ()) : result RunError () :=
  match a with
  | JoinError => Err RelayAppPanicked
  | Joined _ => match b with JoinError => Err RelayTunnelPanicked | Joined _ => Ok () end
  end.

Definition relay_finished (s : RelayState) : bool := negb (rs_app_task s) && negb (rs_tunnel_task s).

(** The client waits for both tasks of the relay and then for the driver. *)
Definition v2_client_exit (relay : RelayState) (driver : option (joined (result ManagerError ())))
    : option (result RunError ()) :=
  if relay_finished relay then
    match relay_exit (Joined ()) (Joined ()) with
    | Err e => Some (Err e)
    | Ok _ => driver_outcome <$> driver
    end
  else None.

Section Run.
Context {P : Primitives}.

(** The whole relay-mode server over the given turns, [None] while it runs. The
    application task ends when the driver did, and [app_task] has no panic. *)
Definition v2_server_run (fs : Fs) (args : ServerArgs) (now : Instant) (io windows : bool)
    (turns : list (ServerTurn * udp_input server_input)) : option (result RunError ()) :=
  match v2_server_setup fs args now io with
  | Err e => Some (Err (RunSetup e))
  | Ok (manager, cover) =>
      driver ← driver_task (udp_server_loop windows turns (server_driver_init manager cover)).1;
      Some (v2_server_exit (Joined ()) driver)
  end.

End Run.

(** What the manager of a server that started was built from. *)
Lemma setup_manager {P : Primitives} fs args now io m cover :
  v2_server_setup fs args now io = Ok (m, cover) ->
  exists cfg limits, ServerSessionManager_new cfg limits now = Ok m /\
    0 <= sc_rate_limit_burst cfg /\ 0 <= sl_max_fail_buckets limits.
Proof.
  unfold v2_server_setup. intros H. do 5 (apply bind_ok in H as (? & _ & H)).
  apply bind_ok in H as (m' & Hm & H). destruct io; [|done]. injection H as -> ->.
  destruct (ServerSessionManager_new _ _ now) as [m1|] eqn:E; [|done]. injection Hm as ->.
  eexists _, _. split; [exact E|]. split; [|done]. unfold with_roster_limit. by case_match.
Qed.

(** C12: When the server process ends. From the provisioning files to the exit code:
    the process either refuses to start, with the error of the set-up, or it runs:
    whatever arrives on its UDP socket, datagrams of any bytes and length from
    anyone and peer resets, and whatever its commands, ticks and cover deadlines
    bring, it never panics. It exits with success only when the command channel
    closed, and with the error of the driver only when that error came from its
    environment, in a turn where a send failed or was cut short, a receive failed
    other than by a reset or an oversized datagram, the application no longer
    listened, or the random source failed at a cover deadline; otherwise it keeps
    running. *)
Theorem server_process_runs {P : Primitives} {L : PrimitivesLaws P} fs args now io windows turns :
  Forall (fun ti => udp_server_typed ti.1 ti.2) turns ->
  match v2_server_run fs args now io windows turns with
  | None => is_ok (v2_server_setup fs args now io) = true
  | Some (Ok _) => Exists (fun ti => ti.2 = Arm (SICmd None)) turns
  | Some (Err (RunSetup e)) => v2_server_setup fs args now io = Err e
  | Some (Err (DriverFailed e)) => is_ok (v2_server_setup fs args now io) = true /\
      Exists (fun ti => udp_server_fault ti.1 ti.2 e) turns
  | Some (Err _) => False
  end.
Proof.
  intros Hok. unfold v2_server_run. destruct (v2_server_setup fs args now io) as [[m cover]|e] eqn:E; [|done].
  destruct (setup_manager _ _ _ _ _ _ E) as (cfg & limits & Hm & Hb & Hg).
  destruct (manager_reaches_wf _ _ _ _ Hb Hg (mr_new _ _ _ _ Hm)) as [Hwf _].
  pose proof (udp_server_loop_ends m cover windows turns Hwf (new_server_typed _ _ _ _ Hm) Hok) as H.
  destruct (udp_server_loop windows turns _).1 as [[]|e|q]; [done|by apply H|by split|done].
Qed.

(** The relay notices the end of the session layer only through its socket: with
    no datagram from an application, the client process does not exit after its
    driver ended, whatever the driver returned. *)
Theorem client_waits_for_application {Ord : IterOrder SocketAddr (SocketAddr * Instant)} steps driver :
  Forall (fun st => match st with TunnelRecv _ _ => True | AppRecv _ _ _ => False end) steps ->
  v2_client_exit (relay_run steps RelayState_new).2 driver = None.
Proof.
  intros Hs. assert (rs_app_task (relay_run steps RelayState_new).2 = true) as Happ; [|by unfold v2_client_exit, relay_finished; rewrite Happ].
  generalize (eq_refl : rs_app_task RelayState_new = true). generalize RelayState_new.
  induction Hs as [|st steps Hst Hs IH]; intros s Ha; [done|]. destruct st as [r t tx|n t]; [done|].
  cbn [relay_run relay_step]. destruct (rs_tunnel_task s); cbn -[relay_run].
  - destruct (tunnel_to_app n t s) as [e1 s1] eqn:E. destruct (relay_run steps s1) as [e2 s2] eqn:E2. cbn.
    specialize (IH s1). rewrite E2 in IH. apply IH. revert E. unfold tunnel_to_app. repeat case_match; by intros [= <- <-].
  - destruct (relay_run steps s) as [e2 s2] eqn:E2. cbn. specialize (IH s). rewrite E2 in IH. by apply IH.
Qed.

(** The sample server starts. *)
Lemma sample_starts : exists mc,
  v2_server_setup (P := Toy.toy_primitives) SetupSample.fs SetupSample.server_args 0 true = Ok mc.
Proof.
  pose proof SetupSample.loads_true as H. unfold SetupSample.loads in H.
  destruct (load_identity (P := Toy.toy_primitives) SetupSample.fs (SetupSample.at_root "server.id")) as [ks|] eqn:Hks; [|discriminate H].
  destruct (load_identity (P := Toy.toy_primitives) SetupSample.fs (SetupSample.at_root "client.id")) as [kc|]; [|discriminate H].
  destruct (load_public_key (P := Toy.toy_primitives) SetupSample.fs (SetupSample.at_root "server.pub")) as [pk|]; [|discriminate H].
  destruct (load_roster_with_limit (P := Toy.toy_primitives) SetupSample.fs (SetupSample.at_root "roster") 64) as [ro|] eqn:Hro;
    [|discriminate H].
  exists (server_ready (server_config ks ro 64) (limits_with_cap 64 86400) 0, mkCoverPolicy true 5120000).
  apply server_setup_exact. exists (SetupSample.at_root "server.id"), (SetupSample.at_root "roster"), ks, ro.
  refine (conj eq_refl (conj eq_refl (conj Hks (conj Hro (conj _ (conj eq_refl eq_refl)))))). vm_compute. reflexivity.
Qed.

Lemma server_process_runs_witness :
  match v2_server_run (P := Toy.toy_primitives) SetupSample.fs SetupSample.server_args 0 true true UdpSample.server_turns with
  | None => True
  | Some _ => False
  end.
Proof.
  pose proof (server_process_runs (P := Toy.toy_primitives) SetupSample.fs SetupSample.server_args 0 true true
    UdpSample.server_turns sample_server_turns) as H.
  destruct sample_starts as (mc & Hs). rewrite Hs in H.
  destruct (v2_server_run _ _ _ _ _ _) as [[[]|e]|]; [| |exact I].
  - repeat (apply Exists_cons in H; destruct H as [H|H]; [discriminate H|]). apply Exists_nil in H. exact H.
  - destruct e; try exact H; [discriminate H|]. destruct H as [_ H]. exact (sample_server_no_fault _ H).
Defined.
