(* ===== verification/Float64.v ===== *)
(** * Double-precision numbers

    The operations on [f64] that the benchmark harness uses, as the executable
    specification of IEEE 754 arithmetic of the standard library, and the error
    bound of one rounding, from which the harness's percentile ranks are shown to
    be exact. *)

From S2P Require Import Prelude.
From Stdlib Require Import Floats.SpecFloat Sorted.

Local Open Scope Z_scope.

Abbreviation f64 := spec_float.

Definition f64_mul : f64 -> f64 -> f64 := SFmul 53 1024.
Definition f64_add : f64 -> f64 -> f64 := SFadd 53 1024.
Definition f64_div : f64 -> f64 -> f64 := SFdiv 53 1024.

(** [n as f64]. *)
Definition f64_of (n : Z) : f64 := binary_normalize 53 1024 n 0 false.

Definition f64_is_nan (x : f64) : bool := match x with S754_nan => true | _ => false end.

(** [x.ceil() as usize]. *)
Definition ceil_usize (x : f64) : Z :=
  match x with
  | S754_finite false m e =>
      Z.min (umax 64) (if 0 <=? e then Zpos m * 2 ^ e else - ((- Zpos m) / 2 ^ (- e)))
  | S754_infinity false => umax 64
  | _ => 0
  end.

(** ** Digits *)

Lemma digits2_pos_log2 m : Zpos (digits2_pos m) = Z.log2 (Zpos m) + 1.
Proof.
  induction m as [m IH|m IH|]; cbn [digits2_pos]; [| |done];
    rewrite Pos2Z.inj_succ, IH; unfold Z.succ; f_equal.
  - change (Zpos m~1) with (2 * Zpos m + 1). by rewrite Z.log2_succ_double.
  - change (Zpos m~0) with (2 * Zpos m). by rewrite Z.log2_double.
Qed.

Lemma Zdigits2_log2 x : 0 < x -> Zdigits2 x = Z.log2 x + 1.
Proof. destruct x as [|m|m]; [done|intros _; apply digits2_pos_log2|done]. Qed.

(** ** Shifting right with a rounding and a sticky bit *)

(** The record after [x] has been shifted by [k]: the quotient and where the
    remainder lies. *)
Definition shifted (x k : Z) (r : shr_record) : Prop :=
  shr_m r = x / 2 ^ k /\
  loc_of_shr_record r =
    (let rem := x mod 2 ^ k in
     if rem =? 0 then loc_Exact else loc_Inexact (2 * rem ?= 2 ^ k)).

Lemma shifted_0 x : shifted x 0 {| shr_m := x; shr_r := false; shr_s := false |}.
Proof. split; cbn; [by rewrite Z.div_1_r|by rewrite Z.mod_1_r]. Qed.

Lemma div_mod_double x k :
  0 <= k -> x mod 2 ^ (k + 1) = x mod 2 ^ k + 2 ^ k * ((x / 2 ^ k) mod 2) /\ x / 2 ^ (k + 1) = x / 2 ^ k / 2.
Proof.
  intros Hk. rewrite Z.pow_add_r, Z.pow_1_r by lia. assert (0 < 2 ^ k) by (apply Z.pow_pos_nonneg; lia).
  split; [rewrite Z.rem_mul_r by lia; lia|by rewrite Z.div_div by lia].
Qed.

(** What one shift does to a record with a non-negative mantissa. *)
Lemma shr_1_spec r :
  0 <= shr_m r ->
  shr_1 r = {| shr_m := shr_m r / 2; shr_r := Z.odd (shr_m r); shr_s := shr_r r || shr_s r |}.
Proof.
  destruct r as [m rr s]. cbn. intros Hm. destruct m as [|[p|p|]|p]; try lia; cbn; f_equal.
  - change (Zpos p~1) with (2 * Zpos p + 1). rewrite Z.mul_comm, Z.div_add_l by lia. by rewrite Z.add_0_r.
  - change (Zpos p~0) with (2 * Zpos p). by rewrite Z.mul_comm, Z.div_mul.
Qed.

Lemma shifted_step x k r : 0 <= x -> 0 <= k -> shifted x k r -> shifted x (k + 1) (shr_1 r).
Proof.
  intros Hx Hk [Hm Hl]. destruct (div_mod_double x k Hk) as [Em Ed].
  assert (0 < 2 ^ k) by (apply Z.pow_pos_nonneg; lia). pose proof (Z.mod_pos_bound x (2 ^ k)).
  rewrite shr_1_spec by (rewrite Hm; apply Z.div_pos; lia). split; [cbn; by rewrite Hm, Ed|].
  cbn zeta. rewrite Em. rewrite Hm. cbn zeta in Hl. rewrite Zmod_odd.
  rewrite Z.pow_add_r, Z.pow_1_r by lia. set (rem := x mod 2 ^ k) in *.
  destruct r as [m rr s]. cbn [shr_r shr_s].
  assert (rr || s = negb (rem =? 0)) as ->.
  { destruct (Z.eqb_spec rem 0), rr, s; cbn in Hl |- *; congruence. }
  destruct (Z.odd (x / 2 ^ k)), (Z.eqb_spec rem 0); cbn.
  - rewrite (proj2 (Z.eqb_neq _ _)) by lia. do 2 f_equal. symmetry. apply Z.compare_eq_iff. lia.
  - rewrite (proj2 (Z.eqb_neq _ _)) by lia. do 2 f_equal. symmetry. apply Z.compare_gt_iff. lia.
  - by rewrite (proj2 (Z.eqb_eq _ _)) by lia.
  - rewrite (proj2 (Z.eqb_neq _ _)) by lia. do 2 f_equal. symmetry. apply Z.compare_lt_iff. lia.
Qed.

Lemma shifted_iter x n : forall k r,
  0 <= x -> 0 <= k -> shifted x k r -> shifted x (k + Zpos n) (iter_pos shr_1 n r).
Proof.
  induction n as [n IH|n IH|]; intros k r Hx Hk H; cbn [iter_pos].
  - replace (k + Zpos n~1) with ((k + 1) + Zpos n + Zpos n) by lia.
    apply IH; [done|lia|]. apply IH; [done|lia|]. by apply shifted_step.
  - replace (k + Zpos n~0) with (k + Zpos n + Zpos n) by lia. apply IH; [done|lia|]. by apply IH.
  - by apply shifted_step.
Qed.

Lemma shr_shifted x e k :
  0 <= x -> 0 <= k ->
  exists r, shr (shr_record_of_loc x loc_Exact) e k = (r, e + k) /\ shifted x k r.
Proof.
  intros Hx Hk. destruct k as [|p|p]; [|  |lia]; cbn [shr shr_record_of_loc].
  - eexists. split; [by rewrite Z.add_0_r|apply shifted_0].
  - eexists. split; [done|]. apply (shifted_iter x p 0); [done|lia|apply shifted_0].
Qed.

(** Rounding to nearest errs by at most half a unit. *)
Lemma round_near x k r :
  0 <= x -> 0 <= k -> shifted x k r ->
  let q := round_nearest_even (shr_m r) (loc_of_shr_record r) in
  2 * Z.abs (q * 2 ^ k - x) <= 2 ^ k /\ x / 2 ^ k <= q <= x / 2 ^ k + 1.
Proof.
  intros Hx Hk [-> ->]. cbn zeta. assert (0 < 2 ^ k) by (apply Z.pow_pos_nonneg; lia).
  pose proof (Z.mod_pos_bound x (2 ^ k)). pose proof (Z.div_mod x (2 ^ k)).
  destruct (Z.eqb_spec (x mod 2 ^ k) 0); cbn [round_nearest_even]; [lia|].
  destruct (Z.compare_spec (2 * (x mod 2 ^ k)) (2 ^ k)); [case_match|..]; lia.
Qed.

(** ** One rounding *)

Lemma fexp_53 d e : -900 <= d + e -> fexp 53 1024 (d + e) - e = d - 53.
Proof. intros H. unfold fexp, emin. lia. Qed.

Lemma shr_fexp_shifted x e :
  0 < x -> 0 <= Z.log2 x - 52 -> -900 <= Z.log2 x + 1 + e ->
  exists r, shr_fexp 53 1024 x e loc_Exact = (r, e + (Z.log2 x - 52)) /\ shifted x (Z.log2 x - 52) r.
Proof.
  intros Hx Hk He. unfold shr_fexp. rewrite Zdigits2_log2, fexp_53 by lia.
  replace (Z.log2 x + 1 - 53) with (Z.log2 x - 52) by lia. by apply shr_shifted; lia.
Qed.

(** A mantissa of 53 bits, or one more than the largest of them, needs no second
    rounding. *)
Lemma renormalise q e :
  2 ^ 52 <= q <= 2 ^ 53 -> -900 <= e <= 900 ->
  exists r m' e', shr_fexp 53 1024 q e loc_Exact = (r, e') /\ shr_m r = Zpos m' /\
    e <= e' <= e + 1 /\ Zpos m' * 2 ^ (e' - e) = q.
Proof.
  intros Hq He. assert (q < 2 ^ 53 /\ Z.log2 q = 52 \/ q = 2 ^ 53) as Hc.
  { destruct (Z.eq_dec q (2 ^ 53)); [by right|left]. split; [lia|]. apply Z.log2_unique; lia. }
  assert (Z.log2 q = 52 \/ Z.log2 q = 53) as Hl by (destruct Hc as [[]| ->]; [by left|by right]).
  destruct (shr_fexp_shifted q e) as (r & Er & Hm & _); [lia..|].
  assert (exists m', q / 2 ^ (Z.log2 q - 52) = Zpos m' /\ Zpos m' * 2 ^ (Z.log2 q - 52) = q) as (m' & Em & Eq).
  { destruct Hc as [[Hlt ->]| ->].
    - rewrite Z.div_1_r. exists (Z.to_pos q). rewrite Z2Pos.id by lia. lia.
    - exists (2 ^ 52)%positive. split; reflexivity. }
  exists r, m', (e + (Z.log2 q - 52)). split; [done|]. split; [by rewrite Hm|]. split; [lia|].
  by replace (e + (Z.log2 q - 52) - e) with (Z.log2 q - 52) by lia.
Qed.

(** Rounding a mantissa of at least 53 bits errs by at most half a unit of its
    53rd bit. *)
Lemma round_aux_near m e :
  let k := Z.log2 (Zpos m) - 52 in
  0 <= k -> -900 <= e -> e + k <= 900 ->
  exists m' e', binary_round_aux 53 1024 false (Zpos m) e loc_Exact = S754_finite false m' e' /\
    0 <= e' - e /\ k <= e' - e <= k + 1 /\ 2 * Z.abs (Zpos m' * 2 ^ (e' - e) - Zpos m) <= 2 ^ k /\
    (2 ^ k | Zpos m' * 2 ^ (e' - e)).
Proof.
  intros k Hk He1 He2. unfold binary_round_aux.
  destruct (shr_fexp_shifted (Zpos m) e) as (r & -> & Hr); [lia..|]. fold k in Hr |- *.
  destruct (round_near (Zpos m) k r) as [Hn Hq]; [lia|done|done|].
  set (q := round_nearest_even _ _) in *.
  assert (2 ^ 52 <= Zpos m / 2 ^ k < 2 ^ 53) as Hdiv.
  { pose proof (Z.log2_spec (Zpos m) ltac:(lia)) as [H1 H2].
    replace (Z.log2 (Zpos m)) with (52 + k) in H1 by lia. replace (Z.succ (Z.log2 (Zpos m))) with (53 + k) in H2 by lia.
    rewrite Z.pow_add_r in H1, H2 by lia. assert (0 < 2 ^ k) by (apply Z.pow_pos_nonneg; lia).
    split; [apply Z.div_le_lower_bound|apply Z.div_lt_upper_bound]; lia. }
  destruct (renormalise q (e + k)) as (r' & m' & e' & -> & -> & He & Em); [lia..|].
  rewrite (proj2 (Z.leb_le e' (1024 - 53))) by lia. exists m', e'.
  assert (Zpos m' * 2 ^ (e' - e) = q * 2 ^ k) as E.
  { rewrite <- Em. replace (e' - e) with ((e' - (e + k)) + k) by lia. rewrite Z.pow_add_r by lia. lia. }
  split; [done|]. split; [lia|]. split; [lia|]. rewrite E. split; [done|]. by exists q.
Qed.

Lemma shr_fexp_exact m e :
  Z.log2 (Zpos m) = 52 -> -900 <= e ->
  shr_fexp 53 1024 (Zpos m) e loc_Exact = ({| shr_m := Zpos m; shr_r := false; shr_s := false |}, e).
Proof. intros Hl He. unfold shr_fexp. rewrite Zdigits2_log2, fexp_53 by lia. by rewrite Hl. Qed.

Lemma round_aux_exact m e :
  Z.log2 (Zpos m) = 52 -> -900 <= e <= 900 ->
  binary_round_aux 53 1024 false (Zpos m) e loc_Exact = S754_finite false m e.
Proof.
  intros Hl He. unfold binary_round_aux. rewrite shr_fexp_exact by lia. cbn [shr_m loc_of_shr_record round_nearest_even].
  rewrite shr_fexp_exact by lia. cbn [shr_m]. by rewrite (proj2 (Z.leb_le e (1024 - 53))) by lia.
Qed.

Lemma iter_xO m d : Zpos (Pos.iter xO m d) = Zpos m * 2 ^ Zpos d.
Proof.
  induction d as [|d IH] using Pos.peano_ind; [cbn; lia|].
  rewrite Pos.iter_succ, Pos2Z.inj_succ, Z.pow_succ_r by lia.
  change (Zpos (Pos.iter xO m d)~0) with (2 * Zpos (Pos.iter xO m d)). rewrite IH. lia.
Qed.

(** An integer of at most 53 bits is represented exactly, with all 53 bits of the
    mantissa used. *)
Lemma f64_of_exact n :
  1 <= n < 2 ^ 53 ->
  exists m, f64_of n = S754_finite false m (Z.log2 n - 52) /\ Zpos m = n * 2 ^ (52 - Z.log2 n) /\ Z.log2 (Zpos m) = 52.
Proof.
  intros Hn. destruct n as [|n|n]; [lia| |lia]. unfold f64_of, binary_normalize, binary_round.
  rewrite digits2_pos_log2. pose proof (Z.log2_nonneg (Zpos n)).
  assert (Z.log2 (Zpos n) < 53) as Hl by (apply Z.log2_lt_pow2; lia).
  assert (Z.log2 (Zpos n * 2 ^ (52 - Z.log2 (Zpos n))) = 52) as Hlog by (rewrite Z.log2_mul_pow2; lia).
  unfold shl_align. replace (fexp 53 1024 (Z.log2 (Zpos n) + 1 + 0) - 0) with (Z.log2 (Zpos n) - 52)
    by (unfold fexp, emin; lia).
  destruct (Z.log2 (Zpos n) - 52) as [|d|d] eqn:Ed; [|lia|].
  - replace (Z.log2 (Zpos n)) with 52 in * by lia. exists n. change (52 - 52) with 0 in *. rewrite Z.mul_1_r in *.
    split; [by apply round_aux_exact|done].
  - exists (Pos.iter xO n d). replace (52 - Z.log2 (Zpos n)) with (Zpos d) in * by lia.
    rewrite <- iter_xO in Hlog. split; [|split; [apply iter_xO|done]].
    replace (fexp _ _ _) with (Zneg d) by (unfold fexp, emin; lia). apply round_aux_exact; [done|lia].
Qed.

(** The product of a fraction with 53 bits and an integer, up to half a unit: as
    an integer at the scale of the exact product. *)
Lemma f64_mul_near p n :
  2 ^ 52 <= Zpos p < 2 ^ 53 -> 1 <= n < 2 ^ 40 ->
  let D := 105 - Z.log2 n in
  exists m e k, f64_mul (S754_finite false p (-53)) (f64_of n) = S754_finite false m e /\
    52 <= k <= 53 /\ k <= e + D /\
    2 * Z.abs (Zpos m * 2 ^ (e + D) - Zpos p * (n * 2 ^ (D - 53))) <= 2 ^ k /\ (2 ^ k | Zpos m * 2 ^ (e + D)) /\ e < 0.
Proof.
  intros Hp Hn D. destruct (f64_of_exact n) as (mn & -> & Em & Hl); [lia|].
  pose proof (Z.log2_nonneg n). assert (Z.log2 n < 40) as Hn40 by (apply Z.log2_lt_pow2; lia).
  pose proof (Z.log2_spec (Zpos mn) ltac:(lia)) as Hmn. rewrite Hl in Hmn. cbn [Z.succ] in Hmn.
  set (k := Z.log2 (Zpos (p * mn)) - 52).
  assert (52 <= k <= 53) as Hk.
  { unfold k. assert (104 <= Z.log2 (Zpos (p * mn)) < 106); [|lia]. split.
    - apply Z.log2_le_pow2; [lia|]. rewrite Pos2Z.inj_mul. nia.
    - apply Z.log2_lt_pow2; [lia|]. rewrite Pos2Z.inj_mul. nia. }
  destruct (round_aux_near (p * mn) (-53 + (Z.log2 n - 52))) as (m & e & E & H1 & H2 & H3 & H4); [fold k; lia..|].
  fold k in H2, H3, H4. exists m, e, k. split; [exact E|].
  replace (e - (-53 + (Z.log2 n - 52))) with (e + D) in * by lia.
  replace (Zpos p * (n * 2 ^ (D - 53))) with (Zpos (p * mn));
    [|rewrite Pos2Z.inj_mul, Em; do 2 f_equal; f_equal; lia].
  repeat split; try done; lia.
Qed.

(** The ceiling, from a bracket at any finer scale. *)
Lemma ceil_usize_bracket m e D C :
  e < 0 -> 0 <= e + D -> 0 <= C <= umax 64 ->
  (C - 1) * 2 ^ D < Zpos m * 2 ^ (e + D) <= C * 2 ^ D -> ceil_usize (S754_finite false m e) = C.
Proof.
  intros He HD HC Hb. unfold ceil_usize. rewrite (proj2 (Z.leb_gt 0 e)) by lia.
  assert (0 < 2 ^ (e + D)) by (apply Z.pow_pos_nonneg; lia). assert (0 < 2 ^ (- e)) by (apply Z.pow_pos_nonneg; lia).
  assert (2 ^ D = 2 ^ (- e) * 2 ^ (e + D)) as ED by (rewrite <- Z.pow_add_r by lia; f_equal; lia).
  rewrite ED, !Z.mul_assoc in Hb. destruct Hb as [Hlo Hhi].
  apply Z.mul_lt_mono_pos_r in Hlo; [|done]. apply Z.mul_le_mono_pos_r in Hhi; [|done].
  assert ((- Zpos m) / 2 ^ (- e) = - C) as ->; [|lia].
  symmetry. apply (Z.div_unique _ _ _ (C * 2 ^ (- e) - Zpos m)); lia.
Qed.

(** ** The quantiles *)

(** The literals [0.50] and [0.99]: the quotients rounded to nearest. *)
Definition Q50 : f64 := Eval vm_compute in f64_div (f64_of 1) (f64_of 2).
Definition Q99 : f64 := Eval vm_compute in f64_div (f64_of 99) (f64_of 100).

(** Two multiples of [2^k] closer than [2^k] are equal. *)
Lemma multiples_equal k a b : 0 <= k -> (2 ^ k | a) -> (2 ^ k | b) -> Z.abs (a - b) < 2 ^ k -> a = b.
Proof.
  intros Hk [x ->] [y ->] H. rewrite <- Z.mul_sub_distr_r, Z.abs_mul in H. f_equal.
  assert (0 < 2 ^ k) by (apply Z.pow_pos_nonneg; lia). nia.
Qed.

Lemma rank_Q99 n : 1 <= n < 2 ^ 40 -> ceil_usize (f64_mul Q99 (f64_of n)) = (99 * n + 99) / 100.
Proof.
  intros Hn. unfold Q99. destruct (f64_mul_near 8917127262193582 n ltac:(lia) Hn) as (m & e & k & -> & Hk & HeD & Hnear & Hdiv & He).
  set (D := 105 - Z.log2 n) in *. set (W := Zpos m * 2 ^ (e + D)) in *.
  pose proof (Z.log2_nonneg n). assert (Z.log2 n < 40) by (apply Z.log2_lt_pow2; lia).
  assert (n * 2 ^ (D - 53) < 2 ^ 53) as Hmn.
  { pose proof (Z.log2_spec n ltac:(lia)) as [_ H2]. replace 53 with (Z.succ (Z.log2 n) + (D - 53)) at 2 by lia.
    rewrite Z.pow_add_r by lia. assert (0 < 2 ^ (D - 53)) by (apply Z.pow_pos_nonneg; lia). nia. }
  assert (2 ^ D = 2 ^ 53 * 2 ^ (D - 53)) as ED by (rewrite <- Z.pow_add_r by lia; f_equal; lia).
  assert (2 ^ 12 <= 2 ^ (D - 53)) as Hlow by (apply Z.pow_le_mono_r; lia).
  assert (2 ^ 52 <= 2 ^ k <= 2 ^ 53) as Hkb by (split; apply Z.pow_le_mono_r; lia).
  set (S := 2 ^ (D - 53)) in *. pose proof (Z.div_mod (99 * n + 99) 100). pose proof (Z.mod_pos_bound (99 * n + 99) 100).
  set (C := (99 * n + 99) / 100) in *.
  apply (ceil_usize_bracket m e D); [done|lia|unfold umax; lia|]. fold W. rewrite ED.
  destruct (Z.eq_dec (99 * n) (100 * C)) as [Hint|Hfrac].
  - assert (W = C * 2 ^ D) as ->; [|rewrite ED; lia].
    apply (multiples_equal k); [lia|done| |rewrite ED; lia].
    exists (C * 2 ^ (D - k)). rewrite <- Z.mul_assoc, <- Z.pow_add_r by lia. f_equal. f_equal. lia.
  - assert ((C - 1) * 100 + 1 <= 99 * n <= C * 100 - 1) as Hb by lia. clearbody W S C. nia.
Qed.

Lemma rank_Q50 n : 1 <= n < 2 ^ 40 -> ceil_usize (f64_mul Q50 (f64_of n)) = (n + 1) / 2.
Proof.
  intros Hn. unfold Q50. destruct (f64_mul_near 4503599627370496 n ltac:(lia) Hn) as (m & e & k & -> & Hk & HeD & Hnear & Hdiv & He).
  set (D := 105 - Z.log2 n) in *. set (W := Zpos m * 2 ^ (e + D)) in *.
  pose proof (Z.log2_nonneg n). assert (Z.log2 n < 40) by (apply Z.log2_lt_pow2; lia).
  assert (2 ^ D = 2 ^ 53 * 2 ^ (D - 53)) as ED by (rewrite <- Z.pow_add_r by lia; f_equal; lia).
  assert (0 < 2 ^ (D - 53)) by (apply Z.pow_pos_nonneg; lia). assert (0 < 2 ^ k) by (apply Z.pow_pos_nonneg; lia).
  assert (W = 4503599627370496 * (n * 2 ^ (D - 53))) as EW.
  { apply (multiples_equal k); [lia|done| |lia]. exists (n * 2 ^ (52 + (D - 53) - k)).
    change 4503599627370496 with (2 ^ 52). rewrite <- Z.mul_assoc, <- Z.pow_add_r by lia.
    replace (52 + (D - 53) - k + k) with (52 + (D - 53)) by lia. rewrite (Z.pow_add_r 2 52) by lia. lia. }
  pose proof (Z.div_mod (n + 1) 2). pose proof (Z.mod_pos_bound (n + 1) 2).
  apply (ceil_usize_bracket m e D); [done|lia|unfold umax; lia|]. fold W. rewrite EW, ED. nia.
Qed.

(** ** Absence of NaN *)

Lemma shr_nonneg mrs e n : 0 <= shr_m mrs -> 0 <= shr_m (shr mrs e n).1.
Proof.
  assert (forall p r, 0 <= shr_m r -> 0 <= shr_m (iter_pos shr_1 p r)) as Hi.
  { assert (forall r, 0 <= shr_m r -> 0 <= shr_m (shr_1 r)) as H1.
    { intros r Hr. rewrite shr_1_spec by done. cbn. apply Z.div_pos; lia. }
    induction p as [p IH|p IH|]; intros r Hr; cbn [iter_pos]; auto. }
  intros H. destruct n; cbn [shr fst]; auto.
Qed.

Lemma round_aux_not_nan s m e l : 0 <= m -> f64_is_nan (binary_round_aux 53 1024 s m e l) = false.
Proof.
  intros Hm. unfold binary_round_aux, shr_fexp.
  pose proof (shr_nonneg (shr_record_of_loc m l) e (fexp 53 1024 (Zdigits2 m + e) - e)) as H1.
  destruct (shr (shr_record_of_loc m l) _ _) as [r1 e1]. cbn [fst] in H1.
  assert (0 <= round_nearest_even (shr_m r1) (loc_of_shr_record r1)) as H2.
  { assert (0 <= shr_m r1) by (apply H1; by destruct l as [|[]]). unfold round_nearest_even. repeat case_match; lia. }
  set (q := round_nearest_even _ _) in *.
  pose proof (shr_nonneg (shr_record_of_loc q loc_Exact) e1 (fexp 53 1024 (Zdigits2 q + e1) - e1) H2) as H3.
  destruct (shr (shr_record_of_loc q loc_Exact) _ _) as [r2 e2]. cbn [fst] in H3.
  destruct (shr_m r2); [done|by case_match|lia].
Qed.

Lemma f64_of_not_nan n : 0 <= n -> f64_is_nan (f64_of n) = false.
Proof.
  intros Hn. destruct n as [|n|n]; [done| |lia]. unfold f64_of, binary_normalize, binary_round.
  destruct (shl_align _ _ _) as [m e]. by apply round_aux_not_nan.
Qed.

(** Only a zero divisor, or two infinities, give a NaN. *)
Lemma f64_div_not_nan x m e : f64_is_nan x = false -> f64_is_nan (f64_div x (S754_finite false m e)) = false.
Proof.
  intros Hx. destruct x as [s|s| |s mx ex]; [done|done|done|]. unfold f64_div, SFdiv.
  destruct (SFdiv_core_binary _ _ _ _ _ _) as [[q e'] l] eqn:E. apply round_aux_not_nan.
  revert E. unfold SFdiv_core_binary. set (num := match _ with Z0 => _ | Zpos _ => _ | Zneg _ => _ end).
  assert (0 <= num) as Hnum by (unfold num; case_match; [lia|apply Z.shiftl_nonneg; lia|lia]).
  destruct (Z.div_eucl num (Zpos m)) as [q' r'] eqn:Ed. intros [= <- <- <-].
  replace q' with (num / Zpos m) by (unfold Z.div; by rewrite Ed). apply Z.div_pos; lia.
Qed.

(** ** The order of [partial_cmp] *)

Definition f64_le (x y : f64) : Prop := SFleb x y = true.

#[export] Instance f64_le_dec x y : Decision (f64_le x y).
Proof. unfold f64_le. apply _. Defined.

(** The class of a number and its position within it, compared
    lexicographically. *)
Definition f64_key (x : f64) : Z * Z * Z :=
  match x with
  | S754_infinity s => (if s then -2 else 2, 0, 0)
  | S754_finite true m e => (-1, - e, - Zpos m)
  | S754_finite false m e => (1, e, Zpos m)
  | _ => (0, 0, 0)
  end.

Definition key_le (a b : Z * Z * Z) : Prop :=
  a.1.1 < b.1.1 \/ a.1.1 = b.1.1 /\ (a.1.2 < b.1.2 \/ a.1.2 = b.1.2 /\ a.2 <= b.2).

Lemma f64_le_key x y : f64_is_nan x = false -> f64_is_nan y = false -> f64_le x y <-> key_le (f64_key x) (f64_key y).
Proof.
  intros Hx Hy. unfold f64_le, SFleb, key_le.
  destruct x as [s|s| |s m e], y as [s'|s'| |s' m' e']; try done; destruct s, s'; cbn;
    try (split; [intros; done || lia|intros; done || lia]);
    change (Pos.compare_cont Eq m m') with (m ?= m')%positive;
    destruct (Z.compare_spec e e'), (Pos.compare_spec m m'); cbn; (split; intros; try done; lia).
Qed.

Lemma f64_le_total x y : f64_is_nan x = false -> f64_is_nan y = false -> f64_le x y \/ f64_le y x.
Proof. intros Hx Hy. rewrite !f64_le_key by done. unfold key_le. lia. Qed.

Lemma f64_le_trans x y z :
  f64_is_nan x = false -> f64_is_nan y = false -> f64_is_nan z = false -> f64_le x y -> f64_le y z -> f64_le x z.
Proof. intros Hx Hy Hz. rewrite !f64_le_key by done. unfold key_le. lia. Qed.

(** [sort_by(partial_cmp)], a stable sort. *)
Fixpoint f64_insert (x : f64) (v : list f64) : list f64 :=
  match v with
  | [] => [x]
  | y :: v' => if SFleb x y then x :: v else y :: f64_insert x v'
  end.

Definition f64_sort (v : list f64) : list f64 := foldr f64_insert [] v.

Definition numbers (v : list f64) : Prop := Forall (fun x => f64_is_nan x = false) v.

Lemma f64_insert_perm x v : f64_insert x v ≡ₚ x :: v.
Proof.
  induction v as [|y v IH]; [done|]. cbn. case_match; [done|]. rewrite IH. apply Permutation_swap.
Qed.

Lemma f64_sort_perm v : f64_sort v ≡ₚ v.
Proof. induction v as [|x v IH]; [done|]. cbn. rewrite f64_insert_perm. by f_equiv. Qed.

Lemma f64_insert_sorted x v :
  numbers (x :: v) -> StronglySorted f64_le v -> StronglySorted f64_le (f64_insert x v).
Proof.
  intros [Hx Hv]%Forall_cons. revert Hv. induction v as [|y v IH]; intros Hv Hs; [by repeat constructor|].
  apply Forall_cons in Hv as [Hy Hv]. apply StronglySorted_inv in Hs as [Hs Hall]. cbn.
  destruct (SFleb x y) eqn:E.
  - constructor; [by constructor|]. constructor; [done|]. rewrite Forall_forall in Hall, Hv |- *. intros z Hz.
    apply (f64_le_trans x y z); auto.
  - constructor; [by apply IH|]. rewrite f64_insert_perm.
    constructor; [|done]. destruct (f64_le_total x y Hx Hy) as [H|]; [|done]. unfold f64_le in H. congruence.
Qed.

Lemma f64_sort_sorted v : numbers v -> StronglySorted f64_le (f64_sort v).
Proof.
  induction v as [|x v IH]; [constructor|]. intros Hv. pose proof Hv as [Hx Hv']%Forall_cons. cbn.
  apply f64_insert_sorted; [|by apply IH]. constructor; [done|].
  by rewrite f64_sort_perm.
Qed.
