(* ===== verification/Bench.v ===== *)
(** * The benchmark harness

    [bench/src/]: the statistics of a series of timings ([stats.rs]), the
    amortised measurement, the measured operations of [cover_timer.rs] and
    [roster_verify.rs]. The measured time of each iteration is an argument, and a
    closure that is measured is a computation on whatever state it captures. *)

From S2P Require Import Prelude Bytes Errors Codec Crypto Exec Scheduler Net HandshakeMsg HandshakeServer HandshakeSafety CoverClock Float64.
From stdpp Require Import strings.
From Stdlib Require Import Floats.SpecFloat Sorted.

Local Open Scope nat_scope.

(** ** Statistics *)

Record Stats := mkStats {
  bs_label : string;
  bs_unit : string;
  bs_iterations : nat;
  bs_warmup : nat;
  bs_min : f64;
  bs_p50 : f64;
  bs_median : f64;
  bs_p99 : f64;
  bs_max : f64;
  bs_mean : f64 }.

(** [assert!]. *)
Definition ensure {S} (b : bool) (site : string) : M S Empty_set () := fun s => (if b then Ret () else Panic site, s).

Definition at_index {S} (v : list f64) (i : nat) : M S Empty_set f64 := expect "index out of bounds" (v !! i).

Definition percentile_sorted {S} (v : list f64) (q : f64) : M S Empty_set f64 :=
  ensure (negb (length v =? 0)) "percentile of an empty sample set";;
  let n := length v in
  let rank := ceil_usize (f64_mul q (f64_of (Z.of_nat n))) in
  let idx := Nat.min (Z.to_nat (saturating_sub rank 1)) (n - 1) in
  at_index v idx.

(** Every element of two or more takes part in a comparison. *)
Definition sort_samples {S} (v : list f64) : M S Empty_set (list f64) :=
  ensure (negb ((1 <? length v) && existsb f64_is_nan v)) "no NaN timings";;
  mret (f64_sort v).

(** The sum of an iterator starts from the negative zero. *)
Definition f64_sum (v : list f64) : f64 := fold_left f64_add v (S754_zero true).

(** The figures of a sorted series, shared by [from_samples_ns] and
    [series_stats]. *)
Definition summarise {S} (label unit_ : string) (warmup : nat) (v : list f64) : M S Empty_set Stats :=
  let n := length v in
  min ← at_index v 0;
  p50 ← percentile_sorted v Q50;
  median ← percentile_sorted v Q50;
  p99 ← percentile_sorted v Q99;
  max ← at_index v (n - 1);
  mret (mkStats label unit_ n warmup min p50 median p99 max (f64_div (f64_sum v) (f64_of (Z.of_nat n)))).

Definition from_samples_ns {S} (label unit_ : string) (warmup : nat) (v : list f64) : M S Empty_set Stats :=
  ensure (negb (length v =? 0)) "cannot summarise zero samples";;
  v ← sort_samples v;
  summarise label unit_ warmup v.

(** An empty series panics on its first index. *)
Definition series_stats {S} (label : string) (v : list f64) : M S Empty_set Stats :=
  v ← sort_samples v;
  summarise label "ns" 0 v.

(** ** Measuring *)

Definition time_ns {S R} (warmup iters : nat) (f : nat -> M S Empty_set R) (elapsed : nat -> Z)
    : M S Empty_set (list f64) :=
  ensure (0 <? iters) "need at least one measured iteration";;
  for_each (fun i => f i;; mret ()) (seq 0 warmup);;
  mapM (fun i => f (warmup + i);; mret (f64_of (elapsed i))) (seq 0 iters).

Definition measure {S R} (label unit_ : string) (warmup iters : nat) (f : nat -> M S Empty_set R) (elapsed : nat -> Z)
    : M S Empty_set Stats :=
  s ← time_ns warmup iters f elapsed;
  from_samples_ns label unit_ warmup s.

(** [acc = acc.wrapping_add(f(..).into())] over a batch. *)
Fixpoint batch {S} (f : nat -> M S Empty_set Z) (ks : list nat) (acc : Z) : M S Empty_set Z :=
  match ks with
  | [] => mret acc
  | k :: ks => r ← f k; batch f ks (wrap 64 (acc + r))
  end.

Definition measure_amortised {S} (label unit_ : string) (warmup iters inner : nat) (f : nat -> M S Empty_set Z)
    (elapsed : nat -> Z) : M S Empty_set Stats :=
  ensure (0 <? inner) "amortised batch must contain at least one call";;
  raw ← time_ns warmup iters (fun i => batch f ((fun k => inner * i + k) <$> seq 0 inner) 0%Z) elapsed;
  from_samples_ns label unit_ warmup ((fun ns => f64_div ns (f64_of (Z.of_nat inner))) <$> raw).

(** ** What is measured *)

(** The loop of the scheduler measurements: [inner] ticks in virtual time. *)
Fixpoint tick_loop (inner : nat) (s : CoverScheduler) (now : Instant) (emitted : Z) : Z * (CoverScheduler * Instant) :=
  match inner with
  | 0 => (emitted, (s, now))
  | S inner =>
      let now := (now + interval CoverPolicy_default)%Z in
      let '(due, s) := on_deadline s now in
      tick_loop inner s now (if due then (emitted + 1)%Z else emitted)
  end.

Definition tick_start (t0 : Instant) : CoverScheduler :=
  CoverScheduler_start (CoverScheduler_new CoverPolicy_default) t0.

(** A new scheduler per call; [t0] is what [Instant::now()] reads in each. *)
Definition scheduler_tick {S} (warmup iters inner : nat) (t0 : nat -> Instant) (elapsed : nat -> Z) : M S Empty_set Stats :=
  measure_amortised "CoverScheduler::on_deadline (emitting tick)" "ns" warmup iters inner
    (fun i => mret (tick_loop inner (tick_start (t0 i)) (t0 i) 0).1) elapsed.

Definition scheduler_tick_steady (warmup iters inner : nat) (elapsed : nat -> Z)
    : M (CoverScheduler * Instant) Empty_set Stats :=
  measure_amortised "CoverScheduler::on_deadline (steady, pre-armed)" "ns" warmup iters inner
    (fun _ => call (fun st => tick_loop inner st.1 st.2 0)) elapsed.

(** One wake of the cover clock: the clock at the loop condition and before
    arming, the wall clock, what the system calls return, and the clock after the
    wait. *)
Record WakeTurn := mkWakeTurn {
  wk_check : Instant;
  wk_now : Instant;
  wk_wall : Z;
  wk_timer : option Z;
  wk_armed : bool;
  wk_woke : Instant }.

Definition of_exec {S A} (r : exec Empty_set A) : M S Empty_set A := fun s => (r, s).

(** Latencies in nanoseconds, before their conversion to [f64]; that of a wake
    before its target is zero. *)
Fixpoint wake_latency_series (duration start armed_at : Z) (turns : list WakeTurn) : M (list os_call) Empty_set (list Z) :=
  match turns with
  | [] => mret []
  | w :: turns =>
      if (duration_since (wk_check w) start <? duration)%Z then
        let target := (armed_at + interval_from_rate_bps DEFAULT_COVER_RATE_BPS)%Z in
        let remaining := duration_since target (wk_now w) in
        due ← of_exec (due_time (wk_wall w) remaining);
        os CreateWaitableTimerExW;;
        timer ← expect "CreateWaitableTimerExW failed" (wk_timer w);
        os (SetWaitableTimer timer due);;
        ensure (wk_armed w) "SetWaitableTimer failed";;
        os (WaitForSingleObject timer);;
        os (CloseHandle timer);;
        rest ← wake_latency_series duration start (wk_woke w) turns;
        mret (duration_since (wk_woke w) target :: rest)
      else mret []
  end.

Section Roster.
Context {P : Primitives}.

(** The measured roster loops, with their [expect]. *)
Fixpoint full_loop_body {S} (roster : list VerifyingKey) (th : bytes) (sig : DsaSig) (authed : bool)
    (matched : option VerifyingKey) : M S Empty_set (bool * bool) :=
  match roster with
  | [] => mret (authed, bool_decide (is_Some matched))
  | pk :: roster =>
      ok ← expect "verify" (match dsa_verify_msg pk th sig with Ok b => Some b | Err _ => None end);
      full_loop_body roster th sig (authed || ok) (if (ok : bool) then Some pk else matched)
  end.

Fixpoint unknown_loop_body {S} (roster : list VerifyingKey) (th : bytes) (sig : DsaSig) (authed : bool)
    : M S Empty_set bool :=
  match roster with
  | [] => mret authed
  | pk :: roster =>
      ok ← expect "verify" (match dsa_verify_msg pk th sig with Ok b => Some b | Err _ => None end);
      unknown_loop_body roster th sig (authed || (ok : bool))
  end.

End Roster.

(** ** Percentiles *)

Local Open Scope Z_scope.

(** The nearest-rank index of the quantile [a / b] in [n] samples. *)
Definition nearest_rank (a b n : nat) : nat := ((a * n + (b - 1)) / b - 1)%nat.

Lemma nearest_rank_bound a b n : (0 < a <= b)%nat -> (0 < n)%nat -> (nearest_rank a b n < n)%nat.
Proof.
  intros Hab Hn. unfold nearest_rank. assert ((a * n + (b - 1)) / b <= n)%nat; [|lia].
  apply Nat.lt_succ_r, Nat.Div0.div_lt_upper_bound. nia.
Qed.

Lemma at_index_some {S} v i x (s : S) : v !! i = Some x -> at_index v i s = (Ret x, s).
Proof. unfold at_index, expect. by intros ->. Qed.

(** A quantile whose rounded rank is the exact one selects the sample of the
    nearest rank. *)
Lemma percentile_at {S} q a b v (s : S) :
  (0 < a <= b)%nat -> (0 < length v)%nat ->
  ceil_usize (f64_mul q (f64_of (Z.of_nat (length v)))) = (Z.of_nat a * Z.of_nat (length v) + (Z.of_nat b - 1)) / Z.of_nat b ->
  exists x, v !! nearest_rank a b (length v) = Some x /\ percentile_sorted v q s = (Ret x, s).
Proof.
  intros Hab Hn Hq. destruct (lookup_lt_is_Some_2 v (nearest_rank a b (length v))) as [x Hx].
  { by apply nearest_rank_bound. }
  exists x. split; [done|]. unfold percentile_sorted, mbind, M_bind, ensure.
  rewrite (proj2 (Nat.eqb_neq _ _)) by lia. cbn [negb]. apply at_index_some. rewrite <- Hx. f_equal. rewrite Hq.
  pose proof (nearest_rank_bound a b (length v) Hab Hn) as Hb. unfold nearest_rank in Hb |- *.
  replace (Z.of_nat b - 1) with (Z.of_nat (b - 1)) by lia.
  rewrite <- Nat2Z.inj_mul, <- Nat2Z.inj_add, <- Nat2Z.inj_div. unfold saturating_sub. lia.
Qed.

Lemma percentile_50 {S} v (s : S) :
  (0 < length v)%nat -> Z.of_nat (length v) < 2 ^ 40 ->
  exists x, v !! nearest_rank 1 2 (length v) = Some x /\ percentile_sorted v Q50 s = (Ret x, s).
Proof. intros H1 H2. apply percentile_at; [lia|done|]. rewrite rank_Q50 by lia. f_equal. lia. Qed.

Lemma percentile_99 {S} v (s : S) :
  (0 < length v)%nat -> Z.of_nat (length v) < 2 ^ 40 ->
  exists x, v !! nearest_rank 99 100 (length v) = Some x /\ percentile_sorted v Q99 s = (Ret x, s).
Proof. intros H1 H2. apply percentile_at; [lia|done|]. rewrite rank_Q99 by lia. f_equal. Qed.

Lemma sorted_lookup_le v i j x y :
  StronglySorted f64_le v -> numbers v -> v !! i = Some x -> v !! j = Some y -> (i <= j)%nat -> f64_le x y.
Proof.
  intros Hs Hn Hx Hy Hij. destruct (Nat.eq_dec i j) as [->|].
  - rewrite Hx in Hy. injection Hy as <-. assert (f64_is_nan x = false) as E.
    { apply (proj1 (Forall_forall _ _) Hn). by eapply list_elem_of_lookup_2. }
    by destruct (f64_le_total x x E E).
  - clear Hn. revert i j Hx Hy Hij n. induction Hs as [|z v Hs IH Hall]; intros [|i] [|j] Hx Hy Hij Hne; try done; try lia.
    + injection Hx as ->. cbn in Hy. apply (proj1 (Forall_forall _ _) Hall). by eapply list_elem_of_lookup_2.
    + apply (IH i j); [done|done|lia|lia].
Qed.

(** What [summarise] reports of a sorted series. *)
Definition reports (v : list f64) (st : Stats) : Prop :=
  let n := length v in
  bs_iterations st = n /\ v !! 0%nat = Some (bs_min st) /\ v !! nearest_rank 1 2 n = Some (bs_p50 st) /\
  bs_median st = bs_p50 st /\ v !! nearest_rank 99 100 n = Some (bs_p99 st) /\ v !! (n - 1)%nat = Some (bs_max st).

Lemma summarise_reports {S} label unit_ warmup v (s : S) :
  (0 < length v)%nat -> Z.of_nat (length v) < 2 ^ 40 ->
  exists st, summarise label unit_ warmup v s = (Ret st, s) /\ reports v st.
Proof.
  intros H1 H2. destruct (lookup_lt_is_Some_2 v 0) as [x0 H0]; [lia|].
  destruct (lookup_lt_is_Some_2 v (length v - 1)) as [xn Hn]; [lia|].
  destruct (percentile_50 v s H1 H2) as (x & Hx & E50). destruct (percentile_99 v s H1 H2) as (y & Hy & E99).
  unfold summarise, mbind, M_bind. rewrite (at_index_some _ _ _ _ H0), E50, E50, E99, (at_index_some _ _ _ _ Hn).
  eexists. by split.
Qed.

Lemma reports_ordered v st :
  StronglySorted f64_le v -> numbers v -> (0 < length v)%nat -> reports v st ->
  f64_le (bs_min st) (bs_p50 st) /\ f64_le (bs_p50 st) (bs_p99 st) /\ f64_le (bs_p99 st) (bs_max st).
Proof.
  intros Hs Hn Hl (_ & H0 & H50 & _ & H99 & Hm).
  pose proof (nearest_rank_bound 99 100 (length v) ltac:(lia) Hl).
  split; [eapply (sorted_lookup_le v); eauto; lia|]. split; eapply (sorted_lookup_le v); eauto; [|lia].
  unfold nearest_rank. change (2 - 1)%nat with 1%nat. change (100 - 1)%nat with 99%nat.
  assert ((1 * length v + 1) / 2 <= (99 * length v + 99) / 100)%nat; [|lia].
  apply Nat.div_le_lower_bound; [lia|]. pose proof (Nat.Div0.mul_div_le (1 * length v + 1) 2). nia.
Qed.

Lemma sort_samples_numbers {S} v (s : S) : numbers v -> sort_samples v s = (Ret (f64_sort v), s).
Proof.
  intros Hv. unfold sort_samples, mbind, M_bind, ensure.
  assert (existsb f64_is_nan v = false) as ->; [|by rewrite andb_false_r].
  induction Hv as [|x v Hx Hv IH]; [done|]. cbn. by rewrite Hx.
Qed.

Lemma stats_of_numbers {S} label unit_ warmup v (s : S) :
  (0 < length v)%nat -> Z.of_nat (length v) < 2 ^ 40 -> numbers v ->
  exists st, from_samples_ns label unit_ warmup v s = (Ret st, s) /\ reports (f64_sort v) st.
Proof.
  intros Hl Hlen Hn. pose proof (Permutation_length (f64_sort_perm v)) as El.
  destruct (summarise_reports label unit_ warmup (f64_sort v) s) as (st & E & Hr); [lia..|]. exists st. split; [|done].
  unfold from_samples_ns, mbind, M_bind, ensure. rewrite (proj2 (Nat.eqb_neq _ _)) by lia. cbn [negb].
  by rewrite sort_samples_numbers.
Qed.

(** C39: Every reported figure was measured. For a non-empty series of fewer than
    2^40 timings, none of them a NaN, the minimum, the median, the 99th
    percentile and the maximum are samples of the series, in this order; the
    percentiles sit at the nearest rank [ceil(q n) - 1] of the sorted series
    although the rank is computed in floating point, where 0.99 is not a number,
    and the median is the 50th percentile. *)
Theorem stats_nearest_rank {S} label unit_ warmup v (s : S) :
  v <> [] -> Z.of_nat (length v) < 2 ^ 40 -> numbers v ->
  exists st v', from_samples_ns label unit_ warmup v s = (Ret st, s) /\
    v' ≡ₚ v /\ StronglySorted f64_le v' /\ reports v' st /\
    f64_le (bs_min st) (bs_p50 st) /\ f64_le (bs_p50 st) (bs_p99 st) /\ f64_le (bs_p99 st) (bs_max st).
Proof.
  intros Hne Hlen Hn. assert (0 < length v)%nat as Hl by (destruct v; [done|cbn; lia]).
  pose proof (f64_sort_perm v) as Hp. pose proof (Permutation_length Hp) as El.
  destruct (stats_of_numbers label unit_ warmup v s Hl Hlen Hn) as (st & E & Hr).
  exists st, (f64_sort v). split; [done|]. split; [done|]. split; [by apply f64_sort_sorted|]. split; [done|].
  apply (reports_ordered (f64_sort v)); [by apply f64_sort_sorted|by unfold numbers; rewrite Hp|lia|done].
Qed.

(** ** What a measurement calls *)

(** A computation that always returns, with the state it leaves. *)
Definition returns {S R} (f : nat -> M S Empty_set R) (step : nat -> S -> S) : Prop :=
  forall i s, exists r, f i s = (Ret r, step i s).

Definition runs {S} (step : nat -> S -> S) (js : list nat) (s : S) : S := fold_left (fun s i => step i s) js s.

Lemma for_each_runs {S R} (f : nat -> M S Empty_set R) step js s :
  returns f step -> for_each (fun i => f i;; mret ()) js s = (Ret (), runs step js s).
Proof.
  intros Hf. revert s. induction js as [|i js IH]; intros s; [done|]. cbn [for_each]. unfold mbind, M_bind.
  destruct (Hf i s) as (r & ->). apply IH.
Qed.

Lemma mapM_runs {S R} (f : nat -> M S Empty_set R) step (t : nat -> f64) off js s :
  returns f step ->
  mapM (fun i => f (off + i)%nat;; mret (t i)) js s = (Ret (t <$> js), runs step ((fun i => off + i)%nat <$> js) s).
Proof.
  intros Hf. revert s. induction js as [|i js IH]; intros s; [done|]. cbn [mapM]. unfold mbind, M_bind.
  destruct (Hf (off + i)%nat s) as (r & ->). unfold mret at 1, M_ret at 1. cbv beta iota. by rewrite IH.
Qed.

Lemma seq_shift_fmap off n : (fun i => off + i)%nat <$> seq 0 n = seq off n.
Proof. rewrite fmap_add_seq. f_equal. lia. Qed.

(** The closure sees the indices of the warm-up and then those of the measured
    iterations, each once and in order. *)
Lemma time_ns_runs {S R} warmup iters (f : nat -> M S Empty_set R) step elapsed s :
  returns f step -> (0 < iters)%nat ->
  time_ns warmup iters f elapsed s = (Ret ((fun i => f64_of (elapsed i)) <$> seq 0 iters), runs step (seq 0 (warmup + iters)) s).
Proof.
  intros Hf Hi. unfold time_ns. unfold mbind at 1, M_bind at 1. unfold ensure. rewrite (proj2 (Nat.ltb_lt _ _)) by done.
  unfold mbind at 1, M_bind at 1. rewrite (for_each_runs f step) by done.
  rewrite (mapM_runs f step (fun i => f64_of (elapsed i))) by done. rewrite seq_shift_fmap.
  unfold runs. by rewrite seq_app, fold_left_app.
Qed.

Lemma batch_runs {S} (f : nat -> M S Empty_set Z) step ks acc s :
  returns f step -> exists r, batch f ks acc s = (Ret r, runs step ks s).
Proof.
  intros Hf. revert acc s. induction ks as [|k ks IH]; intros acc s; [by eexists|]. cbn [batch]. unfold mbind, M_bind.
  destruct (Hf k s) as (r & ->). apply IH.
Qed.

(** The batches of consecutive iterations cover consecutive indices. *)
Lemma batches_concat {S} (step : nat -> S -> S) inner i n s :
  runs (fun i => runs step (seq (inner * i) inner)) (seq i n) s = runs step (seq (inner * i) (inner * n)) s.
Proof.
  revert i s. induction n as [|n IH]; intros i s; [by rewrite Nat.mul_0_r|]. cbn [seq]. unfold runs at 1. cbn [fold_left].
  fold (runs (fun i => runs step (seq (inner * i) inner)) (seq (Datatypes.S i) n) (runs step (seq (inner * i) inner) s)).
  rewrite IH. replace (inner * Datatypes.S n)%nat with (inner + inner * n)%nat by lia.
  unfold runs. rewrite seq_app, fold_left_app. do 2 f_equal. lia.
Qed.

(** The per-call figures of non-negative timings are numbers. *)
Lemma per_call_numbers inner elapsed iters :
  1 <= Z.of_nat inner < 2 ^ 53 -> (forall i, 0 <= elapsed i) ->
  numbers ((fun ns => f64_div ns (f64_of (Z.of_nat inner))) <$> ((fun i => f64_of (elapsed i)) <$> seq 0 iters)).
Proof.
  intros Hi He. destruct (f64_of_exact (Z.of_nat inner) Hi) as (m & -> & _).
  apply Forall_fmap, Forall_fmap, Forall_forall. intros i _. cbn. by apply f64_div_not_nan, f64_of_not_nan.
Qed.

(** An amortised measurement of [iters] samples calls its closure on the indices
    from 0 to [inner * (warmup + iters)], each once and in order, and reports on
    as many samples as it was asked for. *)
Theorem amortised_calls {S} label unit_ warmup iters inner (f : nat -> M S Empty_set Z) step elapsed s :
  returns f step -> (0 < iters)%nat -> Z.of_nat iters < 2 ^ 40 -> 1 <= Z.of_nat inner < 2 ^ 53 ->
  (forall i, 0 <= elapsed i) ->
  exists st, measure_amortised label unit_ warmup iters inner f elapsed s =
      (Ret st, runs step (seq 0 (inner * (warmup + iters))) s) /\ bs_iterations st = iters.
Proof.
  intros Hf Hit Hit2 Hin He. unfold measure_amortised. unfold mbind at 1, M_bind at 1. unfold ensure at 1.
  rewrite (proj2 (Nat.ltb_lt 0 inner)) by lia. unfold mbind at 1, M_bind at 1.
  rewrite (time_ns_runs _ _ _ (fun i => runs step (seq (inner * i) inner))); [|..|done].
  - rewrite batches_concat, Nat.mul_0_r.
    set (v := _ <$> (_ <$> seq 0 iters)).
    assert (length v = iters) as Hv by (unfold v; by rewrite !length_fmap, length_seq).
    destruct (stats_of_numbers label unit_ warmup v (runs step (seq 0 (inner * (warmup + iters))) s)) as (st & E & Hr);
      [lia|lia|by apply per_call_numbers|].
    exists st. split; [exact E|]. rewrite (proj1 Hr), (Permutation_length (f64_sort_perm v)). exact Hv.
  - intros i s0. cbv beta. rewrite <- (seq_shift_fmap (inner * i) inner). by apply batch_runs.
Qed.

(** ** The scheduler measurements *)

(** A scheduler whose deadline is one interval ahead of the virtual clock. *)
Definition armed_at (now : Instant) : CoverScheduler :=
  mkCoverScheduler CoverPolicy_default (Some (now + interval CoverPolicy_default)).

Lemma tick_start_armed t0 : tick_start t0 = armed_at t0.
Proof. reflexivity. Qed.

Lemma tick_loop_exact inner : forall now emitted,
  tick_loop inner (armed_at now) now emitted =
  (emitted + Z.of_nat inner,
   (armed_at (now + Z.of_nat inner * interval CoverPolicy_default), now + Z.of_nat inner * interval CoverPolicy_default)).
Proof.
  induction inner as [|inner IH]; intros now emitted; cbn [tick_loop].
  - by rewrite Z.mul_0_l, !Z.add_0_r.
  - set (iv := interval CoverPolicy_default) in *.
    assert (on_deadline (armed_at now) (now + iv) = (true, armed_at (now + iv))) as ->.
    { unfold on_deadline, armed_at. cbn [policy next enabled negb CoverPolicy_default]. fold iv. by rewrite Z.leb_refl. }
    cbv beta iota. rewrite IH. replace (now + iv + Z.of_nat inner * iv) with (now + Z.of_nat (Datatypes.S inner) * iv) by lia.
    f_equal. lia.
Qed.

(** The scheduler measurement times too many ticks: its closure runs [inner]
    ticks already, and the amortised batch calls it [inner] times, so that the
    virtual clock advances by [inner * inner] intervals per sample while the time
    of a sample is divided by [inner] alone. *)
Theorem steady_tick_count warmup iters inner elapsed t0 :
  (0 < iters)%nat -> Z.of_nat iters < 2 ^ 40 -> 1 <= Z.of_nat inner < 2 ^ 53 -> (forall i, 0 <= elapsed i) ->
  exists st sched, scheduler_tick_steady warmup iters inner elapsed (tick_start t0, t0) =
    (Ret st, (sched, t0 + Z.of_nat (inner * inner * (warmup + iters)) * interval CoverPolicy_default)).
Proof.
  intros H1 H2 H3 H4. rewrite tick_start_armed.
  set (iv := interval CoverPolicy_default).
  destruct (amortised_calls "CoverScheduler::on_deadline (steady, pre-armed)" "ns" warmup iters inner
    (fun _ => call (fun st : CoverScheduler * Instant => tick_loop inner st.1 st.2 0))
    (fun _ st => (tick_loop inner st.1 st.2 0).2) elapsed (armed_at t0, t0)) as (st & E & _); try done.
  { intros i s. by eexists. }
  set (step := fun (_ : nat) (st : CoverScheduler * Instant) => (tick_loop inner st.1 st.2 0).2) in E.
  assert (forall n o now, runs step (seq o n) (armed_at now, now) =
    (armed_at (now + Z.of_nat (n * inner) * iv), now + Z.of_nat (n * inner) * iv)) as Hr.
  { intros n. induction n as [|n IH]; intros o now; [by rewrite Z.mul_0_l, Z.add_0_r|].
    change (runs step (seq o (Datatypes.S n)) (armed_at now, now))
      with (runs step (seq (Datatypes.S o) n) (step o (armed_at now, now))).
    unfold step at 2. cbn [fst snd]. rewrite tick_loop_exact. cbn [snd]. fold iv. rewrite IH.
    replace (now + Z.of_nat inner * iv + Z.of_nat (n * inner) * iv)
      with (now + Z.of_nat (Datatypes.S n * inner) * iv) by lia. done. }
  unfold scheduler_tick_steady. rewrite E, Hr. eexists st, _. do 2 f_equal. f_equal. lia.
Qed.

(** The scheduler asked at every wake: whether it emits, and the distance to the
    deadline it had armed. *)
Fixpoint driven (s : CoverScheduler) (turns : list WakeTurn) : list (bool * Z) :=
  match turns with
  | [] => []
  | w :: turns =>
      ((on_deadline s (wk_woke w)).1, duration_since (wk_woke w) (default 0 (next_deadline s))) ::
      driven (on_deadline s (wk_woke w)).2 turns
  end.

(** Turns of a run that is not over, with system calls that succeed, a wall clock
    in range and no early wake. *)
Fixpoint wakes_ok (duration start armed : Z) (turns : list WakeTurn) : Prop :=
  match turns with
  | [] => True
  | w :: turns =>
      duration_since (wk_check w) start < duration /\ is_Some (wk_timer w) /\ wk_armed w = true /\
      0 <= wk_wall w /\ wk_wall w + duration_since (armed + interval CoverPolicy_default) (wk_now w) / 100 <= i64_max /\
      armed + interval CoverPolicy_default <= wk_woke w /\ wakes_ok duration start (wk_woke w) turns
  end.

(** The wake series measures the schedule of the driver: at every wake the
    scheduler emits, and the latency is taken against the deadline it had armed;
    each wait creates one timer and closes it. *)
Theorem wake_series_follows duration start turns armed log :
  wakes_ok duration start armed turns ->
  exists lats log', wake_latency_series duration start armed turns log = (Ret lats, log ++ log') /\
    driven (armed_at armed) turns = (fun l => (true, l)) <$> lats /\ length log' = (4 * length turns)%nat.
Proof.
  revert armed log. induction turns as [|w turns IH]; intros armed log Hok.
  { exists [], []. by rewrite app_nil_r. }
  destruct Hok as (Hc & [h Hh] & Ha & Hw & Hr & Hle & Hok). cbn [wake_latency_series driven].
  rewrite (proj2 (Z.ltb_lt _ _)) by done. unfold mbind, M_bind, of_exec, os, modify, ensure, expect.
  pose proof (system_time_add_some _ _ Hw (duration_since_nonneg _ _) Hr) as Hu.
  change (interval_from_rate_bps DEFAULT_COVER_RATE_BPS) with (interval CoverPolicy_default).
  rewrite (due_time_value _ _ _ Hw (duration_since_nonneg _ _) Hu), Hh, Ha.
  match goal with |- context [wake_latency_series _ _ _ _ ?l] => destruct (IH (wk_woke w) l Hok) as (lats & log' & E & Hd & Hl) end.
  rewrite E. eexists _, (_ :: _ :: _ :: _ :: log'). split; [rewrite <- !app_assoc; reflexivity|].
  assert (on_deadline (armed_at armed) (wk_woke w) = (true, armed_at (wk_woke w))) as ->.
  { unfold on_deadline, armed_at. cbn [policy next enabled negb CoverPolicy_default]. by rewrite (proj2 (Z.leb_le _ _)). }
  cbn [fst snd fmap list_fmap]. rewrite Hd. split; [done|]. cbn [length]. lia.
Qed.

(** ** The roster measurements *)

Lemma roster_loops_from {P : Primitives} {S} roster th sig (s : S) : forall m,
  let b := bool_decide (is_Some m) in
  exists m', let b' := bool_decide (is_Some m') in
    verify_roster roster th sig b m = Ok (b', m') /\ full_loop_body roster th sig b m s = (Ret (b', b'), s) /\
    unknown_loop_body roster th sig b s = (Ret b', s).
Proof.
  induction roster as [|pk roster IH]; intros m b; [by exists m|].
  cbn [verify_roster full_loop_body unknown_loop_body]. unfold dsa_verify_msg at 1 2 3, expect, mbind, M_bind, result_bind.
  destruct (dsa_verify pk th sig); cbv beta iota.
  - rewrite orb_true_r. exact (IH (Some pk)).
  - rewrite orb_false_r. exact (IH m).
Qed.

(** The measured loops are the roster loop of the server: they never panic and
    find the same answer as [complete_m1]. *)
Theorem roster_loops_match {P : Primitives} {S} roster th sig (s : S) :
  exists m, let b := bool_decide (is_Some m) in
    verify_roster roster th sig false None = Ok (b, m) /\
    full_loop_body roster th sig false None s = (Ret (b, b), s) /\ unknown_loop_body roster th sig false s = (Ret b, s).
Proof. exact (roster_loops_from roster th sig s None). Qed.

Module BenchSample.

(** Three timings in nanoseconds. *)
Definition samples : list f64 := f64_of <$> [310%Z; 120%Z; 250%Z].

End BenchSample.

Lemma stats_nearest_rank_witness : exists st,
  from_samples_ns "verify" "ns" 0 BenchSample.samples tt = (Ret st, tt) /\
  bs_p50 st = f64_of 250 /\ bs_p99 st = f64_of 310.
Proof.
  destruct (stats_nearest_rank "verify" "ns" 0 BenchSample.samples tt) as (st & v' & E & _).
  - discriminate.
  - reflexivity.
  - repeat (apply Forall_cons; split; [reflexivity|]). apply Forall_nil. exact I.
  - exists st. split; [exact E|]. vm_compute in E. injection E as <-. vm_compute. split; reflexivity.
Defined.
